(* ===== verification/_CoqProject ===== *)
-Q . S2P
Prelude.v
WsParser.v
WsCodec.v
WsMember.v
HttpTypes.v
HttpUrl.v
HttpExec.v
HttpSafety.v
HttpWire.v
HttpToken.v
HttpRun.v
HttpHead.v
HttpBody.v
HttpWindow.v
HttpRound.v
HttpCut.v
WsSession.v
WsService.v
WsServer.v
WsKnown.v
HttpReq.v
HttpRouter.v
FileReader.v
HttpResp.v
HttpReply.v
HttpServer.v
HttpService.v
HttpPipeline.v
HttpReads.v
HttpRefuse.v
HttpExchange.v
HttpConn.v
Framework.v
HttpListen.v
LeptJson.v
LeptCodec.v
JsonText.v
LeptValue.v
Jwt.v
WsApi.v
Client.v
Main.v
