(* ===== verification/Prelude.v ===== *)
(** * MyWebSocket: a verification library

    MyWebSocket is an HTTP and WebSocket server framework on libuv.  A connection is
    accepted by [HttpServer] (src/core/httpserver.cpp); its reads are fed to
    [http_parser] (third-party/http-parser), whose callbacks build an [httpReq] and, when
    a request is complete, dispatch it through [httpRouter]; the handler answers through
    an [httpResp], directly or with a file read by [FileReader].  An upgrade request is
    answered by the WebSocket handshake, after which the connection leaves the HTTP
    server and becomes a [WsSession] of [WsServer], whose reads are fed to
    [websocket_parser].  Everything runs on one event loop, so the program is a state
    changed by callbacks, one at a time.

    ** How the code is modelled

    Bytes are integers between 0 and 255 ([bytes] is [list Z]), machine integers are [Z]
    with their wrap-around written out ([u8] to [u64], [wrap]).  An operation is a
    function from state to state; what the code asks of libuv (writes, closes, timers,
    file requests) is appended to a log of effects, and what libuv calls back is an
    operation of its own.  A failed [assert], or a loop that would run forever, is a
    value ([None], [Assert_failed], [Out_of_fuel], [Result_assert], [Result_fuel]), so
    that a theorem can say it does not occur; so is a read outside the buffer of
    [http_parser_execute] ([Read_outside], [Result_outside]), whose every read checks its
    offsets ([reading]).  A WebSocket session lives as long as a pointer to it: its registry,
    a pending write or file, or the application ([destroyed]); a method that goes on in a
    session that is no more, and a second [uv_close] of a handle, which libuv asserts
    against, end the process: they are a [Fault] in the log, after which nothing
    happens ([go_on], [in_session]).  Objects are identified by numbers, maps
    are [gmap], a [std::vector] is a list.

    ** The files

    - Prelude.v: bytes, machine integers, big-endian encodings, the tactics, the swap-and-pop
      removal of both registries, lemmas on folds.
    - WsParser.v ([websocket_parser::parse], src/core/websocket_parser.cpp): one definition per
      [case]; the reference [feed], one byte at a time; equivalence with the bulk loop,
      independence of the cuts of the stream, the invariant of the fields.
    - WsCodec.v: the wire format of RFC 6455 frames, with its own masking, and what the parser
      makes of any stream of them: delivery of fragmented messages, the size limit, the two
      deviations found.
    - WsMember.v: the parser as a member of the session its callback may destroy: the loop of
      [parse] that stops there, and its agreement with [parse] as long as the session lives.
    - HttpTypes.v, HttpUrl.v, HttpExec.v (http_parser.c and .h, in strict mode): the
      enumerations, tables and small functions; the URL parser with its bounds; and
      [http_parser_execute], one definition per [case] of its switch, its macros in
      continuation style ([exec] holds the locals, [outcome] how a case ends), the callbacks
      being functions on a user state.
    - HttpSafety.v: the invariant of the parser between calls and between bytes, kept by every
      case, from which no assertion fails, no read leaves the buffer and every call returns.
    - HttpWire.v, HttpToken.v, HttpRun.v, HttpHead.v, HttpBody.v: the wire format of requests
      with bodies of a known length or in chunks, and what [http_parser_execute] makes of a
      buffer of them, one lemma per part of a request, HttpToken.v for the lists of words of
      Connection; HttpPipeline.v: the same with the callbacks of the server; HttpReply.v: the
      parser in its response mode on the responses of the server.
    - HttpWindow.v, HttpRound.v, HttpCut.v: [http_parser_execute] on a buffer and on its
      pieces, as a simulation: one lemma per case, then a round of the main loop, then what
      happens at a cut; HttpReads.v: the requests of the server in any number of reads;
      HttpExchange.v: from the bytes of a request to the bytes of its answer; HttpRefuse.v: the
      requests that are refused because they say their length twice.
    - WsSession.v (WebSocket.cpp) with its owner behind the interface [WsOwner]; WsService.v:
      what a session guarantees; WsServer.v (WsServer.cpp): the registry, which implements
      the interface, and the server as a transition system.
    - HttpReq.v, HttpRouter.v, FileReader.v, HttpResp.v (the files of the same names): the
      request and its query, the router over the interface [RegexEngine], the reader, the
      response.
    - HttpServer.v (httpserver.cpp, ssl.cpp): sessions, requests, upgrade, keep-alive and
      closing; HttpService.v: the server as a transition system and its guarantees;
      HttpConn.v: the abstract automaton of one connection, which the server refines;
      HttpListen.v: the constructor, the address it listens on, accepting, [start].
    - WsKnown.v and Framework.v: the HTTP and the WebSocket server as one system, a
      connection passing from one to the other.
    - LeptJson.v (third-party/leptjson): JSON values, parser and printer; LeptCodec.v: what
      they guarantee; JsonText.v: the grammar of RFC 8259 and what the parser makes of its
      texts; LeptValue.v: the objects that hold the values, a tag and a union;
      Jwt.v (util/jwt.cpp): tokens, over the class [JwtCpp].
    - WsApi.v (WebSocket.h, WebSocket.cpp): the overloads of [send] and their contexts, the
      setters, JSON messages.
    - Client.v (client.cpp) and Main.v (main.cpp): the test client, the example server, and
      the two together.

    ** What the theorems show

    - Safety and termination: [http_parser_execute_safe], [parse_refines_feed],
      [parse_url_bounds], [inter_close_returns], [http_read_never_stuck],
      [read_never_stuck] (which names the reads that end the process), [parse_total] (the
      JSON parser), [client_ends],
      [ambiguous_refused] (no request is smuggled in the body of another).
    - Invariants of the servers under any interleaving: [sessions_closed_once],
      [registry_is_open_sessions]; of the parser: [parse_invariant].
    - Refinement: [http_refines_connection] (the server follows the protocol of a
      connection), [program_refines_servers] (the composed program runs both servers
      and no connection is held by both) and [value_implemented] (the union of a JSON
      object implements its value).
    - Codecs: [decode_message], [decode_stream], [send_decodes], [response_parsed],
      [query_roundtrip], [stringify_parse], [json_read], [sign_verify], [json_message]; independence of
      the transport: [parse_segmentation], [recv_segmentation], [execute_pieces],
      [requests_in_reads].
    - Behaviour: [requests_handled] (from the bytes of pipelined requests to the handlers,
      through [requests_parsed]), [request_exchanged] (to the bytes of the answer), [recv_message],
      [recv_serves], [request_answered], [upgrade_handshake], [first_message],
      [dispatch_correct], [query_correct], [read_file_correct], [sendFile_whole],
      [listen_address], [client_transcript].
    - Deviations from the intent of the code, each a theorem or an [Example]:
      [empty_frame_waits], [interleaved_control_frame], [dispatch_drops_last_param],
      [failed_write_frees_twice], [close_frame_twice], [close_frame_asserts],
      [message_after_close], [empty_close_destroys], [cancelled_write_asserts],
      [sent_file_keeps_session],
      [recv_alloc_empty], [url_in_two_reads], [empty_read_kills_parser],
      [parse_error_ignored], [early_read_closes], [chunk_end_counted],
      [short_word_hides_comma], [tab_ends_list], [keep_alive_case],
      [kept_but_deaf], [timer_outlives_upgrade], [upgrade_without_server],
      [late_response_after_close], [close_error_calls_both], [read_error_leaks_fd],
      [localhost_listens_everywhere], [trailing_text_accepted], [error_code_replaced],
      [bad_escape_aborts], [malformed_message_aborts], [integer_truncated], [hex_digit_G],
      [non_ascii_lost], [key_not_escaped], [double_becomes_integer], [bool_over_string],
      [own_array_destroyed], [object_value_of_string],
      [payload_overrides_iat], [iat_after_2038], [id_not_printed].

    ** Fuel

    [main_loop] gets the length of the buffer, every round consuming a byte; [parse_loop]
    and [parse_member_loop] twice the length, since a frame may be completed without one; [reexecute] gets 4, every jump lowering [rank]; the two header loops get the
    bytes left; [alloc_loop] gets 41, since a buffer that triples 41 times exceeds 64
    bits; [inter_close_fuel] gets one more than the number of sessions that can still be
    closed; [urlDecode_loop] and [read_all] the length of their input; [string_loop] the
    bytes left and [parse_value] twice as many ([value_fuel]), each call consuming a byte
    or following one that did; [to_string] 20, the digits of 64 bits; the client one
    round more than its reads.  For each a lemma or theorem says that the fuel is enough.

    ** What is not modelled

    libuv, OpenSSL, jwt-cpp, [std::regex] and double-conversion are not part of the
    program: they are effects, or parameters with their documented behaviour as
    hypotheses; of libuv only [uv_ip4_addr] is written out.  Memory management is modelled
    where the code's behaviour depends on it (the double free of a failed write, the
    responses that outlive a session, the lifetime of a WebSocket session, the union of a
    JSON value); not the memory of a libuv handle after its close callback, nor the stack:
    the recursion of the JSON parser is as deep as its text.  Of the clock, [verify] gets the
    two readings jwt-cpp and the code make.  Console output and the
    mutexes are left out, as everything runs on the loop's thread.  The manual tests of
    src/test are not modelled. *)

From stdpp Require Export base tactics list gmap strings.
From Stdlib Require Export ZArith Lia.
From Stdlib Require Import Strings.Byte.

#[export] Set Default Goal Selector "!".
Open Scope Z_scope.

(** ** Bytes and byte strings

    A [char] of a buffer is a [Z] between 0 and 255 (the value of the C
    expression [(unsigned char) ch]); a [std::string], a [std::vector<char>] and
    a buffer with its length are lists of such bytes. *)

Abbreviation bytes := (list Z).

(** Character literals: ["a"%chr] is the number 97. *)
Definition chr_parse (b : Byte.byte) : Z := Z.of_N (Byte.to_N b).
Definition chr_print (z : Z) : option Byte.byte :=
  if 0 <=? z then Byte.of_N (Z.to_N z) else None.

Declare Scope chr_scope.
Delimit Scope chr_scope with chr.
String Notation Z chr_parse chr_print : chr_scope.

(** String literals: [bs "GET"] is the list of the three bytes. *)
Definition chr_of_ascii (a : Ascii.ascii) : Z := Z.of_N (Ascii.N_of_ascii a).
Fixpoint bs (s : string) : bytes :=
  match s with
  | String.EmptyString => []
  | String.String a s' => chr_of_ascii a :: bs s'
  end.

(** [c_str()], and a [std::string] made from a [const char*]: up to the first [NUL]. *)
Fixpoint c_str (s : bytes) : bytes :=
  match s with
  | [] => []
  | ch :: s' => if ch =? 0 then [] else ch :: c_str s'
  end.

(** The pieces between the [c]s of [s]: at least one. *)
Fixpoint split_on (c : Z) (s : bytes) : list bytes :=
  match s with
  | [] => [[]]
  | x :: s' =>
      if x =? c then [] :: split_on c s'
      else match split_on c s' with [] => [[x]] | p :: ps => (x :: p) :: ps end
  end.

Definition is_byte (z : Z) : Prop := 0 <= z < 256.
Abbreviation bytes_ok l := (Forall is_byte l).

(** ** Machine integers: unsigned values of a given width, wrapping around *)

Definition u8 (z : Z) : Z := z mod 2 ^ 8.
Definition u16 (z : Z) : Z := z mod 2 ^ 16.
Definition u32 (z : Z) : Z := z mod 2 ^ 32.
Definition u64 (z : Z) : Z := z mod 2 ^ 64.
Definition wrap (w z : Z) : Z := z mod 2 ^ w.
(** Signed values of 8 and 32 bits. *)
Definition i8 (z : Z) : Z := (z + 2 ^ 7) mod 2 ^ 8 - 2 ^ 7.
Definition i32 (z : Z) : Z := (z + 2 ^ 31) mod 2 ^ 32 - 2 ^ 31.

(** [size_t] of a 64-bit platform. *)
Definition SIZE_MAX : Z := 2 ^ 64 - 1.

Lemma wrap_range w z : 0 <= w -> 0 <= wrap w z < 2 ^ w.
Proof. intros Hw. apply Z.mod_pos_bound. by apply Z.pow_pos_nonneg. Qed.
Lemma wrap_small w z : 0 <= z < 2 ^ w -> wrap w z = z.
Proof. apply Z.mod_small. Qed.
Lemma u64_range z : 0 <= u64 z < 2 ^ 64.
Proof. by apply wrap_range. Qed.
Lemma u64_id z : 0 <= z < 2 ^ 64 -> u64 z = z.
Proof. apply Z.mod_small. Qed.

(** The length of a list as a [size_t] value. *)
Definition len {A} (l : list A) : Z := Z.of_nat (length l).
Arguments len : simpl never.

(** Big-endian numbers, as the network formats write them. *)
Fixpoint be_bytes (n : nat) (v : Z) : bytes :=
  match n with
  | O => []
  | S n' => u8 (Z.shiftr v (8 * Z.of_nat n')) :: be_bytes n' v
  end.
Definition be_step (acc b : Z) : Z := u64 (Z.lor (Z.shiftl acc 8) b).

(** ** [std::to_string] *)

Fixpoint to_string_loop (fuel : nat) (n : Z) (acc : bytes) : bytes :=
  match fuel with
  | O => acc
  | S fuel' =>
      let acc := (48 + n mod 10) :: acc in
      if n / 10 =? 0 then acc else to_string_loop fuel' (n / 10) acc
  end.
(** 64-bit numbers have at most 20 digits. *)
Definition to_string (n : Z) : bytes := to_string_loop 20 n [].

(** The number a string of digits stands for. *)
Definition digits_value (s : bytes) : Z := fold_left (fun a c => 10 * a + (c - 48)) s 0.

(** ** Tactics *)

(** Split every boolean or option test of the goal, simplifying on the way. *)
Ltac bdestruct_step :=
  match goal with
  | |- context [if ?b then _ else _] =>
      lazymatch type of b with
      | bool => let E := fresh "E" in destruct b eqn:E
      | _ => case_decide
      end
  | |- context [match ?x with _ => _ end] => let E := fresh "E" in destruct x eqn:E
  end.
Ltac bdestruct_all := repeat (bdestruct_step; simplify_eq/=).

(** Turn boolean comparisons of the context into propositions. *)
Ltac bool_to_prop :=
  repeat match goal with
  | H : (_ =? _) = true |- _ => apply Z.eqb_eq in H
  | H : (_ =? _) = false |- _ => apply Z.eqb_neq in H
  | H : (_ <? _) = true |- _ => apply Z.ltb_lt in H
  | H : (_ <? _) = false |- _ => apply Z.ltb_ge in H
  | H : (_ <=? _) = true |- _ => apply Z.leb_le in H
  | H : (_ <=? _) = false |- _ => apply Z.leb_gt in H
  | H : _ && _ = true |- _ => apply andb_true_iff in H as [? ?]
  | H : _ || _ = false |- _ => apply orb_false_iff in H as [? ?]
  | H : Bool.eqb _ _ = true |- _ => apply Bool.eqb_prop in H
  | H : negb _ = true |- _ => apply negb_true_iff in H
  | H : negb _ = false |- _ => apply negb_false_iff in H
  end.
Ltac blia := bool_to_prop; simplify_eq/=; try lia.

Create HintDb ws discriminated.
#[export] Hint Constants Opaque : ws.
#[export] Hint Variables Opaque : ws.

Create Rewrite HintDb len.

(** ** Lists *)

Lemma len_nil {A} : len (@nil A) = 0.
Proof. done. Qed.
Lemma len_cons {A} (x : A) l : len (x :: l) = len l + 1.
Proof. unfold len. simpl. lia. Qed.
Lemma len_app {A} (l k : list A) : len (l ++ k) = len l + len k.
Proof. unfold len. rewrite length_app. lia. Qed.
Lemma len_snoc {A} (l : list A) x : len (l ++ [x]) = len l + 1.
Proof. rewrite len_app. unfold len. simpl. lia. Qed.
Lemma len_nonneg {A} (l : list A) : 0 <= len l.
Proof. unfold len. lia. Qed.
Lemma len_0 {A} (l : list A) : len l = 0 -> l = [].
Proof. destruct l; [done|]. unfold len. simpl. lia. Qed.
Lemma len_take {A} n (l : list A) : len (take n l) = Z.min (Z.of_nat n) (len l).
Proof. unfold len. rewrite length_take. lia. Qed.
Lemma len_drop {A} n (l : list A) : len (drop n l) = Z.max 0 (len l - Z.of_nat n).
Proof. unfold len. rewrite length_drop. lia. Qed.
#[export] Hint Rewrite @len_nil @len_cons @len_app @len_take @len_drop : len.

(** ** Folding a step that can fail

    The shape of every incremental parser of the program: a state, a step on
    one byte that gives the next state or stops with an error. *)
Section FoldStep.
Context {S E B : Type} (step : S -> B -> S + (E * S)).

Fixpoint fold_step (s : S) (l : list B) : S + (E * S) :=
  match l with
  | [] => inl s
  | b :: l' =>
    match step s b with
    | inl s' => fold_step s' l'
    | inr e => inr e
    end
  end.

Lemma fold_step_app s l k :
  fold_step s (l ++ k) =
  match fold_step s l with
  | inl s' => fold_step s' k
  | inr e => inr e
  end.
Proof.
  revert s; induction l as [|b l IH]; intros s; simpl; [done|].
  destruct (step s b); [apply IH|done].
Qed.

Lemma fold_step_inv (P : S -> Prop) (Q : B -> Prop) :
  (forall s b, P s -> Q b -> match step s b with inl s' => P s' | inr (_, s') => P s' end) ->
  forall l s, P s -> Forall Q l ->
  match fold_step s l with inl s' => P s' | inr (_, s') => P s' end.
Proof.
  intros Hstep l; induction l as [|b l IH]; intros s Hs Hl; simpl; [done|].
  apply Forall_cons in Hl as [Hb Hl]. specialize (Hstep s b Hs Hb).
  destruct (step s b) as [s'|[e s']]; [by apply IH|done].
Qed.
End FoldStep.

(** ** Removal by swapping with the last element

    The code of both session registries: [std::find], then swap the element
    found with the last one and [pop_back]. *)
Section SwapRemove.
Context {A : Type} `{EqDecision A}.

Definition swap_remove (x : A) (l : list A) : list A :=
  match list_find (x =.) l, last l with
  | Some (i, _), Some y => removelast (<[i := y]> l)
  | _, _ => l
  end.

Lemma swap_remove_notin x l : x ∉ l -> swap_remove x l = l.
Proof.
  intros Hx. unfold swap_remove.
  assert (list_find (x =.) l = None) as ->; [|done].
  apply list_find_None, Forall_forall. intros y Hy ->. by apply Hx.
Qed.

Lemma removelast_snoc (l : list A) y : removelast (l ++ [y]) = l.
Proof. by rewrite removelast_app, app_nil_r. Qed.

(** Exactly one occurrence goes; the others stay, in some order. *)
Lemma swap_remove_perm x l : x ∈ l -> l ≡ₚ x :: swap_remove x l.
Proof.
  intros Hx. unfold swap_remove.
  destruct (list_find_elem_of (x =.) l x Hx eq_refl) as [[i z] Hf]. rewrite Hf.
  apply list_find_Some in Hf as (Hi & <- & _).
  destruct l as [|z k _] using rev_ind; [done|].
  rewrite last_snoc. destruct (decide (i = length k)) as [->|Hne].
  - rewrite lookup_app_r, Nat.sub_diag in Hi by lia. injection Hi as ->.
  rewrite list_insert_id by (by rewrite lookup_app_r, Nat.sub_diag by lia).
  rewrite removelast_snoc. apply Permutation_app_comm.
  - assert (Hlt : (i < length k)%nat).
  { apply lookup_lt_Some in Hi. rewrite length_app in Hi. simpl in Hi. lia. }
  rewrite lookup_app_l in Hi by done.
  rewrite insert_app_l by done. rewrite removelast_snoc.
  rewrite <- (take_drop_middle k i x Hi) at 1.
  rewrite insert_take_drop by done.
  rewrite (Permutation_app_comm _ [z]). simpl. rewrite <- !Permutation_middle.
  apply perm_swap.
Qed.

Lemma swap_remove_length x l :
  length (swap_remove x l) = if decide (x ∈ l) then pred (length l) else length l.
Proof.
  case_decide as Hx; [|by rewrite swap_remove_notin].
  pose proof (Permutation_length (swap_remove_perm x l Hx)) as H. simpl in H. lia.
Qed.

Lemma swap_remove_NoDup x l : NoDup l -> NoDup (swap_remove x l) /\ x ∉ swap_remove x l.
Proof.
  intros Hl. destruct (decide (x ∈ l)) as [Hx|Hx]; [|by rewrite swap_remove_notin].
  rewrite (swap_remove_perm x l Hx) in Hl. apply NoDup_cons in Hl. tauto.
Qed.

Lemma swap_remove_elem_of x y l : NoDup l -> y ∈ swap_remove x l <-> y ∈ l /\ y <> x.
Proof.
  intros Hl. destruct (swap_remove_NoDup x l Hl) as [_ Hnx].
  destruct (decide (x ∈ l)) as [Hx|Hx].
  - rewrite (swap_remove_perm x l Hx) at 2. rewrite elem_of_cons.
  split; [intros Hy; split; [auto|intros ->; done]|intros [[->|?] ?]; done].
  - rewrite swap_remove_notin by done. split; [intros Hy; split; [done|intros ->; done]|tauto].
Qed.
End SwapRemove.

(** ** Byte arithmetic *)

(** A boolean fact on bytes holds when it computes to [true] on all 256. *)
Lemma byte_forall (P : Z -> bool) : forallb P (seqZ 0 256) = true -> forall b, is_byte b -> P b = true.
Proof.
  rewrite forallb_forall. intros H b [? ?]. apply H, list_elem_of_In, elem_of_seqZ. lia.
Qed.

(** The same for a pair of ranges. *)
Lemma range_forall2 (m n : Z) (P : Z -> Z -> bool) :
  forallb (fun a => forallb (P a) (seqZ 0 n)) (seqZ 0 m) = true ->
  forall a b, 0 <= a < m -> 0 <= b < n -> P a b = true.
Proof.
  rewrite forallb_forall. intros H a b Ha Hb.
  assert (Hin : In a (seqZ 0 m)) by (apply list_elem_of_In, elem_of_seqZ; lia).
  specialize (H a Hin). rewrite forallb_forall in H.
  apply H, list_elem_of_In, elem_of_seqZ. lia.
Qed.

Lemma lxor_cancel a k : Z.lxor (Z.lxor a k) k = a.
Proof. by rewrite Z.lxor_assoc, Z.lxor_nilpotent, Z.lxor_0_r. Qed.

Lemma pow2_bound_bits n x : 0 <= n -> 0 <= x -> (x < 2 ^ n <-> Z.shiftr x n = 0).
Proof.
  intros Hn Hx. rewrite Z.shiftr_div_pow2 by done.
  assert (0 < 2 ^ n) by (by apply Z.pow_pos_nonneg).
  split; intros H'; [apply Z.div_small; lia|].
  apply Z.div_small_iff in H'; lia.
Qed.

Lemma lxor_byte a b : is_byte a -> is_byte b -> is_byte (Z.lxor a b).
Proof.
  unfold is_byte. intros [Ha Ha'] [Hb Hb'].
  assert (0 <= Z.lxor a b) as H0 by (apply Z.lxor_nonneg; tauto).
  split; [done|]. change 256 with (2 ^ 8) in *.
  apply pow2_bound_bits; [done..|]. rewrite Z.shiftr_lxor.
  apply (pow2_bound_bits 8) in Ha', Hb'; [|done..].
  by rewrite Ha', Hb'.
Qed.

(** [(acc << 8) | b] is [256 * acc + b] for a byte [b]. *)
Lemma shiftl8_lor acc b : is_byte b -> Z.lor (Z.shiftl acc 8) b = 256 * acc + b.
Proof.
  intros [Hb Hb']. rewrite <- Z.add_nocarry_lor.
  - rewrite Z.shiftl_mul_pow2 by done. lia.
  - apply Z.bits_inj'. intros n Hn. rewrite Z.land_spec, Z.bits_0.
    destruct (Z.ltb_spec n 8).
    + by rewrite Z.shiftl_spec_low.
    + assert (Z.testbit b n = false) as ->; [|apply andb_false_r].
      destruct (decide (b = 0)) as [->|]; [apply Z.bits_0|].
      apply Z.bits_above_log2; [done|].
      apply Z.lt_le_trans with 8; [|done]. apply Z.log2_lt_pow2; lia.
Qed.

Lemma be_step_small acc b : is_byte b -> 0 <= acc < 2 ^ 56 -> be_step acc b = 256 * acc + b.
Proof.
  intros Hb Hacc. unfold be_step, u64. rewrite shiftl8_lor by done.
  destruct Hb. apply Z.mod_small. lia.
Qed.

Lemma length_be_bytes n v : length (be_bytes n v) = n.
Proof. induction n; simpl; auto. Qed.

Lemma be_bytes_ok n v : bytes_ok (be_bytes n v).
Proof.
  induction n; simpl; constructor; [|done].
  unfold u8, is_byte. apply Z.mod_pos_bound. lia.
Qed.

Lemma u8_shiftr v n : 0 <= n -> u8 (Z.shiftr v n) = v / 2 ^ n mod 256.
Proof. intros. unfold u8. by rewrite Z.shiftr_div_pow2. Qed.

(** Reading back the [n] big-endian bytes of a number that fits, [n <= 8]. *)
Lemma fold_be_bytes n v acc :
  (n <= 8)%nat -> 0 <= acc < 2 ^ (64 - 8 * Z.of_nat n) -> 0 <= v ->
  fold_left be_step (be_bytes n v) acc = acc * 2 ^ (8 * Z.of_nat n) + v mod 2 ^ (8 * Z.of_nat n).
Proof.
  revert acc; induction n as [|n IH]; intros acc Hn Hacc Hv.
  { simpl. rewrite Z.mod_1_r. lia. }
  cbn [be_bytes fold_left]. rewrite u8_shiftr by lia.
  set (k := 8 * Z.of_nat n) in *.
  replace (8 * Z.of_nat (S n)) with (8 + k) in * by lia.
  pose proof (Z.mod_pos_bound (v / 2 ^ k) 256 ltac:(lia)) as Hb.
  assert (Hlt : 2 ^ (64 - (8 + k)) <= 2 ^ 56) by (apply Z.pow_le_mono_r; lia).
  rewrite be_step_small by (unfold is_byte; lia).
  assert (0 < 2 ^ k) by (apply Z.pow_pos_nonneg; lia).
  assert (Hs : 2 ^ (64 - k) = 256 * 2 ^ (64 - (8 + k))).
  { replace (64 - k) with (8 + (64 - (8 + k))) by lia. rewrite Z.pow_add_r by lia. lia. }
  rewrite IH by (try done; lia).
  rewrite Z.pow_add_r by lia. change (2 ^ 8) with 256.
  rewrite (Z.mul_comm 256 (2 ^ k)), Z.rem_mul_r by lia. lia.
Qed.

Lemma fold_be_bytes_0 n v :
  (n <= 8)%nat -> 0 <= v < 2 ^ (8 * Z.of_nat n) -> fold_left be_step (be_bytes n v) 0 = v.
Proof.
  intros Hn Hv. assert (0 < 2 ^ (64 - 8 * Z.of_nat n)) by (apply Z.pow_pos_nonneg; lia).
  rewrite fold_be_bytes by lia. rewrite Z.mod_small; lia.
Qed.

(** ** Decimal numbers *)

Lemma digits_value_app s c : digits_value (s ++ [c]) = 10 * digits_value s + (c - 48).
Proof. unfold digits_value. by rewrite fold_left_app. Qed.

Lemma to_string_loop_app fuel n acc : to_string_loop fuel n acc = to_string_loop fuel n [] ++ acc.
Proof.
  revert n acc. induction fuel as [|fuel IH]; intros n acc; cbn [to_string_loop]; [done|].
  case_match; [done|]. rewrite IH, (IH _ [_]), <- app_assoc. done.
Qed.

Lemma to_string_value n : 0 <= n < 10 ^ 20 -> digits_value (to_string n) = n.
Proof.
  unfold to_string. assert (forall fuel n, 0 <= n < 10 ^ Z.of_nat fuel -> digits_value (to_string_loop fuel n []) = n) as H.
  { clear n. induction fuel as [|fuel IH]; intros n Hn; cbn [to_string_loop].
    - change (10 ^ Z.of_nat 0) with 1 in Hn. assert (n = 0) by lia. by subst.
    - rewrite Nat2Z.inj_succ, Z.pow_succ_r in Hn by lia. pose proof (Z.div_mod n 10).
      destruct (Z.eqb_spec (n / 10) 0) as [H0|H0].
      + unfold digits_value. cbn [fold_left]. lia.
      + rewrite to_string_loop_app, digits_value_app, IH; [lia|]. split; [apply Z.div_pos; lia|].
        apply Z.div_lt_upper_bound; lia. }
  apply (H 20%nat).
Qed.

Lemma to_string_loop_S fuel n :
  to_string_loop (S fuel) n [] = (if n / 10 =? 0 then [] else to_string_loop fuel (n / 10) []) ++ [48 + n mod 10].
Proof. cbn [to_string_loop]. case_match; [done|]. apply to_string_loop_app. Qed.

(** The digits: the first is zero only for zero itself. *)
Lemma to_string_loop_digits fuel n : 0 < n < 10 ^ Z.of_nat fuel ->
  exists d ds, to_string_loop fuel n [] = d :: ds /\ 49 <= d <= 57 /\ Forall (fun x => 48 <= x <= 57) ds.
Proof.
  revert n. induction fuel as [|fuel IH]; intros n Hn; [change (10 ^ Z.of_nat 0) with 1 in Hn; lia|].
  rewrite to_string_loop_S. rewrite Nat2Z.inj_succ, Z.pow_succ_r in Hn by lia.
  pose proof (Z.mod_pos_bound n 10 ltac:(lia)) as Hm. pose proof (Z.div_mod n 10) as Hdm.
  destruct (Z.eqb_spec (n / 10) 0) as [H0|H0]; [eexists _, []; split_and!; [done|lia|lia|constructor]|].
  pose proof (Z.div_pos n 10) as Hp. destruct (IH (n / 10)) as (d & ds & -> & Hd & Hds).
  - split; [lia|]. apply Z.div_lt_upper_bound; lia.
  - eexists d, _. split_and!; [done|lia|lia|]. apply Forall_app. split; [done|]. repeat constructor; lia.
Qed.

Lemma to_string_digits n : 0 <= n < 10 ^ 20 ->
  exists d ds, to_string n = d :: ds /\ 48 <= d <= 57 /\ Forall (fun x => 48 <= x <= 57) ds /\ (d <> 48 \/ ds = []).
Proof.
  intros Hn. destruct (decide (n = 0)) as [->|Hne]; [by exists 48, []; split_and!; [..|constructor|right]|].
  destruct (to_string_loop_digits 20 n) as (d & ds & Hs & Hd & Hds); [split; [lia|apply Hn]|].
  exists d, ds. split_and!; [done|lia|lia|done|left; lia].
Qed.

Lemma to_string_loop_short fuel : forall n k, 0 <= n < 10 ^ Z.of_nat (S k) -> len (to_string_loop fuel n []) <= Z.of_nat (S k).
Proof.
  induction fuel as [|fuel IH]; intros n k Hn; [cbn [to_string_loop]; change (len (@nil Z)) with 0; lia|]. rewrite to_string_loop_S, len_app. change (len [_]) with 1.
  destruct (Z.eqb_spec (n / 10) 0) as [H0|H0]; [change (len (@nil Z)) with 0; lia|].
  destruct k as [|k]; [change (10 ^ Z.of_nat 1) with 10 in Hn; rewrite Z.div_small in H0; lia|].
  assert (0 <= n / 10 < 10 ^ Z.of_nat (S k)); [|pose proof (IH (n / 10) k); lia].
  rewrite (Nat2Z.inj_succ (S k)), Z.pow_succ_r in Hn by lia. split; [apply Z.div_pos; lia|apply Z.div_lt_upper_bound; lia].
Qed.

(** ** Incremental decoders

    What a session relies on when it hands the bytes of each read to its parser:
    the call returns, keeps the decoder's invariant, and only the concatenation
    of the reads matters, not how the transport cut them. *)
Class StreamDecoder {P E : Type} (run : P -> bytes -> option (E * P)) (ok : E -> bool)
      (wf : P -> Prop) := {
    run_returns : forall p l, wf p -> exists e p', run p l = Some (e, p') /\ wf p';
    run_app : forall p a b, wf p ->
      run p (a ++ b) =
      match run p a with
      | Some (e, p') => if ok e then run p' b else Some (e, p')
      | None => None
      end;
  }.

Section Decoder.
Context `{D : StreamDecoder P E run ok wf}.

(** Hand over the reads one by one, stopping at the first error. *)
Fixpoint run_reads (e : E) (p : P) (reads : list bytes) : option (E * P) :=
  match reads with
  | [] => Some (e, p)
  | l :: reads' =>
    match run p l with
    | Some (e', p') => if ok e' then run_reads e' p' reads' else Some (e', p')
    | None => None
    end
  end.

Lemma run_reads_concat l reads p e :
  wf p -> run_reads e p (l :: reads) = run p (concat (l :: reads)).
Proof.
  revert l p e; induction reads as [|l' reads IH]; intros l p e Hp; cbn [concat].
  - rewrite app_nil_r. cbn [run_reads].
  destruct (run_returns p l Hp) as (e' & p' & -> & _). by destruct (ok e').
  - rewrite run_app by done.
  cbn [run_reads]. destruct (run_returns p l Hp) as (e' & p' & -> & Hp').
  destruct (ok e'); [by apply (IH l' p' e')|done].
Qed.
End Decoder.
