(* ===== verification/WsParser.v ===== *)
(** * The incremental WebSocket frame parser (src/core/websocket_parser.{h,cpp})

    [parse] is the loop of [websocket_parser::parse], with the callback
    registered by [onComplete] as a state transformer.  [feed] is the reference
    machine: one byte at a time, no bulk copy. *)

From S2P Require Import Prelude.

(** ** Data (websocket_parser.h) *)

Definition WS_CONTINUATION : Z := 0x0.
Definition WS_TEXT : Z := 0x1.
Definition WS_BINARY : Z := 0x2.
Definition WS_CLOSE : Z := 0x8.
Definition WS_PING : Z := 0x9.
Definition WS_PONG : Z := 0xA.

Inductive WsParseErr :=
  | SUCCESS
  | NOT_COMPLETED
  | INVALID_FRAME
  | INVALID_OPCODE
  | INVALID_PAYLOAD_LEN
  | INVALID_MASK.

Definition WsErr_Str (err : WsParseErr) : string :=
  match err with
  | SUCCESS => "SUCCESS"
  | INVALID_FRAME => "INVALID_FRAME"
  | INVALID_OPCODE => "INVALID_OPCODE"
  | INVALID_PAYLOAD_LEN => "INVALID_PAYLOAD_LEN"
  | INVALID_MASK => "INVALID_MASK"
  | _ => "UNKNOWN"
  end.

Record WsFrame := mkWsFrame {
    fin : bool;
    rsv : Z;
    opcode : Z;
    mask : bool;
    payload_len : Z;
    mask_key : bytes;
    payload : bytes;
  }.

(** The private [enum class Status]. *)
Inductive Status :=
  | Status_finAndOpcode
  | Status_payloadLenAndMask
  | Status_payloadLen
  | Status_maskKey
  | Status_payload
  | Status_complete.

(** The parser's own fields; [m_frame] only repeats [parse]'s argument. *)
Record websocket_parser := mkParser {
    m_status : Status;
    m_byteNeed : Z;
    m_isContinuation : bool;
    m_maskIndex : Z;
  }.

#[export] Instance Status_eq_dec : EqDecision Status.
Proof. solve_decision. Defined.
#[export] Instance WsParseErr_eq_dec : EqDecision WsParseErr.
Proof. solve_decision. Defined.
#[export] Instance WsFrame_eq_dec : EqDecision WsFrame.
Proof. solve_decision. Defined.

(** The constructor [websocket_parser::websocket_parser]. *)
Definition websocket_parser_init : websocket_parser :=
  mkParser Status_finAndOpcode 1 false 0.

(** A default-initialised [WsFrame] ([fin] has no initialiser in the class: [b]
    stands for whatever it holds). *)
Definition WsFrame_init (b : bool) : WsFrame := mkWsFrame b 0 0 false 0 [] [].

(** ** Bit fields of the two header bytes *)

Definition LIMIT_PAYLOAD_LEN : Z := 1024 * 1024.
Definition GET_FIN (ch : Z) : bool := negb (Z.land ch 0x80 =? 0).
Definition GET_RSV (ch : Z) : Z := Z.shiftr (Z.land ch 0x70) 4.
Definition GET_OPCODE (ch : Z) : Z := Z.land ch 0x0F.
Definition GET_MASK (ch : Z) : bool := negb (Z.land ch 0x80 =? 0).
Definition GET_PAYLOAD_LEN (ch : Z) : Z := Z.land ch 0x7F.

(** ** Field updates *)

Definition set_status (s : Status) (p : websocket_parser) : websocket_parser :=
  mkParser s (m_byteNeed p) (m_isContinuation p) (m_maskIndex p).
Definition set_byteNeed (n : Z) (p : websocket_parser) : websocket_parser :=
  mkParser (m_status p) n (m_isContinuation p) (m_maskIndex p).
Definition set_maskIndex (i : Z) (p : websocket_parser) : websocket_parser :=
  mkParser (m_status p) (m_byteNeed p) (m_isContinuation p) i.
Definition set_isContinuation (b : bool) (p : websocket_parser) : websocket_parser :=
  mkParser (m_status p) (m_byteNeed p) b (m_maskIndex p).

Definition set_finrsv (b : bool) (r : Z) (f : WsFrame) : WsFrame :=
  mkWsFrame b r (opcode f) (mask f) (payload_len f) (mask_key f) (payload f).
Definition set_opcode (o : Z) (f : WsFrame) : WsFrame :=
  mkWsFrame (fin f) (rsv f) o (mask f) (payload_len f) (mask_key f) (payload f).
Definition set_mask (b : bool) (f : WsFrame) : WsFrame :=
  mkWsFrame (fin f) (rsv f) (opcode f) b (payload_len f) (mask_key f) (payload f).
Definition set_payload_len (n : Z) (f : WsFrame) : WsFrame :=
  mkWsFrame (fin f) (rsv f) (opcode f) (mask f) n (mask_key f) (payload f).
Definition set_mask_key (k : bytes) (f : WsFrame) : WsFrame :=
  mkWsFrame (fin f) (rsv f) (opcode f) (mask f) (payload_len f) k (payload f).
Definition set_payload (d : bytes) (f : WsFrame) : WsFrame :=
  mkWsFrame (fin f) (rsv f) (opcode f) (mask f) (payload_len f) (mask_key f) d.

(** [SWITCH_TO_MASK(frame)] *)
Definition SWITCH_TO_MASK (p : websocket_parser) (f : WsFrame) : websocket_parser * WsFrame :=
  if mask f
  then (set_byteNeed 4 (set_status Status_maskKey p), set_mask_key [] f)
  else (set_byteNeed (payload_len f) (set_status Status_payload p), f).

(** The masking loop of the payload case: the bytes pushed and the next [m_maskIndex]. *)
Fixpoint unmask_loop (key : bytes) (idx : Z) (l : bytes) : bytes * Z :=
  match l with
  | [] => ([], idx)
  | c :: l' =>
      let '(out, idx') := unmask_loop key ((idx + 1) mod 4) l' in
      (Z.lxor c (key !!! Z.to_nat idx) :: out, idx')
  end.

(** ** The loop *)

(** The parser, the caller's frame and the state the callback works on. *)
Record pstate (T : Type) := mkP { pp : websocket_parser; pf : WsFrame; ps : T }.
Arguments mkP {T} _ _ _.
Arguments pp {T} _.
Arguments pf {T} _.
Arguments ps {T} _.

(** One iteration: the state and the bytes still to read after [ch ++], or the
    error returned. *)
Inductive iter_result (T : Type) :=
  | Next (st : pstate T) (rest : bytes)
  | Stop (err : WsParseErr) (st : pstate T).
Arguments Next {T} _ _.
Arguments Stop {T} _ _.

Section Parse.
Context {T : Type} (m_onComplete : WsFrame -> T -> T).

(** [case Status::complete] *)
Definition case_complete (st : pstate T) : pstate T :=
  let p := set_status Status_finAndOpcode (set_byteNeed 0 (set_maskIndex 0 (pp st))) in
  if fin (pf st)
  then mkP (set_isContinuation false p) (pf st) (m_onComplete (pf st) (ps st))
  else mkP (set_isContinuation true p) (pf st) (ps st).

(** [case Status::finAndOpcode] *)
Definition case_finAndOpcode (st : pstate T) (ch : Z) : pstate T :=
  let f := set_finrsv (GET_FIN ch) (GET_RSV ch) (pf st) in
  let op := GET_OPCODE ch in
  let f := if negb (m_isContinuation (pp st)) && negb (op =? 0)
         then set_payload [] (set_mask_key [] (set_opcode op f)) else f in
  mkP (set_status Status_payloadLenAndMask (pp st)) f (ps st).

(** [case Status::payloadLenAndMask] *)
Definition case_payloadLenAndMask (st : pstate T) (ch : Z) : pstate T :=
  let f := set_payload_len (GET_PAYLOAD_LEN ch) (set_mask (GET_MASK ch) (pf st)) in
  if payload_len f <=? 125
  then let '(p, f) := SWITCH_TO_MASK (pp st) f in mkP p f (ps st)
  else if payload_len f =? 126
  then mkP (set_byteNeed 2 (set_status Status_payloadLen (pp st))) (set_payload_len 0 f) (ps st)
  else mkP (set_byteNeed 8 (set_status Status_payloadLen (pp st))) (set_payload_len 0 f) (ps st).

(** [case Status::payloadLen] *)
Definition case_payloadLen (st : pstate T) (ch : Z) : pstate T :=
  let '(p, f) :=
  if negb (m_byteNeed (pp st) =? 0)
  then (set_byteNeed (m_byteNeed (pp st) - 1) (pp st),
        set_payload_len (be_step (payload_len (pf st)) ch) (pf st))
  else (pp st, pf st) in
  if m_byteNeed p =? 0
  then let '(p, f) := SWITCH_TO_MASK p f in mkP p f (ps st)
  else mkP p f (ps st).

(** [case Status::maskKey] *)
Definition case_maskKey (st : pstate T) (ch : Z) : pstate T :=
  let '(p, f) :=
  if negb (m_byteNeed (pp st) =? 0)
  then (set_byteNeed (m_byteNeed (pp st) - 1) (pp st),
        set_mask_key (mask_key (pf st) ++ [ch]) (pf st))
  else (pp st, pf st) in
  if m_byteNeed p =? 0
  then mkP (set_status Status_payload (set_byteNeed (payload_len f) p)) f (ps st)
  else mkP p f (ps st).

(** [case Status::payload] on the bytes [l] from [ch] to the end of the
buffer: [to_read] bytes are copied at once; [ch += to_read - 1] and the
loop's [ch ++] leave the bytes after them. *)
Definition case_payload (st : pstate T) (l : bytes) : iter_result T :=
  if LIMIT_PAYLOAD_LEN <? payload_len (pf st) then
  Stop INVALID_PAYLOAD_LEN
    (mkP (set_isContinuation false (set_status Status_finAndOpcode (pp st))) (pf st) (ps st))
  else
  let to_read := Z.min (len l) (m_byteNeed (pp st)) in
  let chunk := take (Z.to_nat to_read) l in
  let '(p, f) :=
    if mask (pf st) then
      let '(out, idx) := unmask_loop (mask_key (pf st)) (m_maskIndex (pp st)) chunk in
      (set_maskIndex idx (pp st), set_payload (payload (pf st) ++ out) (pf st))
    else (pp st, set_payload (payload (pf st) ++ chunk) (pf st)) in
  let p := set_byteNeed (m_byteNeed p - to_read) p in
  let rest := drop (Z.to_nat to_read) l in
  if m_byteNeed p =? 0
  then Next (case_complete (mkP (set_status Status_complete p) f (ps st))) rest
  else Next (mkP p f (ps st)) rest.

(** The body of the [for] loop, at the bytes [ch :: rest] left. *)
Definition parse_iter (st : pstate T) (ch : Z) (rest : bytes) : iter_result T :=
  match m_status (pp st) with
  | Status_finAndOpcode => Next (case_finAndOpcode st ch) rest
  | Status_payloadLenAndMask => Next (case_payloadLenAndMask st ch) rest
  | Status_payloadLen => Next (case_payloadLen st ch) rest
  | Status_maskKey => Next (case_maskKey st ch) rest
  | Status_payload => case_payload st (ch :: rest)
  | Status_complete => Next (case_complete st) rest
  end.

Fixpoint parse_loop (fuel : nat) (st : pstate T) (l : bytes) : option (WsParseErr * pstate T) :=
  match l with
  | [] => Some (SUCCESS, st)
  | ch :: rest =>
    match fuel with
    | O => None
    | S fuel' =>
        match parse_iter st ch rest with
        | Stop err st' => Some (err, st')
        | Next st' rest' => parse_loop fuel' st' rest'
        end
    end
  end.

(** An iteration may leave its byte unread once (an empty payload), so twice
the length is enough iterations: [parse_total]. *)
Definition parse (st : pstate T) (data : bytes) : option (WsParseErr * pstate T) :=
  if len data =? 0 then Some (SUCCESS, st)
  else parse_loop (2 * length data) st data.

(** ** The reference machine: one byte at a time *)

Definition feed_header (st : pstate T) (ch : Z) : pstate T :=
  match m_status (pp st) with
  | Status_finAndOpcode => case_finAndOpcode st ch
  | Status_payloadLenAndMask => case_payloadLenAndMask st ch
  | Status_payloadLen => case_payloadLen st ch
  | Status_maskKey => case_maskKey st ch
  | _ => case_complete st
  end.

(** One byte of payload, unmasked with the key byte whose turn it is. *)
Definition feed_payload (st : pstate T) (ch : Z) : pstate T :=
  let '(p, f) := (pp st, pf st) in
  let st' :=
  if mask f
  then mkP (mkParser (m_status p) (m_byteNeed p - 1) (m_isContinuation p) ((m_maskIndex p + 1) mod 4))
         (set_payload (payload f ++ [Z.lxor ch (mask_key f !!! Z.to_nat (m_maskIndex p))]) f) (ps st)
  else mkP (set_byteNeed (m_byteNeed p - 1) p) (set_payload (payload f ++ [ch]) f) (ps st) in
  if m_byteNeed (pp st') =? 0 then case_complete st' else st'.

(** A frame whose payload is empty is completed by the byte that follows it. *)
Definition feed (st : pstate T) (ch : Z) : pstate T + (WsParseErr * pstate T) :=
  match m_status (pp st) with
  | Status_payload =>
    if LIMIT_PAYLOAD_LEN <? payload_len (pf st) then
      inr (INVALID_PAYLOAD_LEN,
           mkP (set_isContinuation false (set_status Status_finAndOpcode (pp st))) (pf st) (ps st))
    else if m_byteNeed (pp st) =? 0 then inl (feed_header (case_complete st) ch)
    else inl (feed_payload st ch)
  | _ => inl (feed_header st ch)
  end.

Definition feed_all (st : pstate T) (l : bytes) : WsParseErr * pstate T :=
  match fold_step feed st l with
  | inl st' => (SUCCESS, st')
  | inr e => e
  end.
End Parse.

(** A property of the caller's state that the callback keeps is kept by [parse]. *)
Section Preserve.
Context {T : Type} (cb : WsFrame -> T -> T) (P : T -> Prop).
Hypothesis Hcb : forall f x, P x -> P (cb f x).

Lemma case_complete_preserves st : P (ps st) -> P (ps (case_complete cb st)).
Proof. intros HP. unfold case_complete. case_match; [by apply Hcb|done]. Qed.

Lemma parse_iter_preserves st c rest :
  P (ps st) -> match parse_iter cb st c rest with Next st' _ | Stop _ st' => P (ps st') end.
Proof.
  intros HP. unfold parse_iter. destruct (m_status (pp st)); try done.
  - unfold case_payloadLenAndMask, SWITCH_TO_MASK. repeat case_match; simplify_eq/=; done.
  - unfold case_payloadLen, SWITCH_TO_MASK. repeat case_match; simplify_eq/=; done.
  - unfold case_maskKey. repeat case_match; simplify_eq/=; done.
  - unfold case_payload. destruct (_ <? _); [done|]. cbv zeta.
  lazymatch goal with |- context [let '(p, f) := ?e in _] => destruct e as [p f] end.
  destruct (_ =? _); [by apply case_complete_preserves|done].
  - by apply case_complete_preserves.
Qed.

Lemma parse_preserves st data e st' :
  P (ps st) -> parse cb st data = Some (e, st') -> P (ps st').
Proof.
  unfold parse. intros HP. destruct (len data =? 0); [by intros [= <- <-]|].
  generalize (2 * length data)%nat as fuel. intros fuel. revert st data HP.
  induction fuel as [|fuel IH]; intros st [|c rest] HP; cbn [parse_loop]; try (by intros [= <- <-]).
  pose proof (parse_iter_preserves st c rest HP) as Hi.
  destruct (parse_iter cb st c rest); [by apply IH|by intros [= <- <-]].
Qed.
End Preserve.

(** ** The bulk loop computes what the byte machine computes *)

Section Equivalence.
Context {T : Type} (cb : WsFrame -> T -> T).
Implicit Types (st : pstate T) (l : bytes).

Abbreviation parse_loop := (parse_loop cb).
Abbreviation parse := (parse cb).
Abbreviation feed := (feed cb).
Abbreviation feed_all := (feed_all cb).
Abbreviation case_complete := (case_complete cb).

Lemma feed_all_nil st : feed_all st [] = (SUCCESS, st).
Proof. done. Qed.

Lemma feed_all_app st l k :
  feed_all st (l ++ k) =
  match feed_all st l with
  | (SUCCESS, st') => feed_all st' k
  | e => e
  end.
Proof.
  unfold WsParser.feed_all. rewrite fold_step_app.
  destruct (fold_step feed st l) as [st'|[err st']] eqn:E; [done|].
  destruct err; try done. exfalso. revert st E.
  induction l as [|c l IH]; intros st; simpl; [done|].
  destruct (feed st c) as [s|[e s]] eqn:Ef; [apply IH|].
  intros [= -> ->]. revert Ef. unfold WsParser.feed. by bdestruct_all.
Qed.

(** The part of [case_payload] before the test for completion. *)
Definition copy_chunk st (chunk : bytes) : pstate T :=
  let '(p, f) :=
  if mask (pf st) then
    let '(out, idx) := unmask_loop (mask_key (pf st)) (m_maskIndex (pp st)) chunk in
    (set_maskIndex idx (pp st), set_payload (payload (pf st) ++ out) (pf st))
  else (pp st, set_payload (payload (pf st) ++ chunk) (pf st)) in
  mkP (set_byteNeed (m_byteNeed p - len chunk) p) f (ps st).

Definition finish_chunk st : pstate T :=
  if m_byteNeed (pp st) =? 0 then case_complete st else st.

Lemma case_complete_status s st :
  case_complete (mkP (set_status s (pp st)) (pf st) (ps st)) = case_complete st.
Proof. destruct st as [[] f s']. done. Qed.

Lemma case_payload_copy st l :
  payload_len (pf st) <= LIMIT_PAYLOAD_LEN -> 0 <= m_byteNeed (pp st) ->
  let n := Z.to_nat (m_byteNeed (pp st)) in
  case_payload cb st l = Next (finish_chunk (copy_chunk st (take n l))) (drop n l).
Proof.
  intros Hlim Hneed n. unfold case_payload, finish_chunk, copy_chunk.
  apply Z.ltb_ge in Hlim as ->.
  assert (take (Z.to_nat (Z.min (len l) (m_byteNeed (pp st)))) l = take n l
         /\ drop (Z.to_nat (Z.min (len l) (m_byteNeed (pp st)))) l = drop n l
         /\ Z.min (len l) (m_byteNeed (pp st)) = len (take n l)) as (-> & -> & ->).
  { rewrite len_take. unfold len. split_and!; [| |lia].
  - destruct (Z.min_spec (Z.of_nat (length l)) (m_byteNeed (pp st))) as [[? ->]|[? ->]]; [|done].
    by rewrite Nat2Z.id, !take_ge by lia.
  - destruct (Z.min_spec (Z.of_nat (length l)) (m_byteNeed (pp st))) as [[? ->]|[? ->]]; [|done].
    by rewrite Nat2Z.id, !drop_ge by lia. }
  destruct (mask (pf st)); [destruct (unmask_loop _ _ _) as [out idx]|];
  simpl; destruct (_ =? 0); try done; by rewrite <- case_complete_status.
Qed.

Lemma copy_chunk_app st l k : copy_chunk st (l ++ k) = copy_chunk (copy_chunk st l) k.
Proof.
  assert (Hu : forall key i, unmask_loop key i (l ++ k) =
  let '(o1, i1) := unmask_loop key i l in
  let '(o2, i2) := unmask_loop key i1 k in (o1 ++ o2, i2)).
  { intros key. induction l as [|c l IH]; intros i; simpl.
  - by destruct (unmask_loop key i k).
  - rewrite IH. by destruct (unmask_loop key _ l) as [o1 i1], (unmask_loop key _ k). }
  destruct st as [[s n c i] f x]. unfold copy_chunk. simpl. rewrite len_app.
  destruct f as [fi r o m pl key pay], m; simpl; [rewrite Hu|].
  - destruct (unmask_loop key i l) as [o1 i1]. simpl.
  destruct (unmask_loop key i1 k) as [o2 i2]. unfold set_byteNeed, set_maskIndex, set_payload.
  simpl. rewrite app_assoc. by rewrite Z.sub_add_distr.
  - unfold set_byteNeed, set_payload. simpl. by rewrite app_assoc, Z.sub_add_distr.
Qed.

Lemma copy_chunk_fields st l :
  m_status (pp (copy_chunk st l)) = m_status (pp st) /\
  m_byteNeed (pp (copy_chunk st l)) = m_byteNeed (pp st) - len l /\
  payload_len (pf (copy_chunk st l)) = payload_len (pf st).
Proof.
  unfold copy_chunk. destruct (mask (pf st)); [destruct (unmask_loop _ _ _)|]; done.
Qed.

Lemma feed_one_payload st c :
  m_status (pp st) = Status_payload -> payload_len (pf st) <= LIMIT_PAYLOAD_LEN ->
  m_byteNeed (pp st) <> 0 ->
  feed st c = inl (finish_chunk (copy_chunk st [c])).
Proof.
  intros Hs Hlim Hn. unfold WsParser.feed. rewrite Hs.
  apply Z.ltb_ge in Hlim as ->. apply Z.eqb_neq in Hn as ->.
  unfold feed_payload, copy_chunk, finish_chunk. simpl. by destruct (mask (pf st)).
Qed.

(** Copying a chunk at once is feeding its bytes one by one. *)
Lemma feed_chunk st l :
  m_status (pp st) = Status_payload -> payload_len (pf st) <= LIMIT_PAYLOAD_LEN ->
  l <> [] -> len l <= m_byteNeed (pp st) ->
  fold_step feed st l = inl (finish_chunk (copy_chunk st l)).
Proof.
  intros Hs Hlim. induction l as [|c l IH] using rev_ind; [done|]. intros _ Hl.
  rewrite len_app, len_cons, len_nil in Hl. rewrite fold_step_app, copy_chunk_app.
  destruct (decide (l = [])) as [->|Hne].
  { rewrite len_nil in Hl. simpl. rewrite feed_one_payload by (done || lia). repeat f_equal.
  unfold copy_chunk. destruct st as [[] [? ? ? [] ? ? ?] ?]; simpl; rewrite ?app_nil_r;
    unfold set_byteNeed; simpl; by rewrite ?Z.sub_0_r. }
  pose proof (len_nonneg l). rewrite IH by (done || lia).
  destruct (copy_chunk_fields st l) as (Hs' & Hn' & Hl').
  unfold finish_chunk at 1. assert ((m_byteNeed (pp (copy_chunk st l)) =? 0) = false) as ->.
  { apply Z.eqb_neq. lia. }
  cbn [fold_step]. rewrite feed_one_payload; rewrite ?Hs', ?Hl', ?Hn'; try done.
  lia.
Qed.

(** Iterations [parse_loop] may need: two per byte, one less when the next
byte cannot be left unread. *)
Definition iters_enough (fuel : nat) st l : Prop :=
  l = [] \/
  (2 * length l <= fuel)%nat \/
  (2 * length l <= S fuel)%nat /\
  ~ (m_status (pp st) = Status_payload /\ m_byteNeed (pp st) = 0).

Lemma case_complete_idle st : m_status (pp (case_complete st)) = Status_finAndOpcode.
Proof. unfold WsParser.case_complete. by destruct (fin (pf st)). Qed.

Lemma case_complete_need st : m_byteNeed (pp (case_complete st)) = 0.
Proof. unfold WsParser.case_complete. by destruct (fin (pf st)). Qed.

Lemma finish_chunk_need st :
  0 <= m_byteNeed (pp st) -> 0 <= m_byteNeed (pp (finish_chunk st)) /\
  ~ (m_status (pp (finish_chunk st)) = Status_payload /\ m_byteNeed (pp (finish_chunk st)) = 0).
Proof.
  intros Hn. unfold finish_chunk. destruct (m_byteNeed (pp st) =? 0) eqn:E.
  - rewrite case_complete_idle, case_complete_need. split; [done|]. by intros [? _].
  - bool_to_prop. split; [done|]. by intros [_ ?].
Qed.

(** Both counters are [size_t]. *)
Definition nonneg st : Prop := 0 <= m_byteNeed (pp st) /\ 0 <= payload_len (pf st).

Lemma SWITCH_TO_MASK_nonneg p f x :
  0 <= payload_len f -> nonneg (let '(p', f') := SWITCH_TO_MASK p f in mkP p' f' x).
Proof. unfold SWITCH_TO_MASK, nonneg. destruct (mask f); simpl; lia. Qed.

Lemma feed_header_nonneg st c : nonneg st -> nonneg (feed_header cb st c).
Proof.
  intros [Hn Hp].
  assert (0 <= Z.land c 127) by (apply Z.land_nonneg; right; lia).
  assert (0 <= be_step (payload_len (pf st)) c) by (apply Z.mod_pos_bound; lia).
  unfold feed_header. destruct (m_status (pp st)).
  - unfold case_finAndOpcode. by destruct (_ && _).
  - unfold case_payloadLenAndMask. destruct (_ <=? _); [by apply SWITCH_TO_MASK_nonneg|].
  by destruct (_ =? _).
  - unfold case_payloadLen. destruct (Z.eqb_spec (m_byteNeed (pp st)) 0); simpl.
  + destruct (_ =? _); [by apply SWITCH_TO_MASK_nonneg|done].
  + destruct (_ =? _); [by apply SWITCH_TO_MASK_nonneg|]. split; simpl; lia.
  - unfold case_maskKey. destruct (Z.eqb_spec (m_byteNeed (pp st)) 0); simpl; destruct (_ =? _);
    split; simpl; lia.
  - unfold WsParser.case_complete. by destruct (fin (pf st)).
  - unfold WsParser.case_complete. by destruct (fin (pf st)).
Qed.

Lemma finish_copy_nonneg st l :
  nonneg st -> len l <= m_byteNeed (pp st) -> nonneg (finish_chunk (copy_chunk st l)).
Proof.
  intros [Hn Hp] Hl. destruct (copy_chunk_fields st l) as (_ & Hn' & Hp').
  split; [apply finish_chunk_need; lia|].
  unfold finish_chunk. destruct (_ =? _); [|by rewrite Hp'].
  unfold WsParser.case_complete. destruct (fin _); simpl; by rewrite Hp'.
Qed.

Lemma feed_all_cons_pending st c l :
  m_status (pp st) = Status_payload -> payload_len (pf st) <= LIMIT_PAYLOAD_LEN ->
  m_byteNeed (pp st) = 0 ->
  feed_all st (c :: l) = feed_all (case_complete st) (c :: l).
Proof.
  intros Hs Hlim Hn. unfold WsParser.feed_all. cbn [fold_step].
  unfold WsParser.feed at 1 3. rewrite Hs, Hn, case_complete_idle.
  by apply Z.ltb_ge in Hlim as ->.
Qed.

Lemma parse_loop_feed fuel st l :
  nonneg st -> iters_enough fuel st l -> parse_loop fuel st l = Some (feed_all st l).
Proof.
  revert st l; induction fuel as [|fuel IH]; intros st [|c rest] Hok Hf; try done;
  (destruct Hf as [?|Hf]; [done|]; simpl in Hf).
  { exfalso. lia. }
  assert (Hhdr : m_status (pp st) <> Status_payload ->
  parse_loop fuel (feed_header cb st c) rest = Some (feed_all st (c :: rest))).
  { intros Hs. rewrite IH; [|by apply feed_header_nonneg|right; left; lia].
  unfold WsParser.feed_all. cbn [fold_step]. unfold WsParser.feed at 2.
  by destruct (m_status (pp st)). }
  cbn [WsParser.parse_loop]. unfold parse_iter, feed_header in *.
  destruct (m_status (pp st)) eqn:Hs; try by apply Hhdr.
  destruct (Z.le_gt_cases (payload_len (pf st)) LIMIT_PAYLOAD_LEN) as [Hlim|Hlim].
  2: { unfold case_payload, WsParser.feed_all. cbn [fold_step]. unfold WsParser.feed.
     rewrite Hs. by apply Z.ltb_lt in Hlim as ->. }
  destruct Hok as [Hn Hp]. rewrite case_payload_copy by done.
  set (n := Z.to_nat (m_byteNeed (pp st))).
  destruct (decide (m_byteNeed (pp st) = 0)) as [H0|H0].
  - assert (n = 0%nat) as -> by lia. rewrite take_0, drop_0.
  assert (Hc : finish_chunk (copy_chunk st []) = case_complete st).
  { destruct (copy_chunk_fields st []) as (_ & Hn' & _).
    unfold finish_chunk. rewrite Hn', H0. destruct st as [[] [? ? ? [] ? ? ?] ?].
    all: unfold WsParser.case_complete; simpl; rewrite ?app_nil_r; by destruct fin0. }
  rewrite Hc, IH; [by rewrite <- feed_all_cons_pending| |].
  + unfold nonneg. rewrite case_complete_need. split; [done|].
    unfold WsParser.case_complete. by destruct (fin (pf st)).
  + right; right. rewrite case_complete_idle. split; [|by intros [? _]].
    destruct Hf as [Hf|[_ []]]; [simpl; lia|done].
  - assert (Hlen : len (take n (c :: rest)) <= m_byteNeed (pp st)) by (rewrite len_take; lia).
  rewrite IH; [|by apply finish_copy_nonneg|].
  + rewrite <- (take_drop n (c :: rest)) at 3. rewrite feed_all_app.
    unfold WsParser.feed_all at 2. rewrite feed_chunk; try done.
    destruct n eqn:En; [lia|done].
  + right; left. rewrite length_drop. simpl. lia.
Qed.
End Equivalence.

(** ** Segmentation: [websocket_parser] is a stream decoder *)

Definition err_ok (e : WsParseErr) : bool := bool_decide (e = SUCCESS).

Section Decoder.
Context {T : Type} (cb : WsFrame -> T -> T).
Implicit Types (st : pstate T) (l : bytes).

Lemma parse_feed_all st l : nonneg st -> parse cb st l = Some (feed_all cb st l).
Proof.
  intros Hst. unfold parse. destruct (Z.eqb_spec (len l) 0) as [H|H].
  - by apply len_0 in H as ->.
  - apply parse_loop_feed; [done|]. right; left. lia.
Qed.

Lemma feed_nonneg st c :
  nonneg st -> match feed cb st c with inl st' => nonneg st' | inr (_, st') => nonneg st' end.
Proof.
  intros [Hn Hp]. unfold feed. destruct (m_status (pp st)) eqn:Hs; try by apply feed_header_nonneg.
  destruct (Z.ltb_spec LIMIT_PAYLOAD_LEN (payload_len (pf st))); [done|].
  destruct (Z.eqb_spec (m_byteNeed (pp st)) 0).
  - apply feed_header_nonneg. unfold nonneg. rewrite case_complete_need. split; [done|].
  unfold case_complete. by destruct (fin (pf st)).
  - pose proof (feed_one_payload cb st c Hs ltac:(lia) ltac:(lia)) as Hf.
  unfold feed in Hf. rewrite Hs in Hf.
  destruct (Z.ltb_spec LIMIT_PAYLOAD_LEN (payload_len (pf st))); [lia|].
  destruct (Z.eqb_spec (m_byteNeed (pp st)) 0); [lia|]. injection Hf as ->.
  apply finish_copy_nonneg; [done|]. rewrite len_cons, len_nil. lia.
Qed.

Lemma feed_all_nonneg st l : nonneg st -> nonneg (snd (feed_all cb st l)).
Proof.
  intros Hst.
  pose proof (fold_step_inv (feed cb) nonneg (fun _ => True)
  (fun s b H _ => feed_nonneg s b H) l st Hst ltac:(by apply Forall_true)) as H.
  unfold feed_all. by destruct (fold_step (feed cb) st l) as [|[]].
Qed.

#[export] Instance websocket_decoder : StreamDecoder (parse cb) err_ok nonneg.
Proof.
  split.
  - intros st l Hst. rewrite parse_feed_all by done.
  destruct (feed_all cb st l) as [e st'] eqn:E. exists e, st'. split; [done|].
  by pose proof (feed_all_nonneg st l Hst) as H; rewrite E in H.
  - intros st a b Hst. rewrite !parse_feed_all, feed_all_app by done.
  pose proof (feed_all_nonneg st a Hst) as H.
  destruct (feed_all cb st a) as [[] st'];
    cbn; try done. by rewrite parse_feed_all.
Qed.
End Decoder.

(** C16. However the transport cuts the stream into reads, the parser ends with
    the same error code, in the same state, and has made the same calls to
    [onComplete] on the same frames, as if it had received the reads as one
    buffer. *)
Theorem parse_segmentation {T} (cb : WsFrame -> T -> T) (st : pstate T) (e : WsParseErr)
    (l : bytes) (reads : list bytes) (Hst : nonneg st) :
  run_reads (run := parse cb) (ok := err_ok) e st (l :: reads) = parse cb st (concat (l :: reads)).
Proof. apply (run_reads_concat l reads st e Hst). Qed.

(** C25. [parse] always returns, and its bulk loop (which copies and unmasks as
    much payload as the buffer holds at once) gives what the byte-at-a-time
    reference machine gives. *)
Theorem parse_refines_feed {T} (cb : WsFrame -> T -> T) (st : pstate T) (data : bytes)
    (Hst : nonneg st) :
  parse cb st data = Some (feed_all cb st data).
Proof. by apply parse_feed_all. Qed.

(** ** The parser's invariant *)

Section Invariant.
Context {T : Type} (cb : WsFrame -> T -> T).
Implicit Types (st : pstate T).

(** What the fields satisfy between two bytes, for each [Status]. *)
Definition parser_inv st : Prop :=
  let p := pp st in
  let f := pf st in
  0 <= payload_len f < 2 ^ 64 /\
  match m_status p with
  | Status_finAndOpcode | Status_payloadLenAndMask => 0 <= m_byteNeed p /\ m_maskIndex p = 0
  | Status_payloadLen =>
    1 <= m_byteNeed p <= 8 /\ m_maskIndex p = 0 /\ payload_len f < 2 ^ (8 * (8 - m_byteNeed p))
  | Status_maskKey =>
    1 <= m_byteNeed p <= 4 /\ m_maskIndex p = 0 /\ mask f = true /\
    len (mask_key f) = 4 - m_byteNeed p
  | Status_payload =>
    0 <= m_byteNeed p <= payload_len f /\
    (LIMIT_PAYLOAD_LEN < payload_len f -> m_byteNeed p = payload_len f) /\
    (m_byteNeed p = 0 -> payload_len f = 0) /\
    (if mask f
     then len (mask_key f) = 4 /\ m_maskIndex p = (payload_len f - m_byteNeed p) mod 4
     else m_maskIndex p = 0)
  | Status_complete => False
  end.

(** The byte of the key that unmasks the next payload byte is inside [mask_key]. *)
Lemma parser_inv_index st :
  parser_inv st -> m_status (pp st) = Status_payload -> mask (pf st) = true ->
  0 <= m_maskIndex (pp st) < len (mask_key (pf st)).
Proof.
  intros [_ H] Hs Hm. rewrite Hs, Hm in H. destruct H as (_ & _ & _ & -> & ->).
  apply Z.mod_pos_bound. lia.
Qed.

(** The bytes of a payload taken so far. *)
Lemma parser_inv_taken st :
  parser_inv st -> m_status (pp st) = Status_payload ->
  0 <= payload_len (pf st) - m_byteNeed (pp st) <= LIMIT_PAYLOAD_LEN.
Proof.
  intros [_ H] Hs. rewrite Hs in H. destruct H as (Hb & Hfull & _).
  destruct (Z.le_gt_cases (payload_len (pf st)) LIMIT_PAYLOAD_LEN) as [?|Hlt]; [lia|].
  specialize (Hfull Hlt). unfold LIMIT_PAYLOAD_LEN in *. lia.
Qed.

Lemma parser_inv_nonneg st : parser_inv st -> nonneg st.
Proof.
  intros [Hp H]. split; [|lia]. by destruct (m_status (pp st)); try lia.
Qed.

Lemma parser_inv_init b x : parser_inv (mkP websocket_parser_init (WsFrame_init b) x).
Proof. by split. Qed.

Lemma case_complete_inv st :
  0 <= payload_len (pf st) < 2 ^ 64 -> parser_inv (case_complete cb st).
Proof. intros. unfold case_complete. by destruct (fin (pf st)). Qed.

Lemma SWITCH_TO_MASK_inv p f x :
  0 <= payload_len f < 2 ^ 64 -> m_maskIndex p = 0 ->
  parser_inv (let '(p', f') := SWITCH_TO_MASK p f in mkP p' f' x).
Proof.
  intros Hl Hi. unfold SWITCH_TO_MASK. destruct (mask f) eqn:Hm; (split; [done|]); simpl.
  - by split_and!; try lia.
  - rewrite Hm. split_and!; [lia|lia|done|lia|done].
Qed.

Lemma land_range c m : 0 <= m -> 0 <= Z.land c m <= m.
Proof.
  intros Hm. split; [apply Z.land_nonneg; by right|].
  apply Z.ldiff_le; [done|].
  by rewrite Z.ldiff_land, <- Z.land_assoc, Z.land_lnot_diag, Z.land_0_r.
Qed.

Lemma feed_header_inv st c :
  is_byte c -> parser_inv st -> m_status (pp st) <> Status_payload ->
  parser_inv (feed_header cb st c).
Proof.
  intros Hc [Hp H] Hs. unfold feed_header. destruct (m_status (pp st)) eqn:E; try done.
  - unfold case_finAndOpcode. destruct (_ && _); split; simpl; auto.
  - pose proof (land_range c 127 ltac:(lia)). unfold case_payloadLenAndMask, GET_PAYLOAD_LEN.
  simpl. destruct (_ <=? _); [apply SWITCH_TO_MASK_inv; simpl; lia|].
  destruct (_ =? _); split; simpl; lia.
  - destruct H as (Hn & Hi & Hlt). unfold case_payloadLen.
  destruct (Z.eqb_spec (m_byteNeed (pp st)) 0); [lia|]. simpl.
  assert (payload_len (pf st) < 2 ^ 56).
  { eapply Z.lt_le_trans; [done|]. apply Z.pow_le_mono_r; lia. }
  rewrite be_step_small by (done || lia). destruct Hc.
  destruct (_ =? _) eqn:Hz; [apply SWITCH_TO_MASK_inv; simpl; lia|].
  split; simpl; [lia|]. bool_to_prop. rewrite E. split_and!; try lia.
  replace (8 * (8 - (m_byteNeed (pp st) - 1))) with (8 + 8 * (8 - m_byteNeed (pp st))) by lia.
  rewrite Z.pow_add_r by lia. lia.
  - destruct H as (Hn & Hi & Hm & Hl). unfold case_maskKey.
  destruct (Z.eqb_spec (m_byteNeed (pp st)) 0); [lia|]. simpl.
  destruct (_ =? _) eqn:Hz; bool_to_prop; split; simpl; try lia.
  + rewrite Hm, len_snoc. split_and!; try lia.
    by rewrite Z.sub_diag.
  + rewrite E, len_snoc. split_and!; try lia. done.
Qed.

Lemma feed_payload_inv st c :
  parser_inv st -> m_status (pp st) = Status_payload ->
  payload_len (pf st) <= LIMIT_PAYLOAD_LEN -> m_byteNeed (pp st) <> 0 ->
  parser_inv (feed_payload cb st c).
Proof.
  intros [Hp H] Hs Hlim Hn. rewrite Hs in H. destruct H as (Hb & _ & _ & Hm).
  unfold feed_payload. destruct (mask (pf st)) eqn:E; simpl.
  - destruct Hm as [Hk Hi]. destruct (_ =? _) eqn:Hz; [by apply case_complete_inv|].
  bool_to_prop. split; simpl; [lia|]. rewrite Hs, E. split_and!; try lia.
  rewrite Hi, Zplus_mod_idemp_l. f_equal. lia.
  - destruct (_ =? _) eqn:Hz; [by apply case_complete_inv|].
  bool_to_prop. split; simpl; [lia|]. rewrite Hs, E. split_and!; lia.
Qed.

Lemma feed_inv st c :
  parser_inv st -> is_byte c ->
  match feed cb st c with inl st' => parser_inv st' | inr (_, st') => parser_inv st' end.
Proof.
  intros H Hc. unfold feed.
  destruct (m_status (pp st)) eqn:Hs; try by (apply feed_header_inv; [done..|by rewrite Hs]).
  destruct (Z.ltb_spec LIMIT_PAYLOAD_LEN (payload_len (pf st))) as [Hlim|Hlim].
  - destruct H as [Hp H]. split; [done|]. simpl. rewrite Hs in H.
  destruct H as (Hb & Hfull & _ & Hm). split; [lia|]. rewrite Hfull in Hm by done.
  rewrite Z.sub_diag in Hm. destruct (mask (pf st)); [by destruct Hm as [_ ->]|done].
  - destruct (Z.eqb_spec (m_byteNeed (pp st)) 0); [|by apply feed_payload_inv].
  apply feed_header_inv; [done|apply case_complete_inv, H|]. by rewrite case_complete_idle.
Qed.

Lemma feed_all_inv st l : parser_inv st -> bytes_ok l -> parser_inv (snd (feed_all cb st l)).
Proof.
  intros Hst Hl. pose proof (fold_step_inv (feed cb) parser_inv is_byte feed_inv l st Hst Hl) as H.
  unfold feed_all. by destruct (fold_step (feed cb) st l) as [|[]].
Qed.
End Invariant.

(** C26. From the constructor's state, whatever bytes arrive, the parser's fields
    stay consistent: [m_byteNeed] and [payload_len] never wrap around, [Status]
    is never left at [complete], in the middle of a payload no more bytes of this
    frame were taken than [LIMIT_PAYLOAD_LEN] (none at all when it announces more),
    and whenever a masked payload byte is next, the key byte it is xored with lies
    inside [mask_key] (no read out of bounds).  The payloads of the fragments of one
    message add up without a limit. *)
Theorem parse_invariant {T} (cb : WsFrame -> T -> T) (b : bool) (x : T) (data : bytes)
    (Hdata : bytes_ok data) :
  exists e st', parse cb (mkP websocket_parser_init (WsFrame_init b) x) data = Some (e, st') /\
    parser_inv st' /\
    (m_status (pp st') = Status_payload -> 0 <= payload_len (pf st') - m_byteNeed (pp st') <= LIMIT_PAYLOAD_LEN) /\
    (m_status (pp st') = Status_payload -> mask (pf st') = true ->
     0 <= m_maskIndex (pp st') < len (mask_key (pf st'))).
Proof.
  set (st := mkP _ _ x). pose proof (parser_inv_init b x) as Hst.
  rewrite parse_feed_all by (by apply parser_inv_nonneg).
  pose proof (feed_all_inv cb st data Hst Hdata) as H.
  destruct (feed_all cb st data) as [e st'] eqn:E. exists e, st'.
  split_and!; [done|done|by apply parser_inv_taken|]. intros. by apply parser_inv_index.
Qed.

(** ** Concrete runs *)

(** A callback that records the opcode and payload of each frame. *)
Definition log_frame (f : WsFrame) (log : list (Z * bytes)) : list (Z * bytes) :=
  log ++ [(opcode f, payload f)].

Definition fresh_parser : pstate (list (Z * bytes)) := mkP websocket_parser_init (WsFrame_init false) [].

(** The frame of test/test_ws_parser.cpp. *)
Definition hello_frame : bytes := [0x81; 0x85; 0; 0; 0; 0] ++ bs "Hello".

Example hello_delivered :
  option_map (fun r => ps (snd r)) (parse log_frame fresh_parser hello_frame) = Some [(WS_TEXT, bs "Hello")].
Proof. reflexivity. Qed.

Lemma parse_segmentation_witness :
  nonneg fresh_parser /\
  run_reads (run := parse log_frame) (ok := err_ok) SUCCESS fresh_parser [take 3 hello_frame; drop 3 hello_frame] =
  parse log_frame fresh_parser (concat [take 3 hello_frame; drop 3 hello_frame]).
Proof.
  assert (H : nonneg fresh_parser) by (split; cbn; lia).
  split; [exact H|]. exact (parse_segmentation log_frame fresh_parser SUCCESS _ [_] H).
Defined.

Lemma parse_refines_feed_witness :
  nonneg fresh_parser /\
  parse log_frame fresh_parser hello_frame = Some (feed_all log_frame fresh_parser hello_frame).
Proof.
  assert (H : nonneg fresh_parser) by (split; cbn; lia).
  split; [exact H|]. exact (parse_refines_feed log_frame fresh_parser hello_frame H).
Defined.

Lemma parse_invariant_witness :
  bytes_ok hello_frame /\
  exists e st', parse log_frame fresh_parser hello_frame = Some (e, st') /\ parser_inv st' /\
    (m_status (pp st') = Status_payload -> 0 <= payload_len (pf st') - m_byteNeed (pp st') <= LIMIT_PAYLOAD_LEN) /\
    (m_status (pp st') = Status_payload -> mask (pf st') = true ->
     0 <= m_maskIndex (pp st') < len (mask_key (pf st'))).
Proof.
  assert (H : bytes_ok hello_frame) by (repeat constructor; vm_compute; congruence).
  split; [exact H|]. exact (parse_invariant log_frame false [] hello_frame H).
Defined.
