(* ===== verification/WsCodec.v ===== *)
(** * What the WebSocket parser decodes

    A wire format of frames, written from the diagram of websocket_parser.h, and
    the theorems that [parse] reads it back: every frame, whole streams of
    frames, fragmented messages; and what the parser does with an empty frame,
    an interleaved control frame and a continuation frame out of place. *)

From S2P Require Import Prelude WsParser.

(** ** The wire format *)

Record wire_frame := mkWire {
    w_fin : bool;
    w_rsv : Z;
    w_opcode : Z;
    w_key : option bytes;
    w_data : bytes;
  }.

Definition wire_ok (w : wire_frame) : Prop :=
  0 <= w_rsv w < 8 /\ 0 <= w_opcode w < 16 /\
  match w_key w with Some k => length k = 4%nat /\ bytes_ok k | None => True end /\
  bytes_ok (w_data w) /\ len (w_data w) <= LIMIT_PAYLOAD_LEN.

Definition first_byte (w : wire_frame) : Z :=
  Z.lor (if w_fin w then 0x80 else 0) (Z.lor (Z.shiftl (w_rsv w) 4) (w_opcode w)).

(** The mask bit [m] and the length in 7, 7+16 or 7+64 bits. *)
Definition length_field (m n : Z) : bytes :=
  if n <? 126 then [Z.lor m n]
  else if n <? 2 ^ 16 then Z.lor m 126 :: be_bytes 2 n
  else Z.lor m 127 :: be_bytes 8 n.

Definition has_key (w : wire_frame) : bool := bool_decide (is_Some (w_key w)).

(** Masking (RFC 6455, 5.3): byte [i] of the data is sent xored with byte
    [i mod 4] of the key. *)
Definition mask_bytes (k l : bytes) : bytes :=
  imap (fun i c => Z.lxor c (k !!! (i mod 4)%nat)) l.

Definition mask_data (w : wire_frame) : bytes :=
  match w_key w with
  | Some k => mask_bytes k (w_data w)
  | None => w_data w
  end.

Definition encode (w : wire_frame) : bytes :=
  first_byte w :: length_field (if has_key w then 0x80 else 0) (len (w_data w)) ++
  default [] (w_key w) ++ mask_data w.

Definition encode_all (ws : list wire_frame) : bytes := concat (encode <$> ws).

(** ** The meaning of a frame for the parser *)

(** The caller's [WsFrame] after one more frame: [cont] is [m_isContinuation]. *)
Definition starts_message (cont : bool) (w : wire_frame) : bool :=
  negb cont && negb (w_opcode w =? 0).

Definition apply_frame (cont : bool) (f : WsFrame) (w : wire_frame) : WsFrame :=
  let fresh := starts_message cont w in
  mkWsFrame (w_fin w) (w_rsv w)
    (if fresh then w_opcode w else opcode f) (has_key w) (len (w_data w))
    (match w_key w with Some k => k | None => if fresh then [] else mask_key f end)
    ((if fresh then [] else payload f) ++ w_data w).

Section Codec.
Context {T : Type} (cb : WsFrame -> T -> T).

Definition idle_st (n : Z) (cont : bool) (f : WsFrame) (x : T) : pstate T :=
  mkP (mkParser Status_finAndOpcode n cont 0) f x.
Definition pending_st (cont : bool) (f : WsFrame) (x : T) : pstate T :=
  mkP (mkParser Status_payload 0 cont 0) f x.

(** What a frame does once it is complete. *)
Definition frame_step (s : bool * WsFrame * T) (w : wire_frame) : bool * WsFrame * T :=
  let '(cont, f, x) := s in
  let f' := apply_frame cont f w in
  (negb (w_fin w), f', if w_fin w then cb f' x else x).

Definition done_st (s : bool * WsFrame * T) : pstate T :=
  let '(cont, f, x) := s in idle_st 0 cont f x.

(** The effect of one more byte on a frame that only waits to be completed. *)
Definition flush (st : pstate T) : pstate T :=
  if decide (m_status (pp st) = Status_payload /\ m_byteNeed (pp st) = 0)
  then case_complete cb st else st.

(** ** Decoding the header *)

Lemma header_bits (b : bool) r o :
  0 <= r < 8 -> 0 <= o < 16 ->
  let c := Z.lor (if b then 0x80 else 0) (Z.lor (Z.shiftl r 4) o) in
  GET_FIN c = b /\ GET_RSV c = r /\ GET_OPCODE c = o /\ is_byte c.
Proof.
  intros Hr Ho c.
  pose (P b r o := let c := Z.lor (if b : bool then 0x80 else 0) (Z.lor (Z.shiftl r 4) o) in
  Bool.eqb (GET_FIN c) b && (GET_RSV c =? r) && (GET_OPCODE c =? o) &&
  (0 <=? c) && (c <? 256)).
  assert (H : P b r o = true).
  { destruct b; [apply (range_forall2 8 16 (P true))|apply (range_forall2 8 16 (P false))];
    try done; by vm_compute. }
  unfold P in H. fold c in H. bool_to_prop. by unfold is_byte.
Qed.

Lemma length_bits (b : bool) n :
  0 <= n < 128 ->
  let c := Z.lor (if b then 0x80 else 0) n in
  GET_MASK c = b /\ GET_PAYLOAD_LEN c = n /\ is_byte c.
Proof.
  intros Hn c.
  pose (P b n := let c := Z.lor (if b : bool then 0x80 else 0) n in
  Bool.eqb (GET_MASK c) b && (GET_PAYLOAD_LEN c =? n) && (0 <=? c) && (c <? 256)).
  assert (H : P b n = true).
  { destruct b; [apply (range_forall2 128 1 (fun n _ => P true n) ltac:(by vm_compute) n 0)
              |apply (range_forall2 128 1 (fun n _ => P false n) ltac:(by vm_compute) n 0)]; lia. }
  unfold P in H. fold c in H. bool_to_prop. by unfold is_byte.
Qed.

Definition switch (p : websocket_parser) (f : WsFrame) (x : T) : pstate T :=
  let '(p', f') := SWITCH_TO_MASK p f in mkP p' f' x.

(** The extended length: [k] bytes accumulated in big-endian order. *)
Lemma feed_length l need cont f x :
  l <> [] -> len l = need -> need <= 8 ->
  fold_step (feed cb) (mkP (mkParser Status_payloadLen need cont 0) f x) l =
  inl (switch (mkParser Status_payloadLen 0 cont 0)
       (set_payload_len (fold_left be_step l (payload_len f)) f) x).
Proof.
  revert need f; induction l as [|c l IH]; intros need f Hl Hn Hle; [done|]. clear Hl.
  rewrite len_cons in Hn. pose proof (len_nonneg l).
  cbn [fold_step]. unfold feed, feed_header, case_payloadLen. cbn [pp m_status m_byteNeed].
  destruct (Z.eqb_spec need 0); [lia|]. cbn.
  destruct (decide (l = [])) as [->|Hne].
  - rewrite len_nil in Hn. subst need. done.
  - assert (0 < len l) by (destruct l; [done|rewrite len_cons; pose proof (len_nonneg l); lia]).
  destruct (Z.eqb_spec (need - 1) 0); [lia|].
  unfold set_byteNeed, set_payload_len. cbn.
  rewrite IH by (done || lia). by destruct f.
Qed.

Lemma feed_length_field b n need cont f x :
  0 <= n < 2 ^ 64 ->
  exists p, m_isContinuation p = cont /\ m_maskIndex p = 0 /\
  fold_step (feed cb) (mkP (mkParser Status_payloadLenAndMask need cont 0) f x)
  (length_field (if b : bool then 0x80 else 0) n) =
  inl (switch p (set_payload_len n (set_mask b f)) x).
Proof.
  intros Hn. unfold length_field.
  destruct (Z.ltb_spec n 126); [|destruct (Z.ltb_spec n (2 ^ 16))]; cbn [fold_step];
  unfold feed at 1; cbn [pp m_status feed_header]; unfold feed_header, case_payloadLenAndMask;
  cbn [pp m_status pf ps].
  - destruct (length_bits b n ltac:(lia)) as (-> & -> & _). cbn.
  destruct (Z.leb_spec n 125); [|lia]. eexists. split_and!; [..|done]; done.
  - destruct (length_bits b 126 ltac:(lia)) as (-> & -> & _).
  unfold set_byteNeed, set_status, set_payload_len, set_mask. cbn -[be_bytes].
  exists (mkParser Status_payloadLen 0 cont 0). split_and!; [done..|].
  rewrite feed_length by (done || by unfold len; rewrite length_be_bytes).
  do 2 f_equal. unfold set_payload_len. simpl payload_len.
  by rewrite fold_be_bytes_0 by lia.
  - destruct (length_bits b 127 ltac:(lia)) as (-> & -> & _).
  unfold set_byteNeed, set_status, set_payload_len, set_mask. cbn -[be_bytes].
  exists (mkParser Status_payloadLen 0 cont 0). split_and!; [done..|].
  rewrite feed_length by (done || by unfold len; rewrite length_be_bytes).
  do 2 f_equal. unfold set_payload_len. simpl payload_len.
  by rewrite fold_be_bytes_0 by lia.
Qed.

(** The four bytes of the key. *)
Lemma feed_key k need cont f x :
  k <> [] -> len k = need ->
  fold_step (feed cb) (mkP (mkParser Status_maskKey need cont 0) f x) k =
  inl (mkP (mkParser Status_payload (payload_len f) cont 0) (set_mask_key (mask_key f ++ k) f) x).
Proof.
  revert need f; induction k as [|c k IH]; intros need f Hk Hn; [done|]. clear Hk.
  rewrite len_cons in Hn. pose proof (len_nonneg k).
  cbn [fold_step]. unfold feed, feed_header, case_maskKey. cbn [pp m_status m_byteNeed].
  destruct (Z.eqb_spec need 0); [lia|]. cbn.
  destruct (decide (k = [])) as [->|Hne].
  - rewrite len_nil in Hn. subst need. done.
  - assert (0 < len k) by (destruct k; [done|rewrite len_cons; pose proof (len_nonneg k); lia]).
  destruct (Z.eqb_spec (need - 1) 0); [lia|].
  unfold set_byteNeed, set_mask_key. cbn. rewrite IH by (done || lia).
  unfold set_mask_key. cbn. by rewrite <- app_assoc.
Qed.

Lemma key_index i n :
  0 <= i < 4 -> ((Z.to_nat i + S n) mod 4)%nat = ((Z.to_nat ((i + 1) mod 4) + n) mod 4)%nat.
Proof.
  intros Hi. rewrite Z2Nat.inj_mod, Z2Nat.inj_add by lia.
  rewrite Nat.Div0.add_mod_idemp_l. f_equal. lia.
Qed.

(** The parser's loop, begun at byte [i] of the key, undoes the masking. *)
Lemma unmask_masked_at k i l :
  0 <= i < 4 ->
  fst (unmask_loop k i (imap (fun n c => Z.lxor c (k !!! ((Z.to_nat i + n) mod 4)%nat)) l)) = l.
Proof.
  revert i; induction l as [|c l IH]; intros i Hi; [done|].
  rewrite imap_cons. cbn [unmask_loop].
  erewrite (imap_ext _ _ l); [|intros n x _; unfold compose;
    rewrite (key_index i n Hi);
    reflexivity].
  specialize (IH ((i + 1) mod 4) (Z.mod_pos_bound _ 4 ltac:(lia))). destruct (unmask_loop k _ _) as [o j]. cbn [fst] in *.
  rewrite IH. replace ((Z.to_nat i + 0) mod 4)%nat with (Z.to_nat i)
    by (rewrite Nat.add_0_r, Nat.mod_small; lia).
  by rewrite lxor_cancel.
Qed.

Lemma unmask_masked k l : fst (unmask_loop k 0 (mask_bytes k l)) = l.
Proof. apply (unmask_masked_at k 0 l). lia. Qed.

Lemma mask_data_len w : len (mask_data w) = len (w_data w).
Proof. unfold mask_data, mask_bytes, len. destruct (w_key w); [by rewrite length_imap|done]. Qed.

(** The header of [w] announcing [len] bytes of payload, up to its first one. *)
Definition header_st (cont : bool) (f : WsFrame) (w : wire_frame) (len : Z) (x : T) : pstate T :=
  mkP (mkParser Status_payload len cont 0)
  (set_payload_len len
    (set_payload (if starts_message cont w then [] else payload f) (apply_frame cont f w))) x.

Definition header_bytes (w : wire_frame) (len : Z) : bytes :=
  first_byte w :: length_field (if has_key w then 0x80 else 0) len ++ default [] (w_key w).

Definition header_ok (w : wire_frame) : Prop :=
  0 <= w_rsv w < 8 /\ 0 <= w_opcode w < 16 /\
  match w_key w with Some k => length k = 4%nat | None => True end.

Lemma wire_header_ok w : wire_ok w -> header_ok w.
Proof. intros (? & ? & Hk & _). do 2 (split; [done|]). destruct (w_key w); [apply Hk|done]. Qed.

Lemma feed_header_bytes w l n cont f x :
  header_ok w -> 0 <= l < 2 ^ 64 ->
  fold_step (feed cb) (idle_st n cont f x) (header_bytes w l) = inl (header_st cont f w l x).
Proof.
  intros (Hr & Ho & Hk) Hl. unfold header_bytes.
  destruct (header_bits (w_fin w) (w_rsv w) (w_opcode w) Hr Ho) as (Hfin & Hrsv & Hop & _).
  cbn [fold_step]. unfold feed at 1. cbn [idle_st pp m_status].
  unfold feed_header. cbn [idle_st pp m_status]. unfold case_finAndOpcode.
  fold (first_byte w) in *. rewrite Hfin, Hrsv, Hop. cbn [pf ps m_isContinuation].
  set (g := if _ && _ then _ else _). rewrite fold_step_app.
  destruct (feed_length_field (has_key w) l n cont g x Hl) as ([s m c i] & Hc & Hi & Hf).
  simpl in Hc, Hi. subst c i. unfold set_status.
  cbn [idle_st pp ps m_byteNeed m_isContinuation m_maskIndex].
  rewrite Hf. unfold switch, SWITCH_TO_MASK. cbn [mask set_payload_len set_mask].
  unfold header_st, has_key in *. destruct (w_key w) as [k|] eqn:Ek.
  - unfold set_byteNeed, set_status, set_mask_key. cbn.
  rewrite feed_key; [|by intros ->|by unfold len; rewrite Hk].
  subst g. unfold apply_frame, starts_message, has_key. rewrite Ek. cbn.
  by destruct cont, (w_opcode w =? 0).
  - cbn. subst g. unfold apply_frame, starts_message, has_key. rewrite Ek. cbn.
  by destruct cont, (w_opcode w =? 0).
Qed.

(** The payload bytes unmask to the data. *)
Lemma copy_masked w cont f x :
  copy_chunk (header_st cont f w (len (w_data w)) x) (mask_data w) =
  mkP (mkParser Status_payload 0 cont
       (match w_key w with Some k => snd (unmask_loop k 0 (mask_data w)) | None => 0 end))
    (apply_frame cont f w) x.
Proof.
  unfold copy_chunk, header_st. cbn [pf mask set_payload set_payload_len apply_frame].
  unfold has_key, mask_data. destruct (w_key w) as [k|] eqn:Ek; cbn.
  - pose proof (unmask_masked k (w_data w)) as Hu. unfold apply_frame. rewrite Ek. cbn.
  destruct (unmask_loop k 0 _) as [o j]. cbn in Hu |- *. subst o.
  unfold set_byteNeed, set_maskIndex, set_payload, len, mask_bytes. cbn.
  by rewrite length_imap, Z.sub_diag.
  - unfold set_byteNeed, set_payload. cbn. by rewrite Z.sub_diag.
Qed.

(** One whole frame. *)
Lemma feed_frame w n cont f x :
  wire_ok w ->
  fold_step (feed cb) (idle_st n cont f x) (encode w) =
  inl (if decide (w_data w = []) then pending_st cont (apply_frame cont f w) x
     else done_st (frame_step (cont, f, x) w)).
Proof.
  intros Hw. pose proof (wire_header_ok w Hw) as Hh. destruct Hw as (_ & _ & _ & _ & Hlim).
  unfold encode. rewrite app_assoc, app_comm_cons, fold_step_app.
  pose proof (len_nonneg (w_data w)). unfold LIMIT_PAYLOAD_LEN in Hlim.
  fold (header_bytes w (len (w_data w))). rewrite feed_header_bytes by (done || lia).
  pose proof (copy_masked w cont f x) as Hcopy.
  case_decide as Hd.
  - unfold mask_data, header_st. rewrite Hd. unfold pending_st, apply_frame. rewrite Hd.
  assert (match w_key w with Some k => mask_bytes k [] | None => [] end = []) as ->
    by (by destruct (w_key w)).
  cbn. unfold set_payload, set_payload_len. cbn. by rewrite app_nil_r.
  - rewrite feed_chunk; [|done|done| |by rewrite mask_data_len].
  + rewrite Hcopy. unfold finish_chunk. cbn. unfold case_complete. cbn.
    by destruct (w_fin w).
  + intros E. apply Hd. apply len_0. by rewrite <- mask_data_len, E.
Qed.

(** ** Streams of frames *)

Lemma case_complete_pending w cont f x :
  case_complete cb (pending_st cont (apply_frame cont f w) x) = done_st (frame_step (cont, f, x) w).
Proof. unfold case_complete. cbn. by destruct (w_fin w). Qed.

Lemma flush_done s : flush (done_st s) = done_st s.
Proof. destruct s as [[c f] x]. unfold flush. rewrite decide_False; [done|]. by intros [? _]. Qed.

Lemma feed_stream ws n cont f x :
  Forall wire_ok ws -> ws <> [] ->
  exists st', feed_all cb (idle_st n cont f x) (encode_all ws) = (SUCCESS, st') /\
  flush st' = done_st (fold_left frame_step ws (cont, f, x)) /\
  (w_data <$> last ws <> Some [] -> flush st' = st').
Proof.
  intros Hok. revert n cont f x. induction Hok as [|w ws Hw Hok IH]; intros n cont f x Hne; [done|].
  unfold encode_all. cbn [fmap list_fmap concat fold_left]. fold (encode_all ws).
  rewrite feed_all_app. unfold feed_all at 1. rewrite feed_frame by done.
  destruct (decide (ws = [])) as [->|Hws].
  - eexists. split; [done|]. cbn [fold_left last fmap option_fmap option_map]. case_decide as Hd.
  + split; [|by cbn; rewrite Hd]. unfold flush. rewrite decide_True by done.
    apply case_complete_pending.
  + by rewrite flush_done.
  - assert (Hcons : exists c l, encode_all ws = c :: l).
  { destruct ws as [|w' ws']; [done|]. unfold encode_all, encode. cbn. eauto. }
  assert (Hlast : last (w :: ws) = last ws) by (by destruct ws).
  rewrite Hlast. destruct Hcons as (c & l & Hcons).
  assert (Hgo : feed_all cb (if decide (w_data w = []) then pending_st cont (apply_frame cont f w) x
     else done_st (frame_step (cont, f, x) w)) (encode_all ws) =
     feed_all cb (done_st (frame_step (cont, f, x) w)) (encode_all ws)).
  { case_decide; [|done]. rewrite Hcons, feed_all_cons_pending; [|done| |done].
    - by rewrite case_complete_pending.
    - cbn. apply Hw. }
  rewrite Hgo. destruct (frame_step (cont, f, x) w) as [[c' f'] x'] eqn:Es. by apply IH.
Qed.
End Codec.

(** ** Fragmented messages *)

(** The frames of one message sent in [parts]: the first carries the opcode, the
    others are continuation frames, the last has FIN. *)
Fixpoint fragments (op : Z) (parts : list (option bytes * bytes)) : list wire_frame :=
  match parts with
  | [] => []
  | [(k, d)] => [mkWire true 0 op k d]
  | (k, d) :: parts' => mkWire false 0 op k d :: fragments WS_CONTINUATION parts'
  end.

Lemma fragments_cont {T} (cb : WsFrame -> T -> T) parts f x :
  parts <> [] ->
  exists F, fold_left (frame_step cb) (fragments WS_CONTINUATION parts) (true, f, x) = (false, F, cb F x) /\
    fin F = true /\ opcode F = opcode f /\ payload F = payload f ++ concat (snd <$> parts) /\
    forall k, fst <$> last parts = Some k -> mask F = bool_decide (is_Some k).
Proof.
  revert f; induction parts as [|[k d] parts IH]; intros f Hne; [done|].
  destruct (decide (parts = [])) as [->|Hp].
  - cbn. eexists. split; [done|]. cbn. rewrite app_nil_r. split_and!; try done. by intros ? [= <-].
  - destruct parts as [|p parts]; [done|]. cbn [fragments fold_left].
    destruct (IH (apply_frame true f (mkWire false 0 WS_CONTINUATION k d)) Hp) as (F & HF & Hfin & Ho & Hpay & Hm).
    exists F. cbn in *. rewrite HF. split_and!; try done. by rewrite Hpay, <- app_assoc.
Qed.

Lemma fragments_fold {T} (cb : WsFrame -> T -> T) op parts f x :
  op <> 0 -> parts <> [] ->
  exists F, fold_left (frame_step cb) (fragments op parts) (false, f, x) = (false, F, cb F x) /\
    fin F = true /\ opcode F = op /\ payload F = concat (snd <$> parts) /\
    forall k, fst <$> last parts = Some k -> mask F = bool_decide (is_Some k).
Proof.
  intros Hop Hne. apply Z.eqb_neq in Hop.
  destruct parts as [|[k d] parts]; [done|]. destruct (decide (parts = [])) as [->|Hp].
  - cbn. eexists. split; [done|]. unfold starts_message. cbn. rewrite Hop. cbn. rewrite app_nil_r.
    split_and!; try done. by intros ? [= <-].
  - destruct parts as [|p parts]; [done|]. cbn [fragments fold_left].
    destruct (fragments_cont cb (p :: parts) (apply_frame false f (mkWire false 0 op k d)) x Hp)
      as (F & HF & Hfin & Ho & Hpay & Hm).
    exists F. cbn in *. rewrite HF. unfold starts_message in *. cbn in *. rewrite Hop in *.
    done.
Qed.

Definition part_ok (p : option bytes * bytes) : Prop :=
  match fst p with Some k => length k = 4%nat /\ bytes_ok k | None => True end /\
  bytes_ok (snd p) /\ len (snd p) <= LIMIT_PAYLOAD_LEN.

Lemma fragments_ok op parts :
  0 <= op < 16 -> Forall part_ok parts -> Forall wire_ok (fragments op parts).
Proof.
  intros Hop Hok; revert op Hop; induction Hok as [|[k d] parts Hp Hok IH]; intros op Hop; [constructor|].
  destruct parts as [|p parts]; [constructor; [|constructor]|constructor; [|by apply IH]];
    destruct Hp as (Hk & Hd & Hl); (do 2 (split; [done|]); done).
Qed.

Lemma fragments_last op parts :
  w_data <$> last (fragments op parts) = snd <$> last parts.
Proof.
  revert op; induction parts as [|[k d] parts IH]; intros op; [done|].
  destruct parts as [|p parts]; [done|].
  change (last ((k, d) :: p :: parts)) with (last (p :: parts)). rewrite <- (IH WS_CONTINUATION).
  by destruct parts as [|? [|? ?]], p.
Qed.

(** ** Theorems *)

Definition WsFrame_ok (f : WsFrame) : Prop := 0 <= payload_len f.

Lemma idle_nonneg {T} n cont f (x : T) : 0 <= n -> WsFrame_ok f -> nonneg (idle_st n cont f x).
Proof. by split. Qed.

(** The frames of a stream, one after the other. *)
Lemma stream_decoded {T} (cb : WsFrame -> T -> T) (ws : list wire_frame) (n : Z) (cont : bool)
    (f : WsFrame) (x : T) (Hn : 0 <= n) (Hf : WsFrame_ok f) (Hws : Forall wire_ok ws)
    (Hne : ws <> []) :
  exists st', parse cb (idle_st n cont f x) (encode_all ws) = Some (SUCCESS, st') /\
    flush cb st' = done_st (fold_left (frame_step cb) ws (cont, f, x)) /\
    (w_data <$> last ws <> Some [] ->
     st' = done_st (fold_left (frame_step cb) ws (cont, f, x))).
Proof.
  rewrite parse_feed_all by (by apply idle_nonneg).
  destruct (feed_stream cb ws n cont f x Hws Hne) as (st' & -> & Hst & Hlast).
  exists st'. split_and!; [done|done|]. intros H. by rewrite <- Hst, Hlast.
Qed.

(** C29. Any stream of well-formed frames (masked or not, of any opcode, in any
    fragmentation, up to the 1 MiB limit) decodes without error to the fold of
    [frame_step]: the callback runs once for each FIN frame, on a [WsFrame] whose
    payload is the unmasked data.  The last frame may still be waiting for one
    more byte, but only if its payload is empty. *)
Theorem decode_stream {T} (cb : WsFrame -> T -> T) (ws : list wire_frame) (n : Z) (cont : bool)
    (f : WsFrame) (x : T) (Hn : 0 <= n) (Hf : WsFrame_ok f) (Hws : Forall wire_ok ws)
    (Hne : ws <> []) :
  exists st', parse cb (idle_st n cont f x) (encode_all ws) = Some (SUCCESS, st') /\
    flush cb st' = done_st (fold_left (frame_step cb) ws (cont, f, x)) /\
    (w_data <$> last ws <> Some [] ->
     st' = done_st (fold_left (frame_step cb) ws (cont, f, x))).
Proof. by eapply stream_decoded. Qed.

(** With the mask bit of the last fragment. *)
Lemma decode_message_masked {T} (cb : WsFrame -> T -> T) (op : Z) (parts : list (option bytes * bytes))
    (n : Z) (f : WsFrame) (x : T) (Hn : 0 <= n) (Hf : WsFrame_ok f) (Hop : 0 < op < 16)
    (Hparts : Forall part_ok parts) (Hlast : exists k d, last parts = Some (k, d) /\ d <> []) :
  exists F, parse cb (idle_st n false f x) (encode_all (fragments op parts)) =
      Some (SUCCESS, idle_st 0 false F (cb F x)) /\
    fin F = true /\ opcode F = op /\ payload F = concat (snd <$> parts) /\
    forall k, fst <$> last parts = Some k -> mask F = bool_decide (is_Some k).
Proof.
  destruct Hlast as (k & d & Hl & Hd).
  assert (Hne : parts <> []) by (by intros ->).
  destruct (fragments_fold cb op parts f x ltac:(lia) Hne) as (F & HF & Hprops).
  exists F. split; [|done].
  rewrite parse_feed_all by (by apply idle_nonneg).
  destruct (feed_stream cb (fragments op parts) n false f x) as (st' & -> & Hst & Hfl).
  - apply fragments_ok; [lia|done].
  - by destruct parts as [|[? ?] [|? ?]].
  - rewrite HF in Hst. repeat f_equal. rewrite <- Hfl; [done|].
    rewrite fragments_last, Hl. cbn. congruence.
Qed.

(** C1. A text or binary message of any number of fragments whose last one is not
    empty is delivered exactly once, when its last byte arrives: with the first
    fragment's opcode and the concatenation of all the fragments' data, each
    unmasked with its own key; and the parser is idle again. *)
Theorem decode_message {T} (cb : WsFrame -> T -> T) (op : Z) (parts : list (option bytes * bytes))
    (n : Z) (f : WsFrame) (x : T) (Hn : 0 <= n) (Hf : WsFrame_ok f) (Hop : 0 < op < 16)
    (Hparts : Forall part_ok parts) (Hlast : exists k d, last parts = Some (k, d) /\ d <> []) :
  exists F, parse cb (idle_st n false f x) (encode_all (fragments op parts)) =
      Some (SUCCESS, idle_st 0 false F (cb F x)) /\
    fin F = true /\ opcode F = op /\ payload F = concat (snd <$> parts).
Proof.
  destruct (decode_message_masked cb op parts n f x Hn Hf Hop Hparts Hlast) as (F & ? & ? & ? & ? & _). by exists F.
Qed.

(** C35. A frame that announces more than 1 MiB is refused at its first payload
    byte: [parse] returns [INVALID_PAYLOAD_LEN], no callback runs, and nothing of
    its payload is stored. *)
Theorem oversize_refused {T} (cb : WsFrame -> T -> T) (w : wire_frame) (l n : Z) (cont : bool)
    (f : WsFrame) (x : T) (c : Z) (more : bytes) (Hn : 0 <= n) (Hf : WsFrame_ok f)
    (Hw : header_ok w) (Hl : LIMIT_PAYLOAD_LEN < l < 2 ^ 64) :
  exists p F, parse cb (idle_st n cont f x) (header_bytes w l ++ c :: more) =
      Some (INVALID_PAYLOAD_LEN, mkP p F x) /\
    m_status p = Status_finAndOpcode /\
    payload F = (if starts_message cont w then [] else payload f).
Proof.
  rewrite parse_feed_all by (by apply idle_nonneg). rewrite feed_all_app.
  unfold LIMIT_PAYLOAD_LEN in Hl. unfold feed_all at 1.
  rewrite feed_header_bytes by (done || lia).
  unfold feed_all. cbn [fold_step]. unfold feed. cbn.
  unfold LIMIT_PAYLOAD_LEN. destruct (Z.ltb_spec (1024 * 1024) l); [|lia]. by do 2 eexists.
Qed.

(** An empty frame (an empty Ping, Close or text frame) is not delivered when
    its last byte arrives: the callback has not run, and it runs only when the
    next frame's first byte comes. *)
Theorem empty_frame_waits {T} (cb : WsFrame -> T -> T) (w : wire_frame) (n : Z) (cont : bool)
    (f : WsFrame) (x : T) (c : Z) (Hn : 0 <= n) (Hf : WsFrame_ok f) (Hw : wire_ok w)
    (Hempty : w_data w = []) (Hfin : w_fin w = true) :
  let F := apply_frame cont f w in
  parse cb (idle_st n cont f x) (encode w) = Some (SUCCESS, pending_st cont F x) /\
  ps (snd (feed_all cb (pending_st cont F x) [c])) = cb F x.
Proof.
  intros F. rewrite parse_feed_all by (by apply idle_nonneg). unfold feed_all at 1.
  rewrite feed_frame by done. rewrite decide_True by done. split; [done|].
  rewrite feed_all_cons_pending; [|done| |done].
  - fold F. pose proof (case_complete_pending cb w cont f x) as Hc. fold F in Hc. rewrite Hc.
    unfold feed_all, frame_step. rewrite Hfin. cbn. unfold case_finAndOpcode. by bdestruct_all.
  - cbn. rewrite Hempty. done.
Qed.

(** C36. A control frame sent between two fragments of a message is taken for the
    message's last fragment: the callback gets the message's opcode, not the
    control frame's, and a payload to which the control frame's data is added. *)
Theorem interleaved_control_frame {T} (cb : WsFrame -> T -> T) (op : Z) (k1 k2 : option bytes)
    (d1 d2 : bytes) (f : WsFrame) (x : T) (n : Z) (Hn : 0 <= n) (Hf : WsFrame_ok f)
    (Hop : 0 < op < 16) (H1 : part_ok (k1, d1)) (H2 : part_ok (k2, d2)) (Hd2 : d2 <> []) :
  exists F, parse cb (idle_st n false f x)
      (encode (mkWire false 0 op k1 d1) ++ encode (mkWire true 0 WS_PING k2 d2)) =
      Some (SUCCESS, idle_st 0 false F (cb F x)) /\
    opcode F = op /\ payload F = d1 ++ d2.
Proof.
  set (ws := [mkWire false 0 op k1 d1; mkWire true 0 WS_PING k2 d2]).
  assert (Hws : Forall wire_ok ws).
  { destruct H1 as (? & ? & ?), H2 as (? & ? & ?). repeat constructor; try done; cbn; lia. }
  destruct (feed_stream cb ws n false f x Hws ltac:(done)) as (st' & Hst & Hfl & Hl).
  rewrite parse_feed_all by (by apply idle_nonneg).
  unfold ws, encode_all in Hst. cbn [fmap list_fmap concat] in Hst. rewrite app_nil_r in Hst.
  rewrite Hst. rewrite Hl in Hfl by (cbn; congruence). rewrite Hfl.
  cbn. eexists. split; [done|]. unfold starts_message. cbn.
  destruct (Z.eqb_spec op 0); [lia|]. done.
Qed.

(** ** Concrete runs *)

Definition key1 : bytes := [0x37; 0xfa; 0x21; 0x3d].

Lemma key1_ok : length key1 = 4%nat /\ bytes_ok key1.
Proof. split; [done|]. repeat constructor; vm_compute; congruence. Qed.

Ltac ok_bytes := repeat constructor; vm_compute; congruence.

Lemma decode_stream_witness :
  let ws := [mkWire true 0 WS_TEXT (Some key1) (bs "Hello"); mkWire true 0 WS_PING (Some key1) []] in
  Forall wire_ok ws /\
  exists st', parse log_frame (idle_st 1 false (WsFrame_init false) []) (encode_all ws) = Some (SUCCESS, st') /\
    flush log_frame st' = done_st (fold_left (frame_step log_frame) ws (false, WsFrame_init false, [])) /\
    (w_data <$> last ws <> Some [] ->
     st' = done_st (fold_left (frame_step log_frame) ws (false, WsFrame_init false, []))).
Proof.
  intros ws.
  assert (H : Forall wire_ok ws).
  { repeat constructor; try (by vm_compute); apply key1_ok. }
  split; [exact H|].
  apply (decode_stream log_frame ws 1 false (WsFrame_init false) []); [lia|unfold WsFrame_ok; cbn; lia|exact H|done].
Defined.

Lemma decode_message_witness :
  let parts := [(Some key1, bs "Hel"); (Some key1, bs "lo")] in
  exists F, parse log_frame (idle_st 1 false (WsFrame_init false) []) (encode_all (fragments WS_TEXT parts)) =
      Some (SUCCESS, idle_st 0 false F (log_frame F [])) /\
    fin F = true /\ opcode F = WS_TEXT /\ payload F = concat (snd <$> parts).
Proof.
  intros parts.
  apply (decode_message log_frame WS_TEXT parts 1 (WsFrame_init false) []).
  - lia.
  - unfold WsFrame_ok. cbn. lia.
  - unfold WS_TEXT. lia.
  - repeat constructor; try (by vm_compute).
  - exists (Some key1), (bs "lo"). by split.
Defined.

Lemma oversize_refused_witness :
  let w := mkWire true 0 WS_BINARY (Some key1) [] in
  let l := LIMIT_PAYLOAD_LEN + 1 in
  exists p F, parse log_frame (idle_st 1 false (WsFrame_init false) []) (header_bytes w l ++ 65 :: [66]) =
      Some (INVALID_PAYLOAD_LEN, mkP p F []) /\
    m_status p = Status_finAndOpcode /\
    payload F = (if starts_message false w then [] else payload (WsFrame_init false)).
Proof.
  intros w l.
  apply (oversize_refused log_frame w l 1 false (WsFrame_init false) [] 65 [66]).
  - lia.
  - unfold WsFrame_ok. cbn. lia.
  - by repeat split; vm_compute.
  - by split; vm_compute.
Defined.

Lemma empty_frame_waits_witness :
  let w := mkWire true 0 WS_CLOSE (Some key1) [] in
  let F := apply_frame false (WsFrame_init false) w in
  parse log_frame (idle_st 1 false (WsFrame_init false) []) (encode w) = Some (SUCCESS, pending_st false F []) /\
  ps (snd (feed_all log_frame (pending_st false F []) [0x88])) = log_frame F [].
Proof.
  intros w. apply (empty_frame_waits log_frame w 1 false (WsFrame_init false) [] 0x88); try done.
  repeat constructor; try (by vm_compute); apply key1_ok.
Defined.

Lemma interleaved_control_frame_witness :
  exists F, parse log_frame (idle_st 1 false (WsFrame_init false) [])
      (encode (mkWire false 0 WS_TEXT (Some key1) (bs "ab")) ++ encode (mkWire true 0 WS_PING (Some key1) (bs "p"))) =
      Some (SUCCESS, idle_st 0 false F (log_frame F [])) /\
    opcode F = WS_TEXT /\ payload F = bs "ab" ++ bs "p".
Proof.
  apply (interleaved_control_frame log_frame WS_TEXT (Some key1) (Some key1) (bs "ab") (bs "p")
           (WsFrame_init false) [] 1).
  - lia.
  - unfold WsFrame_ok. cbn. lia.
  - unfold WS_TEXT. lia.
  - split_and!; [|ok_bytes|by vm_compute]. cbn. split; [done|ok_bytes].
  - split_and!; [|ok_bytes|by vm_compute]. cbn. split; [done|ok_bytes].
  - done.
Defined.
