(* ===== verification/WsMember.v ===== *)
(** * The parser as a member of its session

    [m_parser] and [m_frame] are members of the session that [onComplete] works on, so
    the callback may end their life: [parse] then goes on with its loop, if there are
    bytes left, in an object that is gone.  [parse_member] is the loop of
    [websocket_parser::parse] with this outcome made visible; [gone] says, of the state
    the callback works on, that the session is no longer there. *)

From S2P Require Import Prelude WsParser WsCodec.

(** How a call of [parse] ends. *)
Inductive member_outcome (T : Type) :=
  | Member_parsed (err : WsParseErr) (st : pstate T)
  | Member_gone (st : pstate T).
Arguments Member_parsed {T} _ _.
Arguments Member_gone {T} _.

Definition outcome_st {T} (o : member_outcome T) : pstate T :=
  match o with Member_parsed _ st | Member_gone st => st end.

Section Member.
Context {T : Type} (gone : T -> bool) (cb : WsFrame -> T -> T).
Implicit Types (st : pstate T) (l : bytes).

(** Every iteration begins with a read of [m_status]. *)
Fixpoint parse_member_loop (fuel : nat) st l : option (member_outcome T) :=
  match l with
  | [] => Some (Member_parsed SUCCESS st)
  | ch :: rest =>
    if gone (ps st) then Some (Member_gone st)
    else match fuel with
    | O => None
    | S fuel' =>
        match parse_iter cb st ch rest with
        | Stop err st' => Some (Member_parsed err st')
        | Next st' rest' => parse_member_loop fuel' st' rest'
        end
    end
  end.

Definition parse_member st (data : bytes) : option (member_outcome T) :=
  if len data =? 0 then Some (Member_parsed SUCCESS st)
  else parse_member_loop (2 * length data) st data.

(** ** What the callback keeps while the parser is there *)

Lemma parse_member_preserves (P : T -> Prop) st data o :
  (forall f x, gone x = false -> P x -> P (cb f x)) ->
  P (ps st) -> parse_member st data = Some o -> P (ps (outcome_st o)).
Proof.
  intros Hcb. unfold parse_member. intros HP. destruct (len data =? 0); [by intros [= <-]|].
  generalize (2 * length data)%nat as fuel. intros fuel. revert st data HP.
  induction fuel as [|fuel IH]; intros st [|c rest] HP; cbn [parse_member_loop]; try (by intros [= <-]);
    (destruct (gone (ps st)) eqn:Hg; [by intros [= <-]|]); [done|].
  assert (match parse_iter cb st c rest with Next st' _ | Stop _ st' => P (ps st') end) as Hi.
  { pose proof (parse_iter_preserves cb (fun x => x = ps st \/ P x)) as Hk.
    pose proof (parse_iter_preserves (fun f x => if gone x then x else cb f x) P) as Hk'.
    assert (parse_iter cb st c rest = parse_iter (fun f x => if gone x then x else cb f x) st c rest) as ->.
    { unfold parse_iter, case_payload, case_complete. destruct (m_status (pp st)); try done.
      - destruct (_ <? _); [done|]. cbv zeta. destruct (mask (pf st)); [destruct (unmask_loop _ _ _)|];
          (destruct (_ =? _); [|done]); cbn [ps pf]; by rewrite Hg.
      - cbn. by rewrite Hg. }
    apply Hk'; [|done]. intros f x Hx. destruct (gone x) eqn:E; [done|by apply Hcb]. }
  destruct (parse_iter cb st c rest); [by apply IH|by intros [= <-]].
Qed.

(** ** One byte at a time *)

(** An empty payload is completed by an iteration of its own, after which the parser is
  read again for the same byte. *)
Definition feed_member st (ch : Z) : pstate T + (option WsParseErr * pstate T) :=
  if gone (ps st) then inr (None, st)
  else match m_status (pp st) with
  | Status_payload =>
    if LIMIT_PAYLOAD_LEN <? payload_len (pf st) then
      inr (Some INVALID_PAYLOAD_LEN,
           mkP (set_isContinuation false (set_status Status_finAndOpcode (pp st))) (pf st) (ps st))
    else if m_byteNeed (pp st) =? 0 then
      let st' := case_complete cb st in
      if gone (ps st') then inr (None, st') else inl (feed_header cb st' ch)
    else inl (feed_payload cb st ch)
  | _ => inl (feed_header cb st ch)
  end.

Definition member_result (r : pstate T + (option WsParseErr * pstate T)) : member_outcome T :=
  match r with
  | inl st => Member_parsed SUCCESS st
  | inr (Some e, st) => Member_parsed e st
  | inr (None, st) => Member_gone st
  end.
End Member.

(** ** The loop computes what the byte machine computes *)

Section Machine.
Context {T : Type} (gone : T -> bool) (cb : WsFrame -> T -> T).
Implicit Types (st : pstate T) (l : bytes).

Abbreviation feed_member := (feed_member gone cb).

Lemma feed_member_feed st ch :
  gone (ps st) = false -> gone (ps (case_complete cb st)) = false ->
  feed_member st ch = match feed cb st ch with inl st' => inl st' | inr (e, st') => inr (Some e, st') end.
Proof.
  intros Hg Hg'. unfold WsMember.feed_member, feed. rewrite Hg. destruct (m_status (pp st)); try done.
  destruct (_ <? _); [done|]. destruct (_ =? _); [|done]. cbv zeta. by rewrite Hg'.
Qed.

(** A step other than the completion of an empty frame does not call before its byte. *)
Lemma feed_member_busy st ch :
  gone (ps st) = false -> ~ (m_status (pp st) = Status_payload /\ m_byteNeed (pp st) = 0) ->
  feed_member st ch = match feed cb st ch with inl st' => inl st' | inr (e, st') => inr (Some e, st') end.
Proof.
  intros Hg Hb. unfold WsMember.feed_member, feed. rewrite Hg. destruct (m_status (pp st)); try done.
  destruct (_ <? _); [done|]. destruct (Z.eqb_spec (m_byteNeed (pp st)) 0); [|done]. by destruct Hb.
Qed.

Lemma ps_copy_chunk st l : ps (copy_chunk st l) = ps st.
Proof. unfold copy_chunk. destruct (mask (pf st)); [destruct (unmask_loop _ _ _)|]; done. Qed.

(** A chunk of payload, of which only the last byte can complete the frame. *)
Lemma member_chunk st l :
  m_status (pp st) = Status_payload -> payload_len (pf st) <= LIMIT_PAYLOAD_LEN ->
  l <> [] -> len l <= m_byteNeed (pp st) -> gone (ps st) = false ->
  fold_step feed_member st l = inl (finish_chunk cb (copy_chunk st l)).
Proof.
  intros Hs Hlim Hne Hl Hg. induction l as [|c l IH] using rev_ind; [done|]. clear Hne.
  rewrite len_app, len_cons, len_nil in Hl. rewrite fold_step_app, copy_chunk_app.
  destruct (decide (l = [])) as [->|Hne].
  { rewrite len_nil in Hl. cbn [fold_step]. rewrite feed_member_busy by (done || (intros [_ ?]; lia)).
    pose proof (feed_chunk cb st [c] Hs Hlim ltac:(done) ltac:(rewrite len_cons, len_nil; lia)) as Hc.
    cbn [fold_step] in Hc. destruct (feed cb st c) as [s|]; [|done]. injection Hc as ->.
    rewrite <- copy_chunk_app. done. }
  pose proof (len_nonneg l). rewrite IH by (done || lia).
  destruct (copy_chunk_fields st l) as (Hs' & Hn' & Hl').
  unfold finish_chunk at 1. rewrite (proj2 (Z.eqb_neq (m_byteNeed (pp (copy_chunk st l))) 0)) by lia.
  cbn [fold_step]. rewrite feed_member_busy; [|by rewrite ps_copy_chunk|intros [_ ?]; lia].
  rewrite feed_one_payload; rewrite ?Hs', ?Hl', ?Hn'; try done. lia.
Qed.

Lemma member_loop_feed fuel st l :
  nonneg st -> iters_enough fuel st l ->
  parse_member_loop gone cb fuel st l = Some (member_result (fold_step feed_member st l)).
Proof.
  revert st l; induction fuel as [|fuel IH]; intros st [|c rest] Hok Hf; try done;
    (destruct Hf as [?|Hf]; [done|]; cbn [length] in Hf); cbn [parse_member_loop].
  { lia. }
  destruct (gone (ps st)) eqn:Hg.
  { cbn [fold_step]. unfold WsMember.feed_member. by rewrite Hg. }
  assert (Hhdr : m_status (pp st) <> Status_payload ->
    parse_member_loop gone cb fuel (feed_header cb st c) rest = Some (member_result (fold_step feed_member st (c :: rest)))).
  { intros Hs. rewrite IH; [|by apply feed_header_nonneg|right; left; lia].
    cbn [fold_step]. unfold WsMember.feed_member at 2. rewrite Hg. by destruct (m_status (pp st)). }
  unfold parse_iter, feed_header in *. destruct (m_status (pp st)) eqn:Hs; try by apply Hhdr.
  destruct (Z.le_gt_cases (payload_len (pf st)) LIMIT_PAYLOAD_LEN) as [Hlim|Hlim].
  2: { unfold case_payload. cbn [fold_step]. unfold WsMember.feed_member. rewrite Hg, Hs. by apply Z.ltb_lt in Hlim as ->. }
  destruct Hok as [Hn Hp]. rewrite case_payload_copy by done. set (n := Z.to_nat (m_byteNeed (pp st))).
  destruct (decide (m_byteNeed (pp st) = 0)) as [H0|H0].
  - assert (n = 0%nat) as -> by lia. rewrite take_0, drop_0.
    assert (finish_chunk cb (copy_chunk st []) = case_complete cb st) as ->.
    { destruct (copy_chunk_fields st []) as (_ & Hn' & _).
      unfold finish_chunk. rewrite Hn', H0. destruct st as [[] [? ? ? [] ? ? ?] ?].
      all: unfold case_complete; simpl; rewrite ?app_nil_r; by destruct fin. }
    rewrite IH.
    + cbn [fold_step]. unfold WsMember.feed_member at 1 3. rewrite case_complete_idle, Hg, Hs, H0.
      apply Z.ltb_ge in Hlim as ->. cbn [Z.eqb]. cbv zeta. by destruct (gone (ps (case_complete cb st))).
    + unfold nonneg. rewrite case_complete_need. split; [done|]. unfold case_complete. by destruct (fin (pf st)).
    + right; right. rewrite case_complete_idle. split; [|by intros [? _]].
      destruct Hf as [Hf|[_ []]]; [cbn [length]; lia|done].
  - assert (Hlen : len (take n (c :: rest)) <= m_byteNeed (pp st)) by (rewrite len_take; lia).
    rewrite IH; [|by apply finish_copy_nonneg|].
    + rewrite <- (take_drop n (c :: rest)) at 3. rewrite fold_step_app, (member_chunk st (take n (c :: rest))); try done.
      destruct n eqn:En; [lia|done].
    + right; left. rewrite length_drop. cbn [length]. lia.
Qed.

(** [parse_member] always returns. *)
Lemma parse_member_feed st data :
  nonneg st -> parse_member gone cb st data = Some (member_result (fold_step feed_member st data)).
Proof.
  intros Hst. unfold parse_member. destruct (Z.eqb_spec (len data) 0) as [H|H].
  - by apply len_0 in H as ->.
  - apply member_loop_feed; [done|]. right; left. lia.
Qed.

Lemma feed_member_error st l e st' : fold_step feed_member st l = inr (Some e, st') -> e <> SUCCESS.
Proof.
  revert st. induction l as [|c l IH]; intros st; [done|]. cbn [fold_step].
  destruct (feed_member st c) as [s|[o s]] eqn:E; [apply IH|]. intros [= -> ->]. revert E.
  unfold WsMember.feed_member. destruct (gone _); [by intros [=]|]. destruct (m_status _); try done.
  destruct (_ <? _); [by intros [= <-]|]. destruct (_ =? _); [|done]. cbv zeta. by destruct (gone _).
Qed.

(** One call on [a ++ b] goes on after [a] like a call on [b]. *)
Lemma parse_member_app st st' a b :
  nonneg st -> nonneg st' -> parse_member gone cb st a = Some (Member_parsed SUCCESS st') ->
  parse_member gone cb st (a ++ b) = parse_member gone cb st' b.
Proof.
  intros Hst Hst' Ha. rewrite (parse_member_feed st a) in Ha by done. rewrite !parse_member_feed, fold_step_app by done.
  destruct (fold_step feed_member st a) as [s|[[e|] s]] eqn:E; cbn in Ha; [by injection Ha as ->| |done].
  injection Ha as -> ->. by apply feed_member_error in E.
Qed.

Lemma feed_member_nonneg st c :
  nonneg st -> match feed_member st c with inl st' => nonneg st' | inr (_, st') => nonneg st' end.
Proof.
  intros Hst. pose proof (feed_nonneg cb st c Hst) as Hf. unfold WsMember.feed_member. destruct (gone (ps st)) eqn:Hg; [done|].
  revert Hf. unfold feed. destruct (m_status (pp st)); try done. destruct (_ <? _); [done|]. destruct (_ =? _); [|done].
  cbv zeta. destruct (gone (ps (case_complete cb st))); [|done]. intros _. unfold nonneg. rewrite case_complete_need. split; [done|].
  unfold case_complete. destruct (fin (pf st)); apply Hst.
Qed.

Lemma parse_member_nonneg st data o : nonneg st -> parse_member gone cb st data = Some o -> nonneg (outcome_st o).
Proof.
  intros Hst. rewrite parse_member_feed by done. intros [= <-].
  pose proof (fold_step_inv feed_member nonneg (fun _ => True) (fun s b H _ => feed_member_nonneg s b H) data st Hst
    ltac:(by apply Forall_true)) as H.
  by destruct (fold_step feed_member st data) as [|[[]]].
Qed.

Lemma parse_member_gone st data st' : parse_member gone cb st data = Some (Member_gone st') -> gone (ps st') = true.
Proof.
  unfold parse_member. destruct (len data =? 0); [done|]. generalize (2 * length data)%nat as fuel. intros fuel.
  revert st data. induction fuel as [|fuel IH]; intros st [|c rest]; cbn [parse_member_loop]; try done;
    (destruct (gone (ps st)) eqn:Hg; [by intros [= <-]|]); [done|].
  destruct (parse_iter cb st c rest); [apply IH|done].
Qed.

Lemma feed_header_keeps (P : T -> Prop) st c :
  (forall f x, P x -> P (cb f x)) -> P (ps st) -> P (ps (feed_header cb st c)).
Proof.
  intros Hcb HP. unfold feed_header. destruct (m_status (pp st)); try (by apply (case_complete_preserves cb P)); [done|..].
  - unfold case_payloadLenAndMask, SWITCH_TO_MASK. repeat case_match; simplify_eq/=; done.
  - unfold case_payloadLen, SWITCH_TO_MASK. repeat case_match; simplify_eq/=; done.
  - unfold case_maskKey. repeat case_match; simplify_eq/=; done.
Qed.

Lemma feed_keeps (P : T -> Prop) st c st' :
  (forall f x, P x -> P (cb f x)) -> P (ps st) -> feed cb st c = inl st' -> P (ps st').
Proof.
  intros Hcb HP. unfold feed.
  destruct (m_status (pp st)) eqn:Hs; try (intros [= <-]; by apply (feed_header_keeps P)).
  destruct (_ <? _); [done|]. destruct (_ =? _); intros [= <-].
  - by apply (feed_header_keeps P), (case_complete_preserves cb P).
  - unfold feed_payload. destruct (mask (pf st)); cbv zeta; (destruct (_ =? _); [by apply (case_complete_preserves cb P)|done]).
Qed.

(** When the state is not gone after the bytes, it was not gone on the way. *)
Lemma member_run_alive st l st' :
  (forall f x, gone x = true -> gone (cb f x) = true) ->
  fold_step (feed cb) st l = inl st' -> gone (ps st') = false -> fold_step feed_member st l = inl st'.
Proof.
  intros Hkeep. assert (forall l st, gone (ps st) = true -> forall st', fold_step (feed cb) st l = inl st' -> gone (ps st') = true) as Hmono.
  { clear st l st'. intros l. induction l as [|c l IH]; intros st Hg st'; cbn [fold_step]; [by intros [= <-]|].
    destruct (feed cb st c) as [s|] eqn:E; [|done]. apply IH.
    by apply (feed_keeps (fun x => gone x = true) st c s Hkeep). }
  revert st. induction l as [|c l IH]; intros st; cbn [fold_step]; [by intros [= <-]|]. intros Hf Hg.
  destruct (gone (ps st)) eqn:Hst; [by rewrite (Hmono (c :: l) st Hst st' Hf) in Hg|].
  destruct (feed cb st c) as [s|] eqn:E; [|done].
  destruct (gone (ps (case_complete cb st))) eqn:Hc.
  2: { rewrite feed_member_feed, E by done. by apply IH. }
  assert (~ (m_status (pp st) = Status_payload /\ m_byteNeed (pp st) = 0)) as Hb.
  { intros [Hs Hn]. revert E. unfold feed. rewrite Hs, Hn. destruct (_ <? _); [done|]. cbn [Z.eqb]. intros [= <-].
    rewrite (Hmono l _ (feed_header_keeps (fun x => gone x = true) _ c Hkeep Hc) st' Hf) in Hg. done. }
  rewrite feed_member_busy, E by done. by apply IH.
Qed.
End Machine.

(** ** Streams of frames *)

Section Frames.
Context {T : Type} (gone : T -> bool) (cb : WsFrame -> T -> T).

Abbreviation feed_member := (feed_member gone cb).

(** The callback is only called while the session is there. *)
Definition guard (f : WsFrame) (x : T) : T := if gone x then x else cb f x.

Lemma feed_member_guard st c : WsMember.feed_member gone guard st c = feed_member st c.
Proof.
  unfold WsMember.feed_member. destruct (gone (ps st)) eqn:Hg; [done|].
  assert (forall p f, case_complete guard (mkP p f (ps st)) = case_complete cb (mkP p f (ps st))) as Hc.
  { intros p f. unfold case_complete, guard. cbn [pp pf ps]. by rewrite Hg. }
  assert (case_complete guard st = case_complete cb st) as Hst by (destruct st; apply Hc).
  rewrite Hst. unfold feed_header, feed_payload. rewrite Hst, !case_complete_idle.
  destruct (mask (pf st)); cbv zeta; rewrite Hc; by destruct (m_status (pp st)).
Qed.

Lemma member_guard st l : fold_step (WsMember.feed_member gone guard) st l = fold_step feed_member st l.
Proof.
  revert st. induction l as [|c l IH]; intros st; [done|]. cbn [fold_step]. rewrite feed_member_guard.
  by destruct (feed_member st c).
Qed.

Lemma member_header w l n cont f x :
  header_ok w -> 0 <= l < 2 ^ 64 -> gone x = false ->
  fold_step feed_member (idle_st n cont f x) (header_bytes w l) = inl (header_st cont f w l x).
Proof.
  intros Hw Hl Hg. rewrite <- member_guard. apply member_run_alive; [|by apply feed_header_bytes|done].
  intros g y Hy. unfold guard. by rewrite Hy.
Qed.

Lemma member_frame w n cont f x :
  wire_ok w -> gone x = false ->
  fold_step feed_member (idle_st n cont f x) (encode w) =
  inl (if decide (w_data w = []) then pending_st cont (apply_frame cont f w) x
       else done_st (frame_step cb (cont, f, x) w)).
Proof.
  intros Hw Hg. pose proof (feed_frame cb w n cont f x Hw) as Hf. pose proof (wire_header_ok w Hw) as Hh.
  destruct Hw as (_ & _ & _ & _ & Hlim). revert Hf.
  unfold encode. rewrite app_assoc, app_comm_cons, !fold_step_app.
  pose proof (len_nonneg (w_data w)). unfold LIMIT_PAYLOAD_LEN in Hlim.
  fold (header_bytes w (len (w_data w))). rewrite feed_header_bytes, member_header by (done || lia).
  destruct (decide (mask_data w = [])) as [->|Hd]; [by cbn [fold_step]; intros [= ->]|].
  rewrite feed_chunk, member_chunk; rewrite ?mask_data_len; try done. by intros [= ->].
Qed.

(** A stream of frames is read to its end if the session is there until the last frame. *)
Lemma member_stream ws n cont f x :
  Forall wire_ok ws -> ws <> [] -> w_data <$> last ws <> Some [] ->
  (forall ws1 w ws2, ws = ws1 ++ w :: ws2 -> gone (snd (fold_left (frame_step cb) ws1 (cont, f, x))) = false) ->
  fold_step feed_member (idle_st n cont f x) (encode_all ws) =
  inl (done_st (fold_left (frame_step cb) ws (cont, f, x))).
Proof.
  intros Hok. revert n cont f x. induction Hok as [|w ws Hw Hok IH]; intros n cont f x Hne Hl Hal; [done|].
  unfold encode_all. cbn [fmap list_fmap concat fold_left]. fold (encode_all ws).
  rewrite fold_step_app, member_frame by (done || by apply (Hal [] w ws)).
  destruct (decide (ws = [])) as [->|Hws].
  { cbn in Hl |- *. by rewrite decide_False by congruence. }
  assert (w_data <$> last ws <> Some []) as Hl' by (by destruct ws).
  assert (forall ws1 w' ws2, ws = ws1 ++ w' :: ws2 ->
    gone (snd (fold_left (frame_step cb) ws1 (frame_step cb (cont, f, x) w))) = false) as Hal'.
  { intros ws1 w' ws2 ->. by apply (Hal (w :: ws1) w' ws2). }
  assert (gone (snd (frame_step cb (cont, f, x) w)) = false) as Hg.
  { destruct ws as [|w' ws']; [done|]. by apply (Hal [w] w' ws'). }
  destruct (frame_step cb (cont, f, x) w) as [[c' f'] x'] eqn:Es.
  transitivity (fold_step feed_member (done_st (c', f', x')) (encode_all ws)); [|by apply IH].
  case_decide as Hd; [|done].
  destruct ws as [|w' ws']; [done|]. unfold encode_all, encode. cbn [fmap list_fmap concat app].
  cbn [fold_step]. unfold WsMember.feed_member at 1 3.
  pose proof (case_complete_pending cb w cont f x) as Hc. rewrite Es in Hc. rewrite Hc.
  cbn [pending_st pp pf ps m_status m_byteNeed]. rewrite (Hal [] w (w' :: ws') eq_refl : gone x = false).
  destruct (Z.ltb_spec LIMIT_PAYLOAD_LEN (payload_len (apply_frame cont f w))) as [Hlt|_].
  { cbn in Hlt. rewrite Hd in Hlt. done. }
  cbn [Z.eqb done_st idle_st pp ps m_status]. cbn [snd] in Hg. by rewrite Hg.
Qed.

(** The same for a call of [parse]. *)
Lemma parse_member_stream ws n cont f x :
  0 <= n -> WsFrame_ok f -> Forall wire_ok ws -> ws <> [] -> w_data <$> last ws <> Some [] ->
  (forall ws1 w ws2, ws = ws1 ++ w :: ws2 -> gone (snd (fold_left (frame_step cb) ws1 (cont, f, x))) = false) ->
  parse_member gone cb (idle_st n cont f x) (encode_all ws) =
  Some (Member_parsed SUCCESS (done_st (fold_left (frame_step cb) ws (cont, f, x)))).
Proof.
  intros Hn Hf Hws Hne Hl Hal. rewrite parse_member_feed by (by apply idle_nonneg). by rewrite member_stream.
Qed.

(** The fragments of one message: only the last one calls. *)
Lemma fragments_quiet op parts cont f x ws1 w ws2 :
  fragments op parts = ws1 ++ w :: ws2 -> snd (fold_left (frame_step cb) ws1 (cont, f, x)) = x.
Proof.
  revert op parts cont f. induction ws1 as [|w1 ws1 IH]; intros op parts cont f Hp; [done|].
  destruct parts as [|[k d] [|p parts]]; [done| |].
  - cbn in Hp. injection Hp as <- Hp. by destruct ws1.
  - cbn [fragments app] in Hp. injection Hp as <- Hp. exact (IH _ (p :: parts) true (apply_frame cont f _) Hp).
Qed.

Lemma parse_member_message op parts n f x :
  0 <= n -> WsFrame_ok f -> 0 < op < 16 -> Forall part_ok parts ->
  (exists k d, last parts = Some (k, d) /\ d <> []) -> gone x = false ->
  exists F, parse_member gone cb (idle_st n false f x) (encode_all (fragments op parts)) =
      Some (Member_parsed SUCCESS (idle_st 0 false F (cb F x))) /\
    fin F = true /\ opcode F = op /\ payload F = concat (snd <$> parts) /\
    forall k, fst <$> last parts = Some k -> mask F = bool_decide (is_Some k).
Proof.
  intros Hn Hf Hop Hparts (k & d & Hl & Hd) Hg. assert (Hne : parts <> []) by (by intros ->).
  destruct (fragments_fold cb op parts f x ltac:(lia) Hne) as (F & HF & Hprops).
  exists F. split; [|done]. rewrite parse_member_stream; try done.
  - by rewrite HF.
  - apply fragments_ok; [lia|done].
  - by destruct parts as [|[? ?] [|? ?]].
  - rewrite fragments_last, Hl. cbn. congruence.
  - intros ws1 w ws2 Hw. by rewrite (fragments_quiet _ _ _ _ _ _ _ _ Hw).
Qed.
End Frames.

(** A callback after which the session is gone: the bytes that follow are not read. *)
Example gone_after_frame :
  parse_member (fun n => n =? 1)%nat (fun _ n => S n) (mkP websocket_parser_init (WsFrame_init false) 0%nat) (hello_frame ++ hello_frame) =
  Some (Member_gone (mkP (mkParser Status_finAndOpcode 0 false 0) (mkWsFrame true 0 1 true 5 [0; 0; 0; 0] (bs "Hello")) 1%nat)).
Proof. vm_compute. reflexivity. Qed.
