(* ===== verification/HttpTypes.v ===== *)
(** * The data of the HTTP parser (src/third-party/http-parser/http_parser.{h,c})

    The enumerations, the [http_parser] record with its bit-field widths, the
    character tables and the small functions over them. *)

From S2P Require Import Prelude.

(** ** Enumerations (http_parser.h) *)

Inductive http_parser_type := HTTP_REQUEST | HTTP_RESPONSE | HTTP_BOTH.

#[export] Instance http_parser_type_eq_dec : EqDecision http_parser_type.
Proof. solve_decision. Defined.

Inductive http_method :=
  | HTTP_DELETE
  | HTTP_GET
  | HTTP_HEAD
  | HTTP_POST
  | HTTP_PUT
  | HTTP_CONNECT
  | HTTP_OPTIONS
  | HTTP_TRACE
  | HTTP_COPY
  | HTTP_LOCK
  | HTTP_MKCOL
  | HTTP_MOVE
  | HTTP_PROPFIND
  | HTTP_PROPPATCH
  | HTTP_SEARCH
  | HTTP_UNLOCK
  | HTTP_BIND
  | HTTP_REBIND
  | HTTP_UNBIND
  | HTTP_ACL
  | HTTP_REPORT
  | HTTP_MKACTIVITY
  | HTTP_CHECKOUT
  | HTTP_MERGE
  | HTTP_MSEARCH
  | HTTP_NOTIFY
  | HTTP_SUBSCRIBE
  | HTTP_UNSUBSCRIBE
  | HTTP_PATCH
  | HTTP_PURGE
  | HTTP_MKCALENDAR
  | HTTP_LINK
  | HTTP_UNLINK
  | HTTP_SOURCE.

#[export] Instance http_method_eq_dec : EqDecision http_method.
Proof. solve_decision. Defined.

(** [method_strings]: the spelling of each method. *)
Definition method_string (m : http_method) : bytes :=
  match m with
  | HTTP_DELETE => (bs "DELETE")
  | HTTP_GET => (bs "GET")
  | HTTP_HEAD => (bs "HEAD")
  | HTTP_POST => (bs "POST")
  | HTTP_PUT => (bs "PUT")
  | HTTP_CONNECT => (bs "CONNECT")
  | HTTP_OPTIONS => (bs "OPTIONS")
  | HTTP_TRACE => (bs "TRACE")
  | HTTP_COPY => (bs "COPY")
  | HTTP_LOCK => (bs "LOCK")
  | HTTP_MKCOL => (bs "MKCOL")
  | HTTP_MOVE => (bs "MOVE")
  | HTTP_PROPFIND => (bs "PROPFIND")
  | HTTP_PROPPATCH => (bs "PROPPATCH")
  | HTTP_SEARCH => (bs "SEARCH")
  | HTTP_UNLOCK => (bs "UNLOCK")
  | HTTP_BIND => (bs "BIND")
  | HTTP_REBIND => (bs "REBIND")
  | HTTP_UNBIND => (bs "UNBIND")
  | HTTP_ACL => (bs "ACL")
  | HTTP_REPORT => (bs "REPORT")
  | HTTP_MKACTIVITY => (bs "MKACTIVITY")
  | HTTP_CHECKOUT => (bs "CHECKOUT")
  | HTTP_MERGE => (bs "MERGE")
  | HTTP_MSEARCH => (bs "M-SEARCH")
  | HTTP_NOTIFY => (bs "NOTIFY")
  | HTTP_SUBSCRIBE => (bs "SUBSCRIBE")
  | HTTP_UNSUBSCRIBE => (bs "UNSUBSCRIBE")
  | HTTP_PATCH => (bs "PATCH")
  | HTTP_PURGE => (bs "PURGE")
  | HTTP_MKCALENDAR => (bs "MKCALENDAR")
  | HTTP_LINK => (bs "LINK")
  | HTTP_UNLINK => (bs "UNLINK")
  | HTTP_SOURCE => (bs "SOURCE")
  end.

(** The numeric value of the enumeration. *)
Definition method_num (m : http_method) : Z :=
  match m with
  | HTTP_DELETE => 0
  | HTTP_GET => 1
  | HTTP_HEAD => 2
  | HTTP_POST => 3
  | HTTP_PUT => 4
  | HTTP_CONNECT => 5
  | HTTP_OPTIONS => 6
  | HTTP_TRACE => 7
  | HTTP_COPY => 8
  | HTTP_LOCK => 9
  | HTTP_MKCOL => 10
  | HTTP_MOVE => 11
  | HTTP_PROPFIND => 12
  | HTTP_PROPPATCH => 13
  | HTTP_SEARCH => 14
  | HTTP_UNLOCK => 15
  | HTTP_BIND => 16
  | HTTP_REBIND => 17
  | HTTP_UNBIND => 18
  | HTTP_ACL => 19
  | HTTP_REPORT => 20
  | HTTP_MKACTIVITY => 21
  | HTTP_CHECKOUT => 22
  | HTTP_MERGE => 23
  | HTTP_MSEARCH => 24
  | HTTP_NOTIFY => 25
  | HTTP_SUBSCRIBE => 26
  | HTTP_UNSUBSCRIBE => 27
  | HTTP_PATCH => 28
  | HTTP_PURGE => 29
  | HTTP_MKCALENDAR => 30
  | HTTP_LINK => 31
  | HTTP_UNLINK => 32
  | HTTP_SOURCE => 33
  end.

Definition all_methods : list http_method :=
  [HTTP_DELETE; HTTP_GET; HTTP_HEAD; HTTP_POST; HTTP_PUT; HTTP_CONNECT; HTTP_OPTIONS; HTTP_TRACE; HTTP_COPY; HTTP_LOCK; HTTP_MKCOL; HTTP_MOVE; HTTP_PROPFIND; HTTP_PROPPATCH; HTTP_SEARCH; HTTP_UNLOCK; HTTP_BIND; HTTP_REBIND; HTTP_UNBIND; HTTP_ACL; HTTP_REPORT; HTTP_MKACTIVITY; HTTP_CHECKOUT; HTTP_MERGE; HTTP_MSEARCH; HTTP_NOTIFY; HTTP_SUBSCRIBE; HTTP_UNSUBSCRIBE; HTTP_PATCH; HTTP_PURGE; HTTP_MKCALENDAR; HTTP_LINK; HTTP_UNLINK; HTTP_SOURCE].

Inductive http_errno :=
  | HPE_OK
  | HPE_CB_message_begin
  | HPE_CB_url
  | HPE_CB_header_field
  | HPE_CB_header_value
  | HPE_CB_headers_complete
  | HPE_CB_body
  | HPE_CB_message_complete
  | HPE_CB_status
  | HPE_CB_chunk_header
  | HPE_CB_chunk_complete
  | HPE_INVALID_EOF_STATE
  | HPE_HEADER_OVERFLOW
  | HPE_CLOSED_CONNECTION
  | HPE_INVALID_VERSION
  | HPE_INVALID_STATUS
  | HPE_INVALID_METHOD
  | HPE_INVALID_URL
  | HPE_INVALID_HOST
  | HPE_INVALID_PORT
  | HPE_INVALID_PATH
  | HPE_INVALID_QUERY_STRING
  | HPE_INVALID_FRAGMENT
  | HPE_LF_EXPECTED
  | HPE_INVALID_HEADER_TOKEN
  | HPE_INVALID_CONTENT_LENGTH
  | HPE_UNEXPECTED_CONTENT_LENGTH
  | HPE_INVALID_CHUNK_SIZE
  | HPE_INVALID_CONSTANT
  | HPE_INVALID_INTERNAL_STATE
  | HPE_STRICT
  | HPE_PAUSED
  | HPE_UNKNOWN
  | HPE_INVALID_TRANSFER_ENCODING.

#[export] Instance http_errno_eq_dec : EqDecision http_errno.
Proof. solve_decision. Defined.

Definition http_errno_name (e : http_errno) : string :=
  match e with
  | HPE_OK => "HPE_OK"
  | HPE_CB_message_begin => "HPE_CB_message_begin"
  | HPE_CB_url => "HPE_CB_url"
  | HPE_CB_header_field => "HPE_CB_header_field"
  | HPE_CB_header_value => "HPE_CB_header_value"
  | HPE_CB_headers_complete => "HPE_CB_headers_complete"
  | HPE_CB_body => "HPE_CB_body"
  | HPE_CB_message_complete => "HPE_CB_message_complete"
  | HPE_CB_status => "HPE_CB_status"
  | HPE_CB_chunk_header => "HPE_CB_chunk_header"
  | HPE_CB_chunk_complete => "HPE_CB_chunk_complete"
  | HPE_INVALID_EOF_STATE => "HPE_INVALID_EOF_STATE"
  | HPE_HEADER_OVERFLOW => "HPE_HEADER_OVERFLOW"
  | HPE_CLOSED_CONNECTION => "HPE_CLOSED_CONNECTION"
  | HPE_INVALID_VERSION => "HPE_INVALID_VERSION"
  | HPE_INVALID_STATUS => "HPE_INVALID_STATUS"
  | HPE_INVALID_METHOD => "HPE_INVALID_METHOD"
  | HPE_INVALID_URL => "HPE_INVALID_URL"
  | HPE_INVALID_HOST => "HPE_INVALID_HOST"
  | HPE_INVALID_PORT => "HPE_INVALID_PORT"
  | HPE_INVALID_PATH => "HPE_INVALID_PATH"
  | HPE_INVALID_QUERY_STRING => "HPE_INVALID_QUERY_STRING"
  | HPE_INVALID_FRAGMENT => "HPE_INVALID_FRAGMENT"
  | HPE_LF_EXPECTED => "HPE_LF_EXPECTED"
  | HPE_INVALID_HEADER_TOKEN => "HPE_INVALID_HEADER_TOKEN"
  | HPE_INVALID_CONTENT_LENGTH => "HPE_INVALID_CONTENT_LENGTH"
  | HPE_UNEXPECTED_CONTENT_LENGTH => "HPE_UNEXPECTED_CONTENT_LENGTH"
  | HPE_INVALID_CHUNK_SIZE => "HPE_INVALID_CHUNK_SIZE"
  | HPE_INVALID_CONSTANT => "HPE_INVALID_CONSTANT"
  | HPE_INVALID_INTERNAL_STATE => "HPE_INVALID_INTERNAL_STATE"
  | HPE_STRICT => "HPE_STRICT"
  | HPE_PAUSED => "HPE_PAUSED"
  | HPE_UNKNOWN => "HPE_UNKNOWN"
  | HPE_INVALID_TRANSFER_ENCODING => "HPE_INVALID_TRANSFER_ENCODING"
  end.

Definition http_errno_description (e : http_errno) : string :=
  match e with
  | HPE_OK => "success"
  | HPE_CB_message_begin => "the on_message_begin callback failed"
  | HPE_CB_url => "the on_url callback failed"
  | HPE_CB_header_field => "the on_header_field callback failed"
  | HPE_CB_header_value => "the on_header_value callback failed"
  | HPE_CB_headers_complete => "the on_headers_complete callback failed"
  | HPE_CB_body => "the on_body callback failed"
  | HPE_CB_message_complete => "the on_message_complete callback failed"
  | HPE_CB_status => "the on_status callback failed"
  | HPE_CB_chunk_header => "the on_chunk_header callback failed"
  | HPE_CB_chunk_complete => "the on_chunk_complete callback failed"
  | HPE_INVALID_EOF_STATE => "stream ended at an unexpected time"
  | HPE_HEADER_OVERFLOW => "too many header bytes seen; overflow detected"
  | HPE_CLOSED_CONNECTION => "data received after completed connection: close message"
  | HPE_INVALID_VERSION => "invalid HTTP version"
  | HPE_INVALID_STATUS => "invalid HTTP status code"
  | HPE_INVALID_METHOD => "invalid HTTP method"
  | HPE_INVALID_URL => "invalid URL"
  | HPE_INVALID_HOST => "invalid host"
  | HPE_INVALID_PORT => "invalid port"
  | HPE_INVALID_PATH => "invalid path"
  | HPE_INVALID_QUERY_STRING => "invalid query string"
  | HPE_INVALID_FRAGMENT => "invalid fragment"
  | HPE_LF_EXPECTED => "LF character expected"
  | HPE_INVALID_HEADER_TOKEN => "invalid character in header"
  | HPE_INVALID_CONTENT_LENGTH => "invalid character in content-length header"
  | HPE_UNEXPECTED_CONTENT_LENGTH => "unexpected content-length header"
  | HPE_INVALID_CHUNK_SIZE => "invalid character in chunk size header"
  | HPE_INVALID_CONSTANT => "invalid constant string"
  | HPE_INVALID_INTERNAL_STATE => "encountered unexpected internal state"
  | HPE_STRICT => "strict mode assertion failed"
  | HPE_PAUSED => "parser is paused"
  | HPE_UNKNOWN => "an unknown error occurred"
  | HPE_INVALID_TRANSFER_ENCODING => "request has invalid transfer-encoding"
  end.

(** [HTTP_STATUS_MAP]: the reason phrases, by status code. *)
Definition http_status_map : list (Z * string) :=
  [(100, "Continue"%string);
   (101, "Switching Protocols"%string);
   (102, "Processing"%string);
   (200, "OK"%string);
   (201, "Created"%string);
   (202, "Accepted"%string);
   (203, "Non-Authoritative Information"%string);
   (204, "No Content"%string);
   (205, "Reset Content"%string);
   (206, "Partial Content"%string);
   (207, "Multi-Status"%string);
   (208, "Already Reported"%string);
   (226, "IM Used"%string);
   (300, "Multiple Choices"%string);
   (301, "Moved Permanently"%string);
   (302, "Found"%string);
   (303, "See Other"%string);
   (304, "Not Modified"%string);
   (305, "Use Proxy"%string);
   (307, "Temporary Redirect"%string);
   (308, "Permanent Redirect"%string);
   (400, "Bad Request"%string);
   (401, "Unauthorized"%string);
   (402, "Payment Required"%string);
   (403, "Forbidden"%string);
   (404, "Not Found"%string);
   (405, "Method Not Allowed"%string);
   (406, "Not Acceptable"%string);
   (407, "Proxy Authentication Required"%string);
   (408, "Request Timeout"%string);
   (409, "Conflict"%string);
   (410, "Gone"%string);
   (411, "Length Required"%string);
   (412, "Precondition Failed"%string);
   (413, "Payload Too Large"%string);
   (414, "URI Too Long"%string);
   (415, "Unsupported Media Type"%string);
   (416, "Range Not Satisfiable"%string);
   (417, "Expectation Failed"%string);
   (421, "Misdirected Request"%string);
   (422, "Unprocessable Entity"%string);
   (423, "Locked"%string);
   (424, "Failed Dependency"%string);
   (426, "Upgrade Required"%string);
   (428, "Precondition Required"%string);
   (429, "Too Many Requests"%string);
   (431, "Request Header Fields Too Large"%string);
   (451, "Unavailable For Legal Reasons"%string);
   (500, "Internal Server Error"%string);
   (501, "Not Implemented"%string);
   (502, "Bad Gateway"%string);
   (503, "Service Unavailable"%string);
   (504, "Gateway Timeout"%string);
   (505, "HTTP Version Not Supported"%string);
   (506, "Variant Also Negotiates"%string);
   (507, "Insufficient Storage"%string);
   (508, "Loop Detected"%string);
   (510, "Not Extended"%string);
   (511, "Network Authentication Required"%string)].

Definition http_status_str (s : Z) : string :=
  match list_find (fun e => e.1 = s) http_status_map with
  | Some (_, e) => e.2
  | None => "<unknown>"
  end.

(** ** Parser states (http_parser.c) *)

Inductive state :=
  | s_dead
  | s_start_req_or_res
  | s_res_or_resp_H
  | s_start_res
  | s_res_H
  | s_res_HT
  | s_res_HTT
  | s_res_HTTP
  | s_res_http_major
  | s_res_http_dot
  | s_res_http_minor
  | s_res_http_end
  | s_res_first_status_code
  | s_res_status_code
  | s_res_status_start
  | s_res_status
  | s_res_line_almost_done
  | s_start_req
  | s_req_method
  | s_req_spaces_before_url
  | s_req_schema
  | s_req_schema_slash
  | s_req_schema_slash_slash
  | s_req_server_start
  | s_req_server
  | s_req_server_with_at
  | s_req_path
  | s_req_query_string_start
  | s_req_query_string
  | s_req_fragment_start
  | s_req_fragment
  | s_req_http_start
  | s_req_http_H
  | s_req_http_HT
  | s_req_http_HTT
  | s_req_http_HTTP
  | s_req_http_I
  | s_req_http_IC
  | s_req_http_major
  | s_req_http_dot
  | s_req_http_minor
  | s_req_http_end
  | s_req_line_almost_done
  | s_header_field_start
  | s_header_field
  | s_header_value_discard_ws
  | s_header_value_discard_ws_almost_done
  | s_header_value_discard_lws
  | s_header_value_start
  | s_header_value
  | s_header_value_lws
  | s_header_almost_done
  | s_chunk_size_start
  | s_chunk_size
  | s_chunk_parameters
  | s_chunk_size_almost_done
  | s_headers_almost_done
  | s_headers_done
  | s_chunk_data
  | s_chunk_data_almost_done
  | s_chunk_data_done
  | s_body_identity
  | s_body_identity_eof
  | s_message_done.

#[export] Instance state_eq_dec : EqDecision state.
Proof. solve_decision. Defined.

Definition state_num (s : state) : Z :=
  match s with
  | s_dead => 1
  | s_start_req_or_res => 2
  | s_res_or_resp_H => 3
  | s_start_res => 4
  | s_res_H => 5
  | s_res_HT => 6
  | s_res_HTT => 7
  | s_res_HTTP => 8
  | s_res_http_major => 9
  | s_res_http_dot => 10
  | s_res_http_minor => 11
  | s_res_http_end => 12
  | s_res_first_status_code => 13
  | s_res_status_code => 14
  | s_res_status_start => 15
  | s_res_status => 16
  | s_res_line_almost_done => 17
  | s_start_req => 18
  | s_req_method => 19
  | s_req_spaces_before_url => 20
  | s_req_schema => 21
  | s_req_schema_slash => 22
  | s_req_schema_slash_slash => 23
  | s_req_server_start => 24
  | s_req_server => 25
  | s_req_server_with_at => 26
  | s_req_path => 27
  | s_req_query_string_start => 28
  | s_req_query_string => 29
  | s_req_fragment_start => 30
  | s_req_fragment => 31
  | s_req_http_start => 32
  | s_req_http_H => 33
  | s_req_http_HT => 34
  | s_req_http_HTT => 35
  | s_req_http_HTTP => 36
  | s_req_http_I => 37
  | s_req_http_IC => 38
  | s_req_http_major => 39
  | s_req_http_dot => 40
  | s_req_http_minor => 41
  | s_req_http_end => 42
  | s_req_line_almost_done => 43
  | s_header_field_start => 44
  | s_header_field => 45
  | s_header_value_discard_ws => 46
  | s_header_value_discard_ws_almost_done => 47
  | s_header_value_discard_lws => 48
  | s_header_value_start => 49
  | s_header_value => 50
  | s_header_value_lws => 51
  | s_header_almost_done => 52
  | s_chunk_size_start => 53
  | s_chunk_size => 54
  | s_chunk_parameters => 55
  | s_chunk_size_almost_done => 56
  | s_headers_almost_done => 57
  | s_headers_done => 58
  | s_chunk_data => 59
  | s_chunk_data_almost_done => 60
  | s_chunk_data_done => 61
  | s_body_identity => 62
  | s_body_identity_eof => 63
  | s_message_done => 64
  end.

(** All header states come before [s_headers_done] in the enumeration. *)
Definition PARSING_HEADER (s : state) : bool := state_num s <=? state_num s_headers_done.

Inductive header_states :=
  | h_general
  | h_C
  | h_CO
  | h_CON
  | h_matching_connection
  | h_matching_proxy_connection
  | h_matching_content_length
  | h_matching_transfer_encoding
  | h_matching_upgrade
  | h_connection
  | h_content_length
  | h_content_length_num
  | h_content_length_ws
  | h_transfer_encoding
  | h_upgrade
  | h_matching_transfer_encoding_token_start
  | h_matching_transfer_encoding_chunked
  | h_matching_transfer_encoding_token
  | h_matching_connection_token_start
  | h_matching_connection_keep_alive
  | h_matching_connection_close
  | h_matching_connection_upgrade
  | h_matching_connection_token
  | h_transfer_encoding_chunked
  | h_connection_keep_alive
  | h_connection_close
  | h_connection_upgrade.

#[export] Instance header_states_eq_dec : EqDecision header_states.
Proof. solve_decision. Defined.

Inductive http_host_state :=
  | s_http_host_dead
  | s_http_userinfo_start
  | s_http_userinfo
  | s_http_host_start
  | s_http_host_v6_start
  | s_http_host
  | s_http_host_v6
  | s_http_host_v6_end
  | s_http_host_v6_zone_start
  | s_http_host_v6_zone
  | s_http_host_port_start
  | s_http_host_port.

#[export] Instance http_host_state_eq_dec : EqDecision http_host_state.
Proof. solve_decision. Defined.

(** ** Flags: [F_x] is the mask [1 << x_bit] *)

Definition F_CHUNKED : Z := 1.
Definition F_CONNECTION_KEEP_ALIVE : Z := 2.
Definition F_CONNECTION_CLOSE : Z := 4.
Definition F_CONNECTION_UPGRADE : Z := 8.
Definition F_TRAILING : Z := 16.
Definition F_UPGRADE : Z := 32.
Definition F_SKIPBODY : Z := 64.
Definition F_CONTENTLENGTH : Z := 128.

(** [parser->flags & F] as a condition. *)
Definition has_flag (flags f : Z) : bool := negb (Z.land flags f =? 0).

(** ** [struct http_parser]

    One-bit fields are booleans; [hp_set_x] stores into field [x], reduced to the
    width of its bit-field. *)

Record http_parser := mkHttpParser {
    hp_type : http_parser_type;
    hp_flags : Z;
    hp_state : state;
    hp_header_state : header_states;
    hp_index : Z;
    hp_uses_transfer_encoding : bool;
    hp_allow_chunked_length : bool;
    hp_lenient_http_headers : bool;
    hp_nread : Z;
    hp_content_length : Z;
    hp_http_major : Z;
    hp_http_minor : Z;
    hp_status_code : Z;
    hp_method : http_method;
    hp_http_errno : http_errno;
    hp_upgrade : bool;
  }.

Definition hp_set_type (v : http_parser_type) (p : http_parser) : http_parser :=
  mkHttpParser v (hp_flags p) (hp_state p) (hp_header_state p) (hp_index p) (hp_uses_transfer_encoding p) (hp_allow_chunked_length p) (hp_lenient_http_headers p) (hp_nread p) (hp_content_length p) (hp_http_major p) (hp_http_minor p) (hp_status_code p) (hp_method p) (hp_http_errno p) (hp_upgrade p).
Definition hp_set_flags (v : Z) (p : http_parser) : http_parser :=
  mkHttpParser (hp_type p) (wrap 8 v) (hp_state p) (hp_header_state p) (hp_index p) (hp_uses_transfer_encoding p) (hp_allow_chunked_length p) (hp_lenient_http_headers p) (hp_nread p) (hp_content_length p) (hp_http_major p) (hp_http_minor p) (hp_status_code p) (hp_method p) (hp_http_errno p) (hp_upgrade p).
Definition hp_set_state (v : state) (p : http_parser) : http_parser :=
  mkHttpParser (hp_type p) (hp_flags p) v (hp_header_state p) (hp_index p) (hp_uses_transfer_encoding p) (hp_allow_chunked_length p) (hp_lenient_http_headers p) (hp_nread p) (hp_content_length p) (hp_http_major p) (hp_http_minor p) (hp_status_code p) (hp_method p) (hp_http_errno p) (hp_upgrade p).
Definition hp_set_header_state (v : header_states) (p : http_parser) : http_parser :=
  mkHttpParser (hp_type p) (hp_flags p) (hp_state p) v (hp_index p) (hp_uses_transfer_encoding p) (hp_allow_chunked_length p) (hp_lenient_http_headers p) (hp_nread p) (hp_content_length p) (hp_http_major p) (hp_http_minor p) (hp_status_code p) (hp_method p) (hp_http_errno p) (hp_upgrade p).
Definition hp_set_index (v : Z) (p : http_parser) : http_parser :=
  mkHttpParser (hp_type p) (hp_flags p) (hp_state p) (hp_header_state p) (wrap 5 v) (hp_uses_transfer_encoding p) (hp_allow_chunked_length p) (hp_lenient_http_headers p) (hp_nread p) (hp_content_length p) (hp_http_major p) (hp_http_minor p) (hp_status_code p) (hp_method p) (hp_http_errno p) (hp_upgrade p).
Definition hp_set_uses_transfer_encoding (v : bool) (p : http_parser) : http_parser :=
  mkHttpParser (hp_type p) (hp_flags p) (hp_state p) (hp_header_state p) (hp_index p) v (hp_allow_chunked_length p) (hp_lenient_http_headers p) (hp_nread p) (hp_content_length p) (hp_http_major p) (hp_http_minor p) (hp_status_code p) (hp_method p) (hp_http_errno p) (hp_upgrade p).
Definition hp_set_allow_chunked_length (v : bool) (p : http_parser) : http_parser :=
  mkHttpParser (hp_type p) (hp_flags p) (hp_state p) (hp_header_state p) (hp_index p) (hp_uses_transfer_encoding p) v (hp_lenient_http_headers p) (hp_nread p) (hp_content_length p) (hp_http_major p) (hp_http_minor p) (hp_status_code p) (hp_method p) (hp_http_errno p) (hp_upgrade p).
Definition hp_set_lenient_http_headers (v : bool) (p : http_parser) : http_parser :=
  mkHttpParser (hp_type p) (hp_flags p) (hp_state p) (hp_header_state p) (hp_index p) (hp_uses_transfer_encoding p) (hp_allow_chunked_length p) v (hp_nread p) (hp_content_length p) (hp_http_major p) (hp_http_minor p) (hp_status_code p) (hp_method p) (hp_http_errno p) (hp_upgrade p).
Definition hp_set_nread (v : Z) (p : http_parser) : http_parser :=
  mkHttpParser (hp_type p) (hp_flags p) (hp_state p) (hp_header_state p) (hp_index p) (hp_uses_transfer_encoding p) (hp_allow_chunked_length p) (hp_lenient_http_headers p) (wrap 32 v) (hp_content_length p) (hp_http_major p) (hp_http_minor p) (hp_status_code p) (hp_method p) (hp_http_errno p) (hp_upgrade p).
Definition hp_set_content_length (v : Z) (p : http_parser) : http_parser :=
  mkHttpParser (hp_type p) (hp_flags p) (hp_state p) (hp_header_state p) (hp_index p) (hp_uses_transfer_encoding p) (hp_allow_chunked_length p) (hp_lenient_http_headers p) (hp_nread p) (wrap 64 v) (hp_http_major p) (hp_http_minor p) (hp_status_code p) (hp_method p) (hp_http_errno p) (hp_upgrade p).
Definition hp_set_http_major (v : Z) (p : http_parser) : http_parser :=
  mkHttpParser (hp_type p) (hp_flags p) (hp_state p) (hp_header_state p) (hp_index p) (hp_uses_transfer_encoding p) (hp_allow_chunked_length p) (hp_lenient_http_headers p) (hp_nread p) (hp_content_length p) (wrap 16 v) (hp_http_minor p) (hp_status_code p) (hp_method p) (hp_http_errno p) (hp_upgrade p).
Definition hp_set_http_minor (v : Z) (p : http_parser) : http_parser :=
  mkHttpParser (hp_type p) (hp_flags p) (hp_state p) (hp_header_state p) (hp_index p) (hp_uses_transfer_encoding p) (hp_allow_chunked_length p) (hp_lenient_http_headers p) (hp_nread p) (hp_content_length p) (hp_http_major p) (wrap 16 v) (hp_status_code p) (hp_method p) (hp_http_errno p) (hp_upgrade p).
Definition hp_set_status_code (v : Z) (p : http_parser) : http_parser :=
  mkHttpParser (hp_type p) (hp_flags p) (hp_state p) (hp_header_state p) (hp_index p) (hp_uses_transfer_encoding p) (hp_allow_chunked_length p) (hp_lenient_http_headers p) (hp_nread p) (hp_content_length p) (hp_http_major p) (hp_http_minor p) (wrap 16 v) (hp_method p) (hp_http_errno p) (hp_upgrade p).
Definition hp_set_method (v : http_method) (p : http_parser) : http_parser :=
  mkHttpParser (hp_type p) (hp_flags p) (hp_state p) (hp_header_state p) (hp_index p) (hp_uses_transfer_encoding p) (hp_allow_chunked_length p) (hp_lenient_http_headers p) (hp_nread p) (hp_content_length p) (hp_http_major p) (hp_http_minor p) (hp_status_code p) v (hp_http_errno p) (hp_upgrade p).
Definition hp_set_http_errno (v : http_errno) (p : http_parser) : http_parser :=
  mkHttpParser (hp_type p) (hp_flags p) (hp_state p) (hp_header_state p) (hp_index p) (hp_uses_transfer_encoding p) (hp_allow_chunked_length p) (hp_lenient_http_headers p) (hp_nread p) (hp_content_length p) (hp_http_major p) (hp_http_minor p) (hp_status_code p) (hp_method p) v (hp_upgrade p).
Definition hp_set_upgrade (v : bool) (p : http_parser) : http_parser :=
  mkHttpParser (hp_type p) (hp_flags p) (hp_state p) (hp_header_state p) (hp_index p) (hp_uses_transfer_encoding p) (hp_allow_chunked_length p) (hp_lenient_http_headers p) (hp_nread p) (hp_content_length p) (hp_http_major p) (hp_http_minor p) (hp_status_code p) (hp_method p) (hp_http_errno p) v.

(** [ULLONG_MAX]: no Content-Length seen. *)
Definition ULLONG_MAX : Z := 2 ^ 64 - 1.
Definition HTTP_MAX_HEADER_SIZE : Z := 80 * 1024.

(** [memset] to 0, then the fields [http_parser_init] sets. *)
Definition http_parser_init (t : http_parser_type) : http_parser :=
  mkHttpParser t 0
    (match t with HTTP_REQUEST => s_start_req | HTTP_RESPONSE => s_start_res | HTTP_BOTH => s_start_req_or_res end)
    h_general 0 false false false 0 0 0 0 0 HTTP_DELETE HPE_OK false.

(** ** Character tables

    C fills the rest of a partially initialised array with zeros, so an index
    past the list reads 0. *)

Definition tokens : list Z :=
  [0; 0; 0; 0; 0; 0; 0; 0; 0; 0; 0; 0; 0; 0; 0; 0;
   0; 0; 0; 0; 0; 0; 0; 0; 0; 0; 0; 0; 0; 0; 0; 0;
   32; 33; 0; 35; 36; 37; 38; 39; 0; 0; 42; 43; 0; 45; 46; 0;
   48; 49; 50; 51; 52; 53; 54; 55; 56; 57; 0; 0; 0; 0; 0; 0;
   0; 97; 98; 99; 100; 101; 102; 103; 104; 105; 106; 107; 108; 109; 110; 111;
   112; 113; 114; 115; 116; 117; 118; 119; 120; 121; 122; 0; 0; 0; 94; 95;
   96; 97; 98; 99; 100; 101; 102; 103; 104; 105; 106; 107; 108; 109; 110; 111;
   112; 113; 114; 115; 116; 117; 118; 119; 120; 121; 122; 0; 124; 0; 126; 0].

Definition unhex : list Z :=
  [(-1); (-1); (-1); (-1); (-1); (-1); (-1); (-1); (-1); (-1); (-1); (-1); (-1); (-1); (-1); (-1);
   (-1); (-1); (-1); (-1); (-1); (-1); (-1); (-1); (-1); (-1); (-1); (-1); (-1); (-1); (-1); (-1);
   (-1); (-1); (-1); (-1); (-1); (-1); (-1); (-1); (-1); (-1); (-1); (-1); (-1); (-1); (-1); (-1);
   0; 1; 2; 3; 4; 5; 6; 7; 8; 9; (-1); (-1); (-1); (-1); (-1); (-1);
   (-1); 10; 11; 12; 13; 14; 15; (-1); (-1); (-1); (-1); (-1); (-1); (-1); (-1); (-1);
   (-1); (-1); (-1); (-1); (-1); (-1); (-1); (-1); (-1); (-1); (-1); (-1); (-1); (-1); (-1); (-1);
   (-1); 10; 11; 12; 13; 14; 15; (-1); (-1); (-1); (-1); (-1); (-1); (-1); (-1); (-1);
   (-1); (-1); (-1); (-1); (-1); (-1); (-1); (-1); (-1); (-1); (-1); (-1); (-1); (-1); (-1); (-1)].

(** [T(v)] is 0 in strict mode. *)
Definition normal_url_char : list Z :=
  [0; 0; 0; 0; 246; 255; 255; 127; 255; 255; 255; 255; 255; 255; 255; 127].
Definition table (t : list Z) (i : Z) : Z := nth (Z.to_nat i) t 0.

(** ** Character classes (the macros, in strict mode) *)

Definition CR : Z := 13.
Definition LF : Z := 10.
Definition TAB : Z := 9.
Definition FF : Z := 12.
Definition LOWER (c : Z) : Z := u8 (Z.lor c 0x20).
Definition IS_ALPHA (c : Z) : bool := ("a"%chr <=? LOWER c) && (LOWER c <=? "z"%chr).
Definition IS_NUM (c : Z) : bool := ("0"%chr <=? c) && (c <=? "9"%chr).
Definition IS_ALPHANUM (c : Z) : bool := IS_ALPHA c || IS_NUM c.
Definition IS_HEX (c : Z) : bool := IS_NUM c || (("a"%chr <=? LOWER c) && (LOWER c <=? "f"%chr)).
Definition IS_MARK (c : Z) : bool :=
  (c =? "-"%chr) || (c =? "_"%chr) || (c =? "."%chr) || (c =? "!"%chr) || (c =? "~"%chr) ||
  (c =? "*"%chr) || (c =? "'"%chr) || (c =? "("%chr) || (c =? ")"%chr).
Definition IS_USERINFO_CHAR (c : Z) : bool :=
  IS_ALPHANUM c || IS_MARK c || (c =? "%"%chr) || (c =? ";"%chr) || (c =? ":"%chr) ||
  (c =? "&"%chr) || (c =? "="%chr) || (c =? "+"%chr) || (c =? "$"%chr) || (c =? ","%chr).
Definition STRICT_TOKEN (c : Z) : Z := if c =? " "%chr then 0 else table tokens c.
Definition TOKEN (c : Z) : Z := STRICT_TOKEN c.
Definition BIT_AT (a : list Z) (i : Z) : bool :=
  negb (Z.land (table a (Z.shiftr i 3)) (Z.shiftl 1 (Z.land i 7)) =? 0).
Definition IS_URL_CHAR (c : Z) : bool := BIT_AT normal_url_char c.
Definition IS_HOST_CHAR (c : Z) : bool := IS_ALPHANUM c || (c =? "."%chr) || (c =? "-"%chr).
Definition IS_HEADER_CHAR (ch : Z) : bool :=
  (ch =? CR) || (ch =? LF) || (ch =? 9) || ((31 <? ch) && negb (ch =? 127)).

(** ** Small functions of the API *)

Definition http_message_needs_eof (p : http_parser) : bool :=
  if decide (hp_type p = HTTP_REQUEST) then false
  else if (hp_status_code p / 100 =? 1) || (hp_status_code p =? 204) || (hp_status_code p =? 304) ||
          has_flag (hp_flags p) F_SKIPBODY then false
  else if hp_uses_transfer_encoding p && negb (has_flag (hp_flags p) F_CHUNKED) then true
  else if has_flag (hp_flags p) F_CHUNKED || negb (hp_content_length p =? ULLONG_MAX) then false
  else true.

Definition http_should_keep_alive (p : http_parser) : bool :=
  if (0 <? hp_http_major p) && (0 <? hp_http_minor p) then
    if has_flag (hp_flags p) F_CONNECTION_CLOSE then false else negb (http_message_needs_eof p)
  else
    if negb (has_flag (hp_flags p) F_CONNECTION_KEEP_ALIVE) then false else negb (http_message_needs_eof p).

Definition start_state (p : http_parser) : state :=
  if decide (hp_type p = HTTP_REQUEST) then s_start_req else s_start_res.

(** [NEW_MESSAGE()] in strict mode. *)
Definition NEW_MESSAGE (p : http_parser) : state :=
  if http_should_keep_alive p then start_state p else s_dead.

Definition http_method_str (m : http_method) : bytes := method_string m.

Definition http_body_is_final (p : http_parser) : bool := bool_decide (hp_state p = s_message_done).

(** [http_parser_pause]: [None] is the failed assertion of pausing a parser in error. *)
Definition http_parser_pause (p : http_parser) (paused : bool) : option http_parser :=
  if decide (hp_http_errno p = HPE_OK \/ hp_http_errno p = HPE_PAUSED)
  then Some (hp_set_http_errno (if paused then HPE_PAUSED else HPE_OK) p)
  else None.

Definition http_parser_version : Z :=
  Z.lor (2 * 0x10000) (Z.lor (9 * 0x00100) (4 * 0x00001)).
