(* ===== verification/HttpUrl.v ===== *)
(** * URL parsing (http_parser.c: parse_url_char, http_parse_host, http_parser_parse_url) *)

From S2P Require Import Prelude HttpTypes.

(** ** One character of a URL *)

Definition url_server (ch : Z) : state :=
  if ch =? "/"%chr then s_req_path
  else if ch =? "?"%chr then s_req_query_string_start
  else if ch =? "@"%chr then s_req_server_with_at
  else if IS_USERINFO_CHAR ch || (ch =? "["%chr) || (ch =? "]"%chr) then s_req_server
  else s_dead.

Definition parse_url_char (s : state) (ch : Z) : state :=
  if (ch =? " "%chr) || (ch =? CR) || (ch =? LF) then s_dead
  else if (ch =? TAB) || (ch =? FF) then s_dead
  else
    match s with
    | s_req_spaces_before_url =>
        if (ch =? "/"%chr) || (ch =? "*"%chr) then s_req_path
        else if IS_ALPHA ch then s_req_schema
        else s_dead
    | s_req_schema =>
        if IS_ALPHA ch then s
        else if ch =? ":"%chr then s_req_schema_slash
        else s_dead
    | s_req_schema_slash => if ch =? "/"%chr then s_req_schema_slash_slash else s_dead
    | s_req_schema_slash_slash => if ch =? "/"%chr then s_req_server_start else s_dead
    | s_req_server_with_at => if ch =? "@"%chr then s_dead else url_server ch
    | s_req_server_start | s_req_server => url_server ch
    | s_req_path =>
        if IS_URL_CHAR ch then s
        else if ch =? "?"%chr then s_req_query_string_start
        else if ch =? "#"%chr then s_req_fragment_start
        else s_dead
    | s_req_query_string_start | s_req_query_string =>
        if IS_URL_CHAR ch then s_req_query_string
        else if ch =? "?"%chr then s_req_query_string
        else if ch =? "#"%chr then s_req_fragment_start
        else s_dead
    | s_req_fragment_start =>
        if IS_URL_CHAR ch then s_req_fragment
        else if ch =? "?"%chr then s_req_fragment
        else if ch =? "#"%chr then s
        else s_dead
    | s_req_fragment =>
        if IS_URL_CHAR ch then s
        else if (ch =? "?"%chr) || (ch =? "#"%chr) then s
        else s_dead
    | _ => s_dead
    end.

(** ** One character of the host part *)

Definition host_v6_char (s : http_host_state) (ch : Z) : http_host_state :=
  if IS_HEX ch || (ch =? ":"%chr) || (ch =? "."%chr) then s_http_host_v6
  else if bool_decide (s = s_http_host_v6) && (ch =? "%"%chr) then s_http_host_v6_zone_start
  else s_http_host_dead.

Definition host_zone_char (ch : Z) : http_host_state :=
  if IS_ALPHANUM ch || (ch =? "%"%chr) || (ch =? "."%chr) || (ch =? "-"%chr) || (ch =? "_"%chr) ||
     (ch =? "~"%chr) then s_http_host_v6_zone
  else s_http_host_dead.

Definition http_parse_host_char (s : http_host_state) (ch : Z) : http_host_state :=
  match s with
  | s_http_userinfo | s_http_userinfo_start =>
      if ch =? "@"%chr then s_http_host_start
      else if IS_USERINFO_CHAR ch then s_http_userinfo
      else s_http_host_dead
  | s_http_host_start =>
      if ch =? "["%chr then s_http_host_v6_start
      else if IS_HOST_CHAR ch then s_http_host
      else s_http_host_dead
  | s_http_host =>
      if IS_HOST_CHAR ch then s_http_host
      else if ch =? ":"%chr then s_http_host_port_start
      else s_http_host_dead
  | s_http_host_v6_end => if ch =? ":"%chr then s_http_host_port_start else s_http_host_dead
  | s_http_host_v6 => if ch =? "]"%chr then s_http_host_v6_end else host_v6_char s ch
  | s_http_host_v6_start => host_v6_char s ch
  | s_http_host_v6_zone => if ch =? "]"%chr then s_http_host_v6_end else host_zone_char ch
  | s_http_host_v6_zone_start => host_zone_char ch
  | s_http_host_port | s_http_host_port_start =>
      if IS_NUM ch then s_http_host_port else s_http_host_dead
  | s_http_host_dead => s_http_host_dead
  end.

(** ** [struct http_parser_url] *)

Inductive http_parser_url_fields :=
  | UF_SCHEMA | UF_HOST | UF_PORT | UF_PATH | UF_QUERY | UF_FRAGMENT | UF_USERINFO.

#[export] Instance http_parser_url_fields_eq_dec : EqDecision http_parser_url_fields.
Proof. solve_decision. Defined.

Definition uf_num (f : http_parser_url_fields) : nat :=
  match f with
  | UF_SCHEMA => 0 | UF_HOST => 1 | UF_PORT => 2 | UF_PATH => 3 | UF_QUERY => 4
  | UF_FRAGMENT => 5 | UF_USERINFO => 6
  end.

(** [field_data] holds an offset and a length for each field. *)
Record http_parser_url := mkUrl {
    field_set : Z;
    port : Z;
    field_data : list (Z * Z);
  }.

Definition http_parser_url_init : http_parser_url := mkUrl 0 0 (replicate 7 (0, 0)).

Definition uf_off (u : http_parser_url) (f : http_parser_url_fields) : Z :=
  (nth (uf_num f) (field_data u) (0, 0)).1.
Definition uf_len (u : http_parser_url) (f : http_parser_url_fields) : Z :=
  (nth (uf_num f) (field_data u) (0, 0)).2.
Definition uf_isset (u : http_parser_url) (f : http_parser_url_fields) : bool :=
  Z.testbit (field_set u) (Z.of_nat (uf_num f)).

(** The 16-bit stores. *)
Definition uf_set_off (f : http_parser_url_fields) (v : Z) (u : http_parser_url) : http_parser_url :=
  mkUrl (field_set u) (port u) (<[uf_num f := (u16 v, uf_len u f)]> (field_data u)).
Definition uf_set_len (f : http_parser_url_fields) (v : Z) (u : http_parser_url) : http_parser_url :=
  mkUrl (field_set u) (port u) (<[uf_num f := (uf_off u f, u16 v)]> (field_data u)).
Definition uf_add (f : http_parser_url_fields) (u : http_parser_url) : http_parser_url :=
  mkUrl (Z.lor (field_set u) (Z.shiftl 1 (Z.of_nat (uf_num f)))) (port u) (field_data u).
Definition set_port (v : Z) (u : http_parser_url) : http_parser_url :=
  mkUrl (field_set u) v (field_data u).

Definition uf_incr (f : http_parser_url_fields) (u : http_parser_url) : http_parser_url :=
  uf_set_len f (uf_len u f + 1) u.

(** ** [http_parse_host] *)

(** The [switch (new_s)] of the loop at offset [i]. *)
Definition host_mark (s new_s : http_host_state) (i : Z) (u : http_parser_url) : http_parser_url :=
  match new_s with
  | s_http_host =>
      uf_incr UF_HOST (if decide (s = s_http_host) then u else uf_set_off UF_HOST i u)
  | s_http_host_v6 =>
      uf_incr UF_HOST (if decide (s = s_http_host_v6) then u else uf_set_off UF_HOST i u)
  | s_http_host_v6_zone_start | s_http_host_v6_zone => uf_incr UF_HOST u
  | s_http_host_port =>
      uf_incr UF_PORT
        (if decide (s = s_http_host_port) then u
         else uf_add UF_PORT (uf_set_len UF_PORT 0 (uf_set_off UF_PORT i u)))
  | s_http_userinfo =>
      uf_incr UF_USERINFO
        (if decide (s = s_http_userinfo) then u
         else uf_add UF_USERINFO (uf_set_len UF_USERINFO 0 (uf_set_off UF_USERINFO i u)))
  | _ => u
  end.

Fixpoint host_loop (s : http_host_state) (i : Z) (l : bytes) (u : http_parser_url) :
    option http_host_state * http_parser_url :=
  match l with
  | [] => (Some s, u)
  | ch :: l' =>
      let new_s := http_parse_host_char s ch in
      if decide (new_s = s_http_host_dead) then (None, u)
      else host_loop new_s (i + 1) l' (host_mark s new_s i u)
  end.

Definition host_end_ok (s : http_host_state) : bool :=
  match s with
  | s_http_host_start | s_http_host_v6_start | s_http_host_v6 | s_http_host_v6_zone_start
  | s_http_host_v6_zone | s_http_host_port_start | s_http_userinfo | s_http_userinfo_start => false
  | _ => true
  end.

(** Returns 1 on error; [None] is the failed assertion. *)
Definition http_parse_host (buf : bytes) (u : http_parser_url) (found_at : bool) : option (Z * http_parser_url) :=
  if negb (uf_isset u UF_HOST) then None else
  let off := uf_off u UF_HOST in
  let host := take (Z.to_nat (uf_len u UF_HOST)) (drop (Z.to_nat off) buf) in
  let u := uf_set_len UF_HOST 0 u in
  let s := if found_at then s_http_userinfo_start else s_http_host_start in
  match host_loop s off host u with
  | (None, u) => Some (1, u)
  | (Some s, u) => Some (if host_end_ok s then 0 else 1, u)
  end.

(** ** [http_parser_parse_url] *)

(** The [switch (s)] of the loop: stop with an error, skip a delimiter, the
    field the character belongs to, or the [assert] of the default case. *)
Inductive url_class := Url_error | Url_skip | Url_field (f : http_parser_url_fields) | Url_unexpected.

Definition url_classify (s : state) : url_class :=
  match s with
  | s_dead => Url_error
  | s_req_schema_slash | s_req_schema_slash_slash | s_req_server_start
  | s_req_query_string_start | s_req_fragment_start => Url_skip
  | s_req_schema => Url_field UF_SCHEMA
  | s_req_server_with_at | s_req_server => Url_field UF_HOST
  | s_req_path => Url_field UF_PATH
  | s_req_query_string => Url_field UF_QUERY
  | s_req_fragment => Url_field UF_FRAGMENT
  | _ => Url_unexpected
  end.

(** How the loop ends: at the end of the buffer with [found_at], by [return 1], or by a
    failed assertion.  [old_uf] is [None] for [UF_MAX]. *)
Inductive url_stop := Url_end (found_at : bool) | Url_return | Url_assert.
Fixpoint url_loop (s : state) (old_uf : option http_parser_url_fields) (found_at : bool) (i : Z)
    (l : bytes) (u : http_parser_url) : url_stop * http_parser_url :=
  match l with
  | [] => (Url_end found_at, u)
  | ch :: l' =>
      let s := parse_url_char s ch in
      let found_at := found_at || bool_decide (s = s_req_server_with_at) in
      match url_classify s with
      | Url_error => (Url_return, u)
      | Url_unexpected => (Url_assert, u)
      | Url_skip => url_loop s old_uf found_at (i + 1) l' u
      | Url_field uf =>
          if decide (old_uf = Some uf)
          then url_loop s old_uf found_at (i + 1) l' (uf_incr uf u)
          else url_loop s (Some uf) found_at (i + 1) l'
                 (uf_add uf (uf_set_len uf 1 (uf_set_off uf i u)))
      end
  end.

(** A [char] is signed. *)
Definition schar (c : Z) : Z := if c <? 128 then c else c - 256.
(** The port digits, with the test against 0xffff after each one. *)
Fixpoint port_loop (v : Z) (l : bytes) : option Z :=
  match l with
  | [] => Some v
  | c :: l' =>
      let v := u64 (u64 (v * 10) + (schar c - "0"%chr)) in
      if 0xffff <? v then None else port_loop v l'
  end.

(** The return code and the record, which an error leaves partly filled; [None] is a
    failed assertion. *)
Definition http_parser_parse_url (buf : bytes) (is_connect : bool) (u : http_parser_url) :
    option (Z * http_parser_url) :=
  if len buf =? 0 then Some (1, u) else
  let u := mkUrl 0 0 (field_data u) in
  let s := if is_connect then s_req_server_start else s_req_spaces_before_url in
  match url_loop s None false 0 buf u with
  | (Url_assert, _) => None
  | (Url_return, u) => Some (1, u)
  | (Url_end found_at, u) =>
      if uf_isset u UF_SCHEMA && negb (uf_isset u UF_HOST) then Some (1, u) else
      match (if uf_isset u UF_HOST then http_parse_host buf u found_at else Some (0, u)) with
      | None => None
      | Some (r, u) =>
          if negb (r =? 0) then Some (1, u) else
          if is_connect && negb (field_set u =? Z.lor (Z.shiftl 1 1) (Z.shiftl 1 2)) then Some (1, u) else
          if uf_isset u UF_PORT then
            let off := uf_off u UF_PORT in
            let port_len := uf_len u UF_PORT in
            if len buf <? off + port_len then None else
            match port_loop 0 (take (Z.to_nat port_len) (drop (Z.to_nat off) buf)) with
            | None => Some (1, u)
            | Some v => Some (0, set_port (u16 v) u)
            end
          else Some (0, u)
      end
  end.

Definition url_field (buf : bytes) (u : http_parser_url) (f : http_parser_url_fields) : option bytes :=
  if uf_isset u f then Some (take (Z.to_nat (uf_len u f)) (drop (Z.to_nat (uf_off u f)) buf)) else None.

Definition parse_url (buf : bytes) : option (Z * Z * list (option bytes)) :=
  match http_parser_parse_url buf false http_parser_url_init with
  | Some (r, u) => Some (r, port u, url_field buf u <$> [UF_SCHEMA; UF_HOST; UF_PORT; UF_PATH; UF_QUERY; UF_FRAGMENT; UF_USERINFO])
  | None => None
  end.

Example parse_url_ex :
  parse_url (bs "http://me@[::1]:8080/a/b?x=1#y") =
  Some (0, 8080, Some <$> [bs "http"; bs "::1"; bs "8080"; bs "/a/b"; bs "x=1"; bs "y"; bs "me"]).
Proof. vm_compute. reflexivity. Qed.

(** ** The fields lie in the buffer *)

Implicit Types (u : http_parser_url) (f : http_parser_url_fields).

Definition url_wf u : Prop := length (field_data u) = 7%nat.
(** The fields that are set end before [i]. *)
Definition fields_within (i : Z) u : Prop :=
  url_wf u /\ (forall f, uf_isset u f = true -> 0 <= uf_off u f /\ 0 <= uf_len u f /\ uf_off u f + uf_len u f <= i) /\
  0 <= field_set u.

Lemma uf_num_inj f f' : uf_num f = uf_num f' -> f = f'.
Proof. by destruct f, f'. Qed.

Lemma uf_num_lt f : (uf_num f < 7)%nat.
Proof. destruct f; cbn; lia. Qed.

Lemma nth_insert_field u f f' (v : Z * Z) : url_wf u ->
  nth (uf_num f') (<[uf_num f := v]> (field_data u)) (0, 0) =
  if decide (f = f') then v else nth (uf_num f') (field_data u) (0, 0).
Proof.
  intros Hw. apply nth_lookup_Some. unfold url_wf in Hw. pose proof (uf_num_lt f'). case_decide as Hd.
  - subst. apply list_lookup_insert_eq. lia.
  - rewrite list_lookup_insert_ne by (intros ?%uf_num_inj; done).
    destruct (lookup_lt_is_Some_2 (field_data u) (uf_num f')) as [x Hx]; [lia|].
    by rewrite (nth_lookup_Some _ _ _ _ Hx).
Qed.

Lemma uf_off_set_off f v f' u : url_wf u -> uf_off (uf_set_off f v u) f' = if decide (f = f') then u16 v else uf_off u f'.
Proof. intros Hw. unfold uf_off, uf_set_off. cbn. rewrite nth_insert_field by done. by case_decide. Qed.
Lemma uf_len_set_off f v f' u : url_wf u -> uf_len (uf_set_off f v u) f' = uf_len u f'.
Proof. intros Hw. unfold uf_len, uf_set_off. cbn. rewrite nth_insert_field by done. case_decide; by subst. Qed.
Lemma uf_off_set_len f v f' u : url_wf u -> uf_off (uf_set_len f v u) f' = uf_off u f'.
Proof. intros Hw. unfold uf_off, uf_set_len. cbn. rewrite nth_insert_field by done. case_decide; by subst. Qed.
Lemma uf_len_set_len f v f' u : url_wf u -> uf_len (uf_set_len f v u) f' = if decide (f = f') then u16 v else uf_len u f'.
Proof. intros Hw. unfold uf_len, uf_set_len. cbn. rewrite nth_insert_field by done. by case_decide. Qed.

Lemma url_wf_set_off f v u : url_wf u -> url_wf (uf_set_off f v u).
Proof. unfold url_wf, uf_set_off. cbn. by rewrite length_insert. Qed.
Lemma url_wf_set_len f v u : url_wf u -> url_wf (uf_set_len f v u).
Proof. unfold url_wf, uf_set_len. cbn. by rewrite length_insert. Qed.

Lemma uf_isset_add f f' u : 0 <= field_set u ->
  uf_isset (uf_add f u) f' = bool_decide (f = f') || uf_isset u f'.
Proof.
  intros Hp. unfold uf_isset, uf_add. cbn. rewrite Z.lor_spec, Z.shiftl_spec by lia.
  rewrite orb_comm. f_equal. case_bool_decide as Hd.
  - subst. by rewrite Z.sub_diag.
  - destruct (Z.eq_dec (Z.of_nat (uf_num f') - Z.of_nat (uf_num f)) 0) as [E|E].
    + destruct Hd. apply uf_num_inj. lia.
    + by destruct (Z.of_nat (uf_num f') - Z.of_nat (uf_num f)).
Qed.

Lemma u16_le i : 0 <= i -> 0 <= u16 i <= i.
Proof. intros. unfold u16. pose proof (Z.mod_pos_bound i (2 ^ 16)). pose proof (Z.mod_le i (2 ^ 16)). lia. Qed.

(** [b] bounds each field that is set. *)
Definition bounded (b : http_parser_url_fields -> Z) u : Prop :=
  url_wf u /\ 0 <= field_set u /\
  forall f, uf_isset u f = true -> 0 <= uf_off u f /\ 0 <= uf_len u f /\ uf_off u f + uf_len u f <= b f.

Lemma bounded_weaken b b' u : (forall f, b f <= b' f) -> bounded b u -> bounded b' u.
Proof. intros Hb (Hw & Hp & Hf). split_and!; try done. intros f Hs. specialize (Hf f Hs). specialize (Hb f). lia. Qed.

(** Starting a field at [i] and growing a field by a byte. *)
Lemma bounded_start b f v i u : 0 <= i -> 0 <= v -> bounded b u -> i + v <= b f ->
  bounded b (uf_add f (uf_set_len f v (uf_set_off f i u))).
Proof.
  intros Hi Hv (Hw & Hp & Hf) Hb. split_and!.
  - by apply url_wf_set_len, url_wf_set_off.
  - cbn. apply Z.lor_nonneg. split; [done|]. apply Z.shiftl_nonneg. lia.
  - intros f'. rewrite uf_isset_add by done.
    change (uf_off (uf_add ?f ?u) ?g) with (uf_off u g). change (uf_len (uf_add ?f ?u) ?g) with (uf_len u g).
    rewrite uf_off_set_len, uf_len_set_len, uf_off_set_off, uf_len_set_off by (try apply url_wf_set_off; done).
    case_bool_decide; [subst|]; [rewrite !decide_True by done|rewrite !decide_False by done; apply Hf].
    intros _. pose proof (u16_le i Hi). pose proof (u16_le v Hv). lia.
Qed.

Lemma bounded_incr b b' f u : bounded b u -> (forall g, g <> f -> b g <= b' g) -> b f + 1 <= b' f -> bounded b' (uf_incr f u).
Proof.
  intros (Hw & Hp & Hf) Hg Hb. split_and!; [by apply url_wf_set_len|done|].
  intros f' Hs. change (uf_isset u f' = true) in Hs. specialize (Hf f' Hs). unfold uf_incr.
  rewrite uf_off_set_len, uf_len_set_len by done. case_decide as Hd.
  - subst. pose proof (u16_le (uf_len u f' + 1)). lia.
  - specialize (Hg f'). split_and!; try lia. pose proof (Hg ltac:(done)). lia.
Qed.

(** *** [http_parser_parse_url]'s loop *)

Lemma url_char_expected s ch : url_classify (parse_url_char s ch) <> Url_unexpected.
Proof. unfold parse_url_char, url_server. destruct s; repeat case_match; done. Qed.

(** The loop sets neither the port nor the user. *)
Definition no_port u : Prop := uf_isset u UF_PORT = false /\ uf_isset u UF_USERINFO = false.

Lemma url_class_field s f : url_classify s = Url_field f -> f <> UF_PORT /\ f <> UF_USERINFO.
Proof. destruct s; cbn; intros [=]; by subst. Qed.

Lemma url_loop_bounded s old at_ i l u : 0 <= i -> bounded (fun _ => i) u -> no_port u ->
  let '(r, u') := url_loop s old at_ i l u in
  r <> Url_assert /\ bounded (fun _ => i + len l) u' /\ no_port u'.
Proof.
  revert s old at_ i u. induction l as [|ch l IH]; intros s old at_ i u Hi Hb Hn; cbn [url_loop].
  { split; [done|]. split; [|done]. eapply bounded_weaken; [|exact Hb]. intros f. unfold len. cbn. lia. }
  pose proof (url_char_expected s ch). set (s' := parse_url_char s ch) in *. rewrite len_cons.
  pose proof (len_nonneg l).
  assert (bounded (fun _ => i + 1) u) as Hb1 by (eapply bounded_weaken; [|done]; cbn; lia).
  assert (bounded (fun _ => i + (len l + 1)) u) as Hb2 by (eapply bounded_weaken; [|done]; cbn; lia).
  replace (i + (len l + 1)) with (i + 1 + len l) in * by lia.
  destruct (url_classify s') as [| |f|] eqn:Ec; try done; [apply IH; try done; lia|].
  apply url_class_field in Ec as [Hf1 Hf2]. destruct Hn as [Hn1 Hn2].
  case_decide; (apply IH; [lia| |]).
  - eapply bounded_incr; [exact Hb|cbn; lia..].
  - done.
  - apply bounded_start; [done|done|done|cbn; lia].
  - destruct Hb as (_ & Hp & _). split; rewrite uf_isset_add by done; rewrite bool_decide_false by done; done.
Qed.

(** *** [http_parse_host]'s loop *)

(** The fields of the host part end before [i], the others before [total]. *)
Definition host_bound (total i : Z) (f : http_parser_url_fields) : Z :=
  match f with UF_HOST | UF_PORT | UF_USERINFO => i | _ => total end.

(** The states in which no byte of the host has been counted. *)
Definition before_host (s : http_host_state) : bool :=
  match s with s_http_userinfo_start | s_http_userinfo | s_http_host_start | s_http_host_v6_start => true | _ => false end.

Definition host_inv (total : Z) (s : http_host_state) (i : Z) u : Prop :=
  bounded (host_bound total i) u /\ (before_host s = true -> uf_len u UF_HOST = 0).

Lemma bounded_set_off b f i u : 0 <= i -> uf_len u f = 0 -> i <= b f -> bounded b u -> bounded b (uf_set_off f i u).
Proof.
  intros Hi Hl Hb (Hw & Hp & Hf). split_and!; [by apply url_wf_set_off|done|].
  intros f' Hs. change (uf_isset u f' = true) in Hs. specialize (Hf f' Hs).
  rewrite uf_off_set_off, uf_len_set_off by done. case_decide; [subst|lia]. pose proof (u16_le i Hi). lia.
Qed.

Lemma host_char_from s ch :
  (http_parse_host_char s ch = s_http_host -> s = s_http_host \/ before_host s = true) /\
  (http_parse_host_char s ch = s_http_host_v6 -> s = s_http_host_v6 \/ before_host s = true) /\
  (before_host (http_parse_host_char s ch) = true -> before_host s = true).
Proof.
  unfold http_parse_host_char, host_v6_char, host_zone_char.
  destruct s; repeat case_match; simplify_eq/=; split_and!; auto; discriminate.
Qed.

Lemma host_incr total i f u : bounded (host_bound total i) u -> (forall j, host_bound total j f = j) ->
  bounded (host_bound total (i + 1)) (uf_incr f u).
Proof.
  intros Hb Hf. eapply bounded_incr; [exact Hb| |]; [intros g _; destruct g; cbn; lia|].
  rewrite !Hf. lia.
Qed.

Lemma host_mark_inv total s i ch u : 0 <= i -> host_inv total s i u ->
  http_parse_host_char s ch <> s_http_host_dead ->
  host_inv total (http_parse_host_char s ch) (i + 1) (host_mark s (http_parse_host_char s ch) i u).
Proof.
  intros Hi [Hb Hl] Hd. destruct (host_char_from s ch) as (H1 & H2 & H3).
  set (s' := http_parse_host_char s ch) in *. pose proof (proj1 Hb) as Hw.
  assert (bounded (host_bound total (i + 1)) u) as Hb1 by (eapply bounded_weaken; [|exact Hb]; intros []; cbn; lia).
  split.
  - destruct s'; cbn [host_mark]; try done; try (by apply host_incr).
    all: apply host_incr; [|done]; case_decide; [done|].
    all: first [by (apply bounded_start; cbn; lia || done)|apply bounded_set_off; [done| |cbn; lia|done]].
    all: apply Hl; first [by destruct (H1 eq_refl)|by destruct (H2 eq_refl)].
  - intros He. specialize (Hl (H3 He)). destruct s'; try discriminate He; cbn [host_mark]; try done.
    unfold uf_incr. case_decide; rewrite uf_len_set_len, decide_False by (try done; apply url_wf_set_len, url_wf_set_off; done); [done|].
    change (uf_len (uf_add ?f ?u) ?g) with (uf_len u g).
    by rewrite uf_len_set_len, decide_False, uf_len_set_off by (try apply url_wf_set_off; done).
Qed.

Lemma host_loop_inv total s i l u : 0 <= i -> host_inv total s i u ->
  bounded (host_bound total (i + len l)) (host_loop s i l u).2.
Proof.
  revert s i u. induction l as [|ch l IH]; intros s i u Hi Hinv; cbn [host_loop].
  - destruct Hinv as [Hb _]. eapply bounded_weaken; [|exact Hb]. unfold len. intros []; cbn; lia.
  - rewrite len_cons. pose proof (len_nonneg l). case_decide as Hd.
    + destruct Hinv as [Hb _]. eapply bounded_weaken; [|exact Hb]. intros []; cbn; lia.
    + replace (i + (len l + 1)) with (i + 1 + len l) by lia. apply IH; [lia|]. by apply host_mark_inv.
Qed.

Lemma port_loop_range v l r : 0 <= v <= 0xffff -> port_loop v l = Some r -> 0 <= r <= 0xffff.
Proof.
  revert v. induction l as [|c l IH]; intros v Hv; cbn [port_loop]; [by intros [= <-]|].
  pose proof (u64_range (u64 (v * 10) + (schar c - "0"%chr))). case_match eqn:E; [done|]. bool_to_prop. apply IH. lia.
Qed.

Lemma parse_host_bounds buf u at_ : bounded (fun _ => len buf) u -> no_port u -> uf_isset u UF_HOST = true ->
  exists r u', http_parse_host buf u at_ = Some (r, u') /\ (r = 0 \/ r = 1) /\ bounded (fun _ => len buf) u' /\
    port u' = port u.
Proof.
  intros Hb [Hn1 Hn2] Hset. unfold http_parse_host. rewrite Hset. cbn [negb].
  destruct Hb as (Hw & Hp & Hf). destruct (Hf UF_HOST Hset) as (Ho & Hl & Hol).
  set (host := take _ _). assert (len host <= uf_len u UF_HOST) as Hlen by (unfold host; rewrite len_take; lia).
  set (s := if at_ then _ else _).
  assert (host_inv (len buf) s (uf_off u UF_HOST) (uf_set_len UF_HOST 0 u)) as Hinv.
  { split.
    - split_and!; [by apply url_wf_set_len|done|]. intros f Hs. change (uf_isset u f = true) in Hs. specialize (Hf f Hs).
      rewrite uf_off_set_len, uf_len_set_len by done. case_decide as Hd; [subst; change (u16 0) with 0; cbn; lia|].
      destruct f; cbn; try done; congruence.
    - intros _. by rewrite uf_len_set_len, decide_True. }
  pose proof (host_loop_inv (len buf) s (uf_off u UF_HOST) host _ Ho Hinv) as Hr.
  assert (forall s i l v, port (host_loop s i l v).2 = port v) as Hport.
  { clear. intros s i l. revert s i. induction l as [|ch l IH]; intros s i v; cbn [host_loop]; [done|].
    case_decide; [done|]. rewrite IH. unfold host_mark, uf_incr. repeat case_match; done. }
  specialize (Hport s (uf_off u UF_HOST) host (uf_set_len UF_HOST 0 u)).
  destruct (host_loop _ _ _ _) as [[s'|] u'] eqn:El; cbn [snd] in *.
  all: eexists _, u'; split; [reflexivity|]; split; [by first [case_match; auto|auto]|]; split; [|done].
  all: eapply bounded_weaken; [|exact Hr]; intros []; cbn; lia.
Qed.

(** C20. http_parser_parse_url fails no assertion on any buffer, of any length; whatever
    it returns, each field it marks as set lies within the buffer, and on success the
    port fits 16 bits and a CONNECT target has a host and a port and nothing else. *)
Theorem parse_url_bounds buf is_connect u (Hw : url_wf u) :
  exists r u', http_parser_parse_url buf is_connect u = Some (r, u') /\ (r = 0 \/ r = 1) /\
    (len buf <> 0 -> forall f, uf_isset u' f = true ->
       0 <= uf_off u' f /\ 0 <= uf_len u' f /\ uf_off u' f + uf_len u' f <= len buf) /\
    (r = 0 -> 0 <= port u' <= 0xffff /\ (is_connect = true -> field_set u' = 6)).
Proof.
  unfold http_parser_parse_url. destruct (Z.eqb_spec (len buf) 0) as [E|E].
  { exists 1, u. split_and!; auto; done. }
  set (s := if is_connect then _ else _).
  assert (bounded (fun _ => 0) (mkUrl 0 0 (field_data u)) /\ no_port (mkUrl 0 0 (field_data u))) as [Hb0 Hn0].
  { split; [|done]. split_and!; [done..|]. intros f. unfold uf_isset. cbn. by rewrite Z.bits_0. }
  pose proof (url_loop_bounded s None false 0 buf _ ltac:(done) Hb0 Hn0) as Hloop.
  assert (forall s o a i l v, port (url_loop s o a i l v).2 = port v) as Hport.
  { clear. intros s o a i l. revert s o a i. induction l as [|ch l IH]; intros s o a i v; cbn [url_loop]; [done|].
    repeat case_match; try done; by rewrite IH. }
  specialize (Hport s None false 0 buf (mkUrl 0 0 (field_data u))).
  destruct (url_loop _ _ _ _ _ _) as [[at_| |] u1]; destruct Hloop as (Hna & Hb & Hn); try done.
  2: { exists 1, u1. split_and!; auto; [intros _; apply Hb|done]. }
  cbn [snd port] in Hport. rewrite Z.add_0_l in Hb.
  destruct (_ && _). { exists 1, u1. split_and!; auto; [intros _; apply Hb|done]. }
  assert (exists r u2, (if uf_isset u1 UF_HOST then http_parse_host buf u1 at_ else Some (0, u1)) = Some (r, u2) /\
    (r = 0 \/ r = 1) /\ bounded (fun _ => len buf) u2 /\ port u2 = port u1) as (r & u2 & -> & Hr & Hb2 & Hport2).
  { destruct (uf_isset u1 UF_HOST) eqn:Eh; [by apply parse_host_bounds|]. exists 0, u1. auto. }
  destruct (negb (r =? 0)). { exists 1, u2. split_and!; auto; [intros _; apply Hb2|done]. }
  destruct (is_connect && _) eqn:Ec. { exists 1, u2. split_and!; auto; [intros _; apply Hb2|done]. }
  assert (is_connect = true -> field_set u2 = 6) as Hconn.
  { intros ->. cbn [andb] in Ec. bool_to_prop. exact Ec. }
  destruct (uf_isset u2 UF_PORT) eqn:Ep.
  - destruct Hb2 as (Hw2 & Hp2 & Hf2). destruct (Hf2 UF_PORT Ep) as (Ho & Hl & Hol).
    cbv zeta. destruct (Z.ltb_spec (len buf) (uf_off u2 UF_PORT + uf_len u2 UF_PORT)); [lia|].
    destruct (port_loop _ _) as [v|] eqn:Ev; [|exists 1, u2; split_and!; auto; done].
    apply port_loop_range in Ev; [|lia]. exists 0, (set_port (u16 v) u2). split_and!; auto.
    intros _. cbn [port set_port]. split; [|done]. pose proof (u16_le v). lia.
  - exists 0, u2. split_and!; auto; [intros _; apply Hb2|]. intros _. split; [lia|done].
Qed.

Example parse_url_bounds_witness :
  exists r u', http_parser_parse_url (bs "example.com:443") true http_parser_url_init = Some (r, u') /\ (r = 0 \/ r = 1) /\
    (15 <> 0 -> forall f, uf_isset u' f = true -> 0 <= uf_off u' f /\ 0 <= uf_len u' f /\ uf_off u' f + uf_len u' f <= 15) /\
    (r = 0 -> 0 <= port u' <= 0xffff /\ (true = true -> field_set u' = 6)).
Proof. apply (parse_url_bounds (bs "example.com:443") true http_parser_url_init). reflexivity. Defined.
