(* ===== verification/HttpExec.v ===== *)
(** * http_parser_execute (src/third-party/http-parser/http_parser.c)

    One definition per [case] of the big switch.  The function's locals are the
    record [exec]; a pointer into the buffer is its offset; [break], [goto
    reexecute], [goto error], [return] and a failed [assert] are the constructors
    of [outcome], and so is a read outside the buffer: every read, and every range that
    a callback is handed, goes through [reading].  The callbacks of [http_parser_settings] may update the parser
    they are handed (they can pause it) and the user's state. *)

From S2P Require Import Prelude HttpTypes HttpUrl.

(** ** Callbacks and marks *)

Inductive data_cb := D_header_field | D_header_value | D_url | D_body | D_status.
Inductive notify_cb := N_message_begin | N_message_complete | N_chunk_header | N_chunk_complete.

#[export] Instance data_cb_eq_dec : EqDecision data_cb.
Proof. solve_decision. Defined.

Record http_parser_settings (U : Type) := mkSettings {
    on_message_begin : option (http_parser -> U -> Z * http_parser * U);
    on_url : option (http_parser -> bytes -> U -> Z * http_parser * U);
    on_status : option (http_parser -> bytes -> U -> Z * http_parser * U);
    on_header_field : option (http_parser -> bytes -> U -> Z * http_parser * U);
    on_header_value : option (http_parser -> bytes -> U -> Z * http_parser * U);
    on_headers_complete : option (http_parser -> U -> Z * http_parser * U);
    on_body : option (http_parser -> bytes -> U -> Z * http_parser * U);
    on_message_complete : option (http_parser -> U -> Z * http_parser * U);
    on_chunk_header : option (http_parser -> U -> Z * http_parser * U);
    on_chunk_complete : option (http_parser -> U -> Z * http_parser * U);
  }.
Arguments mkSettings {U}.
Arguments on_message_begin {U}.
Arguments on_url {U}.
Arguments on_status {U}.
Arguments on_header_field {U}.
Arguments on_header_value {U}.
Arguments on_headers_complete {U}.
Arguments on_body {U}.
Arguments on_message_complete {U}.
Arguments on_chunk_header {U}.
Arguments on_chunk_complete {U}.

(** [settings->on_##FOR] and [HPE_CB_##FOR]. *)
Definition data_callback {U} (s : http_parser_settings U) (d : data_cb) :=
  match d with
  | D_header_field => on_header_field s
  | D_header_value => on_header_value s
  | D_url => on_url s
  | D_body => on_body s
  | D_status => on_status s
  end.
Definition data_errno (d : data_cb) : http_errno :=
  match d with
  | D_header_field => HPE_CB_header_field
  | D_header_value => HPE_CB_header_value
  | D_url => HPE_CB_url
  | D_body => HPE_CB_body
  | D_status => HPE_CB_status
  end.
Definition notify_callback {U} (s : http_parser_settings U) (n : notify_cb) :=
  match n with
  | N_message_begin => on_message_begin s
  | N_message_complete => on_message_complete s
  | N_chunk_header => on_chunk_header s
  | N_chunk_complete => on_chunk_complete s
  end.
Definition notify_errno (n : notify_cb) : http_errno :=
  match n with
  | N_message_begin => HPE_CB_message_begin
  | N_message_complete => HPE_CB_message_complete
  | N_chunk_header => HPE_CB_chunk_header
  | N_chunk_complete => HPE_CB_chunk_complete
  end.

(** The five [_mark] pointers. *)
Record marks := mkMarks {
    header_field_mark : option Z;
    header_value_mark : option Z;
    url_mark : option Z;
    body_mark : option Z;
    status_mark : option Z;
  }.

Definition no_marks : marks := mkMarks None None None None None.

Definition get_mark (d : data_cb) (m : marks) : option Z :=
  match d with
  | D_header_field => header_field_mark m
  | D_header_value => header_value_mark m
  | D_url => url_mark m
  | D_body => body_mark m
  | D_status => status_mark m
  end.
Definition set_mark (d : data_cb) (v : option Z) (m : marks) : marks :=
  let '(mkMarks f w u b s) := m in
  match d with
  | D_header_field => mkMarks v w u b s
  | D_header_value => mkMarks f v u b s
  | D_url => mkMarks f w v b s
  | D_body => mkMarks f w u v s
  | D_status => mkMarks f w u b v
  end.

(** ** The locals of [http_parser_execute] *)

Record exec (U : Type) := mkExec {
    ex_parser : http_parser;
    ex_p : Z;          (* p - data *)
    ex_ch : Z;         (* ch *)
    ex_state : state;  (* p_state *)
    ex_nread : Z;      (* nread *)
    ex_marks : marks;
    ex_user : U;
  }.
Arguments mkExec {U}.
Arguments ex_parser {U}.
Arguments ex_p {U}.
Arguments ex_ch {U}.
Arguments ex_state {U}.
Arguments ex_nread {U}.
Arguments ex_marks {U}.
Arguments ex_user {U}.

Section Locals.
Context {U : Type}.
Implicit Types (x : exec U).

Definition on_parser (f : http_parser -> http_parser) x : exec U :=
  mkExec (f (ex_parser x)) (ex_p x) (ex_ch x) (ex_state x) (ex_nread x) (ex_marks x) (ex_user x).
Definition ex_set_p (v : Z) x : exec U :=
  mkExec (ex_parser x) v (ex_ch x) (ex_state x) (ex_nread x) (ex_marks x) (ex_user x).
Definition ex_set_ch (v : Z) x : exec U :=
  mkExec (ex_parser x) (ex_p x) v (ex_state x) (ex_nread x) (ex_marks x) (ex_user x).
Definition UPDATE_STATE (v : state) x : exec U :=
  mkExec (ex_parser x) (ex_p x) (ex_ch x) v (ex_nread x) (ex_marks x) (ex_user x).
Definition ex_set_nread (v : Z) x : exec U :=
  mkExec (ex_parser x) (ex_p x) (ex_ch x) (ex_state x) v (ex_marks x) (ex_user x).
Definition ex_set_marks (v : marks) x : exec U :=
  mkExec (ex_parser x) (ex_p x) (ex_ch x) (ex_state x) (ex_nread x) v (ex_user x).
Definition ex_set_user (v : U) x : exec U :=
  mkExec (ex_parser x) (ex_p x) (ex_ch x) (ex_state x) (ex_nread x) (ex_marks x) v.

Definition SET_ERRNO (e : http_errno) x : exec U :=
  on_parser (fun p => hp_set_http_errno e (hp_set_nread (ex_nread x) p)) x.
Definition ex_errno x : http_errno := hp_http_errno (ex_parser x).

(** [MARK(FOR)]: does nothing when the mark is set already. *)
Definition MARK (d : data_cb) x : exec U :=
  match get_mark d (ex_marks x) with
  | Some _ => x
  | None => ex_set_marks (set_mark d (Some (ex_p x)) (ex_marks x)) x
  end.
End Locals.

Inductive outcome (U : Type) :=
  | Break (x : exec U)
  | Reexecute (x : exec U)
  | Goto_error (x : exec U)
  | Return (v : Z) (x : exec U)
  | Assert_failed
  | Read_outside
  | Out_of_fuel.
Arguments Break {U}.
Arguments Reexecute {U}.
Arguments Goto_error {U}.
Arguments Return {U}.
Arguments Assert_failed {U}.
Arguments Read_outside {U}.
Arguments Out_of_fuel {U}.

Section Execute.
Context {U : Type}.
Context (settings : http_parser_settings U).
(** The global [max_header_size]. *)
Context (max_header_size : Z).
(** The two settings read once at the start. *)
Context (lenient allow_chunked_length : bool).
(** The buffer. *)
Context (data : bytes).

Implicit Types (x : exec U) (k : exec U -> outcome U).

Definition data_len : Z := len data.
(** What is read at an offset, and between two: only under [reading]. *)
Definition char_at (p : Z) : Z := nth (Z.to_nat p) data 0.
Definition slice (a b : Z) : bytes := take (Z.to_nat (b - a)) (drop (Z.to_nat a) data).
(** The code reads the bytes at offsets from [a] to [b - 1]. *)
Definition reading (a b : Z) (o : outcome U) : outcome U :=
  if (0 <=? a) && (a <=? b) && (b <=? data_len) then o else Read_outside.
Definition reading_char (p : Z) (k : Z -> outcome U) : outcome U := reading p (p + 1) (k (char_at p)).

Definition err (e : http_errno) x : outcome U := Goto_error (SET_ERRNO e x).

(** [RETURN(V)] *)
Definition RETURN (v : Z) x : outcome U :=
  Return v (on_parser (fun p => hp_set_state (ex_state x) (hp_set_nread (ex_nread x) p)) x).

(** After a callback returned [r] and left the parser as [p'] and the user's state as [u']. *)
Definition after_callback (e : http_errno) (r : Z) (p' : http_parser) (u' : U) (ER : Z) x k : outcome U :=
  let x := ex_set_user u' (on_parser (fun _ => p') x) in
  let x := if r =? 0 then x else SET_ERRNO e x in
  let x := UPDATE_STATE (hp_state (ex_parser x)) x in
  if decide (ex_errno x = HPE_OK) then k x else Return ER x.

(** [CALLBACK_NOTIFY_(FOR, ER)] *)
Definition CALLBACK_NOTIFY_ (n : notify_cb) (ER : Z) x k : outcome U :=
  if decide (ex_errno x = HPE_OK) then
  match notify_callback settings n with
  | None => k x
  | Some f =>
      let x := on_parser (hp_set_state (ex_state x)) x in
      let '(r, p', u') := f (ex_parser x) (ex_user x) in
      after_callback (notify_errno n) r p' u' ER x k
  end
  else Assert_failed.
Definition CALLBACK_NOTIFY (n : notify_cb) x k : outcome U :=
  CALLBACK_NOTIFY_ n (ex_p x + 1) x k.
Definition CALLBACK_NOTIFY_NOADVANCE (n : notify_cb) x k : outcome U :=
  CALLBACK_NOTIFY_ n (ex_p x) x k.

(** [CALLBACK_DATA_(FOR, LEN, ER)], with [LEN = p - FOR##_mark + extra]. *)
Definition CALLBACK_DATA_ (d : data_cb) (extra ER : Z) x k : outcome U :=
  let unmark x := ex_set_marks (set_mark d None (ex_marks x)) x in
  if decide (ex_errno x = HPE_OK) then
  match get_mark d (ex_marks x) with
  | None => k x
  | Some m =>
      match data_callback settings d with
      | None => k (unmark x)
      | Some f =>
          let x := on_parser (hp_set_state (ex_state x)) x in
          reading m (ex_p x + extra)
          (let '(r, p', u') := f (ex_parser x) (slice m (ex_p x + extra)) (ex_user x) in
           after_callback (data_errno d) r p' u' ER x (fun x => k (unmark x)))
      end
  end
  else Assert_failed.
Definition CALLBACK_DATA (d : data_cb) x k : outcome U := CALLBACK_DATA_ d 0 (ex_p x + 1) x k.
Definition CALLBACK_DATA_NOADVANCE (d : data_cb) x k : outcome U := CALLBACK_DATA_ d 0 (ex_p x) x k.

Definition COUNT_HEADER_SIZE (v : Z) x k : outcome U :=
  let x := ex_set_nread (u32 (ex_nread x + u32 v)) x in
  if max_header_size <? ex_nread x then err HPE_HEADER_OVERFLOW x else k x.

Definition STRICT_CHECK (cond : bool) x k : outcome U :=
  if cond then err HPE_STRICT x else k x.

Definition is_crlf (ch : Z) : bool := (ch =? CR) || (ch =? LF).

(** ** Start of a message *)

Definition do_dead x : outcome U :=
  if is_crlf (ex_ch x) then Break x else err HPE_CLOSED_CONNECTION x.

Definition reset_message (p : http_parser) : http_parser :=
  hp_set_content_length ULLONG_MAX (hp_set_uses_transfer_encoding false (hp_set_flags 0 p)).

Definition do_start_req_or_res x : outcome U :=
  if is_crlf (ex_ch x) then Break x else
  let x := on_parser reset_message x in
  if ex_ch x =? "H"%chr
  then CALLBACK_NOTIFY N_message_begin (UPDATE_STATE s_res_or_resp_H x) Break
  else Reexecute (UPDATE_STATE s_start_req (on_parser (hp_set_type HTTP_REQUEST) x)).

Definition do_res_or_resp_H x : outcome U :=
  if ex_ch x =? "T"%chr
  then Break (UPDATE_STATE s_res_HT (on_parser (hp_set_type HTTP_RESPONSE) x))
  else if negb (ex_ch x =? "E"%chr) then err HPE_INVALID_CONSTANT x
  else Break (UPDATE_STATE s_req_method
       (on_parser (fun p => hp_set_index 2 (hp_set_method HTTP_HEAD (hp_set_type HTTP_REQUEST p))) x)).

Definition do_start_res x : outcome U :=
  if is_crlf (ex_ch x) then Break x else
  let x := on_parser reset_message x in
  if ex_ch x =? "H"%chr
  then CALLBACK_NOTIFY N_message_begin (UPDATE_STATE s_res_H x) Break
  else err HPE_INVALID_CONSTANT x.

(** A state that only checks its character, in strict mode, and moves on. *)
Definition expect (c : Z) (next : state) x : outcome U :=
  STRICT_CHECK (negb (ex_ch x =? c)) x (fun x => Break (UPDATE_STATE next x)).

(** [s_res_http_major], [s_req_http_major] and the [_minor] states. *)
Definition do_http_digit (store : Z -> http_parser -> http_parser) (next : state) x : outcome U :=
  if negb (IS_NUM (ex_ch x)) then err HPE_INVALID_VERSION x
  else Break (UPDATE_STATE next (on_parser (store (ex_ch x - "0"%chr)) x)).

Definition do_http_dot (next : state) x : outcome U :=
  if negb (ex_ch x =? "."%chr) then err HPE_INVALID_VERSION x
  else Break (UPDATE_STATE next x).

Definition do_res_http_end x : outcome U :=
  if negb (ex_ch x =? " "%chr) then err HPE_INVALID_VERSION x
  else Break (UPDATE_STATE s_res_first_status_code x).

Definition do_res_first_status_code x : outcome U :=
  if negb (IS_NUM (ex_ch x)) then
  if ex_ch x =? " "%chr then Break x else err HPE_INVALID_STATUS x
  else Break (UPDATE_STATE s_res_status_code (on_parser (hp_set_status_code (ex_ch x - "0"%chr)) x)).

Definition do_res_status_code x : outcome U :=
  let ch := ex_ch x in
  if negb (IS_NUM ch) then
  if ch =? " "%chr then Break (UPDATE_STATE s_res_status_start x)
  else if is_crlf ch then Reexecute (UPDATE_STATE s_res_status_start x)
  else err HPE_INVALID_STATUS x
  else
  let x := on_parser (fun p => hp_set_status_code (hp_status_code p * 10) p) x in
  let x := on_parser (fun p => hp_set_status_code (hp_status_code p + (ch - "0"%chr)) p) x in
  if 999 <? hp_status_code (ex_parser x) then err HPE_INVALID_STATUS x else Break x.

Definition do_res_status_start x : outcome U :=
  let x := on_parser (hp_set_index 0) (UPDATE_STATE s_res_status (MARK D_status x)) in
  if is_crlf (ex_ch x) then Reexecute x else Break x.

Definition do_res_status x : outcome U :=
  if ex_ch x =? CR then CALLBACK_DATA D_status (UPDATE_STATE s_res_line_almost_done x) Break
  else if ex_ch x =? LF then CALLBACK_DATA D_status (UPDATE_STATE s_header_field_start x) Break
  else Break x.

(** ** The request line *)

(** The method guessed from the first letter. *)
Definition first_method (ch : Z) : option http_method :=
  if ch =? "A"%chr then Some HTTP_ACL
  else if ch =? "B"%chr then Some HTTP_BIND
  else if ch =? "C"%chr then Some HTTP_CONNECT
  else if ch =? "D"%chr then Some HTTP_DELETE
  else if ch =? "G"%chr then Some HTTP_GET
  else if ch =? "H"%chr then Some HTTP_HEAD
  else if ch =? "L"%chr then Some HTTP_LOCK
  else if ch =? "M"%chr then Some HTTP_MKCOL
  else if ch =? "N"%chr then Some HTTP_NOTIFY
  else if ch =? "O"%chr then Some HTTP_OPTIONS
  else if ch =? "P"%chr then Some HTTP_POST
  else if ch =? "R"%chr then Some HTTP_REPORT
  else if ch =? "S"%chr then Some HTTP_SUBSCRIBE
  else if ch =? "T"%chr then Some HTTP_TRACE
  else if ch =? "U"%chr then Some HTTP_UNLOCK
  else None.

Definition do_start_req x : outcome U :=
  if is_crlf (ex_ch x) then Break x else
  let x := on_parser reset_message x in
  if negb (IS_ALPHA (ex_ch x)) then err HPE_INVALID_METHOD x else
  let x := on_parser (fun p => hp_set_index 1 (hp_set_method HTTP_DELETE p)) x in
  match first_method (ex_ch x) with
  | Some m =>
    CALLBACK_NOTIFY N_message_begin (UPDATE_STATE s_req_method (on_parser (hp_set_method m) x)) Break
  | None => err HPE_INVALID_METHOD x
  end.

(** The table of the [XX] lines: at this position, this character changes the guess. *)
Definition method_switches : list (http_method * Z * Z * http_method) :=
  [(HTTP_POST, 1, "U"%chr, HTTP_PUT);
   (HTTP_POST, 1, "A"%chr, HTTP_PATCH);
   (HTTP_POST, 1, "R"%chr, HTTP_PROPFIND);
   (HTTP_PUT, 2, "R"%chr, HTTP_PURGE);
   (HTTP_CONNECT, 1, "H"%chr, HTTP_CHECKOUT);
   (HTTP_CONNECT, 2, "P"%chr, HTTP_COPY);
   (HTTP_MKCOL, 1, "O"%chr, HTTP_MOVE);
   (HTTP_MKCOL, 1, "E"%chr, HTTP_MERGE);
   (HTTP_MKCOL, 1, "-"%chr, HTTP_MSEARCH);
   (HTTP_MKCOL, 2, "A"%chr, HTTP_MKACTIVITY);
   (HTTP_MKCOL, 3, "A"%chr, HTTP_MKCALENDAR);
   (HTTP_SUBSCRIBE, 1, "E"%chr, HTTP_SEARCH);
   (HTTP_SUBSCRIBE, 1, "O"%chr, HTTP_SOURCE);
   (HTTP_REPORT, 2, "B"%chr, HTTP_REBIND);
   (HTTP_PROPFIND, 4, "P"%chr, HTTP_PROPPATCH);
   (HTTP_LOCK, 1, "I"%chr, HTTP_LINK);
   (HTTP_UNLOCK, 2, "S"%chr, HTTP_UNSUBSCRIBE);
   (HTTP_UNLOCK, 2, "B"%chr, HTTP_UNBIND);
   (HTTP_UNLOCK, 3, "I"%chr, HTTP_UNLINK)].

Definition method_switch (m : http_method) (index ch : Z) : option http_method :=
  match list_find (fun e => let '(m', i, c, _) := e in m' = m /\ i = index /\ c = ch) method_switches with
  | Some (_, (_, _, _, new)) => Some new
  | None => None
  end.

(** [matcher[parser->index]], with the terminating NUL. *)
Definition matcher_at (m : http_method) (index : Z) : Z := nth (Z.to_nat index) (method_string m) 0.

Definition do_req_method x : outcome U :=
  let ch := ex_ch x in
  let p := ex_parser x in
  let next x := Break (on_parser (fun p => hp_set_index (hp_index p + 1) p) x) in
  if ch =? 0 then err HPE_INVALID_METHOD x
  else if (ch =? " "%chr) && (matcher_at (hp_method p) (hp_index p) =? 0)
  then next (UPDATE_STATE s_req_spaces_before_url x)
  else if ch =? matcher_at (hp_method p) (hp_index p) then next x
  else if (("A"%chr <=? ch) && (ch <=? "Z"%chr)) || (ch =? "-"%chr) then
  match method_switch (hp_method p) (hp_index p) ch with
  | Some m => next (on_parser (hp_set_method m) x)
  | None => err HPE_INVALID_METHOD x
  end
  else err HPE_INVALID_METHOD x.

(** [UPDATE_STATE(parse_url_char(...))] and the test for [s_dead]. *)
Definition url_char x : outcome U :=
  let x := UPDATE_STATE (parse_url_char (ex_state x) (ex_ch x)) x in
  if decide (ex_state x = s_dead) then err HPE_INVALID_URL x else Break x.

Definition do_req_spaces_before_url x : outcome U :=
  if ex_ch x =? " "%chr then Break x else
  let x := MARK D_url x in
  url_char (if decide (hp_method (ex_parser x) = HTTP_CONNECT) then UPDATE_STATE s_req_server_start x else x).

(** [s_req_schema], [_slash], [_slash_slash] and [s_req_server_start]. *)
Definition do_req_schema x : outcome U :=
  if (ex_ch x =? " "%chr) || is_crlf (ex_ch x) then err HPE_INVALID_URL x else url_char x.

(** [s_req_server] to [s_req_fragment]. *)
Definition do_req_url x : outcome U :=
  let ch := ex_ch x in
  if ch =? " "%chr then CALLBACK_DATA D_url (UPDATE_STATE s_req_http_start x) Break
  else if is_crlf ch then
  let x := on_parser (fun p => hp_set_http_minor 9 (hp_set_http_major 0 p)) x in
  CALLBACK_DATA D_url
    (UPDATE_STATE (if ch =? CR then s_req_line_almost_done else s_header_field_start) x) Break
  else url_char x.

Definition do_req_http_start x : outcome U :=
  let ch := ex_ch x in
  if ch =? " "%chr then Break x
  else if ch =? "H"%chr then Break (UPDATE_STATE s_req_http_H x)
  else if (ch =? "I"%chr) && bool_decide (hp_method (ex_parser x) = HTTP_SOURCE)
  then Break (UPDATE_STATE s_req_http_I x)
  else err HPE_INVALID_CONSTANT x.

Definition do_req_http_end x : outcome U :=
  if ex_ch x =? CR then Break (UPDATE_STATE s_req_line_almost_done x)
  else if ex_ch x =? LF then Break (UPDATE_STATE s_header_field_start x)
  else err HPE_INVALID_VERSION x.

Definition do_req_line_almost_done x : outcome U :=
  if negb (ex_ch x =? LF) then err HPE_LF_EXPECTED x
  else Break (UPDATE_STATE s_header_field_start x).

(** ** Header fields *)

Definition do_header_field_start x : outcome U :=
  let ch := ex_ch x in
  if ch =? CR then Break (UPDATE_STATE s_headers_almost_done x)
  else if ch =? LF then Reexecute (UPDATE_STATE s_headers_almost_done x)
  else
  let c := TOKEN ch in
  if c =? 0 then err HPE_INVALID_HEADER_TOKEN x else
  let x := UPDATE_STATE s_header_field (on_parser (hp_set_index 0) (MARK D_header_field x)) in
  Break (on_parser (hp_set_header_state
    (if c =? "c"%chr then h_C
     else if c =? "p"%chr then h_matching_proxy_connection
     else if c =? "t"%chr then h_matching_transfer_encoding
     else if c =? "u"%chr then h_matching_upgrade
     else h_general)) x).

Definition PROXY_CONNECTION : bytes := bs "proxy-connection".
Definition CONNECTION : bytes := bs "connection".
Definition CONTENT_LENGTH : bytes := bs "content-length".
Definition TRANSFER_ENCODING : bytes := bs "transfer-encoding".
Definition UPGRADE : bytes := bs "upgrade".
Definition CHUNKED : bytes := bs "chunked".
Definition KEEP_ALIVE : bytes := bs "keep-alive".
Definition CLOSE : bytes := bs "close".

(** The test of every matching state on the incremented index: the next header
state when [c] is not the word's character ([fail]), when it is its last one
([full]), or [None] to stay.  [sizeof(WORD)-1] is the word's length. *)
Definition match_word (word : bytes) (index c : Z) (fail full : header_states) : option header_states :=
  if (len word <? index) || negb (c =? nth (Z.to_nat index) word 0) then Some fail
  else if index =? len word - 1 then Some full
  else None.

Definition incr_index (p : http_parser) : http_parser := hp_set_index (hp_index p + 1) p.

Definition match_field (word : bytes) (c : Z) (full : header_states) (p : http_parser) : http_parser :=
  let p := incr_index p in
  match match_word word (hp_index p) c h_general full with
  | Some h => hp_set_header_state h p
  | None => p
  end.

(** The [switch (parser->header_state)] on a field character other than in
[h_general]; [None] is the failed assertion. *)
Definition header_field_char (ch c : Z) (p : http_parser) : option http_parser :=
  match hp_header_state p with
  | h_C => Some (hp_set_header_state (if c =? "o"%chr then h_CO else h_general) (incr_index p))
  | h_CO => Some (hp_set_header_state (if c =? "n"%chr then h_CON else h_general) (incr_index p))
  | h_CON =>
    Some (hp_set_header_state
      (if c =? "n"%chr then h_matching_connection
       else if c =? "t"%chr then h_matching_content_length else h_general) (incr_index p))
  | h_matching_connection => Some (match_field CONNECTION c h_connection p)
  | h_matching_proxy_connection => Some (match_field PROXY_CONNECTION c h_connection p)
  | h_matching_content_length => Some (match_field CONTENT_LENGTH c h_content_length p)
  | h_matching_transfer_encoding =>
    let p := match_field TRANSFER_ENCODING c h_transfer_encoding p in
    Some (if decide (hp_header_state p = h_transfer_encoding)
          then hp_set_uses_transfer_encoding true p else p)
  | h_matching_upgrade => Some (match_field UPGRADE c h_upgrade p)
  | h_connection | h_content_length | h_transfer_encoding | h_upgrade =>
    Some (if negb (ch =? " "%chr) then hp_set_header_state h_general p else p)
  | _ => None
  end.

(** The number of leading characters for which [f] holds: the [while] loops. *)
Fixpoint count_while (f : Z -> bool) (l : bytes) : Z :=
  match l with
  | [] => 0
  | c :: l' => if f c then 1 + count_while f l' else 0
  end.

Definition do_header_field_end (start : Z) x : outcome U :=
  if ex_p x =? data_len then
  let x := ex_set_p (ex_p x - 1) x in COUNT_HEADER_SIZE (ex_p x - start) x Break
  else
  COUNT_HEADER_SIZE (ex_p x - start) x (fun x =>
    if ex_ch x =? ":"%chr
    then CALLBACK_DATA D_header_field (UPDATE_STATE s_header_value_discard_ws x) Break
    else err HPE_INVALID_HEADER_TOKEN x).

(** The [for] loop of [s_header_field]; each round advances [p], so
[data_len - p] rounds are enough. *)
Fixpoint header_field_loop (fuel : nat) (start : Z) x : outcome U :=
  if ex_p x =? data_len then do_header_field_end start x else
  match fuel with
  | O => Out_of_fuel
  | S fuel' =>
    reading_char (ex_p x) (fun ch =>
    let c := TOKEN ch in
    let x := ex_set_ch ch x in
    if c =? 0 then do_header_field_end start x else
    match hp_header_state (ex_parser x) with
    | h_general =>
        let pe := ex_p x + Z.min (data_len - ex_p x) max_header_size in
        reading (ex_p x) pe
        (let n := count_while (fun c => negb (TOKEN c =? 0)) (slice (ex_p x + 1) pe) in
         header_field_loop fuel' start (ex_set_p (ex_p x + n + 1) x))
    | _ =>
        match header_field_char ch c (ex_parser x) with
        | Some p => header_field_loop fuel' start (ex_set_p (ex_p x + 1) (on_parser (fun _ => p) x))
        | None => Assert_failed
        end
    end)
  end.

Definition do_header_field x : outcome U :=
  header_field_loop (Z.to_nat (data_len - ex_p x)) (ex_p x) x.

(** ** Header values *)

Definition set_flag (f : Z) (p : http_parser) : http_parser := hp_set_flags (Z.lor (hp_flags p) f) p.

Definition do_header_value_start x : outcome U :=
  let x := on_parser (hp_set_index 0) (UPDATE_STATE s_header_value (MARK D_header_value x)) in
  let ch := ex_ch x in
  let c := LOWER ch in
  let p := ex_parser x in
  let to h := Break (on_parser (hp_set_header_state h) x) in
  match hp_header_state p with
  | h_upgrade => Break (on_parser (fun p => hp_set_header_state h_general (set_flag F_UPGRADE p)) x)
  | h_transfer_encoding =>
    to (if c =? "c"%chr then h_matching_transfer_encoding_chunked else h_matching_transfer_encoding_token)
  | h_matching_transfer_encoding_token_start => Break x
  | h_content_length =>
    if negb (IS_NUM ch) then err HPE_INVALID_CONTENT_LENGTH x
    else if has_flag (hp_flags p) F_CONTENTLENGTH then err HPE_UNEXPECTED_CONTENT_LENGTH x
    else Break (on_parser (fun p => hp_set_header_state h_content_length_num
           (hp_set_content_length (ch - "0"%chr) (set_flag F_CONTENTLENGTH p))) x)
  | h_content_length_ws => Break x
  | h_connection =>
    to (if c =? "k"%chr then h_matching_connection_keep_alive
        else if c =? "c"%chr then h_matching_connection_close
        else if c =? "u"%chr then h_matching_connection_upgrade
        else h_matching_connection_token)
  | h_matching_connection_token_start => Break x
  | _ => to h_general
  end.

Definition do_header_value_discard_ws x : outcome U :=
  let ch := ex_ch x in
  if (ch =? " "%chr) || (ch =? TAB) then Break x
  else if ch =? CR then Break (UPDATE_STATE s_header_value_discard_ws_almost_done x)
  else if ch =? LF then Break (UPDATE_STATE s_header_value_discard_lws x)
  else do_header_value_start x.

(** [h_state] after one more character of a value, with the parser's [index] and
[flags]; not for [h_general] and the content-length states. *)
Definition match_value (word : bytes) (c : Z) (h fail full : header_states) (p : http_parser) :
  header_states * http_parser :=
  let p := incr_index p in
  (default h (match_word word (hp_index p) c fail full), p).

Definition connection_flag (h : header_states) : Z :=
  match h with
  | h_connection_keep_alive => F_CONNECTION_KEEP_ALIVE
  | h_connection_close => F_CONNECTION_CLOSE
  | h_connection_upgrade => F_CONNECTION_UPGRADE
  | _ => 0
  end.

Definition header_value_char (ch c : Z) (h : header_states) (p : http_parser) :
  header_states * http_parser :=
  match h with
  | h_matching_transfer_encoding_token_start =>
    (if c =? "c"%chr then h_matching_transfer_encoding_chunked
     else if negb (STRICT_TOKEN c =? 0) then h_matching_transfer_encoding_token
     else if (c =? " "%chr) || (c =? TAB) then h else h_general, p)
  | h_matching_transfer_encoding_chunked =>
    match_value CHUNKED c h h_matching_transfer_encoding_token h_transfer_encoding_chunked p
  | h_matching_transfer_encoding_token =>
    if ch =? ","%chr then (h_matching_transfer_encoding_token_start, hp_set_index 0 p) else (h, p)
  | h_matching_connection_token_start =>
    (if c =? "k"%chr then h_matching_connection_keep_alive
     else if c =? "c"%chr then h_matching_connection_close
     else if c =? "u"%chr then h_matching_connection_upgrade
     else if negb (STRICT_TOKEN c =? 0) then h_matching_connection_token
     else if (c =? " "%chr) || (c =? TAB) then h else h_general, p)
  | h_matching_connection_keep_alive =>
    match_value KEEP_ALIVE c h h_matching_connection_token h_connection_keep_alive p
  | h_matching_connection_close =>
    match_value CLOSE c h h_matching_connection_token h_connection_close p
  | h_matching_connection_upgrade =>
    match_value UPGRADE c h h_matching_connection_token h_connection_upgrade p
  | h_matching_connection_token =>
    if ch =? ","%chr then (h_matching_connection_token_start, hp_set_index 0 p) else (h, p)
  | h_transfer_encoding_chunked =>
    (if negb (ch =? " "%chr) then h_matching_transfer_encoding_token else h, p)
  | h_connection_keep_alive | h_connection_close | h_connection_upgrade =>
    if ch =? ","%chr
    then (h_matching_connection_token_start, hp_set_index 0 (set_flag (connection_flag h) p))
    else (if negb (ch =? " "%chr) then h_matching_connection_token else h, p)
  | _ => (h_general, p)
  end.

(** The scan of the [h_general] case over the bytes from [p]: how many were
passed, and why it stopped. *)
Inductive scan_stop := Scan_end | Scan_crlf | Scan_bad.

Fixpoint scan_general (l : bytes) : Z * scan_stop :=
  match l with
  | [] => (0, Scan_end)
  | ch :: l' =>
    if is_crlf ch then (0, Scan_crlf)
    else if negb lenient && negb (IS_HEADER_CHAR ch) then (0, Scan_bad)
    else let '(n, s) := scan_general l' in (n + 1, s)
  end.

(** After the [for] loop of [s_header_value]. *)
Definition do_header_value_end (start : Z) (h : header_states) x : outcome U :=
  let x := on_parser (hp_set_header_state h) x in
  let x := if ex_p x =? data_len then ex_set_p (ex_p x - 1) x else x in
  COUNT_HEADER_SIZE (ex_p x - start) x Break.

(** One digit of the Content-Length; the value stored, or [None] when it is too big. *)
Definition content_length_digit (ch content_length : Z) : option Z :=
  let t := u64 (u64 (content_length * 10) + (ch - "0"%chr)) in
  if (ULLONG_MAX - 10) / 10 <? content_length then None else Some t.

Fixpoint header_value_loop (fuel : nat) (start : Z) (h : header_states) x : outcome U :=
  if ex_p x =? data_len then do_header_value_end start h x else
  match fuel with
  | O => Out_of_fuel
  | S fuel' =>
    reading_char (ex_p x) (fun ch =>
    let x := ex_set_ch ch x in
    if ch =? CR then
      CALLBACK_DATA D_header_value
        (on_parser (hp_set_header_state h) (UPDATE_STATE s_header_almost_done x))
        (do_header_value_end start h)
    else if ch =? LF then
      COUNT_HEADER_SIZE (ex_p x - start) (UPDATE_STATE s_header_almost_done x) (fun x =>
        CALLBACK_DATA_NOADVANCE D_header_value (on_parser (hp_set_header_state h) x) Reexecute)
    else if negb lenient && negb (IS_HEADER_CHAR ch) then err HPE_INVALID_HEADER_TOKEN x
    else
      let c := LOWER ch in
      let next h x := header_value_loop fuel' start h (ex_set_p (ex_p x + 1) x) in
      let bad_length h := Goto_error (on_parser (hp_set_header_state h) (SET_ERRNO HPE_INVALID_CONTENT_LENGTH x)) in
      let num x :=
        if ch =? " "%chr then next h_content_length_ws x
        else if negb (IS_NUM ch) then bad_length h_content_length_num
        else match content_length_digit ch (hp_content_length (ex_parser x)) with
             | Some t => next h_content_length_num (on_parser (hp_set_content_length t) x)
             | None => bad_length h_content_length_num
             end in
      match h with
      | h_general =>
          let pe := ex_p x + Z.min (data_len - ex_p x) max_header_size in
          reading (ex_p x) pe match scan_general (slice (ex_p x) pe) with
          | (n, Scan_crlf) =>
              let x := ex_set_ch (char_at (ex_p x + n)) (ex_set_p (ex_p x + n - 1) x) in next h x
          | (n, Scan_bad) =>
              err HPE_INVALID_HEADER_TOKEN (ex_set_ch (char_at (ex_p x + n)) (ex_set_p (ex_p x + n) x))
          | (n, Scan_end) =>
              let x := ex_set_ch (char_at (pe - 1)) (ex_set_p pe x) in
              next h (if ex_p x =? data_len then ex_set_p (ex_p x - 1) x else x)
          end
      | h_connection | h_transfer_encoding => Assert_failed
      | h_content_length => if ch =? " "%chr then next h x else num x
      | h_content_length_num => num x
      | h_content_length_ws =>
          if ch =? " "%chr then next h x else bad_length h
      | h_C | h_CO | h_CON | h_matching_connection | h_matching_proxy_connection
      | h_matching_content_length | h_matching_transfer_encoding | h_matching_upgrade | h_upgrade =>
          next h_general (UPDATE_STATE s_header_value x)
      | _ =>
          let '(h', p') := header_value_char ch c h (ex_parser x) in
          next h' (on_parser (fun _ => p') x)
      end)
  end.

Definition do_header_value x : outcome U :=
  header_value_loop (Z.to_nat (data_len - ex_p x)) (ex_p x) (hp_header_state (ex_parser x)) x.

Definition do_header_almost_done x : outcome U :=
  if negb (ex_ch x =? LF) then err HPE_LF_EXPECTED x
  else Break (UPDATE_STATE s_header_value_lws x).

(** The flag recorded at the end of a header. *)
Definition finish_header (p : http_parser) : http_parser :=
  match hp_header_state p with
  | h_connection_keep_alive => set_flag F_CONNECTION_KEEP_ALIVE p
  | h_connection_close => set_flag F_CONNECTION_CLOSE p
  | h_transfer_encoding_chunked => set_flag F_CHUNKED p
  | h_connection_upgrade => set_flag F_CONNECTION_UPGRADE p
  | _ => p
  end.

Definition do_header_value_lws x : outcome U :=
  if (ex_ch x =? " "%chr) || (ex_ch x =? TAB) then
  let x := if decide (hp_header_state (ex_parser x) = h_content_length_num)
           then on_parser (hp_set_header_state h_content_length_ws) x else x in
  Reexecute (UPDATE_STATE s_header_value_start x)
  else Reexecute (UPDATE_STATE s_header_field_start (on_parser finish_header x)).

Definition do_header_value_discard_lws x : outcome U :=
  if (ex_ch x =? " "%chr) || (ex_ch x =? TAB) then Break (UPDATE_STATE s_header_value_discard_ws x)
  else if decide (hp_header_state (ex_parser x) = h_content_length) then err HPE_INVALID_CONTENT_LENGTH x
  else
  CALLBACK_DATA_NOADVANCE D_header_value
    (UPDATE_STATE s_header_field_start (MARK D_header_value (on_parser finish_header x))) Reexecute.

(** ** End of the headers *)

(** Content-Length together with Transfer-Encoding. *)
Definition length_conflict (p : http_parser) : bool :=
  hp_uses_transfer_encoding p && has_flag (hp_flags p) F_CONTENTLENGTH &&
  (if has_flag (hp_flags p) F_CHUNKED then negb allow_chunked_length else negb lenient).

Definition upgrade_requested (p : http_parser) : bool :=
  if has_flag (hp_flags p) F_UPGRADE && has_flag (hp_flags p) F_CONNECTION_UPGRADE
  then bool_decide (hp_type p = HTTP_REQUEST) || (hp_status_code p =? 101)
  else bool_decide (hp_method p = HTTP_CONNECT).

(** The call of [on_headers_complete], whose result chooses how to go on. *)
Definition call_headers_complete x k : outcome U :=
  let check x := if decide (ex_errno x = HPE_OK) then k x else RETURN (ex_p x) x in
  match on_headers_complete settings with
  | None => check x
  | Some f =>
    let '(r, p', u') := f (ex_parser x) (ex_user x) in
    let x := ex_set_user u' (on_parser (fun _ => p') x) in
    if r =? 0 then check x
    else if r =? 2 then check (on_parser (fun p => set_flag F_SKIPBODY (hp_set_upgrade true p)) x)
    else if r =? 1 then check (on_parser (set_flag F_SKIPBODY) x)
    else let x := SET_ERRNO HPE_CB_headers_complete x in RETURN (ex_p x) x
  end.

Definition do_headers_almost_done x : outcome U :=
  STRICT_CHECK (negb (ex_ch x =? LF)) x (fun x =>
  if has_flag (hp_flags (ex_parser x)) F_TRAILING
  then CALLBACK_NOTIFY_NOADVANCE N_chunk_complete (UPDATE_STATE s_message_done x) Reexecute
  else if length_conflict (ex_parser x) then err HPE_UNEXPECTED_CONTENT_LENGTH x
  else
    let x := UPDATE_STATE s_headers_done x in
    let x := on_parser (fun p => hp_set_upgrade (upgrade_requested p) p) x in
    call_headers_complete x Reexecute).

Definition new_message x : exec U := UPDATE_STATE (NEW_MESSAGE (ex_parser x)) x.
Definition reset_nread x : exec U := ex_set_nread 0 (on_parser (hp_set_nread 0) x).

Definition do_headers_done x : outcome U :=
  STRICT_CHECK (negb (ex_ch x =? LF)) x (fun x =>
  let x := reset_nread x in
  let p := ex_parser x in
  let hasBody := has_flag (hp_flags p) F_CHUNKED ||
    ((0 <? hp_content_length p) && negb (hp_content_length p =? ULLONG_MAX)) in
  let done x := CALLBACK_NOTIFY N_message_complete (new_message x) Break in
  if hp_upgrade p && (bool_decide (hp_method p = HTTP_CONNECT) || has_flag (hp_flags p) F_SKIPBODY || negb hasBody)
  then CALLBACK_NOTIFY N_message_complete (new_message x) (fun x => RETURN (ex_p x + 1) x)
  else if has_flag (hp_flags p) F_SKIPBODY then done x
  else if has_flag (hp_flags p) F_CHUNKED then Break (UPDATE_STATE s_chunk_size_start x)
  else if hp_uses_transfer_encoding p then
    if bool_decide (hp_type p = HTTP_REQUEST) && negb lenient
    then let x := SET_ERRNO HPE_INVALID_TRANSFER_ENCODING x in RETURN (ex_p x) x
    else Break (UPDATE_STATE s_body_identity_eof x)
  else if hp_content_length p =? 0 then done x
  else if negb (hp_content_length p =? ULLONG_MAX) then Break (UPDATE_STATE s_body_identity x)
  else if negb (http_message_needs_eof p) then done x
  else Break (UPDATE_STATE s_body_identity_eof x)).

(** ** The body *)

Definition assert_ (c : bool) (o : outcome U) : outcome U := if c then o else Assert_failed.

(** [to_read], [MARK(body)] and the advance shared by the two body states. *)
Definition read_body x : exec U :=
  let to_read := Z.min (hp_content_length (ex_parser x)) (data_len - ex_p x) in
  let x := MARK D_body x in
  let x := on_parser (fun p => hp_set_content_length (hp_content_length p - to_read) p) x in
  ex_set_p (ex_p x + (to_read - 1)) x.

Definition body_length_ok (p : http_parser) : bool :=
  negb (hp_content_length p =? 0) && negb (hp_content_length p =? ULLONG_MAX).

Definition do_body_identity x : outcome U :=
  assert_ (body_length_ok (ex_parser x))
  (let x := read_body x in
   if hp_content_length (ex_parser x) =? 0
   then CALLBACK_DATA_ D_body 1 (ex_p x) (UPDATE_STATE s_message_done x) Reexecute
   else Break x).

Definition do_body_identity_eof x : outcome U :=
  Break (ex_set_p (data_len - 1) (MARK D_body x)).

Definition do_message_done x : outcome U :=
  CALLBACK_NOTIFY N_message_complete (new_message x) (fun x =>
  if hp_upgrade (ex_parser x) then RETURN (ex_p x + 1) x else Break x).

(** ** Chunked bodies *)

Definition is_chunked x : bool := has_flag (hp_flags (ex_parser x)) F_CHUNKED.

Definition do_chunk_size_start x : outcome U :=
  assert_ (ex_nread x =? 1) (assert_ (is_chunked x)
  (let v := table unhex (ex_ch x) in
   if v =? -1 then err HPE_INVALID_CHUNK_SIZE x
   else Break (UPDATE_STATE s_chunk_size (on_parser (hp_set_content_length v) x)))).

(** One hexadecimal digit of a chunk size, or [None] when the size is too big. *)
Definition chunk_size_digit (v content_length : Z) : option Z :=
  let t := u64 (u64 (content_length * 16) + v) in
  if (ULLONG_MAX - 16) / 16 <? content_length then None else Some t.

Definition do_chunk_size x : outcome U :=
  assert_ (is_chunked x)
  (let ch := ex_ch x in
   if ch =? CR then Break (UPDATE_STATE s_chunk_size_almost_done x) else
   let v := table unhex ch in
   if v =? -1 then
     if (ch =? ";"%chr) || (ch =? " "%chr) then Break (UPDATE_STATE s_chunk_parameters x)
     else err HPE_INVALID_CHUNK_SIZE x
   else match chunk_size_digit v (hp_content_length (ex_parser x)) with
        | Some t => Break (on_parser (hp_set_content_length t) x)
        | None => err HPE_INVALID_CONTENT_LENGTH x
        end).

Definition do_chunk_parameters x : outcome U :=
  assert_ (is_chunked x)
  (if ex_ch x =? CR then Break (UPDATE_STATE s_chunk_size_almost_done x) else Break x).

Definition do_chunk_size_almost_done x : outcome U :=
  assert_ (is_chunked x)
  (STRICT_CHECK (negb (ex_ch x =? LF)) x (fun x =>
     let x := reset_nread x in
     let x := if hp_content_length (ex_parser x) =? 0
              then UPDATE_STATE s_header_field_start (on_parser (set_flag F_TRAILING) x)
              else UPDATE_STATE s_chunk_data x in
     CALLBACK_NOTIFY N_chunk_header x Break)).

Definition do_chunk_data x : outcome U :=
  assert_ (is_chunked x) (assert_ (body_length_ok (ex_parser x))
  (let x := read_body x in
   if hp_content_length (ex_parser x) =? 0
   then Break (UPDATE_STATE s_chunk_data_almost_done x) else Break x)).

Definition do_chunk_data_almost_done x : outcome U :=
  assert_ (is_chunked x) (assert_ (hp_content_length (ex_parser x) =? 0)
  (STRICT_CHECK (negb (ex_ch x =? CR)) x (fun x =>
     CALLBACK_DATA D_body (UPDATE_STATE s_chunk_data_done x) Break))).

Definition do_chunk_data_done x : outcome U :=
  assert_ (is_chunked x)
  (STRICT_CHECK (negb (ex_ch x =? LF)) x (fun x =>
     CALLBACK_NOTIFY N_chunk_complete (UPDATE_STATE s_chunk_size_start (reset_nread x)) Break)).

(** ** The switch *)

Definition step x : outcome U :=
  match ex_state x with
  | s_dead => do_dead x
  | s_start_req_or_res => do_start_req_or_res x
  | s_res_or_resp_H => do_res_or_resp_H x
  | s_start_res => do_start_res x
  | s_res_H => expect "T"%chr s_res_HT x
  | s_res_HT => expect "T"%chr s_res_HTT x
  | s_res_HTT => expect "P"%chr s_res_HTTP x
  | s_res_HTTP => expect "/"%chr s_res_http_major x
  | s_res_http_major => do_http_digit hp_set_http_major s_res_http_dot x
  | s_res_http_dot => do_http_dot s_res_http_minor x
  | s_res_http_minor => do_http_digit hp_set_http_minor s_res_http_end x
  | s_res_http_end => do_res_http_end x
  | s_res_first_status_code => do_res_first_status_code x
  | s_res_status_code => do_res_status_code x
  | s_res_status_start => do_res_status_start x
  | s_res_status => do_res_status x
  | s_res_line_almost_done => expect LF s_header_field_start x
  | s_start_req => do_start_req x
  | s_req_method => do_req_method x
  | s_req_spaces_before_url => do_req_spaces_before_url x
  | s_req_schema | s_req_schema_slash | s_req_schema_slash_slash | s_req_server_start => do_req_schema x
  | s_req_server | s_req_server_with_at | s_req_path | s_req_query_string_start | s_req_query_string
  | s_req_fragment_start | s_req_fragment => do_req_url x
  | s_req_http_start => do_req_http_start x
  | s_req_http_H => expect "T"%chr s_req_http_HT x
  | s_req_http_HT => expect "T"%chr s_req_http_HTT x
  | s_req_http_HTT => expect "P"%chr s_req_http_HTTP x
  | s_req_http_I => expect "C"%chr s_req_http_IC x
  | s_req_http_IC => expect "E"%chr s_req_http_HTTP x
  | s_req_http_HTTP => expect "/"%chr s_req_http_major x
  | s_req_http_major => do_http_digit hp_set_http_major s_req_http_dot x
  | s_req_http_dot => do_http_dot s_req_http_minor x
  | s_req_http_minor => do_http_digit hp_set_http_minor s_req_http_end x
  | s_req_http_end => do_req_http_end x
  | s_req_line_almost_done => do_req_line_almost_done x
  | s_header_field_start => do_header_field_start x
  | s_header_field => do_header_field x
  | s_header_value_discard_ws => do_header_value_discard_ws x
  | s_header_value_start => do_header_value_start x
  | s_header_value => do_header_value x
  | s_header_almost_done => do_header_almost_done x
  | s_header_value_lws => do_header_value_lws x
  | s_header_value_discard_ws_almost_done => expect LF s_header_value_discard_lws x
  | s_header_value_discard_lws => do_header_value_discard_lws x
  | s_headers_almost_done => do_headers_almost_done x
  | s_headers_done => do_headers_done x
  | s_body_identity => do_body_identity x
  | s_body_identity_eof => do_body_identity_eof x
  | s_message_done => do_message_done x
  | s_chunk_size_start => do_chunk_size_start x
  | s_chunk_size => do_chunk_size x
  | s_chunk_parameters => do_chunk_parameters x
  | s_chunk_size_almost_done => do_chunk_size_almost_done x
  | s_chunk_data => do_chunk_data x
  | s_chunk_data_almost_done => do_chunk_data_almost_done x
  | s_chunk_data_done => do_chunk_data_done x
  end.

(** [reexecute:]; no byte is looked at more than four times ([rank] in HttpSafety.v). *)
Fixpoint reexecute (fuel : nat) x : outcome U :=
  match fuel with
  | O => Out_of_fuel
  | S fuel' => match step x with Reexecute x' => reexecute fuel' x' | o => o end
  end.

(** One round of the [for] loop, without [p ++]. *)
Definition round x : outcome U :=
  reading_char (ex_p x) (fun ch =>
  let x := ex_set_ch ch x in
  if PARSING_HEADER (ex_state x)
  then COUNT_HEADER_SIZE 1 x (reexecute 4)
  else reexecute 4 x).

(** ** The whole function *)

Inductive result :=
  | Done (r : Z) (p : http_parser) (u : U)
  | Result_assert
  | Result_outside
  | Result_fuel.

Definition finish (o : outcome U) : result :=
  match o with
  | Return r x => Done r (ex_parser x) (ex_user x)
  | Goto_error x =>
    let x := if decide (ex_errno x = HPE_OK) then SET_ERRNO HPE_UNKNOWN x else x in
    match RETURN (ex_p x) x with
    | Return r x => Done r (ex_parser x) (ex_user x)
    | _ => Result_assert
    end
  | Assert_failed => Result_assert
  | Read_outside => Result_outside
  | _ => Result_fuel
  end.

Definition mark_count (m : marks) : nat :=
  length (filter (fun d => is_Some (get_mark d m)) [D_header_field; D_header_value; D_url; D_body; D_status]).

(** The callbacks for the data still marked at the end of the buffer. *)
Definition end_of_buffer x : outcome U :=
  if decide (mark_count (ex_marks x) <= 1)%nat then
  CALLBACK_DATA_NOADVANCE D_header_field x (fun x =>
  CALLBACK_DATA_NOADVANCE D_header_value x (fun x =>
  CALLBACK_DATA_NOADVANCE D_url x (fun x =>
  CALLBACK_DATA_NOADVANCE D_body x (fun x =>
  CALLBACK_DATA_NOADVANCE D_status x (RETURN data_len)))))
  else Assert_failed.

Fixpoint main_loop (fuel : nat) x : result :=
  if ex_p x =? data_len then finish (end_of_buffer x) else
  match fuel with
  | O => Result_fuel
  | S fuel' =>
    match round x with
    | Break x' => main_loop fuel' (ex_set_p (ex_p x' + 1) x')
    | o => finish o
    end
  end.

(** The marks set on entry, for the state the last call stopped in. *)
Definition entry_marks (s : state) : marks :=
  match s with
  | s_header_field => set_mark D_header_field (Some 0) no_marks
  | s_header_value => set_mark D_header_value (Some 0) no_marks
  | s_req_path | s_req_schema | s_req_schema_slash | s_req_schema_slash_slash | s_req_server_start
  | s_req_server | s_req_server_with_at | s_req_query_string_start | s_req_query_string
  | s_req_fragment_start | s_req_fragment => set_mark D_url (Some 0) no_marks
  | s_res_status => set_mark D_status (Some 0) no_marks
  | _ => no_marks
  end.

Definition entry (p : http_parser) (u : U) : exec U :=
  mkExec p 0 0 (hp_state p) (hp_nread p) (entry_marks (hp_state p)) u.

(** A call with [len == 0]: the end of the stream. *)
Definition execute_eof x : outcome U :=
  match ex_state x with
  | s_body_identity_eof => CALLBACK_NOTIFY_NOADVANCE N_message_complete x (Return 0)
  | s_dead | s_start_req_or_res | s_start_res | s_start_req => Return 0 x
  | _ => Return 1 (SET_ERRNO HPE_INVALID_EOF_STATE x)
  end.
End Execute.
Arguments Done {U}.
Arguments Result_assert {U}.
Arguments Result_outside {U}.
Arguments Result_fuel {U}.

Definition http_parser_execute {U} (settings : http_parser_settings U) (max_header_size : Z)
    (p : http_parser) (data : bytes) (u : U) : result :=
  if negb (bool_decide (hp_http_errno p = HPE_OK)) then Done 0 p u
  else if len data =? 0 then finish (execute_eof settings (entry p u))
  else main_loop settings max_header_size (hp_lenient_http_headers p) (hp_allow_chunked_length p) data
         (length data) (entry p u).

(** A read inside the buffer. *)
Lemma reading_in {U} (data : bytes) a b (o : outcome U) : 0 <= a -> a <= b -> b <= len data -> reading data a b o = o.
Proof. intros Ha Hab Hb. unfold reading, data_len. by rewrite !(proj2 (Z.leb_le _ _)). Qed.
Lemma reading_char_in {U} (data : bytes) p (k : Z -> outcome U) :
  0 <= p < len data -> reading_char data p k = k (char_at data p).
Proof. intros Hp. apply reading_in; lia. Qed.

(** ** Concrete runs *)

(** Settings that record the callbacks in order. *)
Inductive event :=
  | Ev_begin
  | Ev_data (d : data_cb) (at_ : bytes)
  | Ev_headers_complete
  | Ev_complete
  | Ev_chunk_header (content_length : Z)
  | Ev_chunk_complete.

Definition log_notify (e : http_parser -> event) : option (http_parser -> list event -> Z * http_parser * list event) :=
  Some (fun p l => (0, p, l ++ [e p])).
Definition log_data (d : data_cb) : option (http_parser -> bytes -> list event -> Z * http_parser * list event) :=
  Some (fun p b l => (0, p, l ++ [Ev_data d b])).

Definition log_settings : http_parser_settings (list event) := {|
    on_message_begin := log_notify (fun _ => Ev_begin);
    on_url := log_data D_url;
    on_status := log_data D_status;
    on_header_field := log_data D_header_field;
    on_header_value := log_data D_header_value;
    on_headers_complete := log_notify (fun _ => Ev_headers_complete);
    on_body := log_data D_body;
    on_message_complete := log_notify (fun _ => Ev_complete);
    on_chunk_header := log_notify (fun p => Ev_chunk_header (hp_content_length p));
    on_chunk_complete := log_notify (fun _ => Ev_chunk_complete);
  |}.

Definition crlf : bytes := [13; 10].

Definition run_request (data : bytes) : result :=
  http_parser_execute log_settings HTTP_MAX_HEADER_SIZE (http_parser_init HTTP_REQUEST) data [].

Definition get_request : bytes :=
  bs "GET /chat?x=1 HTTP/1.1" ++ crlf ++ bs "Host: a.b" ++ crlf ++ bs "Connection: keep-alive" ++ crlf ++ crlf.

Example get_request_parsed :
  match run_request get_request with
  | Done r p l => (r, hp_method p, hp_http_errno p, hp_state p, l)
  | _ => (0, HTTP_DELETE, HPE_UNKNOWN, s_dead, [])
  end =
  (len get_request, HTTP_GET, HPE_OK, s_start_req,
   [Ev_begin; Ev_data D_url (bs "/chat?x=1"); Ev_data D_header_field (bs "Host");
    Ev_data D_header_value (bs "a.b"); Ev_data D_header_field (bs "Connection");
    Ev_data D_header_value (bs "keep-alive"); Ev_headers_complete; Ev_complete]).
Proof. vm_compute. reflexivity. Qed.

Definition chunked_request : bytes :=
  bs "POST / HTTP/1.1" ++ crlf ++ bs "Transfer-Encoding: chunked" ++ crlf ++ crlf ++
  bs "5" ++ crlf ++ bs "Hello" ++ crlf ++ bs "0" ++ crlf ++ crlf.

Example chunked_request_parsed :
  match run_request chunked_request with
  | Done r p l => (r, hp_http_errno p, l)
  | _ => (0, HPE_UNKNOWN, [])
  end =
  (len chunked_request, HPE_OK,
   [Ev_begin; Ev_data D_url (bs "/"); Ev_data D_header_field (bs "Transfer-Encoding");
    Ev_data D_header_value (bs "chunked"); Ev_headers_complete; Ev_chunk_header 5;
    Ev_data D_body (bs "Hello"); Ev_chunk_complete; Ev_chunk_header 0; Ev_chunk_complete; Ev_complete]).
Proof. vm_compute. reflexivity. Qed.
