(* ===== verification/HttpSafety.v ===== *)
(** * http_parser_execute is safe

    An invariant of the parser between calls and of the locals between two
    bytes, kept by every [case] of the switch: no [assert] of the code fails, no
    offset leaves the buffer, every loop ends, and the parser is left in a state
    the next call can start from. *)

From S2P Require Import Prelude HttpTypes HttpUrl HttpExec.

(** ** The invariant *)

(** Header states of the [s_header_field] loop, and those its value may have. *)
Definition field_state (h : header_states) : bool :=
  match h with
  | h_general | h_C | h_CO | h_CON | h_matching_connection | h_matching_proxy_connection
  | h_matching_content_length | h_matching_transfer_encoding | h_matching_upgrade
  | h_connection | h_content_length | h_transfer_encoding | h_upgrade => true
  | _ => false
  end.
Definition value_state (h : header_states) : bool :=
  match h with h_connection | h_transfer_encoding => false | _ => true end.

Definition chunked (p : http_parser) : bool := has_flag (hp_flags p) F_CHUNKED.

(** What holds of the parser in state [s], [nr] being the bytes counted so far
    ([k] is 1 once the current byte has been counted). *)
Definition state_inv (k : Z) (s : state) (p : http_parser) (nr : Z) : Prop :=
  match s with
  | s_req_method => 0 <= hp_index p <= len (method_string (hp_method p))
  | s_header_field => field_state (hp_header_state p) = true
  | s_header_value => value_state (hp_header_state p) = true
  | s_chunk_size_start => chunked p = true /\ nr = k
  | s_chunk_size | s_chunk_parameters | s_chunk_size_almost_done =>
      chunked p = true /\ hp_content_length p <> ULLONG_MAX
  | s_chunk_data => chunked p = true /\ hp_content_length p <> 0 /\ hp_content_length p <> ULLONG_MAX
  | s_chunk_data_almost_done => chunked p = true /\ hp_content_length p = 0
  | s_chunk_data_done => chunked p = true
  | s_body_identity => hp_content_length p <> 0 /\ hp_content_length p <> ULLONG_MAX
  | _ => True
  end.

Definition length_ok (p : http_parser) : Prop := 0 <= hp_content_length p < 2 ^ 64.

(** The invariant of the parser between two calls. *)
Definition parser_ok (p : http_parser) : Prop :=
  length_ok p /\ state_inv 0 (hp_state p) p (hp_nread p).

(** What a call may leave: a parsing or callback error, or a good parser,
    possibly paused. *)
Definition left_ok (p : http_parser) : Prop :=
  hp_http_errno p = HPE_OK \/ hp_http_errno p = HPE_PAUSED -> parser_ok p.

(** A callback leaves the parser alone, or pauses it; [P] is a property of the user's
    state that the callbacks keep. *)
Definition keeps_parser (p p' : http_parser) : Prop :=
  p' = p \/ p' = hp_set_http_errno HPE_PAUSED p.

Record settings_ok {U} (P : U -> Prop) (s : http_parser_settings U) : Prop := {
    notify_ok : forall n f, notify_callback s n = Some f ->
      forall p u r p' u', f p u = (r, p', u') -> keeps_parser p p' /\ (P u -> P u');
    data_ok : forall d f, data_callback s d = Some f ->
      forall p b u r p' u', f p b u = (r, p', u') -> keeps_parser p p' /\ (P u -> P u');
    headers_complete_ok : forall f, on_headers_complete s = Some f ->
      forall p u r p' u', f p u = (r, p', u') -> keeps_parser p p' /\ (P u -> P u');
  }.

(** The only mark a state may have set. *)
Definition mark_of (s : state) : option data_cb :=
  match s with
  | s_header_field => Some D_header_field
  | s_header_value => Some D_header_value
  | s_req_schema | s_req_schema_slash | s_req_schema_slash_slash | s_req_server_start
  | s_req_server | s_req_server_with_at | s_req_path | s_req_query_string_start
  | s_req_query_string | s_req_fragment_start | s_req_fragment => Some D_url
  | s_body_identity | s_body_identity_eof | s_chunk_data | s_chunk_data_almost_done => Some D_body
  | s_res_status => Some D_status
  | _ => None
  end.

Definition marks_ok (s : state) (p : Z) (m : marks) : Prop :=
  forall d v, get_mark d m = Some v -> mark_of s = Some d /\ 0 <= v <= p.

(** Strictly decreasing along [goto reexecute]. *)
Definition rank (s : state) : nat :=
  match s with
  | s_header_value_lws | s_header_value_discard_lws => 3
  | s_header_field_start | s_res_status_code => 2
  | s_header_value | s_headers_almost_done | s_res_status_start | s_start_req_or_res | s_body_identity => 1
  | _ => 0
  end.

#[local] Arguments table : simpl never.

Section Safety.
Context {U : Type} (settings : http_parser_settings U) (max_header_size : Z).
Context (lenient allow_chunked_length : bool) (data : bytes).
Context (P : U -> Prop).
Hypothesis Hsettings : settings_ok P settings.

(** Where the current round of the [for] loop began: [p] never moves back before it. *)
Context (lo : Z).
Hypothesis Hlo : 0 <= lo.

Implicit Types (x : exec U) (k : exec U -> outcome U).

Definition in_buffer x : Prop := lo <= ex_p x < len data.

(** The locals before the byte at [p] is counted ([j = 0]) or looked at ([j = 1]). *)
Definition locals_ok (j : Z) x : Prop :=
  ex_errno x = HPE_OK /\ length_ok (ex_parser x) /\
  marks_ok (ex_state x) (ex_p x) (ex_marks x) /\
  state_inv j (ex_state x) (ex_parser x) (ex_nread x) /\ P (ex_user x).

Definition good (r : nat) (o : outcome U) : Prop :=
  match o with
  | Break x => in_buffer x /\ locals_ok 0 x
  | Reexecute x => in_buffer x /\ locals_ok 1 x /\ (rank (ex_state x) < r)%nat
  | Goto_error x => 0 <= ex_p x <= len data /\ ex_errno x <> HPE_OK /\ ex_errno x <> HPE_PAUSED /\ P (ex_user x)
  | Return v x => 0 <= v <= len data /\ left_ok (ex_parser x) /\ P (ex_user x)
  | Assert_failed | Read_outside | Out_of_fuel => False
  end.

(** Equal but for the user's state and the [state] field of the parser. *)
Definition same x x' : Prop :=
  exists u s, (P (ex_user x) -> P u) /\ x' = ex_set_user u (on_parser (hp_set_state s) x).

Lemma same_fields x x' :
  same x x' ->
  ex_p x' = ex_p x /\ ex_ch x' = ex_ch x /\ ex_state x' = ex_state x /\ ex_nread x' = ex_nread x /\
  ex_marks x' = ex_marks x /\ ex_errno x' = ex_errno x.
Proof. by intros (u & s & _ & ->). Qed.

Lemma good_err r e x :
  0 <= ex_p x <= len data -> e <> HPE_OK -> e <> HPE_PAUSED -> P (ex_user x) -> good r (err e x).
Proof. intros. by split. Qed.

Lemma good_RETURN r v x :
  0 <= v <= len data -> length_ok (ex_parser x) -> P (ex_user x) ->
  (ex_errno x = HPE_OK \/ ex_errno x = HPE_PAUSED ->
   state_inv 0 (ex_state x) (ex_parser x) (wrap 32 (ex_nread x))) ->
  good r (RETURN v x).
Proof. intros Hv Hl HP Hs. split; [done|]. split; [|done]. intros He. split; [done|]. by apply Hs. Qed.

Lemma good_after_callback r e rc p' u' ER x k :
  e <> HPE_OK -> e <> HPE_PAUSED ->
  keeps_parser (ex_parser x) p' -> (P (ex_user x) -> P u') -> P (ex_user x) ->
  hp_state (ex_parser x) = ex_state x -> ex_errno x = HPE_OK -> 0 <= ER <= len data -> length_ok (ex_parser x) ->
  state_inv 0 (ex_state x) (ex_parser x) (hp_nread (ex_parser x)) ->
  (forall x', same x x' -> good r (k x')) ->
  good r (after_callback e rc p' u' ER x k).
Proof.
  intros He1 He2 Hk HPu HP Hst Herr HER Hl Hs Hgo. unfold after_callback, ex_errno in *.
  destruct x as [p i c s n m u]. simpl in *. subst s.
  destruct (rc =? 0); cbn; destruct Hk as [->| ->]; cbn; case_decide; try congruence.
  - apply Hgo. exists u', (hp_state p). by destruct p.
  - split; [done|]. split; [|by apply HPu]. intros _. by split.
  - split; [done|]. split; [by intros [|]|by apply HPu].
  - split; [done|]. split; [by intros [|]|by apply HPu].
Qed.

Lemma good_notify_ r n ER x k :
  ex_errno x = HPE_OK -> 0 <= ER <= len data -> length_ok (ex_parser x) ->
  state_inv 0 (ex_state x) (ex_parser x) (hp_nread (ex_parser x)) -> P (ex_user x) ->
  (forall x', same x x' -> good r (k x')) ->
  good r (CALLBACK_NOTIFY_ settings n ER x k).
Proof.
  intros He HER Hl Hs HP Hgo. unfold CALLBACK_NOTIFY_. rewrite decide_True by done.
  destruct (notify_callback settings n) as [f|] eqn:Ef.
  - destruct (f _ _) as [[rc p'] u'] eqn:Er.
  destruct (notify_ok P settings Hsettings n f Ef _ _ _ _ _ Er) as [Hk HPu].
  apply good_after_callback; try done; by destruct n.
  - apply Hgo. exists (ex_user x), (hp_state (ex_parser x)). split; [done|]. by destruct x as [[]].
Qed.

(** The marks point into the buffer, before [e]. *)
Definition marks_in (e : Z) (m : marks) : Prop :=
  e <= len data /\ forall d v, get_mark d m = Some v -> 0 <= v <= e.

Lemma marks_ok_in s p e m : marks_ok s p m -> p <= e <= len data -> marks_in e m.
Proof. intros Hm He. split; [lia|]. intros d v Hd. destruct (Hm d v Hd). lia. Qed.

(** The continuation of a data callback runs with the mark cleared. *)
Lemma good_data_ r d extra ER x k :
  ex_errno x = HPE_OK -> 0 <= ER <= len data -> length_ok (ex_parser x) ->
  state_inv 0 (ex_state x) (ex_parser x) (hp_nread (ex_parser x)) -> P (ex_user x) ->
  marks_in (ex_p x + extra) (ex_marks x) ->
  (forall x', same x x' -> good r (k (ex_set_marks (set_mark d None (ex_marks x')) x'))) ->
  good r (CALLBACK_DATA_ settings data d extra ER x k).
Proof.
  intros He HER Hl Hs HP [Hp Hm] Hgo. unfold CALLBACK_DATA_. rewrite decide_True by done.
  assert (Hsame : same x x) by (exists (ex_user x), (hp_state (ex_parser x)); split; [done|]; by destruct x as [[]]).
  destruct (get_mark d (ex_marks x)) as [m|] eqn:Em.
  - destruct (data_callback settings d) as [f|] eqn:Ef; [|by apply Hgo].
  destruct (Hm d m Em). rewrite reading_in by (cbn; lia).
  destruct (f _ _ _) as [[rc p'] u'] eqn:Er.
  destruct (data_ok P settings Hsettings d f Ef _ _ _ _ _ _ Er) as [Hk HPu].
  apply good_after_callback; try done; by destruct d.
  - replace x with (ex_set_marks (set_mark d None (ex_marks x)) x) at 1; [by apply Hgo|].
  destruct x as [p i c s n [] u], d; simpl in *; by subst.
Qed.

Lemma good_count r v x k :
  0 <= ex_p x <= len data -> P (ex_user x) ->
  (forall n, good r (k (ex_set_nread n x))) ->
  good r (COUNT_HEADER_SIZE max_header_size v x k).
Proof.
  intros Hp HP Hgo. unfold COUNT_HEADER_SIZE. destruct (_ <? _); [by apply good_err|apply Hgo].
Qed.

Lemma good_strict r c x k :
  0 <= ex_p x <= len data -> P (ex_user x) -> good r (k x) -> good r (STRICT_CHECK c x k).
Proof. intros Hp HP Hgo. unfold STRICT_CHECK. destruct c; [by apply good_err|done]. Qed.

Lemma good_assert r c (o : outcome U) : c = true -> good r o -> good r (assert_ c o).
Proof. by intros ->. Qed.

(** *** Marks *)

Definition marked (d : data_cb) (p : Z) (m : marks) : marks :=
  match get_mark d m with Some _ => m | None => set_mark d (Some p) m end.

Lemma get_set_mark d d' v m : get_mark d (set_mark d' v m) = if decide (d = d') then v else get_mark d m.
Proof. by destruct m, d, d'. Qed.

Lemma marks_in_marked s p e d q m : marks_ok s p m -> p <= e <= len data -> 0 <= q <= e -> marks_in e (marked d q m).
Proof.
  intros Hm He Hq. split; [lia|]. intros d' v. unfold marked. destruct (get_mark d m); [intros Hd; destruct (Hm d' v Hd); lia|].
  rewrite get_set_mark. case_decide; [by intros [= <-]|]. intros Hd. destruct (Hm d' v Hd). lia.
Qed.

Lemma MARK_eq d x : MARK d x = ex_set_marks (marked d (ex_p x) (ex_marks x)) x.
Proof. unfold MARK, marked. destruct x, (get_mark d _); done. Qed.

Lemma marks_move s s' p p' m :
  mark_of s = None \/ mark_of s = mark_of s' -> p <= p' -> marks_ok s p m -> marks_ok s' p' m.
Proof.
  intros Hs Hp Hm d v Hd. destruct (Hm d v Hd) as [Hd' ?]. destruct Hs as [Hs|Hs]; [congruence|].
  rewrite <- Hs. split; [done|lia].
Qed.

Lemma marks_marked s s' d p q p' m :
  mark_of s = None \/ mark_of s = Some d -> mark_of s' = Some d -> p <= p' -> 0 <= q <= p' ->
  marks_ok s p m -> marks_ok s' p' (marked d q m).
Proof.
  intros Hs Hs' Hp Hq Hm d' v. unfold marked.
  destruct (get_mark d m) eqn:Ed; [|rewrite get_set_mark; case_decide].
  - intros Hd. destruct (Hm d' v Hd) as [Hd' ?]. split; [|lia]. destruct Hs; congruence.
  - intros [= ->]. split; [congruence|lia].
  - intros Hd. destruct (Hm d' v Hd) as [Hd' ?]. destruct Hs; congruence.
Qed.

Lemma marks_unmark s s' d p p' m :
  mark_of s = None \/ mark_of s = Some d -> marks_ok s p m -> marks_ok s' p' (set_mark d None m).
Proof.
  intros Hs Hm d' v. rewrite get_set_mark. case_decide; [done|].
  intros Hd. destruct (Hm d' v Hd) as [Hd' ?]. destruct Hs; congruence.
Qed.

Lemma marks_unmark_marked s s' d p q p' m :
  mark_of s = None \/ mark_of s = Some d -> marks_ok s p m -> marks_ok s' p' (set_mark d None (marked d q m)).
Proof.
  intros Hs Hm d' v. unfold marked. rewrite get_set_mark. case_decide as Hd; [done|].
  destruct (get_mark d m); rewrite ?get_set_mark, ?decide_False by done.
  all: intros Hv; destruct (Hm d' v Hv) as [Hd' ?]; destruct Hs; congruence.
Qed.

(** *** The handlers *)

(** Bounds and the user's property at a leaf. *)
Ltac bound_tac := solve [cbn; lia|cbn in *; bool_to_prop; lia].
Ltac user_tac := solve [cbn in *; auto].

Ltac marks_in_tac :=
  cbn in *; match goal with
  | H : marks_ok _ _ ?m |- marks_in _ ?m => eapply marks_ok_in; [exact H|lia]
  | H : marks_ok _ _ ?m |- marks_in _ (marked _ _ ?m) => eapply marks_in_marked; [exact H|lia|lia]
  end.

(** Follow the code of a handler down to its leaves. *)
Ltac follow :=
  repeat (cbv zeta;
  lazymatch goal with
  | |- good _ (if ?b then _ else _) => destruct b eqn:?
  | |- good _ (STRICT_CHECK _ _ _) => apply good_strict; [bound_tac|user_tac|]
  | |- good _ (COUNT_HEADER_SIZE _ _ _ _) => apply good_count; [bound_tac|user_tac|intros ?]
  | |- good _ (err _ _) => apply good_err; [bound_tac|done|done|user_tac]
  | |- good _ (assert_ _ _) => apply good_assert
  | |- good _ (CALLBACK_NOTIFY _ _ _ _) => apply good_notify_; [| | | | |intros ? (? & ? & ? & ->)]
  | |- good _ (CALLBACK_NOTIFY_NOADVANCE _ _ _ _) => apply good_notify_; [| | | | |intros ? (? & ? & ? & ->)]
  | |- good _ (CALLBACK_DATA _ _ _ _ _) => apply good_data_; [| | | | |marks_in_tac|intros ? (? & ? & ? & ->)]
  | |- good _ (CALLBACK_DATA_NOADVANCE _ _ _ _ _) => apply good_data_; [| | | | |marks_in_tac|intros ? (? & ? & ? & ->)]
  | |- good _ (CALLBACK_DATA_ _ _ _ _ _ _ _) => apply good_data_; [| | | | |marks_in_tac|intros ? (? & ? & ? & ->)]
  end).

Ltac marks_tac :=
  match goal with
  | H : marks_ok _ _ ?m |- marks_ok _ _ ?m => eapply marks_move; [| |exact H]; [by auto|lia]
  | H : marks_ok _ _ ?m |- marks_ok _ _ (marked _ _ ?m) =>
    eapply marks_marked; [| | | |exact H]; [by auto|done|lia|lia]
  | H : marks_ok _ _ ?m |- marks_ok _ _ (set_mark _ None (marked _ _ ?m)) =>
    eapply marks_unmark_marked; [|exact H]; by auto
  | H : marks_ok _ _ ?m |- marks_ok _ _ (set_mark _ None ?m) => eapply marks_unmark; [|exact H]; by auto
  end.

Ltac leaf :=
  unfold good, in_buffer, locals_ok, ex_errno, length_ok in *; cbn in *;
  split_and?; try done; try lia; try marks_tac; try apply u64_range; try (unfold chunked in *; cbn in *; by auto).

Tactic Notation "handler" reference(f) :=
  intros Hst Hin (He & Hl & Hm & Hs & HP); match goal with x : exec _ |- _ => destruct x as [p i c s' n m u] end;
  unfold in_buffer, ex_errno in *; cbn in Hst, Hin, He, Hl, Hm, Hs, HP; match type of Hst with ?a = _ => subst a end; cbn in Hs; unfold f;
  rewrite ?MARK_eq; follow.

(** A handler run in state [s]. *)
Definition safe_in (s : state) (f : exec U -> outcome U) : Prop :=
  forall x, ex_state x = s -> in_buffer x -> locals_ok 1 x -> good (rank s) (f x).

Lemma good_dead : safe_in s_dead do_dead.
Proof. intros x. handler do_dead. all: leaf. Qed.

Lemma good_start_req_or_res : safe_in s_start_req_or_res (do_start_req_or_res settings).
Proof. intros x. handler do_start_req_or_res. all: leaf. Qed.

Lemma good_res_or_resp_H : safe_in s_res_or_resp_H do_res_or_resp_H.
Proof. intros x. handler do_res_or_resp_H. all: leaf. Qed.

Lemma good_start_res : safe_in s_start_res (do_start_res settings).
Proof. intros x. handler do_start_res. all: leaf. Qed.

Lemma good_expect s w next :
  mark_of s = None -> (forall p n, state_inv 0 next p n) -> safe_in s (expect w next).
Proof. intros Hmk Hnx x. handler expect. all: leaf. Qed.

Lemma good_http_digit s store next :
  mark_of s = None -> (forall p n, state_inv 0 next p n) ->
  (forall v p, hp_content_length (store v p) = hp_content_length p /\ hp_http_errno (store v p) = hp_http_errno p) ->
  safe_in s (do_http_digit store next).
Proof.
  intros Hmk Hnx Hstore x. handler do_http_digit.
  specialize (Hstore (c - "0"%chr) p) as [Hc ?]. all: leaf; rewrite ?Hc; by auto || congruence.
Qed.

Lemma good_http_dot s next :
  mark_of s = None -> (forall p n, state_inv 0 next p n) -> safe_in s (do_http_dot next).
Proof. intros Hmk Hnx x. handler do_http_dot. all: leaf. Qed.

Lemma good_res_http_end : safe_in s_res_http_end do_res_http_end.
Proof. intros x. handler do_res_http_end. all: leaf. Qed.

Lemma good_res_first_status_code : safe_in s_res_first_status_code do_res_first_status_code.
Proof. intros x. handler do_res_first_status_code. all: leaf. Qed.

Lemma good_res_status_code : safe_in s_res_status_code do_res_status_code.
Proof. intros x. handler do_res_status_code. all: leaf. Qed.

Lemma good_res_status_start : safe_in s_res_status_start do_res_status_start.
Proof. intros x. handler do_res_status_start. all: leaf. Qed.

Lemma good_res_status : safe_in s_res_status (do_res_status settings data).
Proof. intros x. handler do_res_status. all: leaf. Qed.

Lemma first_method_ok ch m : first_method ch = Some m -> 1 <= len (method_string m).
Proof. unfold first_method. bdestruct_all; intros; simplify_eq; vm_compute; congruence. Qed.

Lemma good_start_req : safe_in s_start_req (do_start_req settings).
Proof.
  intros x. handler do_start_req; [leaf|].
  destruct (first_method _) as [m'|] eqn:E; follow. all: leaf.
  all: by apply first_method_ok in E.
Qed.

Lemma method_length_small m : len (method_string m) < 31.
Proof. by destruct m. Qed.

(** Changing the guess keeps the index inside the new word. *)
Lemma method_switch_ok m i ch m' :
  method_switch m i ch = Some m' -> i + 1 <= len (method_string m').
Proof.
  unfold method_switch. destruct (list_find _ _) as [[j [[[m0 i0] c0] new]]|] eqn:E; [|done].
  intros [= ->]. apply list_find_Some in E as (Hj & (_ & -> & _) & _).
  assert (Forall (fun e => let '(_, i, _, new) := e in i + 1 <= len (method_string new)) method_switches) as Hall
  by (repeat constructor; vm_compute; congruence).
  by eapply (Forall_lookup_1 _ _ _ _ Hall) in Hj.
Qed.

Lemma matcher_at_end m i : 0 <= i -> matcher_at m i <> 0 -> i + 1 <= len (method_string m).
Proof.
  unfold matcher_at, len. intros Hi Hne.
  destruct (decide (Z.to_nat i < length (method_string m))%nat); [lia|].
  rewrite nth_overflow in Hne; [done|lia].
Qed.

Lemma index_incr i : 0 <= i < 31 -> wrap 5 (i + 1) = i + 1.
Proof. intros. apply Z.mod_small. lia. Qed.

Lemma good_req_method : safe_in s_req_method do_req_method.
Proof.
  intros x. handler do_req_method; cbn in *; [leaf| |].
  - leaf; [apply wrap_range; lia|]. rewrite index_incr by (pose proof (method_length_small (hp_method p)); lia).
  blia. apply matcher_at_end; lia.
  - destruct (method_switch _ _ _) as [m'|] eqn:E; follow. apply method_switch_ok in E.
  leaf; [apply wrap_range; lia|].
  by rewrite index_incr by (pose proof (method_length_small m'); lia).
Qed.

(** *** URLs *)

Lemma url_states s ch :
  mark_of s = Some D_url \/ s = s_req_spaces_before_url ->
  parse_url_char s ch = s_dead \/ mark_of (parse_url_char s ch) = Some D_url.
Proof.
  intros Hs. assert (forall s', s' = parse_url_char s ch -> s' = s_dead \/ mark_of s' = Some D_url) as H; [|by apply H].
  intros s'. unfold parse_url_char, url_server. destruct s; try (destruct Hs; discriminate).
  all: repeat case_match; intros ->; auto.
Qed.

Lemma state_inv_url j s p nr : mark_of s = Some D_url -> state_inv j s p nr.
Proof. by destruct s. Qed.

Lemma good_url_char r x :
  in_buffer x -> ex_errno x = HPE_OK -> length_ok (ex_parser x) ->
  marks_ok s_req_path (ex_p x) (ex_marks x) -> P (ex_user x) ->
  mark_of (ex_state x) = Some D_url \/ ex_state x = s_req_spaces_before_url -> good r (url_char x).
Proof.
  intros Hin He Hl Hm HP Hst. unfold url_char. destruct x as [p i c s n m u].
  unfold in_buffer, ex_errno in *; cbn in *. case_decide as Hd.
  - apply good_err; [cbn; lia|done..].
  - destruct (url_states s c Hst) as [?|Hu]; [done|].
  leaf. by apply state_inv_url.
Qed.

Lemma good_req_spaces_before_url : safe_in s_req_spaces_before_url do_req_spaces_before_url.
Proof.
  intros x. handler do_req_spaces_before_url; [leaf|].
  cbn. apply good_url_char; case_decide; cbn; auto; marks_tac.
Qed.

Lemma good_req_schema s : mark_of s = Some D_url -> safe_in s do_req_schema.
Proof.
  intros Hmk x. handler do_req_schema.
  apply good_url_char; cbn; auto. marks_tac.
Qed.

Lemma good_req_url s : mark_of s = Some D_url -> safe_in s (do_req_url settings data).
Proof.
  intros Hmk x. handler do_req_url. all: try lazymatch goal with |- good _ (url_char _) => apply good_url_char; cbn; auto; marks_tac end.
  all: leaf; by destruct (c =? CR).
Qed.

Lemma good_req_http_start : safe_in s_req_http_start do_req_http_start.
Proof. intros x. handler do_req_http_start. all: leaf. Qed.

Lemma good_req_http_end : safe_in s_req_http_end do_req_http_end.
Proof. intros x. handler do_req_http_end. all: leaf. Qed.

Lemma good_req_line_almost_done : safe_in s_req_line_almost_done do_req_line_almost_done.
Proof. intros x. handler do_req_line_almost_done. all: leaf. Qed.

(** *** Header fields *)

Lemma good_header_field_start : safe_in s_header_field_start do_header_field_start.
Proof. intros x. handler do_header_field_start. all: leaf; by repeat case_match. Qed.

Lemma match_field_ok word c full p :
  field_state full = true -> field_state (hp_header_state p) = true ->
  field_state (hp_header_state (match_field word c full p)) = true.
Proof.
  intros Hf Hp. unfold match_field, match_word. repeat case_match; simplify_eq/=; done.
Qed.

Lemma match_field_frame word c full p :
  hp_content_length (match_field word c full p) = hp_content_length p /\
  hp_http_errno (match_field word c full p) = hp_http_errno p.
Proof. unfold match_field. case_match; done. Qed.

Lemma header_field_char_ok ch c p :
  field_state (hp_header_state p) = true -> hp_header_state p <> h_general ->
  exists p', header_field_char ch c p = Some p' /\ field_state (hp_header_state p') = true /\
  hp_content_length p' = hp_content_length p /\ hp_http_errno p' = hp_http_errno p.
Proof.
  intros Hf Hg. unfold header_field_char.
  destruct (hp_header_state p) eqn:E; try discriminate; try done; eexists; (split; [reflexivity|]).
  all: lazymatch goal with
     | |- context [match_field ?word ?c ?full ?p] =>
         pose proof (match_field_ok word c full p eq_refl) as Hok;
         destruct (match_field_frame word c full p) as [Hc He];
         rewrite E in Hok; specialize (Hok eq_refl);
         repeat case_decide; cbn; by rewrite ?Hok, ?Hc, ?He
     | _ => repeat case_match; cbn; by rewrite ?E
     end.
Qed.

Lemma count_while_le f l : 0 <= count_while f l <= len l.
Proof.
  induction l as [|c l IH]; cbn [count_while]; [done|]. rewrite len_cons. case_match; lia.
Qed.

Lemma len_slice a b : len (slice data a b) <= Z.max 0 (b - a).
Proof. unfold slice, len. rewrite length_take. lia. Qed.

Hypothesis Hmax : 0 <= max_header_size.

(** What the inner loops over a header keep, [start] being where they began. *)
Definition loop_ok (s : state) (start : Z) x : Prop :=
  lo <= start < len data /\ start <= ex_p x <= len data /\ ex_state x = s /\
  ex_errno x = HPE_OK /\ length_ok (ex_parser x) /\ marks_ok s start (ex_marks x) /\ P (ex_user x).

Lemma good_header_field_end start x :
  loop_ok s_header_field start x -> field_state (hp_header_state (ex_parser x)) = true ->
  good 0 (do_header_field_end settings max_header_size data start x).
Proof.
  intros (H0 & Hp & Hst & He & Hl & Hm & HP) Hs. destruct x as [p i c s n m u].
  unfold ex_errno in *; cbn in *; subst s. unfold do_header_field_end, data_len. follow; cbn in *.
  all: bool_to_prop; leaf.
Qed.

Lemma length_ok_eq p p' : hp_content_length p' = hp_content_length p -> length_ok p -> length_ok p'.
Proof. unfold length_ok. by intros ->. Qed.

(** Everything but the position, the character and the parser unchanged. *)
Lemma loop_ok_advance s start x p' ch q :
  loop_ok s start x -> start <= q <= len data -> length_ok p' -> hp_http_errno p' = hp_http_errno (ex_parser x) ->
  loop_ok s start (ex_set_p q (on_parser (fun _ => p') (ex_set_ch ch x))).
Proof.
  intros (H0 & Hp & Hst & He & Hl & Hm & HP) Hq Hc Hn. unfold loop_ok, ex_errno in *. cbn.
  rewrite Hn. split_and!; lia || done.
Qed.

Lemma good_header_field_loop fuel start x :
  loop_ok s_header_field start x -> field_state (hp_header_state (ex_parser x)) = true ->
  len data - ex_p x <= Z.of_nat fuel ->
  good 0 (header_field_loop settings max_header_size data fuel start x).
Proof.
  revert x. induction fuel as [|fuel IH]; intros x Hok Hs Hf; cbn [header_field_loop];
  (destruct (ex_p x =? _) eqn:E; [by apply good_header_field_end|]);
  pose proof Hok as (H0 & Hp & _ & _ & Hlen & _ & HP); unfold data_len in E; bool_to_prop; [lia|].
  rewrite reading_char_in by lia. set (ch := char_at _ _). cbv zeta. case_match.
  { apply good_header_field_end; [|done]. replace (ex_set_ch ch x)
    with (ex_set_p (ex_p x) (on_parser (fun _ => ex_parser x) (ex_set_ch ch x))) by done.
  by apply loop_ok_advance; destruct Hok as (? & ? & ? & ? & ? & ? & ?). }
  assert (Hgo : forall p' q, ex_p x < q <= len data -> field_state (hp_header_state p') = true -> length_ok p' -> hp_http_errno p' = hp_http_errno (ex_parser x) ->
  good 0 (header_field_loop settings max_header_size data fuel start
     (ex_set_p q (on_parser (fun _ => p') (ex_set_ch ch x))))).
  { intros. apply IH; cbn; [|done|lia]. apply loop_ok_advance; [done|lia|done..]. }
  change (ex_parser (ex_set_ch ch x)) with (ex_parser x). change (ex_p (ex_set_ch ch x)) with (ex_p x).
  destruct (decide (hp_header_state (ex_parser x) = h_general)) as [->|Eh].
  2: { destruct (header_field_char_ok ch (TOKEN ch) (ex_parser x) Hs Eh) as (p' & Hp' & Hs' & Hc' & He').
     rewrite Hp'. destruct (hp_header_state (ex_parser x)); [done|..]; apply Hgo; first [lia|done|by eapply length_ok_eq]. }
  unfold data_len. rewrite reading_in by lia. set (l := slice _ _ _). pose proof (count_while_le (fun c => negb (TOKEN c =? 0)) l).
  pose proof (len_slice (ex_p x + 1) (ex_p x + Z.min (len data - ex_p x) max_header_size)) as Hl.
  match goal with |- good _ (header_field_loop _ _ _ _ _ (ex_set_p ?q _)) => apply (Hgo (ex_parser x) q) end; try done.
  fold l in Hl. lia.
Qed.

Lemma good_header_field : safe_in s_header_field (do_header_field settings max_header_size data).
Proof.
  intros x Hst Hin (He & Hl & Hm & Hs & HP). unfold in_buffer in Hin. apply good_header_field_loop.
  - rewrite Hst in *. unfold loop_ok. split_and!; lia || done.
  - by rewrite Hst in Hs.
  - unfold data_len. lia.
Qed.

(** *** Header values *)

Lemma value_state_start h :
  value_state (match h with
  | h_upgrade => h_general | h_transfer_encoding => h_matching_transfer_encoding_chunked
  | h_connection => h_matching_connection_close | h => h end) = true.
Proof. by destruct h. Qed.

Lemma good_header_value_start r x :
  in_buffer x -> locals_ok 1 x -> mark_of (ex_state x) = None -> good r (do_header_value_start x).
Proof.
  intros Hin (He & Hl & Hm & Hs & HP) Hmk. destruct x as [p i c s n m u].
  unfold in_buffer, ex_errno in *; cbn in *. unfold do_header_value_start. rewrite MARK_eq. cbn.
  destruct (hp_header_state p) eqn:Eh; follow; leaf.
  all: rewrite ?Eh; try (by repeat case_match); by auto.
Qed.

Lemma good_header_value_discard_ws : safe_in s_header_value_discard_ws do_header_value_discard_ws.
Proof.
  intros x. handler do_header_value_discard_ws. all: try (leaf; fail).
  apply good_header_value_start; [done| |done]. by split_and!.
Qed.

Lemma good_header_value_start' : safe_in s_header_value_start do_header_value_start.
Proof. intros x Hst Hin Hok. apply good_header_value_start; [done..|by rewrite Hst]. Qed.

Lemma match_value_ok word c h fail full p h' p' :
  value_state h = true -> value_state fail = true -> value_state full = true ->
  match_value word c h fail full p = (h', p') ->
  value_state h' = true /\ hp_content_length p' = hp_content_length p /\ hp_http_errno p' = hp_http_errno p.
Proof. unfold match_value, match_word. intros ???. repeat case_match; intros [= <- <-]; done. Qed.

Lemma header_value_char_ok ch c h p h' p' :
  value_state h = true -> header_value_char ch c h p = (h', p') ->
  value_state h' = true /\ hp_content_length p' = hp_content_length p /\ hp_http_errno p' = hp_http_errno p.
Proof.
  intros Hh. unfold header_value_char.
  destruct h; try discriminate; try (by intros [= <- <-]); try (by apply match_value_ok).
  all: repeat case_match; by intros [= <- <-].
Qed.

Lemma scan_general_bounds l n r :
  scan_general lenient l = (n, r) ->
  0 <= n <= len l /\ (r = Scan_bad -> n < len l) /\ (r = Scan_crlf -> n < len l /\ is_crlf (nth (Z.to_nat n) l 0) = true).
Proof.
  revert n r. induction l as [|ch l IH]; intros n r; cbn [scan_general]; [by intros [= <- <-]|].
  rewrite len_cons. pose proof (len_nonneg l).
  case_match eqn:Ecr; [intros [= <- <-]; split; [lia|]; split; [done|]; split; [lia|done]|].
  case_match; [intros [= <- <-]; split; [lia|]; split; [lia|done]|].
  destruct (scan_general lenient l) as [n' r'] eqn:E. intros [= <- <-].
  destruct (IH _ _ eq_refl) as (Hn & Hbad & Hcr).
  split; [lia|]. split; intros ->; [specialize (Hbad eq_refl); lia|].
  destruct Hcr as [? Hc]; [done|]. split; [lia|].
  by replace (Z.to_nat (n' + 1)) with (S (Z.to_nat n')) by lia.
Qed.

Lemma slice_head a b : 0 <= a < b -> nth 0 (slice data a b) 0 = char_at data a.
Proof.
  intros. unfold slice, char_at. destruct (Z.to_nat (b - a)) as [|k] eqn:E; [lia|].
  rewrite <- (Nat.add_0_r (Z.to_nat a)) at 2. rewrite <- nth_skipn. by destruct (drop _ _).
Qed.

Lemma good_header_value_end s start h x :
  s = s_header_value \/ s = s_header_almost_done ->
  loop_ok s start x -> value_state h = true -> (s = s_header_almost_done -> ex_p x < len data) ->
  good 1 (do_header_value_end max_header_size data start h x).
Proof.
  intros Hor (H0 & Hp & Hst & He & Hl & Hm & HP) Hh Hlt. destruct x as [p i c s' n m u].
  unfold ex_errno in *; cbn in *; subst s'. unfold do_header_value_end, data_len.
  destruct Hor as [-> | ->]; follow; cbn in *.
  all: case_match; bool_to_prop; follow; leaf; try (specialize (Hlt eq_refl); lia).
Qed.

Lemma good_header_value_loop fuel start h x :
  loop_ok s_header_value start x -> value_state h = true -> len data - ex_p x <= Z.of_nat fuel ->
  good 1 (header_value_loop settings max_header_size lenient data fuel start h x).
Proof.
  revert h x. induction fuel as [|fuel IH]; intros h x Hok Hh Hf; cbn [header_value_loop];
  (destruct (ex_p x =? _) eqn:E; [by apply (good_header_value_end s_header_value); auto|]);
  pose proof Hok as (H0 & Hp & Hst & He & Hl & Hm & HP); unfold data_len in E; bool_to_prop; [lia|].
  rewrite reading_char_in by lia. cbv zeta. set (ch := char_at _ (ex_p x)). case_match eqn:Ecr.
  { apply good_data_; cbn; try done; try lia; [eapply marks_ok_in; [exact Hm|lia]|]. intros x' (u & s & HPu & ->).
  apply (good_header_value_end s_header_almost_done); auto.
  - unfold loop_ok. cbn. split_and!; try lia; try done; [|by auto]. eapply marks_unmark; [|done]. by right.
  - intros _. cbn. lia. }
  case_match eqn:Elf.
  { apply good_count; [cbn; lia|done|]. intros n.
  apply good_data_; cbn; try done; try lia; [eapply marks_ok_in; [exact Hm|lia]|]. intros x' (u & s & HPu & ->).
  unfold good, in_buffer, locals_ok. cbn. split_and!; try lia; try done; [|by auto].
  eapply marks_unmark; [|exact Hm]. by right. }
  follow.
  assert (Hgo : forall h' p' ch' q, value_state h' = true -> ex_p x < q <= len data -> length_ok p' -> hp_http_errno p' = hp_http_errno (ex_parser x) ->
  good 1 (header_value_loop settings max_header_size lenient data fuel start h'
     (ex_set_p q (on_parser (fun _ => p') (ex_set_ch ch' x))))).
  { intros. apply IH; cbn; [|done|lia]. apply loop_ok_advance; [done|lia|done..]. }
  clear IH Hok. destruct x as [p i c s n m u]. unfold ex_errno in *. cbn in Hst, He, Hl, Hm, HP, Hp, E. subst s.
  change (ex_p (ex_set_ch ch _)) with i. change (ex_parser (ex_set_ch ch _)) with p.
  assert (Hnext : forall h' p', value_state h' = true -> length_ok p' -> hp_http_errno p' = hp_http_errno p ->
  good 1 (header_value_loop settings max_header_size lenient data fuel start h'
     (mkExec p' (i + 1) ch s_header_value n m u))).
  { intros h' p'. intros. apply (Hgo h' p' ch (i + 1)); cbn; lia || done. }
  assert (Hbad : forall h', good 1 (Goto_error (on_parser (hp_set_header_state h')
    (SET_ERRNO HPE_INVALID_CONTENT_LENGTH (ex_set_ch ch (mkExec p i c s_header_value n m u)))))).
  { intros h'. unfold good, ex_errno. cbn. split_and!; lia || done. }
  destruct h; try discriminate Hh; try (by apply Hnext).
  all: try (lazymatch goal with |- context [header_value_char ?ch ?c ?h ?p] =>
       destruct (header_value_char ch c h p) as [h' p'] eqn:Ev end;
     apply header_value_char_ok in Ev as (? & ? & ?); [|done];
     apply Hnext; [done|by eapply length_ok_eq|done]).
  all: try (unfold content_length_digit; repeat case_match; simplify_eq; first [apply Hbad|apply Hnext]; try done;
          apply u64_range).
  unfold data_len. cbn [ex_p ex_set_ch]. rewrite reading_in by lia. destruct (scan_general _ _) as [k r] eqn:Es.
  apply scan_general_bounds in Es as (Hk & Hbadc & Hcr).
  assert (0 <= Z.min (len data - i) max_header_size <= len data - i) as Hmn by lia.
  pose proof (len_slice i (i + Z.min (len data - i) max_header_size)) as Hlen.
  generalize dependent (Z.min (len data - i) max_header_size). intros mn Hk Hbadc Hcr Hmn Hlen.
  destruct r.
  - cbn [ex_p ex_set_p ex_set_ch]. set (pe := i + mn) in *.
  destruct (pe =? len data) eqn:Epe; bool_to_prop; [apply (Hgo h_general p (char_at data (pe - 1)) (pe - 1 + 1))|
    apply (Hgo h_general p (char_at data (pe - 1)) (pe + 1))]; cbn; lia || done.
  - destruct Hcr as [Hkl Hnl]; [done|].
  assert (k <> 0).
  { intros ->. unfold is_crlf in Hnl. rewrite slice_head in Hnl by lia. unfold ch in *. cbn in *. lia. }
  apply (Hgo h_general p (char_at data (i + k)) (i + k - 1 + 1)); cbn; lia || done.
  - apply good_err; cbn; lia || done.
Qed.

Lemma good_header_value : safe_in s_header_value (do_header_value settings max_header_size lenient data).
Proof.
  intros x Hst Hin (He & Hl & Hm & Hs & HP). unfold in_buffer in Hin. rewrite Hst in *.
  apply good_header_value_loop; [|done|unfold data_len; lia].
  unfold loop_ok. split_and!; lia || done.
Qed.

Lemma good_header_almost_done : safe_in s_header_almost_done do_header_almost_done.
Proof. intros x. handler do_header_almost_done. all: leaf. Qed.

Lemma finish_header_frame p :
  hp_content_length (finish_header p) = hp_content_length p /\ hp_http_errno (finish_header p) = hp_http_errno p.
Proof. unfold finish_header. by case_match. Qed.

Lemma good_header_value_lws : safe_in s_header_value_lws do_header_value_lws.
Proof.
  intros x. handler do_header_value_lws; destruct (finish_header_frame p) as [Hc Hn]; cbn.
  - case_decide; leaf.
  - leaf; rewrite ?Hc, ?Hn; done.
Qed.

Lemma good_header_value_discard_lws :
  safe_in s_header_value_discard_lws (do_header_value_discard_lws settings data).
Proof.
  intros x. handler do_header_value_discard_lws. all: destruct (finish_header_frame p) as [Hc Hn]; leaf; rewrite ?Hc, ?Hn; done.
Qed.

(** *** End of the headers and body *)

Lemma good_headers_complete r x k :
  in_buffer x -> ex_errno x = HPE_OK -> length_ok (ex_parser x) -> ex_state x = s_headers_done -> P (ex_user x) ->
  (forall p' u', P u' -> length_ok p' -> hp_http_errno p' = HPE_OK -> good r (k (ex_set_user u' (on_parser (fun _ => p') x)))) ->
  good r (call_headers_complete settings x k).
Proof.
  intros Hin He Hl Hst HP Hgo. unfold call_headers_complete. destruct x as [p i c s n m u].
  unfold in_buffer, ex_errno in *. cbn in *. subst s.
  destruct (on_headers_complete settings) as [f|] eqn:Ef.
  2: { unfold ex_errno. cbn. rewrite decide_True by done. by apply (Hgo p u). }
  destruct (f p u) as [[rc p'] u'] eqn:Er.
  destruct (headers_complete_ok P settings Hsettings f Ef _ _ _ _ _ Er) as [Hk HPu%(fun H => H HP)].
  assert (length_ok p') as Hl' by (by destruct Hk as [-> | ->]).
  cbn [ex_parser ex_user]. rewrite ?Er. cbv zeta iota beta.
  repeat case_match; try (apply good_RETURN; cbn; lia || done).
  - by apply (Hgo p').
  - by apply (Hgo (set_flag F_SKIPBODY (hp_set_upgrade true p'))).
  - by apply (Hgo (set_flag F_SKIPBODY p')).
Qed.

Lemma good_headers_almost_done :
  safe_in s_headers_almost_done (do_headers_almost_done settings lenient allow_chunked_length).
Proof.
  intros x. handler do_headers_almost_done. all: try (leaf; fail).
  apply good_headers_complete; try done. intros p' u' HP' Hl' He'. leaf.
Qed.

Lemma new_message_inv p j p' nr : state_inv j (NEW_MESSAGE p) p' nr.
Proof. unfold NEW_MESSAGE, start_state. by repeat case_match. Qed.

Lemma good_headers_done : safe_in s_headers_done (do_headers_done settings lenient).
Proof.
  intros x. handler do_headers_done.
  all: try lazymatch goal with |- good _ (RETURN _ _) => apply good_RETURN; cbn; [lia|done|user_tac|] end.
  all: leaf; intros; apply new_message_inv.
Qed.

(** What [read_body] does when the length is good: it takes [t] bytes, at least one. *)
Lemma read_body_spec x :
  in_buffer x -> length_ok (ex_parser x) -> body_length_ok (ex_parser x) = true ->
  exists t, 1 <= t /\ ex_p x + t <= len data /\
  let cl := hp_content_length (ex_parser x) - t in
  0 <= cl < ULLONG_MAX /\
  read_body data x = ex_set_p (ex_p x + (t - 1))
    (on_parser (hp_set_content_length cl) (ex_set_marks (marked D_body (ex_p x) (ex_marks x)) x)) /\
  u64 cl = cl.
Proof.
  unfold in_buffer, length_ok, body_length_ok. intros Hp Hl Hb. apply andb_true_iff in Hb as [??]. bool_to_prop.
  exists (Z.min (hp_content_length (ex_parser x)) (len data - ex_p x)).
  unfold ULLONG_MAX in *. split_and!; try lia; [|apply u64_id; lia].
  unfold read_body. by rewrite MARK_eq.
Qed.

Lemma body_length_ok_iff p :
  hp_content_length p <> 0 /\ hp_content_length p <> ULLONG_MAX <-> body_length_ok p = true.
Proof. unfold body_length_ok. rewrite andb_true_iff, !negb_true_iff, !Z.eqb_neq. done. Qed.

Lemma good_body_identity : safe_in s_body_identity (do_body_identity settings data).
Proof.
  intros x Hst Hin (He & Hl & Hm & Hs & HP). rewrite Hst in Hs. apply body_length_ok_iff in Hs as Hb.
  destruct (read_body_spec x Hin Hl Hb) as (t & Ht & Htl & Hcl & Heq & Hu). 
  unfold do_body_identity. apply good_assert; [done|]. rewrite Heq. clear Heq.
  destruct x as [p i c s n m u]. unfold in_buffer, ex_errno in *. cbn in Hst, Hin, He, Hl, Hm, Htl, Hcl, Hu. subst s.
  follow. all: leaf. all: change (wrap 64) with u64 in *; rewrite ?Hu in *; try lia.
Qed.

Lemma good_body_identity_eof : safe_in s_body_identity_eof (do_body_identity_eof data).
Proof. intros x. handler do_body_identity_eof. unfold data_len. leaf. Qed.

Lemma good_message_done : safe_in s_message_done (do_message_done settings).
Proof.
  intros x. handler do_message_done.
  all: try lazymatch goal with |- good _ (RETURN _ _) => apply good_RETURN; cbn; [lia|done|user_tac|] end.
  all: leaf; intros; apply new_message_inv.
Qed.

(** *** Chunks *)

Lemma unhex_range ch : -1 <= table unhex ch <= 15.
Proof.
  unfold table. set (n := Z.to_nat ch). clearbody n.
  do 128 (destruct n; [vm_compute; split; congruence|]). unfold unhex. rewrite nth_overflow; [lia|simpl; lia].
Qed.

Lemma good_chunk_size_start : safe_in s_chunk_size_start do_chunk_size_start.
Proof.
  intros x. handler do_chunk_size_start; destruct Hs as [Hck Hn]; [by subst|done|].
  cbn in *. bool_to_prop. pose proof (unhex_range c).
  leaf; rewrite wrap_small; unfold ULLONG_MAX; lia.
Qed.

Lemma chunk_size_digit_ok v cl t :
  0 <= v <= 15 -> 0 <= cl -> chunk_size_digit v cl = Some t -> t = cl * 16 + v /\ 0 <= t < ULLONG_MAX.
Proof.
  intros Hv Hcl. unfold chunk_size_digit. case_match; [done|]. bool_to_prop. intros [= <-].
  change ((ULLONG_MAX - 16) / 16) with 1152921504606846974 in *. unfold ULLONG_MAX.
  rewrite (u64_id (cl * 16)), u64_id; lia.
Qed.

Lemma good_chunk_size : safe_in s_chunk_size do_chunk_size.
Proof.
  intros x. handler do_chunk_size; destruct Hs as [Hck Hn]; [done|leaf|leaf|].
  cbn in *. bool_to_prop. pose proof (unhex_range c).
  destruct (chunk_size_digit _ _) as [t|] eqn:Et; follow.
  apply chunk_size_digit_ok in Et as [? ?]; [|lia|apply Hl].
  leaf; rewrite wrap_small; unfold ULLONG_MAX in *; lia.
Qed.

Lemma good_chunk_parameters : safe_in s_chunk_parameters do_chunk_parameters.
Proof. intros x. handler do_chunk_parameters; destruct Hs as [Hck Hn]; [done|leaf|leaf]. Qed.

Lemma good_chunk_size_almost_done : safe_in s_chunk_size_almost_done (do_chunk_size_almost_done settings).
Proof.
  intros x. handler do_chunk_size_almost_done; destruct Hs as [Hck Hn].
  1: done. all: cbn in *; destruct (hp_content_length p =? 0) eqn:E; bool_to_prop; leaf.
Qed.

Lemma good_chunk_data : safe_in s_chunk_data (do_chunk_data data).
Proof.
  intros x Hst Hin (He & Hl & Hm & Hs & HP). rewrite Hst in Hs. destruct Hs as (Hck & Hs).
  apply body_length_ok_iff in Hs as Hb.
  destruct (read_body_spec x Hin Hl Hb) as (t & Ht & Htl & Hcl & Heq & Hu).
  unfold do_chunk_data. apply good_assert; [done|]. apply good_assert; [done|]. rewrite Heq. clear Heq.
  destruct x as [p i c s n m u]. unfold in_buffer, ex_errno in *. cbn in Hst, Hin, He, Hl, Hm, Hck, Htl, Hcl, Hu. subst s.
  follow. all: leaf. all: change (wrap 64) with u64 in *; rewrite ?Hu in *; bool_to_prop; try lia.
Qed.

Lemma good_chunk_data_almost_done : safe_in s_chunk_data_almost_done (do_chunk_data_almost_done settings data).
Proof.
  intros x. handler do_chunk_data_almost_done; destruct Hs as [Hck Hn]; [done|by apply Z.eqb_eq|..].
  all: leaf.
Qed.

Lemma good_chunk_data_done : safe_in s_chunk_data_done (do_chunk_data_done settings).
Proof. intros x. handler do_chunk_data_done; [done|..]. all: leaf. Qed.

(** *** The switch and one round *)

#[local] Hint Resolve good_dead good_start_req_or_res good_res_or_resp_H good_start_res good_res_http_end
  good_res_first_status_code good_res_status_code good_res_status_start good_res_status good_start_req
  good_req_method good_req_spaces_before_url good_req_http_start good_req_http_end good_req_line_almost_done
  good_header_field_start good_header_field good_header_value_discard_ws good_header_value_start' good_header_value
  good_header_almost_done good_header_value_lws good_header_value_discard_lws good_headers_almost_done good_headers_done
  good_body_identity good_body_identity_eof good_message_done good_chunk_size_start good_chunk_size
  good_chunk_parameters good_chunk_size_almost_done good_chunk_data good_chunk_data_almost_done good_chunk_data_done : core.
#[local] Hint Resolve good_expect good_http_digit good_http_dot good_req_schema good_req_url : core.

Lemma good_step x :
  in_buffer x -> locals_ok 1 x ->
  good (rank (ex_state x)) (step settings max_header_size lenient allow_chunked_length data x).
Proof.
  intros Hin Hok. unfold step. destruct (ex_state x) eqn:Hst.
  all: match goal with |- good (rank ?s) (?f ?y) => cut (safe_in s f); [intros H; by apply H|] end.
  all: try (apply good_http_digit; done).
  all: first [by auto|by apply good_expect|by apply good_http_dot].
Qed.

(** The four rounds of [reexecute] are enough: every jump lowers the rank. *)
Lemma good_reexecute fuel x :
  in_buffer x -> locals_ok 1 x -> (rank (ex_state x) < fuel)%nat ->
  good 0 (reexecute settings max_header_size lenient allow_chunked_length data fuel x).
Proof.
  revert x. induction fuel as [|fuel IH]; intros x Hin Hok Hr; [lia|]. cbn [reexecute].
  pose proof (good_step x Hin Hok) as Hgood. destruct (step _ _ _ _ _ x) as [x'|x'| | | | |]; try done.
  destruct Hgood as (? & ? & ?). apply IH; [done|done|lia].
Qed.

Lemma state_inv_counted s p nr :
  state_inv 0 s p nr -> (PARSING_HEADER s = false -> state_inv 1 s p nr) /\
  (PARSING_HEADER s = true -> state_inv 1 s p (u32 (nr + u32 1))).
Proof. destruct s; cbn; try (split; intros; done || tauto). intros [? ->]. by split. Qed.

Lemma good_round x :
  in_buffer x -> locals_ok 0 x ->
  good 0 (round settings max_header_size lenient allow_chunked_length data x).
Proof.
  intros Hin (He & Hl & Hm & Hs & HP). apply state_inv_counted in Hs as [Hs Hs']. unfold round.
  rewrite reading_char_in by (unfold in_buffer in *; lia). cbv zeta.
  assert (forall s, (rank s < 4)%nat) as Hr by (intros []; cbn; lia).
  cbn [ex_state ex_set_ch]. case_match.
  - unfold COUNT_HEADER_SIZE. case_match.
  + apply good_err; unfold in_buffer in *; cbn; lia || done.
  + apply good_reexecute; [done| |done]. split_and!; try done. by apply Hs'.
  - apply good_reexecute; [done| |done]. split_and!; try done. by apply Hs.
Qed.
End Safety.

(** ** Whole calls *)

Lemma entry_marks_ok s : marks_ok s 0 (entry_marks s).
Proof. intros d v Hd. destruct s, d; cbn in Hd; try discriminate; injection Hd as <-; by split. Qed.

Lemma marks_ok_count s p m : marks_ok s p m -> (mark_count m <= 1)%nat.
Proof.
  intros Hm. assert (forall d, mark_of s <> Some d -> get_mark d m = None) as H.
  { intros d Hd. destruct (get_mark d m) eqn:E; [|done]. by destruct (Hm _ _ E). }
  pose proof (H D_header_field) as H1. pose proof (H D_header_value) as H2. pose proof (H D_url) as H3.
  pose proof (H D_body) as H4. pose proof (H D_status) as H5. clear H.
  destruct m as [f w u b v]. cbn in *.
  destruct (mark_of s) as [[]|], f, w, u, b, v; try (specialize (H1 ltac:(done)); discriminate);
    try (specialize (H2 ltac:(done)); discriminate); try (specialize (H3 ltac:(done)); discriminate);
    try (specialize (H4 ltac:(done)); discriminate); try (specialize (H5 ltac:(done)); discriminate);
    vm_compute; lia.
Qed.

Lemma state_inv_nread j j' s p nr nr' :
  s <> s_chunk_size_start -> state_inv j s p nr -> state_inv j' s p nr'.
Proof. by destruct s. Qed.

Section Calls.
Context {U : Type} (settings : http_parser_settings U) (max_header_size : Z) (P : U -> Prop).
Hypothesis Hsettings : settings_ok P settings.
Hypothesis Hmax : 0 <= max_header_size.

Lemma good_data_end lo data d (x : exec U) k :
  ex_p x = len data -> locals_ok P 0 x ->
  (forall x', ex_p x' = len data -> locals_ok P 0 x' -> good data P lo 0 (k x')) ->
  good data P lo 0 (CALLBACK_DATA_NOADVANCE settings data d x k).
Proof.
  intros Hp (He & Hl & Hm & Hs & HP) Hgo. destruct (get_mark d (ex_marks x)) as [v|] eqn:Ed.
  - destruct (Hm _ _ Ed) as [Hd _]. apply good_data_; try done.
  { rewrite Hp. split; [apply len_nonneg|done]. }
  { eapply state_inv_nread; [|exact Hs]. intros Hst. by rewrite Hst in Hd. }
  { eapply marks_ok_in; [exact Hm|]. lia. }
  intros x' (u & s & HPu & ->). apply Hgo; [done|]. split_and!; try done; [|by apply HPu].
  eapply marks_unmark; [|exact Hm]. by right.
  - unfold CALLBACK_DATA_NOADVANCE, CALLBACK_DATA_. rewrite decide_True, Ed by done. by apply Hgo.
Qed.

Definition final (data : bytes) (r : result (U:=U)) : Prop :=
  match r with Done v p u => 0 <= v <= len data /\ left_ok p /\ P u | _ => False end.

Lemma good_finish lo data o :
  good data P lo 0 o -> (forall x, o <> Break x) -> final data (finish o).
Proof.
  intros Hgood Hb. destruct o as [x|x|x|v x| | |]; cbn in *; try done.
  - by destruct (Hb x).
  - lia.
  - destruct Hgood as (Hp & He & He' & HP). rewrite decide_False by done. split; [done|]. split; [by intros [|]|done].
Qed.

(** At the end of the buffer no round can follow: [lo] is the length. *)
Lemma good_end_of_buffer data (x : exec U) :
  ex_p x = len data -> locals_ok P 0 x -> good data P (len data) 0 (end_of_buffer settings data x).
Proof.
  intros Hp Hok. unfold end_of_buffer. rewrite decide_True by (destruct Hok as (_ & _ & Hm & _); by eapply marks_ok_count).
  do 5 (apply good_data_end; [done|done|]; clear x Hp Hok; intros x Hp Hok).
  destruct Hok as (_ & Hl & _ & Hs & HP). apply good_RETURN; [|done|done|].
  - split; [apply len_nonneg|done].
  - intros _. destruct (ex_state x); try exact Hs. by destruct Hs as [? ->].
Qed.

Lemma good_main_loop lenient allow_chunked_length data fuel (x : exec U) :
  0 <= ex_p x <= len data -> locals_ok P 0 x -> len data - ex_p x <= Z.of_nat fuel ->
  final data (main_loop settings max_header_size lenient allow_chunked_length data fuel x).
Proof.
  revert x. induction fuel as [|fuel IH]; intros x Hp Hok Hf; cbn [main_loop]; unfold data_len;
  destruct (ex_p x =? len data) eqn:E; bool_to_prop; try lia.
  1, 2: apply (good_finish (len data)); [by apply good_end_of_buffer|];
  intros y Hy; pose proof (good_end_of_buffer data x E Hok) as Hg; rewrite Hy in Hg; destruct Hg as [[??] _]; lia.
  pose proof (good_round settings max_header_size lenient allow_chunked_length data P Hsettings (ex_p x)
  ltac:(lia) Hmax x ltac:(unfold in_buffer; lia) Hok) as Hr.
  destruct (round _ _ _ _ _ x) as [x'|x'|x'|v x'| | |]; try (by eapply good_finish; [exact Hr|]).
  destruct Hr as (Hin & Hx'). unfold in_buffer in Hin. apply IH; cbn; [lia| |lia].
  destruct Hx' as (? & ? & Hm & ? & ?). split_and!; try done. eapply marks_move; [by right| |exact Hm]. cbn. lia.
Qed.

Lemma execute_final p data (u : U) :
  left_ok p -> P u ->
  match http_parser_execute settings max_header_size p data u with
  | Done r p' u' => 0 <= r <= Z.max 1 (len data) /\ left_ok p' /\ P u'
  | _ => False
  end.
Proof.
  intros Hp HP. unfold http_parser_execute. pose proof (len_nonneg data).
  destruct (bool_decide (hp_http_errno p = HPE_OK)) eqn:Eok; cbn [negb]; [|split; [lia|by split]].
  apply bool_decide_eq_true in Eok. destruct (Hp (or_introl Eok)) as [Hl Hs].
  destruct (len data =? 0) eqn:E; bool_to_prop.
  - unfold execute_eof. change (ex_state (entry p u)) with (hp_state p). destruct (hp_state p) eqn:Est.
  all: try (cbn; split; [lia|by split]).
  all: try (cbn; split; [lia|split; [by intros [|]|done]]).
  unfold CALLBACK_NOTIFY_NOADVANCE, CALLBACK_NOTIFY_, ex_errno. cbn. rewrite Eok, decide_True by done.
  destruct (on_message_complete settings) as [f|] eqn:Ef; [|cbn; split; [lia|by split]].
  destruct (f _ u) as [[rc p'] u'] eqn:Er. unfold after_callback, ex_errno. cbn.
  destruct (notify_ok P settings Hsettings N_message_complete f Ef _ _ _ _ _ Er) as [Hk HPu].
  rewrite Est in Hk. destruct (rc =? 0), Hk as [-> | ->]; cbn; case_decide; cbn; split; try lia; split; try done; try (by apply HPu).
  all: intros _; split; done.
  - pose proof (good_main_loop (hp_lenient_http_headers p) (hp_allow_chunked_length p) data (length data) (entry p u)) as Hm.
  assert (locals_ok P 0 (entry p u)) as Hok by (split_and!; [done|done|apply entry_marks_ok|done|done]).
  specialize (Hm ltac:(cbn; lia) Hok ltac:(unfold len; cbn; lia)). unfold final in Hm.
  destruct (main_loop _ _ _ _ _ _ _); try done. split; [lia|tauto].
Qed.

End Calls.

Lemma settings_ok_any {U} (P : U -> Prop) settings : settings_ok P settings -> settings_ok (fun _ => True) settings.
Proof.
  intros Hs. constructor; intros; split; try done;
    [by eapply (notify_ok P _ Hs)|by eapply (data_ok P _ Hs)|by eapply (headers_complete_ok P _ Hs)].
Qed.

Section Reachable.
Context {U : Type} (settings : http_parser_settings U) (max_header_size : Z) (P : U -> Prop).
Hypothesis Hsettings : settings_ok P settings.
Hypothesis Hmax : 0 <= max_header_size.

(** The parsers a program can hold: initialised, configured, paused or resumed, and
returned by calls on any data. *)
Inductive reachable : http_parser -> Prop :=
  | reach_init t : reachable (http_parser_init t)
  | reach_options p lenient allow_chunked : reachable p ->
    reachable (hp_set_lenient_http_headers lenient (hp_set_allow_chunked_length allow_chunked p))
  | reach_pause p b p' : reachable p -> http_parser_pause p b = Some p' -> reachable p'
  | reach_call p data u r p' u' : reachable p ->
    http_parser_execute settings max_header_size p data u = Done r p' u' -> reachable p'.

Lemma init_left_ok t : left_ok (http_parser_init t).
Proof. intros _. by destruct t. Qed.

Lemma reachable_left_ok p : reachable p -> left_ok p.
Proof.
  induction 1 as [t|p l a _ IH|p b p' _ IH Hp|p data u r p' u' _ IH Hr].
  - apply init_left_ok.
  - intros He. destruct (IH He) as [Hl Hs]. split; [done|]. by destruct p as [? ? []].
  - unfold http_parser_pause in Hp. case_decide; [|done]. injection Hp as <-. intros _.
  destruct (IH ltac:(tauto)) as [Hl Hs]. split; [done|]. by destruct p as [? ? []].
  - pose proof (execute_final settings max_header_size _ (settings_ok_any P _ Hsettings) Hmax p data u IH I) as Hf.
  rewrite Hr in Hf. tauto.
Qed.

(** C2. http_parser_execute never fails an assertion, reads outside the buffer, hands a
callback bytes from outside it, or loops ([Result_assert], [Result_outside], [Result_fuel]):
on every parser a program can hold and every buffer it returns, with at most as many bytes
consumed as there are (1 for the error at end of stream), and what the callbacks keep
of the user's state is kept by the whole call. *)
Theorem http_parser_execute_safe p data u :
  reachable p -> P u -> exists r p' u',
  http_parser_execute settings max_header_size p data u = Done r p' u' /\ 0 <= r <= Z.max 1 (len data) /\ P u'.
Proof.
  intros Hp%reachable_left_ok HP. pose proof (execute_final settings max_header_size P Hsettings Hmax p data u Hp HP) as Hf.
  destruct (http_parser_execute _ _ _ _ _) as [r p' u'| | |]; try done. exists r, p', u'. tauto.
Qed.
End Reachable.

Lemma log_settings_ok : settings_ok (fun _ => True) log_settings.
Proof.
  constructor.
  - intros [] f; cbn; intros [= <-] ????? [= <- <- <-]; (split; [by left|done]).
  - intros [] f; cbn; intros [= <-] ?????? [= <- <- <-]; (split; [by left|done]).
  - intros f; cbn; intros [= <-] ????? [= <- <- <-]; (split; [by left|done]).
Qed.

(** Resuming in the middle of a chunk after a first call. *)
Example http_parser_execute_safe_witness : exists p,
  reachable log_settings HTTP_MAX_HEADER_SIZE p /\
  hp_state p = s_chunk_data /\
  exists r p' l, http_parser_execute log_settings HTTP_MAX_HEADER_SIZE p (bs "lo") [] = Done r p' l /\
    0 <= r <= Z.max 1 2 /\ True.
Proof.
  eexists. split; [|split].
  - eapply (reach_call _ _ (http_parser_init HTTP_REQUEST) (take 51 chunked_request) []); [apply reach_init|].
    vm_compute. reflexivity.
  - reflexivity.
  - apply (http_parser_execute_safe log_settings HTTP_MAX_HEADER_SIZE _ log_settings_ok).
    + vm_compute. congruence.
    + eapply (reach_call _ _ (http_parser_init HTTP_REQUEST) (take 51 chunked_request) []); [apply reach_init|].
      vm_compute. reflexivity.
    + done.
Defined.
