(* ===== verification/HttpWire.v ===== *)
(** * What http_parser_execute makes of well-formed requests

    Callbacks that only update the user's state, the wire format of a request (request
    line, headers, body of a known length or in chunks) with the callbacks it should run, and the
    automaton that recognises the header names. *)

From S2P Require Import Prelude HttpTypes HttpUrl HttpExec.

(** ** Callbacks that neither fail nor touch the parser *)

Record callbacks (U : Type) := mkCb {
    cb_begin : U -> U;
    cb_url : bytes -> U -> U;
    cb_field : bytes -> U -> U;
    cb_value : bytes -> U -> U;
    cb_headers : http_method -> Z -> Z -> U -> U;  (* method and version *)
    cb_body : bytes -> U -> U;
    cb_complete : bool -> U -> U;                  (* upgrade *)
  }.
Arguments mkCb {U}.
Arguments cb_begin {U}.
Arguments cb_url {U}.
Arguments cb_field {U}.
Arguments cb_value {U}.
Arguments cb_headers {U}.
Arguments cb_body {U}.
Arguments cb_complete {U}.

Definition simple_settings {U} (c : callbacks U) : http_parser_settings U := {|
    on_message_begin := Some (fun p u => (0, p, cb_begin c u));
    on_url := Some (fun p b u => (0, p, cb_url c b u));
    on_status := None;
    on_header_field := Some (fun p b u => (0, p, cb_field c b u));
    on_header_value := Some (fun p b u => (0, p, cb_value c b u));
    on_headers_complete := Some (fun p u => (0, p, cb_headers c (hp_method p) (hp_http_major p) (hp_http_minor p) u));
    on_body := Some (fun p b u => (0, p, cb_body c b u));
    on_message_complete := Some (fun p u => (0, p, cb_complete c (hp_upgrade p) u));
    on_chunk_header := None;
    on_chunk_complete := None;
  |}.

(** ** The wire format *)

(** The state after the bytes of a URL; [s_dead] when they are not one. *)
Definition url_walk (s : state) (l : bytes) : state := fold_left parse_url_char l s.
(** A URL may end here. *)
Definition url_end (s : state) : bool :=
  match s with
  | s_req_server | s_req_server_with_at | s_req_path | s_req_query_string_start | s_req_query_string
  | s_req_fragment_start | s_req_fragment => true
  | _ => false
  end.

(** [s] begins [w]. *)
Fixpoint is_prefix (s w : bytes) : bool :=
  match s, w with
  | [], _ => true
  | x :: s', y :: w' => (x =? y) && is_prefix s' w'
  | _ :: _, [] => false
  end.

Definition lower (s : bytes) : bytes := map TOKEN s.

(** The headers the parser looks at: what it does with their values, in [flags] and
    [content_length]. *)
Inductive kind := K_general | K_connection | K_length | K_encoding | K_upgrade.
Definition kind_of (name : bytes) : kind :=
  let n := lower name in
  if bool_decide (n = CONNECTION \/ n = PROXY_CONNECTION) then K_connection
  else if bool_decide (n = CONTENT_LENGTH) then K_length
  else if is_prefix TRANSFER_ENCODING n then K_encoding
  else if bool_decide (n = UPGRADE) then K_upgrade
  else K_general.

(** A [Connection] value is a list of words between commas; spaces around a word do not matter. *)
Fixpoint trim (e : bytes) : bytes := match e with ch :: e' => if ch =? " "%chr then trim e' else e | [] => [] end.
Fixpoint strip (e : bytes) : bytes :=
  match e with
  | [] => []
  | ch :: e' => match strip e' with [] => if ch =? " "%chr then [] else [ch] | s => ch :: s end
  end.

(** The flag of a word in lower case. *)
Definition word_flag (w : bytes) : Z :=
  if bool_decide (w = KEEP_ALIVE) then F_CONNECTION_KEEP_ALIVE
  else if bool_decide (w = CLOSE) then F_CONNECTION_CLOSE
  else if bool_decide (w = UPGRADE) then F_CONNECTION_UPGRADE
  else 0.
Definition element_word (e : bytes) : bytes := map LOWER (trim e).

(** The list is read as it is written if every word begins with a token character and none is the beginning of one of the words
    that have a flag: such a word hides the comma that follows it. *)
Definition cut_short (w : bytes) : bool := existsb (fun k => is_prefix w k && (len w <? len k)) [KEEP_ALIVE; CLOSE; UPGRADE].
Definition element_ok (e : bytes) : bool :=
  let w := element_word e in match w with ch :: _ => negb (STRICT_TOKEN ch =? 0) | [] => false end && negb (cut_short w).
Definition connection_flags (v : bytes) : option Z :=
  let es := split_on ","%chr v in
  if forallb element_ok es then Some (fold_left (fun f e => Z.lor f (word_flag (strip (element_word e)))) es 0) else None.

Definition header_effect (h : bytes * bytes) (s : Z * Z) : option (Z * Z) :=
  let '(flags, cl) := s in
  match kind_of h.1 with
  | K_general => Some (flags, cl)
  | K_upgrade => Some (Z.lor flags F_UPGRADE, cl)
  | K_connection => f ← connection_flags h.2; Some (Z.lor flags f, cl)
  | K_length =>
      if forallb IS_NUM h.2 && (len h.2 <=? 18) && negb (has_flag flags F_CONTENTLENGTH)
      then Some (Z.lor flags F_CONTENTLENGTH, digits_value h.2) else None
  | K_encoding =>
      if bool_decide (lower h.1 = TRANSFER_ENCODING /\ map LOWER h.2 = CHUNKED) then Some (Z.lor flags F_CHUNKED, cl) else None
  end.
Fixpoint headers_effect (hs : list (bytes * bytes)) (s : Z * Z) : option (Z * Z) :=
  match hs with
  | [] => Some s
  | h :: hs' => s ← header_effect h s; headers_effect hs' s
  end.

(** A chunk: its size in hexadecimal, its parameters, its data. *)
Record chunk := mkChunk {
    ck_size : bytes;
    ck_params : bytes;
    ck_data : bytes;
  }.

Definition hex_value (s : bytes) : Z := fold_left (fun a c => 16 * a + table unhex c) s 0.
Definition size_line (k : chunk) : bytes := ck_size k ++ ck_params k ++ crlf.
Definition chunk_text (k : chunk) : bytes := size_line k ++ ck_data k ++ crlf.
Definition chunk_ok (k : chunk) : bool :=
  forallb (fun c => 0 <=? table unhex c) (ck_size k) && negb (bool_decide (ck_size k = [])) && (len (ck_size k) <=? 15) &&
  match ck_params k with [] => true | c :: l => ((c =? ";"%chr) || (c =? " "%chr)) && forallb (fun c => negb (c =? CR)) l end &&
  (hex_value (ck_size k) =? len (ck_data k)).

(** A request; the body comes whole, or in chunks of which the last one is empty. *)
Record request := mkRequest {
    r_method : http_method;
    r_target : bytes;
    r_major : Z;
    r_minor : Z;
    r_headers : list (bytes * bytes);
    r_body : bytes;
    r_chunks : option (list chunk * chunk);
  }.

Definition header_text (h : bytes * bytes) : bytes := h.1 ++ bs ": " ++ h.2 ++ crlf.
Definition head_text (r : request) : bytes :=
  method_string (r_method r) ++ bs " " ++ r_target r ++ bs " HTTP/" ++ [48 + r_major r] ++ bs "." ++ [48 + r_minor r] ++ crlf ++
  flat_map header_text (r_headers r) ++ crlf.
(** The head without the empty line that ends it. *)
Definition fields_text (r : request) : bytes :=
  method_string (r_method r) ++ bs " " ++ r_target r ++ bs " HTTP/" ++ [48 + r_major r] ++ bs "." ++ [48 + r_minor r] ++ crlf ++
  flat_map header_text (r_headers r).
Definition body_text (r : request) : bytes :=
  match r_chunks r with None => r_body r | Some (ks, k) => flat_map chunk_text (ks ++ [k]) end.
Definition request_text (r : request) : bytes := head_text r ++ body_text r.

(** The pieces of the body that the parser delivers. *)
Definition body_pieces (r : request) : list bytes :=
  match r_chunks r with None => if bool_decide (r_body r = []) then [] else [r_body r] | Some (ks, _) => map ck_data ks end.

Definition value_char_ok (ch : Z) : bool := IS_HEADER_CHAR ch && negb (is_crlf ch) && (ch <? 256).
Definition header_ok (h : bytes * bytes) : bool :=
  forallb (fun ch => negb (TOKEN ch =? 0)) h.1 && negb (bool_decide (h.1 = [])) &&
  forallb value_char_ok h.2 &&
  match h.2 with ch :: _ => negb (ch =? " "%chr) && negb (ch =? TAB) | [] => false end.

(** The parser's [flags] and [content_length] after the headers, and what follows from
    them. *)
Definition effect_of (r : request) : option (Z * Z) := headers_effect (r_headers r) (0, ULLONG_MAX).
Definition wants_upgrade (flags : Z) : bool := has_flag flags F_UPGRADE && has_flag flags F_CONNECTION_UPGRADE.
Definition alive (major minor flags : Z) : bool :=
  if (0 <? major) && (0 <? minor) then negb (has_flag flags F_CONNECTION_CLOSE) else has_flag flags F_CONNECTION_KEEP_ALIVE.
Definition kept_alive (r : request) (flags : Z) : bool := alive (r_major r) (r_minor r) flags.

Lemma head_fields r : head_text r = fields_text r ++ crlf.
Proof. unfold head_text, fields_text. by rewrite <- !app_assoc. Qed.

(** A request line and headers that the parser takes; they set its flags and length. *)
Definition fields_ok (r : request) (flags cl : Z) : Prop :=
  effect_of r = Some (flags, cl) /\ r_method r <> HTTP_CONNECT /\ url_end (url_walk s_req_spaces_before_url (r_target r)) = true /\
  0 <= r_major r <= 9 /\ 0 <= r_minor r <= 9 /\ forallb header_ok (r_headers r) = true.

Definition request_ok (r : request) (flags : Z) : Prop :=
  exists cl, effect_of r = Some (flags, cl) /\
  r_method r <> HTTP_CONNECT /\ url_end (url_walk s_req_spaces_before_url (r_target r)) = true /\
  0 <= r_major r <= 9 /\ 0 <= r_minor r <= 9 /\ forallb header_ok (r_headers r) = true /\
  match r_chunks r with
  | None => has_flag flags F_CHUNKED = false /\ len (r_body r) = if cl =? ULLONG_MAX then 0 else cl
  | Some (ks, k) => has_flag flags F_CHUNKED = true /\ has_flag flags F_CONTENTLENGTH = false /\
      forallb (fun k => chunk_ok k && negb (bool_decide (ck_data k = []))) ks = true /\ chunk_ok k = true /\ ck_data k = [] /\
      r_body r = concat (map ck_data ks)
  end.

(** The head and the lines of the chunks are not longer than [max_header_size]; the empty line that ends a body in chunks counts
    with the head that follows it. *)
Definition within (max : Z) (r : request) : Prop :=
  len (head_text r) + 2 <= max /\
  match r_chunks r with None => True | Some (ks, k) => forallb (fun k => len (size_line k) <=? max) (ks ++ [k]) = true end.

(** The callbacks of one request. *)
Definition header_user {U} (c : callbacks U) (u : U) (h : bytes * bytes) : U := cb_value c h.2 (cb_field c h.1 u).
Definition head_user {U} (c : callbacks U) (r : request) (u : U) : U :=
  cb_headers c (r_method r) (r_major r) (r_minor r)
    (fold_left (header_user c) (r_headers r) (cb_url c (r_target r) (cb_begin c u))).
Definition request_user {U} (c : callbacks U) (r : request) (upgrade : bool) (u : U) : U :=
  cb_complete c upgrade (fold_left (fun u b => cb_body c b u) (body_pieces r) (head_user c r u)).

(** ** Header names *)

Definition special_names : list bytes := [CONNECTION; PROXY_CONNECTION; CONTENT_LENGTH; TRANSFER_ENCODING; UPGRADE].

(** [header_state] after the characters of a name, in lower case. *)
Definition field_of (s : bytes) : header_states :=
  if bool_decide (s = CONNECTION \/ s = PROXY_CONNECTION) then h_connection
  else if bool_decide (s = CONTENT_LENGTH) then h_content_length
  else if bool_decide (s = TRANSFER_ENCODING) then h_transfer_encoding
  else if bool_decide (s = UPGRADE) then h_upgrade
  else if is_prefix s (bs "con") then
    match s with [_] => h_C | [_; _] => h_CO | _ => h_CON end
  else if is_prefix s CONNECTION then h_matching_connection
  else if is_prefix s CONTENT_LENGTH then h_matching_content_length
  else if is_prefix s PROXY_CONNECTION then h_matching_proxy_connection
  else if is_prefix s TRANSFER_ENCODING then h_matching_transfer_encoding
  else if is_prefix s UPGRADE then h_matching_upgrade
  else h_general.

(** What one character does to [header_state] and [index]. *)
Definition field_step (ch : Z) (h : header_states) (idx : Z) : option (header_states * Z * bool) :=
  p ← header_field_char ch (TOKEN ch) (hp_set_header_state h (hp_set_index idx (http_parser_init HTTP_REQUEST)));
  Some (hp_header_state p, hp_index p, hp_uses_transfer_encoding p).

Definition field_update (p : http_parser) (r : header_states * Z * bool) : http_parser :=
  let '(h, idx, te) := r in
  hp_set_uses_transfer_encoding (hp_uses_transfer_encoding p || te) (hp_set_index idx (hp_set_header_state h p)).

Lemma wrap_wrap w z : 0 <= w -> wrap w (wrap w z) = wrap w z.
Proof. intros Hw. apply wrap_small. by apply wrap_range. Qed.

Ltac setters := unfold field_update, incr_index, hp_set_uses_transfer_encoding, hp_set_index, hp_set_header_state;
  cbn; rewrite ?orb_false_r, ?orb_true_r, ?wrap_wrap by done.

(** What is done to a parser is done to these three fields. *)
Section Updates.
Context (p : http_parser) (Hi : 0 <= hp_index p < 32).
Implicit Types (h : header_states).

Lemma update_none : p = field_update p (hp_header_state p, hp_index p, false).
Proof. destruct p. cbn in *. setters. by rewrite wrap_small. Qed.
Lemma update_state h : hp_set_header_state h p = field_update p (h, hp_index p, false).
Proof. destruct p. cbn in *. setters. by rewrite wrap_small. Qed.
Lemma update_incr h : hp_set_header_state h (incr_index p) = field_update p (h, wrap 5 (hp_index p + 1), false).
Proof. destruct p. by setters. Qed.
Lemma update_match word t full : match_field word t full p =
  field_update p (default (hp_header_state p) (match_word word (wrap 5 (hp_index p + 1)) t h_general full), wrap 5 (hp_index p + 1), false).
Proof. clear Hi. unfold match_field. destruct p. setters. by destruct (match_word _ _ _ _ _); setters. Qed.
Lemma update_encoding h idx : hp_set_uses_transfer_encoding true (field_update p (h, idx, false)) = field_update p (h, idx, true).
Proof. clear Hi. destruct p. by setters. Qed.
Lemma update_header_state r : hp_header_state (field_update p r) = r.1.1.
Proof. clear Hi. by destruct p, r as [[] ?]. Qed.
End Updates.

Lemma update_view p p0 r : hp_uses_transfer_encoding p0 = false -> let q := field_update p0 r in
  field_update p (hp_header_state q, hp_index q, hp_uses_transfer_encoding q) = field_update p r.
Proof. destruct p, p0, r as [[] ?]. cbn. intros ->. by setters. Qed.

Lemma header_field_char_step ch p : 0 <= hp_index p < 32 ->
  header_field_char ch (TOKEN ch) p = field_update p <$> field_step ch (hp_header_state p) (hp_index p).
Proof.
  intros Hi. unfold field_step. set (p0 := hp_set_header_state _ _).
  assert (hp_header_state p0 = hp_header_state p /\ hp_index p0 = hp_index p /\ hp_uses_transfer_encoding p0 = false) as (Hh & Hx & Ht).
  { split_and!; [done| |done]. by apply wrap_small. }
  clearbody p0. unfold header_field_char. rewrite Hh.
  destruct (hp_header_state p) eqn:Hp; try done; cbn [fmap option_fmap option_map mbind option_bind]; f_equal;
    rewrite ?update_match, ?update_incr, ?Hh, ?Hx, ?Hp by lia; try by rewrite update_view.
  1: rewrite !update_header_state; cbn [fst]; case_decide; by rewrite ?update_encoding, update_view.
  all: destruct (negb _).
  all: first [rewrite Hh, Hx, Ht, <- Hp; by apply update_none|rewrite (update_state p) by done].
  all: cbn [hp_header_state hp_index hp_uses_transfer_encoding hp_set_header_state]; by rewrite Hx, Ht.
Qed.

Definition prefixes : list bytes := flat_map (fun w => map (fun k => take k w) (seq 1 (length w))) special_names.

Definition field_check (s : bytes) (ch : Z) : bool :=
  (TOKEN ch =? 0) ||
  match field_step ch (field_of s) (len s - 1) with
  | Some (h, idx, te) =>
      bool_decide (h = field_of (s ++ [TOKEN ch])) &&
      ((idx =? len s) || negb (existsb (is_prefix (s ++ [TOKEN ch])) special_names)) &&
      bool_decide (te = bool_decide (h = h_transfer_encoding)) && (0 <=? idx) && (idx <? 32)
  | None => false
  end.

Lemma fields_checked : forallb (fun s => forallb (field_check s) (seqZ 0 128)) prefixes = true.
Proof. vm_compute. reflexivity. Qed.

Lemma is_prefix_app s l w : is_prefix (s ++ l) w = true -> is_prefix s w = true.
Proof. revert w. induction s as [|x s IH]; intros [|y w]; try done. cbn. intros [-> H]%andb_true_iff. by rewrite (IH w). Qed.

Lemma is_prefix_self w l : is_prefix w (w ++ l) = true.
Proof. induction w as [|x w IH]; [done|]. cbn. by rewrite Z.eqb_refl. Qed.

Lemma is_prefix_take s w : is_prefix s w = true -> s = take (length s) w /\ (length s <= length w)%nat.
Proof.
  revert w. induction s as [|x s IH]; intros [|y w]; try done; [cbn; intros _; split; [done|lia]|]. cbn.
  intros [Hx%Z.eqb_eq H]%andb_true_iff. destruct (IH w H) as [Hs Hl]. subst y. split; [by f_equal|lia].
Qed.

Definition known (s : bytes) : bool := existsb (is_prefix s) special_names.

Lemma known_app s l : known s = false -> known (s ++ l) = false.
Proof.
  unfold known. rewrite <- !not_true_iff_false, !existsb_exists. intros Hs (w & Hw & Hp). apply Hs. exists w.
  by eauto using is_prefix_app.
Qed.

Lemma known_prefixes s : s <> [] -> known s = true -> In s prefixes.
Proof.
  unfold known. rewrite existsb_exists. intros Hs (w & Hw & Hp). apply in_flat_map. exists w. split; [done|].
  apply is_prefix_take in Hp as [Hp Hl]. apply in_map_iff. exists (length s). split; [done|]. apply in_seq.
  destruct s; [done|]. cbn in *. lia.
Qed.

Lemma field_known s ch : s <> [] -> known s = true -> TOKEN ch <> 0 -> field_check s ch = true.
Proof.
  intros Hs Hk Ht. pose proof fields_checked as H. rewrite forallb_forall in H. specialize (H s (known_prefixes s Hs Hk)).
  rewrite forallb_forall in H. apply H. apply list_elem_of_In, elem_of_seqZ.
  destruct (decide (0 <= ch < 128)) as [|Hr]; [lia|]. destruct Ht. unfold TOKEN, STRICT_TOKEN, table.
  case_match; [done|]. destruct (decide (ch < 0)); [by replace (Z.to_nat ch) with 0%nat by lia|].
  apply nth_overflow. assert (length tokens = 128%nat) as -> by (vm_compute; reflexivity). lia.
Qed.

Lemma field_unknown s : known s = false -> field_of s = h_general.
Proof.
  intros Hk. assert (forall w, In w special_names -> is_prefix s w = false) as Hw.
  { intros w Hin. apply not_true_iff_false. intros Hp. apply not_true_iff_false in Hk. apply Hk. apply existsb_exists. by exists w. }
  assert (forall w, In w special_names -> s <> w) as Hne.
  { intros w Hin ->. specialize (Hw w Hin). rewrite <- (app_nil_r w) in Hw at 2. by rewrite is_prefix_self in Hw. }
  unfold field_of. rewrite !bool_decide_false by (intros E; repeat destruct E as [E|E]; (eapply Hne; [|exact E]); cbn; tauto).
  rewrite (Hw CONNECTION), (Hw CONTENT_LENGTH), (Hw PROXY_CONNECTION), (Hw TRANSFER_ENCODING), (Hw UPGRADE) by (cbn; tauto).
  destruct (is_prefix s (bs "con")) eqn:E; [|done].
  assert (is_prefix s CONNECTION = true) as Hc; [|by rewrite Hw in Hc by (cbn; tauto)].
  apply is_prefix_take in E as [-> Hl]. by destruct (length s) as [|[|[|[|k]]]].
Qed.

Lemma known_general : forallb (fun s => negb (bool_decide (field_of s = h_general))) prefixes = true.
Proof. vm_compute. reflexivity. Qed.

Lemma field_general s : s <> [] -> field_of s = h_general <-> known s = false.
Proof.
  intros Hs. split; [|apply field_unknown]. intros Hf. apply not_true_iff_false. intros Hk.
  pose proof known_general as H. rewrite forallb_forall in H. specialize (H s (known_prefixes s Hs Hk)).
  by rewrite bool_decide_true in H.
Qed.

(** The parser has read the name [s], in lower case. *)
Record field_ok (s : bytes) (p : http_parser) : Prop := {
  fo_state : hp_header_state p = field_of s;
  fo_index : known s = true -> hp_index p = len s - 1;
  fo_range : 0 <= hp_index p < 32;
  }.

Lemma field_next s ch p : s <> [] -> TOKEN ch <> 0 -> field_ok s p -> hp_header_state p <> h_general ->
  exists r, header_field_char ch (TOKEN ch) p = Some (field_update p r) /\ field_ok (s ++ [TOKEN ch]) (field_update p r) /\
    r.2 = bool_decide (s ++ [TOKEN ch] = TRANSFER_ENCODING).
Proof.
  intros Hs Ht [Hst Hi Hr] Hg. assert (known s = true) as Hk.
  { destruct (known s) eqn:Ek; [done|]. by rewrite Hst, field_unknown in Hg. }
  pose proof (field_known s ch Hs Hk Ht) as Hc. unfold field_check in Hc. rewrite (proj2 (Z.eqb_neq _ _) Ht) in Hc. cbn [orb] in Hc.
  rewrite header_field_char_step, Hst, Hi by done. destruct (field_step _ _ _) as [[[h idx] te]|]; [|done].
  apply andb_true_iff in Hc as [[[[Hh%bool_decide_eq_true Hidx]%andb_true_iff Hte%bool_decide_eq_true]%andb_true_iff H0]%andb_true_iff H1].
  apply Z.leb_le in H0. apply Z.ltb_lt in H1. exists (h, idx, te). split; [done|]. split; [split|].
  - done.
  - unfold known. intros Hk'. rewrite Hk', orb_false_r in Hidx. apply Z.eqb_eq in Hidx. cbn. rewrite wrap_small by lia.
    rewrite len_snoc. lia.
  - cbn. rewrite wrap_small; lia.
  - cbn. rewrite Hte, Hh. apply bool_decide_ext. split; [|by intros ->]. clear. unfold field_of.
    repeat (case_bool_decide; [try done|]); repeat case_match; done.
Qed.

(** ** Positions in the buffer *)

(** The bytes [l] are in the buffer from offset [i]. *)
Definition here (data : bytes) (i : Z) (l : bytes) : Prop :=
  0 <= i /\ exists post, drop (Z.to_nat i) data = l ++ post.

Section Here.
Context (data : bytes).

Lemma here_cons i c l : here data i (c :: l) -> char_at data i = c /\ 0 <= i < len data /\ here data (i + 1) l.
Proof.
  intros (Hi & post & Hd). split_and!.
  - unfold char_at. rewrite <- (Nat.add_0_r (Z.to_nat i)), <- nth_skipn. by rewrite Hd.
  - done.
  - apply (f_equal length) in Hd. rewrite length_drop, length_app in Hd. cbn in Hd. unfold len. lia.
  - split; [lia|]. exists post. replace (Z.to_nat (i + 1)) with (Z.to_nat i + 1)%nat by lia.
    by rewrite <- drop_drop, Hd.
Qed.

Lemma here_app i l k : here data i (l ++ k) -> here data i l /\ here data (i + len l) k.
Proof.
  intros (Hi & post & Hd). split.
  - split; [done|]. exists (k ++ post). by rewrite app_assoc.
  - pose proof (len_nonneg l). split; [lia|]. exists post.
    replace (Z.to_nat (i + len l)) with (Z.to_nat i + length l)%nat by (unfold len; lia).
    by rewrite <- drop_drop, Hd, <- app_assoc, drop_app_length.
Qed.

Lemma here_slice i l : here data i l -> slice data i (i + len l) = l.
Proof.
  intros (Hi & post & Hd). unfold slice. rewrite Hd.
  replace (Z.to_nat (i + len l - i)) with (length l) by (unfold len; lia). apply take_app_length.
Qed.

Lemma here_bound i l : here data i l -> l <> [] -> i + len l <= len data.
Proof.
  intros (Hi & post & Hd) Hl. apply (f_equal length) in Hd. rewrite length_drop, length_app in Hd.
  destruct l; [done|]. unfold len. cbn in *. lia.
Qed.
End Here.

(** The locals after updates of an explicit record. *)
Ltac exec_cbn := cbn [ex_p ex_ch ex_state ex_parser ex_nread ex_marks ex_user on_parser ex_set_p ex_set_ch
  UPDATE_STATE ex_set_nread ex_set_marks ex_set_user set_mark get_mark header_field_mark header_value_mark url_mark
  body_mark status_mark no_marks].
