(* ===== verification/HttpToken.v ===== *)
(** * Lists of words in Connection headers

    [http_parser_execute] reads the value of a [Connection] header character by character, in the [h_connection] states; here
    these states are what the reference of HttpWire.v says of the words read so far. *)

From S2P Require Import Prelude HttpTypes HttpUrl HttpExec HttpWire.

(** ** The state after the beginning of a word *)

Definition start_state (ch : Z) : option header_states :=
  if ch =? "k"%chr then Some h_matching_connection_keep_alive
  else if ch =? "c"%chr then Some h_matching_connection_close
  else if ch =? "u"%chr then Some h_matching_connection_upgrade else None.

Definition word_of (h : header_states) : bytes :=
  match h with
  | h_matching_connection_keep_alive => KEEP_ALIVE
  | h_matching_connection_close => CLOSE
  | h_matching_transfer_encoding_chunked => CHUNKED
  | _ => UPGRADE
  end.
Definition word_full (h : header_states) : header_states :=
  match h with
  | h_matching_connection_keep_alive => h_connection_keep_alive
  | h_matching_connection_close => h_connection_close
  | h_matching_transfer_encoding_chunked => h_transfer_encoding_chunked
  | _ => h_connection_upgrade
  end.
Definition word_fail (h : header_states) : header_states :=
  match h with h_matching_transfer_encoding_chunked => h_matching_transfer_encoding_token | _ => h_matching_connection_token end.

(** In a word that begins as [h] looks for. *)
Definition matching_state (h : header_states) (w : bytes) : header_states :=
  if is_prefix w (word_of h) && (len w <? len (word_of h)) then h
  else if bool_decide (strip w = word_of h) then word_full h else h_matching_connection_token.

(** [h_state] after the characters [w], in lower case, of a word. *)
Definition word_state (w : bytes) : header_states :=
  match w with
  | [] => h_matching_connection_token_start
  | ch :: _ => match start_state ch with Some h => matching_state h w | None => h_matching_connection_token end
  end.

(** ** Spaces *)

Lemma strip_snoc w ch : strip (w ++ [ch]) = if ch =? " "%chr then strip w else w ++ [ch].
Proof.
  induction w as [|x w IH]; [done|]. cbn [app strip]. rewrite IH. destruct (ch =? " "%chr); [done|]. by destruct w.
Qed.

Lemma strip_len w : (length (strip w) <= length w)%nat.
Proof. induction w as [|x w IH]; [done|]. cbn [strip]. destruct (strip w); [destruct (x =? _); cbn; lia|cbn in *; lia]. Qed.

Lemma strip_head w : strip w <> [] -> exists y l, w = y :: l /\ head (strip w) = Some y.
Proof.
  intros Hne. destruct w as [|y l]; [done|]. exists y, l. split; [done|]. cbn [strip] in *.
  destruct (strip l); [|done]. by destruct (y =? " "%chr).
Qed.

Lemma trim_snoc e ch : trim (e ++ [ch]) = match trim e with [] => trim [ch] | w => w ++ [ch] end.
Proof.
  induction e as [|x e IH]; [done|]. cbn [app trim]. destruct (x =? " "%chr); [exact IH|]. done.
Qed.

Lemma trim_app e k : trim e = [] -> trim (e ++ k) = trim k.
Proof. induction e as [|x e IH]; [done|]. cbn [app trim]. by destruct (x =? " "%chr). Qed.

Lemma lowers_checked : forallb (fun ch => Bool.eqb (LOWER ch =? " "%chr) ((ch =? " "%chr) || (ch =? 0))) (seqZ 0 256) = true.
Proof. vm_compute. reflexivity. Qed.

Lemma lower_space ch : value_char_ok ch = true -> (LOWER ch =? " "%chr) = (ch =? " "%chr).
Proof.
  intros Hok. assert (0 < ch < 256) as Hr by (unfold value_char_ok, IS_HEADER_CHAR, is_crlf, CR, LF in Hok; lia).
  pose proof lowers_checked as H. rewrite forallb_forall in H. specialize (H ch).
  rewrite eqb_true_iff in H. rewrite H by (apply list_elem_of_In, elem_of_seqZ; lia). destruct (Z.eqb_spec ch 0); [lia|]. apply orb_false_r.
Qed.

(** ** One more character *)

Lemma prefix_snoc w ch k : is_prefix (w ++ [ch]) k = is_prefix w k && (len w <? len k) && (ch =? nth (length w) k 0).
Proof.
  revert k. induction w as [|x w IH]; intros [|y k]; try done; cbn [app is_prefix].
  - rewrite len_cons. pose proof (len_nonneg k). change (len (@nil Z)) with 0. destruct (Z.ltb_spec 0 (len k + 1)); [|lia].
    cbn. by rewrite andb_true_r.
  - rewrite IH, !len_cons. destruct (x =? y); [|done]. cbn [andb length nth]. f_equal. f_equal.
    destruct (Z.ltb_spec (len w) (len k)), (Z.ltb_spec (len w + 1) (len k + 1)); lia || done.
Qed.

Lemma prefix_whole w k : is_prefix w k = true -> len w = len k -> w = k.
Proof.
  intros [Hw Hl]%is_prefix_take Hlen. rewrite Hw at 1. apply take_ge. unfold len in Hlen. lia.
Qed.

Definition connection_start (h : header_states) : bool :=
  match h with h_matching_connection_keep_alive | h_matching_connection_close | h_matching_connection_upgrade => true | _ => false end.

Lemma word_no_space h : connection_start h = true -> forallb (fun ch => negb (ch =? " "%chr)) (word_of h) = true /\ 1 < len (word_of h) <= 20.
Proof. destruct h; try done; intros _; vm_compute; repeat split; congruence. Qed.

Lemma nth_no_space h n : connection_start h = true -> (n < length (word_of h))%nat -> (nth n (word_of h) 0 =? " "%chr) = false.
Proof.
  intros Hh Hn. destruct (word_no_space h Hh) as [Hs _]. rewrite forallb_forall in Hs. apply negb_true_iff, Hs, nth_In, Hn.
Qed.

(** Where a word is, among the characters [w]: still being read, read, or it is another one. *)
Lemma matching_proper h w : is_prefix w (word_of h) && (len w <? len (word_of h)) = true -> matching_state h w = h.
Proof. unfold matching_state. by intros ->. Qed.

Lemma matching_other h w : is_prefix w (word_of h) && (len w <? len (word_of h)) = false -> strip w <> word_of h -> matching_state h w = h_matching_connection_token.
Proof. unfold matching_state. intros -> Hs. by rewrite bool_decide_false. Qed.

Lemma matching_full h w : is_prefix w (word_of h) && (len w <? len (word_of h)) = false -> strip w = word_of h -> matching_state h w = word_full h.
Proof. unfold matching_state. intros -> Hs. by rewrite bool_decide_true. Qed.

Lemma proper_snoc h w ch : is_prefix (w ++ [ch]) (word_of h) && (len (w ++ [ch]) <? len (word_of h)) = true ->
  is_prefix w (word_of h) && (len w <? len (word_of h)) = true.
Proof. rewrite prefix_snoc. intros [[-> _]%andb_true_iff _]%andb_true_iff. done. Qed.

Lemma full_char h ch p : connection_start h = true -> (ch =? ","%chr) = false ->
  header_value_char ch (LOWER ch) (word_full h) p = (if ch =? " "%chr then word_full h else h_matching_connection_token, p).
Proof. intros Hh Hc. destruct h; try done; cbn [word_full header_value_char]; rewrite Hc; by destruct (ch =? " "%chr). Qed.

Lemma matching_char h ch p : connection_start h = true ->
  header_value_char ch (LOWER ch) h p =
  (default h (match_word (word_of h) (hp_index (incr_index p)) (LOWER ch) h_matching_connection_token (word_full h)), incr_index p).
Proof. by destruct h. Qed.

Lemma matching_step h w ch p : connection_start h = true -> value_char_ok ch = true -> (ch =? ","%chr) = false ->
  (matching_state h w = h -> hp_index p = len w - 1) ->
  exists p', header_value_char ch (LOWER ch) (matching_state h w) p = (matching_state h (w ++ [LOWER ch]), p') /\
    (p' = p \/ p' = incr_index p) /\ (matching_state h (w ++ [LOWER ch]) = h -> hp_index p' = len w).
Proof.
  intros Hh Hok Hc Hi. pose proof (word_no_space h Hh) as [Hsp Hlen]. pose proof (len_nonneg w). set (b := LOWER ch).
  assert ((b =? " "%chr) = (ch =? " "%chr)) as Hb by (by apply lower_space).
  destruct (is_prefix w (word_of h) && (len w <? len (word_of h))) eqn:Hp.
  - pose proof Hp as [Hw Hl%Z.ltb_lt]%andb_true_iff. rewrite (matching_proper h w Hp) in *. specialize (Hi eq_refl).
    exists (incr_index p). rewrite matching_char by done. fold b.
    assert (hp_index (incr_index p) = len w) as Hx by (unfold incr_index; cbn; rewrite Hi, wrap_small by lia; lia).
    rewrite Hx. split; [|split; [by right|done]]. f_equal. unfold match_word.
    destruct (Z.ltb_spec (len (word_of h)) (len w)); [lia|]. cbn [orb]. replace (Z.to_nat (len w)) with (length w) by (unfold len; lia).
    destruct (b =? nth (length w) (word_of h) 0) eqn:Hbn; cbn [negb].
    + assert ((b =? " "%chr) = false) as Hbs.
      { apply Z.eqb_eq in Hbn. rewrite Hbn. apply nth_no_space; [done|]. unfold len in *. lia. }
      assert (is_prefix (w ++ [b]) (word_of h) = true) as Hpre by (rewrite prefix_snoc, Hp, Hbn; done).
      destruct (Z.eqb_spec (len w) (len (word_of h) - 1)) as [E|E]; cbn [default].
      * rewrite matching_full; [done|rewrite len_snoc; apply andb_false_iff; right; apply Z.ltb_ge; lia|].
        rewrite strip_snoc, Hbs. apply prefix_whole; [done|rewrite len_snoc; lia].
      * rewrite matching_proper; [done|]. rewrite Hpre, len_snoc. apply Z.ltb_lt. lia.
    + cbn [default]. rewrite matching_other; [done|by rewrite prefix_snoc, Hbn, andb_false_r|].
      rewrite strip_snoc. destruct (b =? " "%chr).
      * intros E. pose proof (strip_len w) as Hs. rewrite E in Hs. unfold len in *. lia.
      * intros E. apply (f_equal (fun l => nth (length w) l 0)) in E. rewrite nth_middle in E. by rewrite E, Z.eqb_refl in Hbn.
  - exists p. assert (is_prefix (w ++ [b]) (word_of h) && (len (w ++ [b]) <? len (word_of h)) = false) as Hp'.
    { destruct (_ && _) eqn:E in |- *; [|done]. apply proper_snoc in E. congruence. }
    assert (forall s, matching_state h s = h -> is_prefix s (word_of h) && (len s <? len (word_of h)) = true) as Hback.
    { intros s. unfold matching_state. destruct (is_prefix s _ && _); [done|]. clear - Hh. case_bool_decide; destruct h; done. }
    split; [|split; [by left|by intros E%Hback; congruence]].
    destruct (decide (strip w = word_of h)) as [Hs|Hs].
    + rewrite (matching_full h w), full_char by done. f_equal. rewrite <- Hb. destruct (b =? " "%chr) eqn:Hbs.
      * symmetry. apply matching_full; [done|]. by rewrite strip_snoc, Hbs.
      * symmetry. apply matching_other; [done|]. rewrite strip_snoc, Hbs. intros E. pose proof (strip_len w) as Hle.
        rewrite Hs, <- E, length_app in Hle. cbn in Hle. lia.
    + rewrite (matching_other h w), (matching_other h (w ++ [b])); try done.
      * cbn [header_value_char]. by rewrite Hc.
      * rewrite strip_snoc. destruct (b =? " "%chr) eqn:Hbs; [done|]. intros E.
        assert (is_prefix (w ++ [b]) (word_of h) = true) as Hpre by (rewrite E; pose proof (is_prefix_self (word_of h) []) as Hq; by rewrite app_nil_r in Hq).
        rewrite prefix_snoc, Hp in Hpre. done.
Qed.

(** ** Elements of a list *)

Definition conn_state (e : bytes) : header_states := word_state (element_word e).

(** [index] in an element. *)
Definition at_word (w : bytes) (p : http_parser) : Prop :=
  match w with
  | [] => hp_index p = 0
  | x :: _ => forall h, start_state x = Some h -> matching_state h w = h -> hp_index p = len w - 1
  end.

Lemma start_connection x h : start_state x = Some h -> connection_start h = true /\ head (word_of h) = Some x.
Proof.
  unfold start_state. intros Hs.
  repeat match type of Hs with (if x =? ?c then _ else _) = _ => destruct (Z.eqb_spec x c) as [->|]; [by injection Hs as <-|] end. done.
Qed.

Lemma start_matching x h : start_state x = Some h -> matching_state h [x] = h.
Proof.
  intros [Hh Hx]%start_connection. apply matching_proper. destruct (word_no_space h Hh) as [_ Hl].
  destruct (word_of h) as [|y k]; [done|]. injection Hx as ->. cbn [is_prefix]. rewrite Z.eqb_refl. apply Z.ltb_lt. change (len [x]) with 1. lia.
Qed.

Lemma element_word_snoc e ch : element_word (e ++ [ch]) =
  match element_word e with [] => element_word [ch] | w => w ++ [LOWER ch] end.
Proof. unfold element_word. rewrite trim_snoc. destruct (trim e) as [|x l] eqn:E; [done|]. by rewrite map_app. Qed.

Lemma start_char ch p : STRICT_TOKEN (LOWER ch) <> 0 ->
  header_value_char ch (LOWER ch) h_matching_connection_token_start p = (word_state [LOWER ch], p).
Proof.
  intros Ht%Z.eqb_neq. cbn [header_value_char word_state]. rewrite Ht. cbn [negb].
  destruct (start_state (LOWER ch)) as [h|] eqn:Hs; [rewrite (start_matching _ _ Hs)|]; unfold start_state in Hs;
    repeat case_match; by simplify_eq.
Qed.

Lemma element_step e ch p : value_char_ok ch = true -> (ch =? ","%chr) = false ->
  (element_word e = [] -> ch = " "%chr \/ STRICT_TOKEN (LOWER ch) <> 0) -> at_word (element_word e) p ->
  exists p', header_value_char ch (LOWER ch) (conn_state e) p = (conn_state (e ++ [ch]), p') /\
    (p' = p \/ p' = incr_index p) /\ at_word (element_word (e ++ [ch])) p'.
Proof.
  intros Hok Hc Hst Hat. unfold conn_state. rewrite element_word_snoc. destruct (element_word e) as [|x w] eqn:Ew.
  - exists p. destruct (Hst eq_refl) as [->|Ht]; [split; [done|split; [by left|done]]|].
    destruct (Z.eqb_spec ch " "%chr) as [->|Hne]; [done|]. assert (element_word [ch] = [LOWER ch]) as ->.
    { unfold element_word. cbn. by rewrite (proj2 (Z.eqb_neq ch 32) Hne). }
    split; [by apply start_char|]. split; [by left|]. intros h Hs _. exact Hat.
  - cbn [app word_state]. destruct (start_state x) as [h|] eqn:Hs.
    + destruct (start_connection _ _ Hs) as [Hh _].
      destruct (matching_step h (x :: w) ch p Hh Hok Hc) as (p' & Hp' & Hor & Hi); [by apply Hat|]. exists p'. split; [exact Hp'|]. split; [done|].
      cbn [app at_word]. intros h' [= <-]%(eq_trans (eq_sym Hs)) Hm. rewrite Hi by done. change (x :: w ++ [LOWER ch]) with ((x :: w) ++ [LOWER ch]). rewrite len_snoc. lia.
    + exists p. split; [cbn [header_value_char]; by rewrite Hc|]. split; [by left|]. intros h Hh. congruence.
Qed.

(** The flag of a word that is over. *)
Lemma conn_flag e : element_ok e = true ->
  conn_state e = h_matching_connection_token /\ word_flag (strip (element_word e)) = 0 \/
  exists h, connection_start h = true /\ conn_state e = word_full h /\ word_flag (strip (element_word e)) = connection_flag (word_full h).
Proof.
  unfold element_ok, conn_state. intros [Hw Hcut%negb_true_iff]%andb_true_iff. destruct (element_word e) as [|x w]; [done|]. clear Hw.
  set (l := x :: w) in *. cbn [word_state]. change (word_state l) with (match start_state x with Some h => matching_state h l | None => h_matching_connection_token end).
  assert (forall k, strip l = k -> k <> [] -> head k = Some x) as Hhead.
  { intros k <- Hne. destruct (strip_head l Hne) as (y & l' & [= <- <-] & ?). done. }
  assert (strip l = KEEP_ALIVE -> x = "k"%chr) as Hk by (intros E; by injection (Hhead _ E ltac:(done))).
  assert (strip l = CLOSE -> x = "c"%chr) as Hcl by (intros E; by injection (Hhead _ E ltac:(done))).
  assert (strip l = UPGRADE -> x = "u"%chr) as Hu by (intros E; by injection (Hhead _ E ltac:(done))).
  destruct (start_state x) as [h|] eqn:Hs.
  - destruct (start_connection _ _ Hs) as [Hh Hx].
    assert (is_prefix l (word_of h) && (len l <? len (word_of h)) = false) as Hp.
    { unfold cut_short in Hcut. rewrite <- not_true_iff_false in Hcut |- *. intros E. apply Hcut, existsb_exists. exists (word_of h). split; [|done].
      destruct h; try done; cbn; auto. }
    destruct (decide (strip l = word_of h)) as [E|E].
    + right. exists h. split; [done|]. rewrite matching_full, E by done. split; [done|]. destruct h; done.
    + left. rewrite matching_other by done. split; [done|]. unfold word_flag. rewrite !bool_decide_false; [done|..].
      * intros F. rewrite (Hu F) in Hs. injection Hs as <-. done.
      * intros F. rewrite (Hcl F) in Hs. injection Hs as <-. done.
      * intros F. rewrite (Hk F) in Hs. injection Hs as <-. done.
  - left. split; [done|]. unfold word_flag. rewrite !bool_decide_false; [done|..].
    + intros F. by rewrite (Hu F) in Hs.
    + intros F. by rewrite (Hcl F) in Hs.
    + intros F. by rewrite (Hk F) in Hs.
Qed.

Definition set_word_flag (f : Z) (p : http_parser) : http_parser := if f =? 0 then p else set_flag f p.

Lemma conn_comma e p : element_ok e = true ->
  header_value_char ","%chr (LOWER ","%chr) (conn_state e) p =
  (h_matching_connection_token_start, hp_set_index 0 (set_word_flag (word_flag (strip (element_word e))) p)).
Proof.
  intros [[-> ->]|(h & Hh & -> & ->)]%conn_flag; [done|]. destruct h; done.
Qed.

(** ** The list *)

Lemma split_on_none c l : forallb (fun x => negb (x =? c)) l = true -> split_on c l = [l].
Proof. induction l as [|x l IH]; [done|]. cbn [forallb split_on]. intros [->%negb_true_iff Hl]%andb_true_iff. by rewrite IH. Qed.

Lemma split_on_app c l k : forallb (fun x => negb (x =? c)) l = true ->
  split_on c (l ++ k) = match split_on c k with p :: ps => (l ++ p) :: ps | [] => [] end.
Proof.
  induction l as [|x l IH]; cbn [forallb app split_on]; [by destruct (split_on c k)|].
  intros [->%negb_true_iff Hl]%andb_true_iff. rewrite IH by done. destruct (split_on c k) eqn:E; [|done].
  destruct k as [|y k]; [done|]. cbn in E. repeat case_match; done.
Qed.

Definition list_flags (es : list bytes) (f : Z) : Z := fold_left (fun f e => Z.lor f (word_flag (strip (element_word e)))) es f.

Lemma list_flags_lor es f : list_flags es f = Z.lor f (list_flags es 0).
Proof.
  revert f. induction es as [|e es IH]; intros f; cbn [list_flags fold_left]; [by rewrite Z.lor_0_r|].
  change (fold_left _ es ?a) with (list_flags es a). rewrite IH, (IH (Z.lor 0 _)), Z.lor_0_l. by rewrite Z.lor_assoc.
Qed.

Lemma connection_flags_ind (P : Z -> Prop) v f : P 0 -> (forall g w, P g -> P (Z.lor g (word_flag w))) -> connection_flags v = Some f -> P f.
Proof.
  intros H0 Hs. unfold connection_flags. destruct (forallb _ _); [|done]. intros [= <-]. generalize 0, H0.
  induction (split_on ","%chr v) as [|e es IH]; intros g Hg; [done|]. cbn [fold_left]. by apply IH, Hs.
Qed.

(** ** Runs *)

Definition flags_read (v : bytes) : Z :=
  match run_request (bs "GET / HTTP/1.1" ++ crlf ++ bs "Connection: " ++ v ++ crlf ++ crlf) with Done _ p _ => hp_flags p | _ => -1 end.

Example list_read : let v := bs "Keep-Alive , x,  Upgrade " in
  flags_read v = Z.lor F_CONNECTION_KEEP_ALIVE F_CONNECTION_UPGRADE /\ connection_flags v = Some (flags_read v).
Proof. vm_compute. done. Qed.

(** A word that is the beginning of one of the three takes the comma for one of its characters, so the next word is not read. *)
Example short_word_hides_comma : flags_read (bs "x, close") = F_CONNECTION_CLOSE /\ flags_read (bs "c, close") = 0.
Proof. vm_compute. done. Qed.

(** The test for a tab is on the character in lower case, which is then a parenthesis. *)
Example tab_ends_list : flags_read (bs "keep-alive, close") = Z.lor F_CONNECTION_KEEP_ALIVE F_CONNECTION_CLOSE /\
  flags_read (bs "keep-alive," ++ [TAB] ++ bs "close") = F_CONNECTION_KEEP_ALIVE.
Proof. vm_compute. done. Qed.
