(* ===== verification/HttpRun.v ===== *)
(** * The request line in http_parser_execute

    How the main loop runs over the bytes of the request line of a well-formed request:
    [gets] says where the loop gets to, one lemma per part of the line. *)

From S2P Require Import Prelude HttpTypes HttpUrl HttpExec HttpWire.

(** The global [max_header_size] is a [uint32_t]. *)
Class Header_limit (max : Z) := header_limit : max < 2 ^ 32.
#[export] Instance default_limit : Header_limit HTTP_MAX_HEADER_SIZE.
Proof. done. Qed.

(** ** Runs of the main loop *)

Section Runs.
Context {U : Type} (c : callbacks U) (max : Z) (lenient allow : bool) (data : bytes).
Context {Hmax : Header_limit max}.
Implicit Types (x y : exec U) (p : http_parser) (m : marks) (u : U).

Abbreviation loop := (main_loop (simple_settings c) max lenient allow data).
Abbreviation switch := (reexecute (simple_settings c) max lenient allow data 4).
Abbreviation case_of := (HttpExec.step (simple_settings c) max lenient allow data).

(** The loop gets from [x] to [y], whatever the fuel, as long as it is enough. *)
Definition reaches x y : Prop :=
  forall n, len data - ex_p x <= Z.of_nat n ->
  exists k, len data - ex_p y <= Z.of_nat k /\ loop n x = loop k y.

#[export] Instance reaches_preorder : PreOrder reaches.
Proof.
  split.
  - intros x n Hn. by exists n.
  - intros x y z Hxy Hyz n Hn. destruct (Hxy n Hn) as (k & Hk & ->). by apply Hyz.
Qed.

Lemma reaches_round x y : ex_p x < len data -> ex_p x <= ex_p y ->
  round (simple_settings c) max lenient allow data x = Break y -> reaches x (ex_set_p (ex_p y + 1) y).
Proof.
  intros Hlt Hle Hr n Hn. destruct n as [|n]; [lia|]. exists n. split; [cbn; lia|].
  cbn [main_loop]. unfold data_len. destruct (Z.eqb_spec (ex_p x) (len data)); [lia|]. by rewrite Hr.
Qed.

(** The loop gets to some parser of [Q] at the given place, whatever is left in [ch]. *)
Definition gets x (Q : http_parser -> Prop) (i : Z) (s : state) (n : Z) m u : Prop :=
  exists p ch, Q p /\ reaches x (mkExec p i ch s n m u).

Lemma gets_refl p i ch s n m u (Q : http_parser -> Prop) : Q p -> gets (mkExec p i ch s n m u) Q i s n m u.
Proof. intros HQ. by exists p, ch. Qed.

Lemma gets_trans x Q i s n m u Q' i' s' n' m' u' :
  gets x Q i s n m u -> (forall p ch, Q p -> gets (mkExec p i ch s n m u) Q' i' s' n' m' u') -> gets x Q' i' s' n' m' u'.
Proof. intros (p & ch & HQ & Hx) Hy. destruct (Hy p ch HQ) as (p' & ch' & HQ' & Hy'). exists p', ch'. split; [done|]. by etrans. Qed.

Lemma gets_weaken x Q (Q' : http_parser -> Prop) i s n m u :
  gets x Q i s n m u -> (forall p, Q p -> Q' p) -> gets x Q' i s n m u.
Proof. intros (p & ch & HQ & Hx) Hq. exists p, ch. auto. Qed.

(** A round of the headers counts its byte. *)
Lemma round_header p i ch s n m u b l :
  here data i (b :: l) -> PARSING_HEADER s = true -> 0 <= n -> n + 1 <= max ->
  round (simple_settings c) max lenient allow data (mkExec p i ch s n m u) = switch (mkExec p i b s (n + 1) m u).
Proof.
  intros (Hb & Hi & _)%here_cons Hs Hn Hm.
  unfold round. cbn [ex_p ex_state ex_set_ch ex_parser ex_nread ex_marks ex_user]. rewrite reading_char_in, Hs, Hb by done.
  pose proof header_limit. unfold COUNT_HEADER_SIZE, ex_set_nread, ex_set_ch. cbn [ex_p ex_ch ex_state ex_parser ex_nread ex_marks ex_user].
  assert (u32 (n + u32 1) = n + 1) as -> by (unfold u32; rewrite (Z.mod_small 1), Z.mod_small; lia).
  destruct (Z.ltb_spec max (n + 1)); [lia|]. done.
Qed.
Lemma round_body p i ch s n m u b l :
  here data i (b :: l) -> PARSING_HEADER s = false ->
  round (simple_settings c) max lenient allow data (mkExec p i ch s n m u) = switch (mkExec p i b s n m u).
Proof.
  intros (Hb & Hi & _)%here_cons Hs.
  unfold round. cbn [ex_p ex_state ex_set_ch ex_parser ex_nread ex_marks ex_user]. by rewrite reading_char_in, Hs, Hb by done.
Qed.

Lemma switch_step x y : case_of x = Break y -> switch x = Break y.
Proof. intros Hs. cbn [reexecute]. by rewrite Hs. Qed.
Lemma switch_again x x' y : case_of x = Reexecute x' -> case_of x' = Break y -> switch x = Break y.
Proof. intros Hs Hs'. cbn [reexecute]. by rewrite Hs, Hs'. Qed.

(** One byte of the headers. *)
Lemma gets_byte p i ch s n m u b l p' s' m' u' (Q : http_parser -> Prop) :
  here data i (b :: l) -> PARSING_HEADER s = true -> 0 <= n -> n + 1 <= max ->
  switch (mkExec p i b s (n + 1) m u) = Break (mkExec p' i b s' (n + 1) m' u') -> Q p' ->
  gets (mkExec p i ch s n m u) Q (i + 1) s' (n + 1) m' u'.
Proof.
  intros Hb Hs Hn Hm Hr HQ. exists p', b. split; [done|]. destruct (here_cons _ _ _ _ Hb) as (_ & Hi & _).
  apply (reaches_round _ (mkExec p' i b s' (n + 1) m' u')); [cbn; lia|done|].
  by rewrite (round_header _ _ _ _ _ _ _ b l).
Qed.

(** A round whose switch has moved [p] itself. *)
Lemma gets_jump p i ch s n m u b l p' i' ch' s' n' m' u' (Q : http_parser -> Prop) :
  here data i (b :: l) -> PARSING_HEADER s = true -> 0 <= n -> n + 1 <= max -> i <= i' ->
  switch (mkExec p i b s (n + 1) m u) = Break (mkExec p' i' ch' s' n' m' u') -> Q p' ->
  gets (mkExec p i ch s n m u) Q (i' + 1) s' n' m' u'.
Proof.
  intros Hb Hs Hn Hm Hi' Hr HQ. exists p', ch'. split; [done|]. destruct (here_cons _ _ _ _ Hb) as (_ & Hi & _).
  apply (reaches_round _ (mkExec p' i' ch' s' n' m' u')); [cbn; lia|cbn; lia|].
  by rewrite (round_header _ _ _ _ _ _ _ b l).
Qed.

(** Bytes that a loop inside the switch has passed are counted together. *)
Lemma count_header k x (K : exec U -> outcome U) : 0 <= ex_nread x -> 0 <= k -> ex_nread x + k <= max ->
  COUNT_HEADER_SIZE max k x K = K (ex_set_nread (ex_nread x + k) x).
Proof.
  intros Hn Hk Hm. pose proof header_limit. unfold COUNT_HEADER_SIZE.
  assert (u32 (ex_nread x + u32 k) = ex_nread x + k) as -> by (unfold u32; rewrite (Z.mod_small k), Z.mod_small; lia).
  cbn [ex_nread ex_set_nread]. destruct (Z.ltb_spec max (ex_nread x + k)); [lia|done].
Qed.

(** *** The callbacks *)

Definition notify_user (n : notify_cb) (p : http_parser) (u : U) : U :=
  match n with N_message_begin => cb_begin c u | N_message_complete => cb_complete c (hp_upgrade p) u | _ => u end.
Definition data_user (d : data_cb) (b : bytes) (u : U) : U :=
  match d with
  | D_url => cb_url c b u | D_header_field => cb_field c b u | D_header_value => cb_value c b u
  | D_body => cb_body c b u | D_status => u
  end.

Lemma notify_simple n ER x k : n = N_message_begin \/ n = N_message_complete -> hp_http_errno (ex_parser x) = HPE_OK ->
  CALLBACK_NOTIFY_ (simple_settings c) n ER x k =
  k (ex_set_user (notify_user n (ex_parser x) (ex_user x)) (on_parser (hp_set_state (ex_state x)) x)).
Proof.
  intros Hn He. unfold CALLBACK_NOTIFY_, after_callback, ex_errno. rewrite He, decide_True by done.
  destruct x as [p i ch s nr m u]. destruct Hn as [-> | ->]; cbn in *; by rewrite He, decide_True.
Qed.

Lemma data_simple d extra ER x k v : d <> D_status -> hp_http_errno (ex_parser x) = HPE_OK -> get_mark d (ex_marks x) = Some v ->
  0 <= v -> v <= ex_p x + extra -> ex_p x + extra <= len data ->
  CALLBACK_DATA_ (simple_settings c) data d extra ER x k =
  k (ex_set_marks (set_mark d None (ex_marks x))
      (ex_set_user (data_user d (slice data v (ex_p x + extra)) (ex_user x)) (on_parser (hp_set_state (ex_state x)) x))).
Proof.
  intros Hd He Hv H0 Hvp Hp. unfold CALLBACK_DATA_, after_callback, ex_errno. rewrite He, decide_True, Hv by done.
  destruct x as [p i ch s nr m u]. destruct d; try done; cbn in *; rewrite reading_in by done; by rewrite He, decide_True.
Qed.

(** *** The method *)

(** What is parsed: a request with its method, or a response with its status code (whose parser has the method of
    [http_parser_init]). *)
Inductive subject := Request (v : http_method) | Response (code : Z).

Definition about (s : subject) (p : http_parser) : Prop :=
  match s with
  | Request v => hp_type p = HTTP_REQUEST /\ hp_method p = v
  | Response code => hp_type p = HTTP_RESPONSE /\ hp_status_code p = code /\ hp_method p = HTTP_DELETE
  end.

Record parsing (s : subject) (te : bool) (flags cl : Z) (p : http_parser) : Prop := {
  pa_about : about s p;
  pa_errno : hp_http_errno p = HPE_OK;
  pa_te : hp_uses_transfer_encoding p = te;
  pa_flags : hp_flags p = flags;
  pa_cl : hp_content_length p = cl;
  }.

Lemma pa_method v te flags cl p : parsing (Request v) te flags cl p -> hp_method p = v.
Proof. by intros [[] ]. Qed.

Lemma first_method_alpha ch v : first_method ch = Some v -> is_crlf ch = false /\ IS_ALPHA ch = true.
Proof.
  unfold first_method. intros Hm. assert (Some v <> None) as Hn by done.
  repeat match type of Hm with
  | (if ch =? ?a then _ else _) = _ => destruct (Z.eqb_spec ch a) as [->|_]; [by vm_compute|]
  end. done.
Qed.

Lemma gets_start p i ch n u v b l :
  here data i (b :: l) -> 0 <= n -> n + 1 <= max -> hp_type p = HTTP_REQUEST -> hp_http_errno p = HPE_OK -> first_method b = Some v ->
  gets (mkExec p i ch s_start_req n no_marks u) (fun p => parsing (Request v) false 0 ULLONG_MAX p /\ hp_index p = 1)
    (i + 1) s_req_method (n + 1) no_marks (cb_begin c u).
Proof.
  intros Hb Hn Hm Ht He Hf. destruct (first_method_alpha _ _ Hf) as [Hc Ha].
  eapply gets_byte; [exact Hb|done|done|done| |].
  - apply switch_step. unfold HttpExec.step. exec_cbn. unfold do_start_req. exec_cbn.
    rewrite Hc, Ha, Hf. cbn [negb]. unfold CALLBACK_NOTIFY. rewrite notify_simple by auto. exec_cbn. reflexivity.
  - by repeat split.
Qed.

Definition method_char (ch : Z) : bool := (("A"%chr <=? ch) && (ch <=? "Z"%chr)) || (ch =? "-"%chr).

(** The guesses of the method along a word. *)
Fixpoint method_walk (v : http_method) (i : Z) (l : bytes) : option http_method :=
  match l with
  | [] => Some v
  | ch :: l' =>
      if negb (method_char ch) then None
      else if ch =? matcher_at v i then method_walk v (i + 1) l'
      else match method_switch v i ch with Some v' => method_walk v' (i + 1) l' | None => None end
  end.

Definition walk_ok (v : http_method) : bool :=
  match method_string v with
  | b :: l =>
      match first_method b with
      | Some v0 => match method_walk v0 1 l with Some v' => method_num v' =? method_num v | None => false end
      | None => false
      end
  | [] => false
  end && (matcher_at v (len (method_string v)) =? 0) && (len (method_string v) <=? 20).

Lemma walks_ok v : walk_ok v = true.
Proof. destruct v; vm_compute; reflexivity. Qed.

Lemma method_num_inj v v' : method_num v = method_num v' -> v = v'.
Proof. destruct v, v'; done. Qed.

(** The guesses and their corrections lead to every method. *)
Lemma methods_walk v : exists b l v0, method_string v = b :: l /\ first_method b = Some v0 /\
  method_walk v0 1 l = Some v /\ matcher_at v (len (b :: l)) = 0 /\ len (b :: l) <= 20.
Proof.
  pose proof (walks_ok v) as H. unfold walk_ok in H. apply andb_true_iff in H as [[H1 H2]%andb_true_iff H3].
  destruct (method_string v) as [|b l] eqn:Es; [done|]. destruct (first_method b) as [v0|] eqn:Ef; [|done].
  destruct (method_walk v0 1 l) as [v'|] eqn:Ew; [|done]. apply Z.eqb_eq, method_num_inj in H1. subst v'.
  apply Z.eqb_eq in H2. apply Z.leb_le in H3. by exists b, l, v0.
Qed.

Lemma gets_method l : forall p i ch n m u v k v' rest,
  here data i (l ++ rest) -> 0 <= n -> n + len l <= max -> parsing (Request v) false 0 ULLONG_MAX p -> hp_index p = k -> 0 <= k -> k + len l < 32 ->
  method_walk v k l = Some v' ->
  gets (mkExec p i ch s_req_method n m u) (fun p => parsing (Request v') false 0 ULLONG_MAX p /\ hp_index p = k + len l)
    (i + len l) s_req_method (n + len l) m u.
Proof.
  induction l as [|b l IH]; intros p i ch n m u v k v' rest Hb Hn Hm Hp Hi Hk Hk' Hw.
  - injection Hw as <-. change (len (@nil Z)) with 0. rewrite !Z.add_0_r. by apply gets_refl.
  - rewrite len_cons in *. pose proof (len_nonneg l). cbn [method_walk] in Hw. cbn [app] in Hb.
    destruct (method_char b) eqn:Hc; [|done]. cbn [negb] in Hw.
    assert ((b =? 0) = false /\ (b =? " "%chr) = false) as [Hb0 Hb1] by (unfold method_char in Hc; lia).
    assert (exists v1, (if b =? matcher_at v k then Some v else method_switch v k b) = Some v1 /\ method_walk v1 (k + 1) l = Some v')
      as (v1 & Hv1 & Hw1).
    { destruct (b =? matcher_at v k); [by exists v|]. destruct (method_switch v k b) as [v1|]; [by exists v1|done]. }
    eapply (gets_trans _ (fun p => parsing (Request v1) false 0 ULLONG_MAX p /\ hp_index p = k + 1) (i + 1) s_req_method (n + 1) m u).
    + eapply gets_byte; [exact Hb|done|done|lia| |].
      * apply switch_step. unfold HttpExec.step. exec_cbn. unfold do_req_method. exec_cbn.
        rewrite Hb0, Hb1, (pa_method _ _ _ _ _ Hp), Hi. cbn [andb]. fold (method_char b). rewrite Hc.
        instantiate (1 := hp_set_index (k + 1) (hp_set_method v1 p)).
        destruct (b =? matcher_at v k); [injection Hv1 as <-|rewrite Hv1]; exec_cbn; repeat f_equal;
          destruct p, Hp as [[]]; cbn in *; by subst.
      * destruct p, Hp as [[]]. cbn in *. subst. split; [by split|]. cbn. rewrite wrap_small; lia.
    + intros p1 ch1 [Hp1 Hi1]. destruct (here_cons _ _ _ _ Hb) as (_ & _ & Hb').
      replace (i + (len l + 1)) with (i + 1 + len l) by lia. replace (n + (len l + 1)) with (n + 1 + len l) by lia.
      replace (k + (len l + 1)) with (k + 1 + len l) by lia.
      by apply (IH p1 (i + 1) ch1 (n + 1) m u v1 (k + 1) v' rest); try done; lia.
Qed.

(** The whole word and the space after it. *)
Lemma gets_word p i ch n u v rest :
  here data i (method_string v ++ " "%chr :: rest) -> 0 <= n -> n + len (method_string v) + 1 <= max ->
  hp_type p = HTTP_REQUEST -> hp_http_errno p = HPE_OK ->
  gets (mkExec p i ch s_start_req n no_marks u) (parsing (Request v) false 0 ULLONG_MAX) (i + len (method_string v) + 1)
    s_req_spaces_before_url (n + len (method_string v) + 1) no_marks (cb_begin c u).
Proof.
  intros Hb Hn Hm Ht He. destruct (methods_walk v) as (b & l & v0 & Hs & Hf & Hw & Hend & Hshort).
  rewrite Hs, len_cons in *. pose proof (len_nonneg l). cbn [app] in Hb.
  eapply gets_trans; [eapply gets_start; [exact Hb|done|lia|done..|exact Hf]|]. intros p1 ch1 [Hp1 Hi1].
  destruct (here_cons _ _ _ _ Hb) as (_ & _ & Hb1).
  eapply gets_trans; [eapply (gets_method l p1 _ ch1 _ _ _ _ 1); [exact Hb1|lia|lia|exact Hp1|done|lia|lia|exact Hw]|].
  intros p2 ch2 [Hp2 Hi2]. apply here_app in Hb1 as [_ Hb2].
  replace (i + (len l + 1) + 1) with (i + 1 + len l + 1) by lia. replace (n + (len l + 1) + 1) with (n + 1 + len l + 1) by lia.
  eapply gets_byte; [exact Hb2|done|lia|lia| |].
  - apply switch_step. unfold HttpExec.step. exec_cbn. unfold do_req_method. exec_cbn.
    rewrite (pa_method _ _ _ _ _ Hp2), Hi2. replace (1 + len l) with (len l + 1) by lia. rewrite Hend. cbn [andb Z.eqb Pos.eqb].
    exec_cbn. reflexivity.
  - destruct p2, Hp2 as [[]]. cbn in *. by subst.
Qed.

(** *** The URL *)

Definition url_mid (s : state) : bool :=
  match s with s_req_schema | s_req_schema_slash | s_req_schema_slash_slash | s_req_server_start => true | _ => url_end s end.

Lemma url_walk_dead l : url_walk s_dead l = s_dead.
Proof.
  induction l as [|b l IH]; [done|]. cbn. assert (parse_url_char s_dead b = s_dead) as -> by (unfold parse_url_char; repeat case_match; done).
  exact IH.
Qed.

Lemma parse_url_sane s ch : parse_url_char s ch <> s_dead -> (ch =? " "%chr) = false /\ is_crlf ch = false.
Proof.
  unfold parse_url_char, is_crlf. destruct (ch =? " "%chr), (ch =? CR), (ch =? LF); cbn [orb]; try done.
Qed.

Lemma parse_url_mid s ch : parse_url_char s ch <> s_dead -> url_mid (parse_url_char s ch) = true.
Proof.
  unfold parse_url_char, url_server. destruct (_ || _); [done|]. destruct (_ || _); [done|].
  destruct s; try done; repeat case_match; done.
Qed.

Lemma url_char_step x : parse_url_char (ex_state x) (ex_ch x) <> s_dead -> url_char (U := U) x = Break (UPDATE_STATE (parse_url_char (ex_state x) (ex_ch x)) x).
Proof. intros Hd. unfold url_char. cbn [UPDATE_STATE ex_state]. by rewrite decide_False. Qed.

Lemma url_mid_step x : url_mid (ex_state x) = true -> parse_url_char (ex_state x) (ex_ch x) <> s_dead ->
  case_of x = Break (UPDATE_STATE (parse_url_char (ex_state x) (ex_ch x)) x).
Proof.
  intros Hs Hd. pose proof (parse_url_sane _ _ Hd) as [H1 H2]. rewrite <- url_char_step by done.
  unfold HttpExec.step, do_req_schema, do_req_url. rewrite H1, H2. by destruct (ex_state x).
Qed.

Lemma url_mid_header s : url_mid s = true -> PARSING_HEADER s = true.
Proof. by destruct s. Qed.

Lemma gets_url_chars l : forall p i ch s n m u rest,
  here data i (l ++ rest) -> 0 <= n -> n + len l <= max -> url_mid s = true -> url_walk s l <> s_dead ->
  gets (mkExec p i ch s n m u) (eq p) (i + len l) (url_walk s l) (n + len l) m u.
Proof.
  induction l as [|b l IH]; intros p i ch s n m u rest Hb Hn Hm Hs Hw.
  - change (len (@nil Z)) with 0. rewrite !Z.add_0_r. by apply gets_refl.
  - rewrite len_cons in *. pose proof (len_nonneg l). cbn [app] in Hb. cbn [url_walk fold_left] in Hw.
    change (fold_left parse_url_char l ?a) with (url_walk a l) in Hw.
    assert (parse_url_char s b <> s_dead) as Hd by (intros E; by rewrite E, url_walk_dead in Hw).
    eapply (gets_trans _ (eq p) (i + 1) (parse_url_char s b) (n + 1) m u).
    + eapply gets_byte; [exact Hb|by apply url_mid_header|done|lia| |reflexivity].
      apply switch_step. by rewrite url_mid_step.
    + intros p1 ch1 <-. destruct (here_cons _ _ _ _ Hb) as (_ & _ & Hb').
      replace (i + (len l + 1)) with (i + 1 + len l) by lia. replace (n + (len l + 1)) with (n + 1 + len l) by lia.
      apply (IH p (i + 1) ch1 _ (n + 1) m u rest); try done; try lia. by apply parse_url_mid.
Qed.

Lemma gets_url t p i ch n u v rest :
  here data i (t ++ " "%chr :: rest) -> 0 <= n -> n + len t + 1 <= max -> parsing (Request v) false 0 ULLONG_MAX p -> v <> HTTP_CONNECT ->
  url_end (url_walk s_req_spaces_before_url t) = true ->
  gets (mkExec p i ch s_req_spaces_before_url n no_marks u) (parsing (Request v) false 0 ULLONG_MAX) (i + len t + 1)
    s_req_http_start (n + len t + 1) no_marks (cb_url c t u).
Proof.
  intros Hb Hn Hm Hp Hv Hend. destruct t as [|b l]; [done|]. pose proof (here_app _ _ _ _ Hb) as [Hslice _].
  rewrite len_cons in *. pose proof (len_nonneg l). cbn [app] in Hb. cbn [url_walk fold_left] in Hend.
  change (fold_left parse_url_char l ?a) with (url_walk a l) in Hend. set (s := parse_url_char _ b) in *.
  assert (url_walk s l <> s_dead) as Hw by (by intros E; rewrite E in Hend).
  assert (s <> s_dead) as Hd by (intros E; by rewrite E, url_walk_dead in Hw).
  set (m1 := set_mark D_url (Some i) no_marks).
  eapply (gets_trans _ (eq p) (i + 1) s (n + 1) m1 u).
  { eapply gets_byte; [exact Hb|done|done|lia| |reflexivity]. apply switch_step.
    unfold HttpExec.step. exec_cbn. unfold do_req_spaces_before_url. exec_cbn.
    rewrite (proj1 (parse_url_sane _ _ Hd)). unfold MARK. exec_cbn.
    rewrite decide_False by (by rewrite (pa_method _ _ _ _ _ Hp)). by rewrite url_char_step. }
  intros p1 ch1 <-. destruct (here_cons _ _ _ _ Hb) as (_ & _ & Hb1).
  eapply gets_trans; [eapply (gets_url_chars l p); [exact Hb1|lia|lia|by apply parse_url_mid|exact Hw]|].
  intros p1 ch2 <-. apply here_app in Hb1 as [_ Hb2].
  replace (i + (len l + 1) + 1) with (i + 1 + len l + 1) by lia. replace (n + (len l + 1) + 1) with (n + 1 + len l + 1) by lia.
  assert (PARSING_HEADER (url_walk s l) = true) as Hph by (by destruct (url_walk s l)).
  eapply gets_byte; [exact Hb2|done|lia|lia| |].
  - apply switch_step. assert (case_of (mkExec p (i + 1 + len l) " "%chr (url_walk s l) (n + 1 + len l + 1) m1 u) =
      do_req_url (simple_settings c) data (mkExec p (i + 1 + len l) " "%chr (url_walk s l) (n + 1 + len l + 1) m1 u)) as ->.
    { unfold HttpExec.step. exec_cbn. by destruct (url_walk s l). }
    unfold do_req_url. exec_cbn. cbn [Z.eqb Pos.eqb]. unfold CALLBACK_DATA.
    destruct (here_cons _ _ _ _ Hb2) as (_ & Hend2 & _). pose proof (proj1 Hslice).
    rewrite (data_simple D_url _ _ _ _ i) by (done || apply Hp || (cbn; lia)). exec_cbn. rewrite Z.add_0_r.
    replace (i + 1 + len l) with (i + len (b :: l)) by (rewrite len_cons; lia).
    rewrite (here_slice _ _ _ Hslice). reflexivity.
  - destruct p, Hp as [[]]. cbn in *. by subst.
Qed.

(** *** The version *)

Lemma gets_then p i ch s n m u b l p' s' m' u' Q i2 s2 n2 m2 u2 :
  here data i (b :: l) -> PARSING_HEADER s = true -> 0 <= n -> n + 1 <= max ->
  switch (mkExec p i b s (n + 1) m u) = Break (mkExec p' i b s' (n + 1) m' u') ->
  (forall ch, here data (i + 1) l -> gets (mkExec p' (i + 1) ch s' (n + 1) m' u') Q i2 s2 n2 m2 u2) ->
  gets (mkExec p i ch s n m u) Q i2 s2 n2 m2 u2.
Proof.
  intros Hb Hs Hn Hm Hr Hk. eapply (gets_trans _ (eq p')); [by eapply gets_byte|]. intros p1 ch1 <-.
  apply Hk. by destruct (here_cons _ _ _ _ Hb) as (_ & _ & ?).
Qed.

Lemma digit_num d : 0 <= d <= 9 -> IS_NUM (48 + d) = true /\ 48 + d - "0"%chr = d.
Proof. intros Hd. unfold IS_NUM. split; [|lia]. apply andb_true_iff. split; apply Z.leb_le; lia. Qed.

Definition version_is (major minor : Z) p : Prop := hp_http_major p = major /\ hp_http_minor p = minor.

(** One byte that the switch takes by computation. *)
Ltac byte := eapply gets_then; [eassumption|reflexivity|lia|lia|reflexivity|intros ? ?].

Lemma gets_version p i ch n u v major minor rest :
  here data i (bs "HTTP/" ++ [48 + major] ++ bs "." ++ [48 + minor] ++ crlf ++ rest) -> 0 <= n -> n + 10 <= max ->
  parsing (Request v) false 0 ULLONG_MAX p -> 0 <= major <= 9 -> 0 <= minor <= 9 ->
  gets (mkExec p i ch s_req_http_start n no_marks u) (fun p => parsing (Request v) false 0 ULLONG_MAX p /\ version_is major minor p)
    (i + 10) s_header_field_start (n + 10) no_marks u.
Proof.
  intros Hb Hn Hm Hp Hma Hmi. destruct (digit_num _ Hma) as [Hd1 Hv1], (digit_num _ Hmi) as [Hd2 Hv2].
  unfold crlf in Hb. cbn [bs app] in Hb.
  do 5 byte.
  eapply gets_then; [eassumption|reflexivity|lia|lia| |intros ? ?].
  { apply switch_step. unfold HttpExec.step. exec_cbn. unfold do_http_digit. exec_cbn. rewrite Hd1, Hv1. reflexivity. }
  byte.
  eapply gets_then; [eassumption|reflexivity|lia|lia| |intros ? ?].
  { apply switch_step. unfold HttpExec.step. exec_cbn. unfold do_http_digit. exec_cbn. rewrite Hd2, Hv2. reflexivity. }
  do 2 byte. replace (i + 10) with (i + 1 + 1 + 1 + 1 + 1 + 1 + 1 + 1 + 1 + 1) by lia.
  replace (n + 10) with (n + 1 + 1 + 1 + 1 + 1 + 1 + 1 + 1 + 1 + 1) by lia. apply gets_refl.
  destruct p, Hp as [[]]. cbn in *. subst. split; [by split|]. unfold version_is. cbn. by rewrite !wrap_small by lia.
Qed.
End Runs.
