(* ===== verification/HttpHead.v ===== *)
(** * Headers in http_parser_execute

    The rest of the head of a request after its request line: [gets_head] says where the loop is
    at the end of the head, and what the headers have set. *)

From S2P Require Import Prelude HttpTypes HttpUrl HttpExec HttpWire HttpToken HttpRun.

Section Headers.
Context {U : Type} (c : callbacks U) (max : Z) {Hmax : Header_limit max} (lenient allow : bool) (data : bytes).
Implicit Types (x y : exec U) (p : http_parser) (m : marks) (u : U).

Abbreviation gets := (HttpRun.gets c max lenient allow data).
Abbreviation switch := (reexecute (simple_settings c) max lenient allow data 4).
Abbreviation case_of := (HttpExec.step (simple_settings c) max lenient allow data).

Abbreviation gets_then := (HttpRun.gets_then c max lenient allow data).
Abbreviation gets_jump := (HttpRun.gets_jump c max lenient allow data).
Abbreviation gets_trans := (HttpRun.gets_trans c max lenient allow data).

(** What a request has fixed so far. *)
Record stage (v : subject) (major minor : Z) (te : bool) (flags cl : Z) p : Prop := {
  st_parsing : parsing v te flags cl p;
  st_version : version_is major minor p;
  }.

(** A header may start: after the request line, or after another header's line. *)
Definition at_header (S : http_parser -> Prop) (s : state) p : Prop :=
  (s = s_header_field_start /\ S p) \/ (s = s_header_value_lws /\ S (finish_header p)).

Lemma token_char b : TOKEN b <> 0 -> (b =? CR) = false /\ (b =? LF) = false /\ (b =? " "%chr) = false /\ (b =? TAB) = false.
Proof.
  intros Hb. split_and!; apply Z.eqb_neq; intros ->; by apply Hb.
Qed.

Lemma first_field t :
  (if t =? "c"%chr then h_C
   else if t =? "p"%chr then h_matching_proxy_connection
   else if t =? "t"%chr then h_matching_transfer_encoding
   else if t =? "u"%chr then h_matching_upgrade else h_general) = field_of [t].
Proof.
  unfold field_of. rewrite !bool_decide_false by (intros E; repeat destruct E as [E|E]; done).
  cbn [is_prefix bs CONNECTION CONTENT_LENGTH PROXY_CONNECTION TRANSFER_ENCODING UPGRADE].
  destruct (Z.eqb_spec t "c"%chr) as [->|]; [done|]. destruct (Z.eqb_spec t "p"%chr) as [->|]; [done|].
  destruct (Z.eqb_spec t "t"%chr) as [->|]; [done|]. destruct (Z.eqb_spec t "u"%chr) as [->|]; [done|].
  unfold CONNECTION, CONTENT_LENGTH, PROXY_CONNECTION, TRANSFER_ENCODING, UPGRADE. cbn.
  repeat match goal with |- context [t =? ?k] => destruct (Z.eqb_spec t k); [done|] end. done.
Qed.

Lemma stage_index v ma mi te fl cl k p : stage v ma mi te fl cl p -> stage v ma mi te fl cl (hp_set_index k p).
Proof. intros [[] []]. by destruct p. Qed.
Lemma stage_header_state v ma mi te fl cl h p : stage v ma mi te fl cl p -> stage v ma mi te fl cl (hp_set_header_state h p).
Proof. intros [[] []]. by destruct p. Qed.
Lemma stage_state v ma mi te fl cl st p : stage v ma mi te fl cl p -> stage v ma mi te fl cl (hp_set_state st p).
Proof. intros [[] []]. by destruct p. Qed.
Lemma stage_upgrade v ma mi te fl cl b p : stage v ma mi te fl cl p -> stage v ma mi te fl cl (hp_set_upgrade b p).
Proof. intros [[] []]. by destruct p. Qed.
Lemma stage_nread v ma mi te fl cl k p : stage v ma mi te fl cl p -> stage v ma mi te fl cl (hp_set_nread k p).
Proof. intros [[] []]. by destruct p. Qed.
Lemma stage_length v ma mi te fl cl z p : stage v ma mi te fl cl p -> 0 <= z < 2 ^ 64 -> stage v ma mi te fl z (hp_set_content_length z p).
Proof. intros [[] []] Hz. destruct p. cbn in *. subst. split; [split; cbn; try done|done]. by apply wrap_small. Qed.
Lemma stage_set_flag v ma mi te fl cl f p : wrap 8 (Z.lor fl f) = Z.lor fl f -> stage v ma mi te fl cl p -> stage v ma mi te (Z.lor fl f) cl (set_flag f p).
Proof. intros Hf [[] []]. destruct p. cbn in *. subst. by split; [split|]. Qed.
Lemma stage_update v ma mi te fl cl r p : stage v ma mi te fl cl p -> stage v ma mi (te || r.2) fl cl (field_update p r).
Proof. destruct r as [[h idx] te']. cbn. intros [[] []]. destruct p. cbn in *. subst. by repeat split. Qed.

(** *** Names *)

(** Past the end of a name in the [h_general] state. *)
Lemma count_while_app f l k : forallb f l = true -> count_while f (l ++ k) = len l + count_while f k.
Proof.
  induction l as [|b l IH]; [done|]. cbn. intros [-> Hl]%andb_true_iff. rewrite IH, len_cons by done. lia.
Qed.

Lemma count_while_take f l b k n : forallb f l = true -> f b = false -> len l <= n ->
  count_while f (take (Z.to_nat n) (l ++ b :: k)) = len l.
Proof.
  intros Hl Hb Hn. rewrite take_app, count_while_app.
  2: { rewrite take_ge by (unfold len in Hn; lia). done. }
  rewrite take_ge by (unfold len in Hn; lia). destruct (_ - _)%nat; cbn; rewrite ?Hb; lia.
Qed.

Definition token_ok (ch : Z) : bool := negb (TOKEN ch =? 0).

Lemma field_next_stage v ma mi te fl cl s ch p : s <> [] -> token_ok ch = true -> field_ok s p -> hp_header_state p <> h_general ->
  stage v ma mi te fl cl p ->
  exists p', header_field_char ch (TOKEN ch) p = Some p' /\ field_ok (s ++ [TOKEN ch]) p' /\
    stage v ma mi (te || bool_decide (s ++ [TOKEN ch] = TRANSFER_ENCODING)) fl cl p'.
Proof.
  intros Hs Ht Hf Hg Hst. unfold token_ok in Ht. apply negb_true_iff, Z.eqb_neq in Ht.
  destruct (field_next s ch p) as (r & Hr & Hf' & Hte); try done.
  exists (field_update p r). split_and!; try done. rewrite <- Hte. by apply stage_update.
Qed.

(** A name that goes on after [Transfer-Encoding] is another one. *)
Definition encoding_exact (s : bytes) : Prop := is_prefix TRANSFER_ENCODING s = true -> s = TRANSFER_ENCODING.

Lemma encoding_before s b l : encoding_exact (s ++ b :: l) -> s <> TRANSFER_ENCODING.
Proof.
  intros He ->. assert (TRANSFER_ENCODING ++ b :: l = TRANSFER_ENCODING) as H by (by apply He, is_prefix_self).
  apply (f_equal length) in H. rewrite length_app in H. cbn in H. lia.
Qed.

(** The scan of the [h_general] state stops at the end of the name. *)
Lemma count_here f l b rest i pe : here data i (l ++ b :: rest) -> forallb f l = true -> f b = false -> i + len l <= pe ->
  count_while f (slice data i pe) = len l.
Proof.
  intros (Hi & post & Hd) Hl Hb Hpe. unfold slice. rewrite Hd, <- app_assoc. cbn [app]. apply count_while_take; [done..|lia].
Qed.

Section Name.
Context (v : subject) (major minor : Z) (te : bool) (flags cl : Z).
Abbreviation good := (stage v major minor te flags cl).
(** After the characters [s] of the name. *)
Abbreviation good_at s := (stage v major minor (te || bool_decide (s = TRANSFER_ENCODING)) flags cl).
Abbreviation name_loop := (header_field_loop (simple_settings c) max data).
Abbreviation name_end := (do_header_field_end (simple_settings c) max data).

Lemma loop_byte fuel start p i ch s n m u b l : here data i (b :: l) -> 0 <= max ->
  name_loop (S fuel) start (mkExec p i ch s n m u) =
  if TOKEN b =? 0 then name_end start (mkExec p i b s n m u) else
  match hp_header_state p with
  | h_general =>
      let pe := i + Z.min (len data - i) max in
      name_loop fuel start (mkExec p (i + count_while token_ok (slice data (i + 1) pe) + 1) b s n m u)
  | _ =>
      match header_field_char b (TOKEN b) p with
      | Some p' => name_loop fuel start (mkExec p' (i + 1) b s n m u)
      | None => Assert_failed
      end
  end.
Proof.
  intros (Hb & Hi & _)%here_cons Hmx. cbn [header_field_loop]. exec_cbn. unfold data_len.
  destruct (Z.eqb_spec i (len data)); [lia|]. rewrite reading_char_in, Hb by done. cbv zeta. exec_cbn.
  destruct (hp_header_state p); try done. by rewrite reading_in by lia.
Qed.

Lemma name_loops l : forall fuel start p i ch s n m u rest nm,
  here data i (l ++ ":"%chr :: rest) -> len l < Z.of_nat fuel -> len l <= max -> forallb token_ok l = true ->
  nm <> [] -> field_ok nm p -> encoding_exact (nm ++ lower l) -> good_at nm p ->
  exists p', name_loop fuel start (mkExec p i ch s n m u) = name_end start (mkExec p' (i + len l) ":"%chr s n m u) /\
    good_at (nm ++ lower l) p' /\ hp_header_state p' = field_of (nm ++ lower l).
Proof.
  induction l as [|b l IH]; intros fuel start p i ch s n m u rest nm Hb Hfuel Hmx Hl Hnm Hf Hte Hst; (destruct fuel as [|fuel]; [unfold len in Hfuel; lia|]).
  - cbn [app] in Hb. exists p. rewrite (loop_byte _ _ _ _ _ _ _ _ _ _ _ Hb) by (unfold len in *; lia). change (len (@nil Z)) with 0. rewrite Z.add_0_r.
    cbn [lower map]. rewrite app_nil_r. split; [done|]. split; [done|]. apply Hf.
  - rewrite len_cons in *. pose proof (len_nonneg l). cbn [app] in Hb. cbn [forallb] in Hl. apply andb_true_iff in Hl as [Ht Hl].
    rewrite (loop_byte _ _ _ _ _ _ _ _ _ _ _ Hb) by (unfold len in *; lia). cbn zeta.
    assert ((TOKEN b =? 0) = false) as -> by (by apply negb_true_iff).
    destruct (here_cons _ _ _ _ Hb) as (_ & Hi & Hb').
    change (lower (b :: l)) with (TOKEN b :: lower l) in *. rewrite (bool_decide_false (nm = _)) in Hst by (by eapply encoding_before).
    change (nm ++ TOKEN b :: lower l) with (nm ++ [TOKEN b] ++ lower l) in *. rewrite app_assoc in *. rewrite orb_false_r in Hst.
    destruct (decide (hp_header_state p = h_general)) as [Hg|Hg].
    + assert (known nm = false) as Hk by (apply field_general; [done|]; by rewrite <- (fo_state _ _ Hf)).
      assert (known ((nm ++ [TOKEN b]) ++ lower l) = false) as Hk' by (by apply known_app, known_app).
      rewrite Hg. cbn zeta. exists p. destruct (here_app _ _ _ _ Hb') as [_ Hb2]. destruct (here_cons _ _ _ _ Hb2) as (_ & Hi2 & _).
      rewrite (count_here _ l ":"%chr rest _ _ Hb') by (done || lia). destruct fuel as [|fuel]; [lia|]. exec_cbn.
      replace (i + len l + 1) with (i + 1 + len l) by lia. rewrite (loop_byte _ _ _ _ _ _ _ _ _ _ _ Hb2) by lia.
      replace (i + (len l + 1)) with (i + 1 + len l) by lia. split; [done|]. split.
      * rewrite bool_decide_false, orb_false_r; [done|]. intros E. by rewrite E in Hk'.
      * rewrite Hg. symmetry. by apply field_unknown.
    + destruct (field_next_stage v major minor te flags cl nm b p) as (p' & Hp' & Hf' & Hst'); try done.
      rewrite Hp'. destruct (IH fuel start p' (i + 1) b s n m u rest (nm ++ [TOKEN b])) as (p2 & Hp2 & Hst2 & Hh2); try done; try lia.
      { by destruct nm. }
      exists p2. rewrite Hp2. replace (i + (len l + 1)) with (i + 1 + len l) by lia. 
      split; [|done]. destruct (hp_header_state p); done.
Qed.

Lemma name_first_byte p s b i n u : at_header good s p -> token_ok b = true ->
  exists p1, good_at [TOKEN b] p1 /\ field_ok [TOKEN b] p1 /\
    switch (mkExec p i b s n no_marks u) = Break (mkExec p1 i b s_header_field n (set_mark D_header_field (Some i) no_marks) u).
Proof.
  intros Hs Ht. unfold token_ok in Ht. apply negb_true_iff, Z.eqb_neq in Ht. destruct (token_char b Ht) as (H1 & H2 & H3 & H4).
  rewrite bool_decide_false, orb_false_r by done.
  assert (forall p, good p -> case_of (mkExec p i b s_header_field_start n no_marks u) =
    Break (mkExec (hp_set_header_state (field_of [TOKEN b]) (hp_set_index 0 p)) i b s_header_field n
      (set_mark D_header_field (Some i) no_marks) u)) as Hstart.
  { intros q _. unfold HttpExec.step. exec_cbn. unfold do_header_field_start. exec_cbn. rewrite H1, H2.
    destruct (Z.eqb_spec (TOKEN b) 0); [done|]. by rewrite first_field. }
  assert (forall p, good p -> good (hp_set_header_state (field_of [TOKEN b]) (hp_set_index 0 p)) /\
    field_ok [TOKEN b] (hp_set_header_state (field_of [TOKEN b]) (hp_set_index 0 p))) as Hok.
  { intros q Hq. split; [by apply stage_header_state, stage_index|]. split; [done..|]. by destruct q. }
  destruct Hs as [[-> Hp]|[-> Hp]].
  - eexists. split; [|split]; [by apply Hok..|]. apply switch_step. by apply Hstart.
  - eexists. split; [|split]; [by apply Hok..|]. eapply switch_again; [|by apply Hstart].
    unfold HttpExec.step. exec_cbn. unfold do_header_value_lws. exec_cbn. by rewrite H3, H4.
Qed.

Lemma name_ends start p i n u i0 l (rest : bytes) : hp_http_errno p = HPE_OK -> here data i (":"%chr :: l) -> 0 <= n -> start <= i -> n + (i - start) <= max ->
  here data i0 rest -> i = i0 + len rest ->
  name_end start (mkExec p i ":"%chr s_header_field n (set_mark D_header_field (Some i0) no_marks) u) =
  Break (mkExec (hp_set_state s_header_value_discard_ws p) i ":"%chr s_header_value_discard_ws (n + (i - start)) no_marks
    (cb_field c rest u)).
Proof.
  intros Hp Hb Hn Hst Hm Hr Hi. unfold do_header_field_end. exec_cbn. unfold data_len.
  destruct (here_cons _ _ _ _ Hb) as (_ & Hlt & _). destruct (Z.eqb_spec i (len data)); [lia|].
  rewrite count_header by (exec_cbn; lia || done). exec_cbn. cbn [Z.eqb Pos.eqb]. unfold CALLBACK_DATA.
  pose proof (proj1 Hr). pose proof (len_nonneg rest).
  rewrite (data_simple c data D_header_field _ _ _ _ i0) by (done || (cbn; lia)). exec_cbn.
  rewrite Z.add_0_r, Hi, (here_slice _ _ _ Hr). done.
Qed.


Lemma gets_name p s i ch n u name rest : at_header good s p ->
  here data i (name ++ bs ": " ++ rest) -> 0 <= n -> n + len name + 2 <= max -> name <> [] -> forallb token_ok name = true ->
  encoding_exact (lower name) ->
  gets (mkExec p i ch s n no_marks u) (fun p => good_at (lower name) p /\ hp_header_state p = field_of (lower name))
    (i + len name + 2) s_header_value_discard_ws (n + len name + 2) no_marks (cb_field c name u).
Proof.
  intros Hs Hb Hn Hm Hne Hname Hte. destruct name as [|b l]; [done|]. rewrite len_cons in *. pose proof (len_nonneg l).
  cbn [forallb] in Hname. apply andb_true_iff in Hname as [Ht Hl].
  destruct (here_app _ _ _ _ Hb) as [Hname _].
  destruct (name_first_byte p s b i (n + 1) u Hs Ht) as (p1 & Hp1 & Hf1 & Hr1). cbn [app] in Hb.
  eapply gets_then; [exact Hb| |lia|lia|exact Hr1|intros ch1 Hb1].
  { by destruct Hs as [[-> _]|[-> _]]. }
  destruct (here_app _ _ _ _ Hb1) as [_ Hb2]. cbn [bs app] in Hb2.
  destruct (here_cons _ _ _ _ Hb2) as (_ & Hi2 & Hb3).
  assert (exists b2 l2, l ++ bs ": " ++ rest = b2 :: l2) as (b2 & l2 & E) by (destruct l; eauto).
  destruct (name_loops l (Z.to_nat (len data - (i + 1))) (i + 1) p1 (i + 1) b2 s_header_field (n + 1 + 1)
    (set_mark D_header_field (Some i) no_marks) u (" "%chr :: rest) [TOKEN b]) as (p2 & Hp2 & Hst2 & Hh2); try done; try lia.
  eapply (gets_trans _ (fun p => good_at (lower (b :: l)) p /\ hp_header_state p = field_of (lower (b :: l)))).
  - eapply gets_jump with (i' := i + 1 + len l); [rewrite E in Hb1; exact Hb1|done|lia|lia|lia| |].
    + apply switch_step. unfold HttpExec.step. exec_cbn. unfold do_header_field. exec_cbn. unfold data_len. refine (eq_trans Hp2 _).
      rewrite (name_ends _ _ _ _ _ i (" "%chr :: rest) (b :: l));
        [reflexivity|by apply Hst2|done|lia|lia|lia|done|rewrite len_cons; lia].
    + split; [by apply stage_state|]. by destruct p2.
  - intros p3 ch3 [Hp3 Hh3]. eapply gets_then; [exact Hb3|done|lia|lia|reflexivity|intros ch4 Hb4].
    replace (i + (len l + 1) + 2) with (i + 1 + len l + 1 + 1) by lia.
    replace (n + (len l + 1) + 2) with (n + 1 + 1 + (i + 1 + len l - (i + 1)) + 1) by lia. by apply gets_refl.
Qed.
End Name.

(** *** Values *)

Abbreviation value_loop := (header_value_loop (simple_settings c) max lenient data).

(** The loop passes the characters [l] and is at the CR that follows them. *)
Definition value_loops (h : header_states) p (l : bytes) (h' : header_states) p' : Prop :=
  forall fuel start i ch n m u rest, here data i (l ++ CR :: rest) -> len l < Z.of_nat fuel -> len l < max ->
  exists fuel' ch', (0 < fuel')%nat /\
    value_loop fuel start h (mkExec p i ch s_header_value n m u) =
    value_loop fuel' start h' (mkExec p' (i + len l) ch' s_header_value n m u).

Lemma value_loops_nil h p : value_loops h p [] h p.
Proof.
  intros fuel start i ch n m u rest Hb Hf Hm. exists fuel, ch. unfold len in Hf. split; [lia|].
  change (len (@nil Z)) with 0. by rewrite Z.add_0_r.
Qed.

Definition value_case (h : header_states) : bool :=
  match h with
  | h_matching_connection_keep_alive | h_matching_connection_close | h_matching_connection_upgrade
  | h_matching_connection_token_start | h_matching_connection_token
  | h_connection_keep_alive | h_connection_close | h_connection_upgrade
  | h_matching_transfer_encoding_chunked => true
  | _ => false
  end.

Lemma value_char_sane b : value_char_ok b = true -> (b =? CR) = false /\ (b =? LF) = false /\ IS_HEADER_CHAR b = true.
Proof.
  unfold value_char_ok, is_crlf. intros [[-> H]%andb_true_iff _]%andb_true_iff. destruct (b =? CR), (b =? LF); done.
Qed.

Ltac turn := intros (Hb & Hi & _)%here_cons Hok; destruct (value_char_sane _ Hok) as (H1 & H2 & H3);
  cbn [header_value_loop]; exec_cbn; unfold data_len;
  match goal with |- context [?i =? len data] => destruct (Z.eqb_spec i (len data)); [lia|] end;
  rewrite reading_char_in by done; cbv zeta; exec_cbn; rewrite Hb, H1, H2, H3, andb_false_r.

(** One turn of the loop, for each kind of value. *)
Lemma turn_word fuel start h p i ch n m u b l : here data i (b :: l) -> value_char_ok b = true -> value_case h = true ->
  value_loop (S fuel) start h (mkExec p i ch s_header_value n m u) =
  let '(h', p') := header_value_char b (LOWER b) h p in
  value_loop fuel start h' (mkExec p' (i + 1) b s_header_value n m u).
Proof. turn. by destruct h. Qed.

Lemma turn_digit fuel start p i ch n m u b l t : here data i (b :: l) -> value_char_ok b = true -> IS_NUM b = true ->
  content_length_digit b (hp_content_length p) = Some t ->
  value_loop (S fuel) start h_content_length_num (mkExec p i ch s_header_value n m u) =
  value_loop fuel start h_content_length_num (mkExec (hp_set_content_length t p) (i + 1) b s_header_value n m u).
Proof.
  turn. intros Hn Ht. assert ((b =? " "%chr) = false) as -> by (unfold IS_NUM in Hn; lia).
  by rewrite Hn, Ht.
Qed.

Lemma scan_here l rest : forallb value_char_ok l = true ->
  scan_general lenient (l ++ CR :: rest) = (len l, Scan_crlf).
Proof.
  induction l as [|b l IH]; [done|]. cbn [forallb app scan_general]. intros [Hb Hl]%andb_true_iff.
  destruct (value_char_sane b Hb) as (H1 & H2 & H3). unfold is_crlf. rewrite H1, H2, H3, andb_false_r, IH, len_cons by done. done.
Qed.

Lemma slice_long l b rest i n : here data i (l ++ b :: rest) -> len l < n ->
  exists k, slice data i (i + n) = l ++ b :: k.
Proof.
  intros (Hi & post & Hd) Hn. unfold slice. rewrite Hd, <- app_assoc. cbn [app]. unfold len in Hn.
  rewrite take_app_ge by lia. destruct (Z.to_nat (i + n - i) - length l)%nat as [|k] eqn:E; [lia|].
  by exists (take k (rest ++ post)).
Qed.

Lemma turn_general fuel start p i ch n m u b l rest : here data i ((b :: l) ++ CR :: rest) -> forallb value_char_ok (b :: l) = true ->
  len (b :: l) < max ->
  value_loop (S fuel) start h_general (mkExec p i ch s_header_value n m u) =
  value_loop fuel start h_general (mkExec p (i + len (b :: l)) CR s_header_value n m u).
Proof.
  intros Hall Hoks Hm. pose proof Hall as Hh. pose proof (proj1 (andb_true_iff _ _) Hoks) as [Hok _]. revert Hh Hok. cbn [app].
  turn. destruct (here_app _ _ _ _ Hall) as [_ Hcr]. destruct (here_cons _ _ _ _ Hcr) as (Hc & Hi2 & _).
  pose proof (len_nonneg (b :: l)). rewrite reading_in by lia.
  destruct (slice_long _ _ _ _ (Z.min (len data - i) max) Hall) as [k ->]; [lia|].
  rewrite scan_here by done. rewrite Hc. cbn [ex_set_ch ex_set_p ex_p]. exec_cbn.
  by replace (i + len (b :: l) - 1 + 1) with (i + len (b :: l)) by lia.
Qed.

Lemma value_loops_general p l : forallb value_char_ok l = true -> value_loops h_general p l h_general p.
Proof.
  destruct l as [|b l]; [intros _; apply value_loops_nil|]. intros Hl fuel start i ch n m u rest Hb Hf Hm.
  destruct fuel as [|fuel]; [unfold len in Hf; lia|]. exists fuel, CR.
  split; [unfold len in Hf; cbn in Hf; lia|]. by apply (turn_general _ _ _ _ _ _ _ _ _ _ rest).
Qed.

Lemma value_loops_cons h p b l h1 p1 h' p' :
  (forall fuel start i ch n m u k, here data i (b :: k) ->
    value_loop (S fuel) start h (mkExec p i ch s_header_value n m u) = value_loop fuel start h1 (mkExec p1 (i + 1) b s_header_value n m u)) ->
  value_loops h1 p1 l h' p' -> value_loops h p (b :: l) h' p'.
Proof.
  intros Hturn Hl fuel start i ch n m u rest Hd Hf Hm. rewrite len_cons in *.
  destruct fuel as [|fuel]; [pose proof (len_nonneg l); lia|]. cbn [app] in Hd.
  destruct (here_cons _ _ _ _ Hd) as (_ & _ & Hd').
  destruct (Hl fuel start (i + 1) b n m u rest Hd') as (fuel' & ch' & ? & E); [lia..|]. exists fuel', ch'. split; [done|].
  rewrite (Hturn _ _ _ _ _ _ _ _ Hd), E. by replace (i + (len l + 1)) with (i + 1 + len l) by lia.
Qed.

(** The rest of a [Content-Length]: [a] is the value of the digits before. *)
Lemma value_loops_digits v ma mi te fl l : forall a p j, stage v ma mi te fl a p -> 0 <= a < 10 ^ j -> 0 <= j -> j + len l <= 18 ->
  forallb IS_NUM l = true ->
  exists p', value_loops h_content_length_num p l h_content_length_num p' /\
    stage v ma mi te fl (fold_left (fun a c => 10 * a + (c - 48)) l a) p'.
Proof.
  induction l as [|b l IH]; intros a p j Hst Ha Hj Hl Hn.
  - exists p. split; [apply value_loops_nil|done].
  - rewrite len_cons in Hl. pose proof (len_nonneg l). cbn [forallb] in Hn. apply andb_true_iff in Hn as [Hb Hn].
    assert (10 ^ (j + 1) <= 10 ^ 18) by (apply Z.pow_le_mono_r; lia). rewrite Z.pow_add_r in * by lia.
    assert (48 <= b <= 57) as Hb' by (unfold IS_NUM in Hb; lia).
    assert (content_length_digit b a = Some (10 * a + (b - 48))) as Hd.
    { unfold content_length_digit, u64. rewrite (Z.mod_small (a * 10)), Z.mod_small by lia. change ((ULLONG_MAX - 10) / 10) with 1844674407370955160.
      destruct (Z.ltb_spec 1844674407370955160 a); [lia|]. f_equal. lia. }
    destruct (IH (10 * a + (b - 48)) (hp_set_content_length (10 * a + (b - 48)) p) (j + 1)) as (p' & Hp' & Hst'); try done; try lia.
    { eapply stage_length; [exact Hst|lia]. }
    { rewrite Z.pow_add_r; lia. }
    exists p'. split; [|done]. eapply value_loops_cons; [|exact Hp']. intros. eapply turn_digit; [eassumption| |done|].
    + unfold value_char_ok, IS_HEADER_CHAR, is_crlf, CR, LF. lia.
    + by rewrite (pa_cl _ _ _ _ _ (st_parsing _ _ _ _ _ _ _ Hst)).
Qed.

(** The rest of [chunked]. *)
Lemma value_loops_chunked v ma mi te fl cl l : let h := h_matching_transfer_encoding_chunked in forall p done_,
  CHUNKED = done_ ++ map LOWER l -> done_ <> [] -> l <> [] ->
  forallb value_char_ok l = true -> stage v ma mi te fl cl p -> hp_index p = len done_ - 1 ->
  exists p', value_loops h p l h_transfer_encoding_chunked p' /\ stage v ma mi te fl cl p'.
Proof.
  intros h. induction l as [|b l IH]; intros p d Hd Hdn Hl Hok Hst Hi; [done|]. cbn [forallb map] in *. apply andb_true_iff in Hok as [Hb Hok].
  pose proof (f_equal len Hd) as Hw. rewrite len_app, len_cons in Hw. change (len CHUNKED) with 7 in Hw. pose proof (len_nonneg (map LOWER l)).
  assert (0 < len d) by (destruct d; [done|rewrite len_cons; pose proof (len_nonneg d); lia]).
  set (p1 := incr_index p).
  assert (hp_index p1 = len d) as Hp1 by (unfold p1, incr_index; cbn; rewrite wrap_small; lia).
  assert (stage v ma mi te fl cl p1) as Hst1 by (by apply stage_index).
  assert (match_word CHUNKED (len d) (LOWER b) h_matching_transfer_encoding_token h_transfer_encoding_chunked =
    if bool_decide (l = []) then Some h_transfer_encoding_chunked else None) as Hm.
  { unfold match_word. rewrite Hd. rewrite len_app, len_cons. destruct (Z.ltb_spec (len d + (len (map LOWER l) + 1)) (len d)); [lia|].
    replace (Z.to_nat (len d)) with (length d) by (unfold len; lia). rewrite nth_middle, Z.eqb_refl. cbn [orb negb].
    case_bool_decide as El; [subst l; change (len (map LOWER [])) with 0|].
    - by destruct (Z.eqb_spec (len d) (len d + (0 + 1) - 1)); [|lia].
    - destruct l as [|b2 l]; [done|]. cbn [map] in *. rewrite len_cons in *. pose proof (len_nonneg (map LOWER l)).
      by destruct (Z.eqb_spec (len d) (len d + (len (map LOWER l) + 1 + 1) - 1)); [lia|]. }
  assert (forall h1, header_value_char b (LOWER b) h p = (h1, p1) -> forall p', value_loops h1 p1 l h_transfer_encoding_chunked p' ->
    value_loops h p (b :: l) h_transfer_encoding_chunked p') as Hcons.
  { intros h1 Hc p' Hp'. eapply value_loops_cons; [|exact Hp']. intros. by erewrite turn_word, Hc. }
  cbn [header_value_char h] in Hcons. unfold match_value in Hcons. fold p1 in Hcons. rewrite Hp1, Hm in Hcons.
  case_bool_decide as El; cbn [default] in Hcons.
  - subst l. exists p1. split; [|done]. apply (Hcons _ eq_refl). apply value_loops_nil.
  - destruct (IH p1 (d ++ [LOWER b])) as (p' & Hp' & Hst'); try done.
    + by rewrite <- app_assoc.
    + by destruct d.
    + rewrite Hp1, len_snoc. lia.
    + exists p'. split; [|done]. by apply (Hcons _ eq_refl).
Qed.

(** *** Flags *)

(** The flags that headers can set here. *)
Definition header_flags : Z := 175.
Definition flags_ok (fl : Z) : Prop := Z.land fl header_flags = fl.

Lemma flags_ok_lor fl f : flags_ok fl -> flags_ok f -> flags_ok (Z.lor fl f).
Proof. unfold flags_ok. intros H1 H2. by rewrite Z.land_lor_distr_l, H1, H2. Qed.
Lemma flags_ok_wrap fl : flags_ok fl -> wrap 8 fl = fl.
Proof. unfold flags_ok, wrap. intros <-. by rewrite <- Z.land_ones, <- Z.land_assoc by lia. Qed.
Lemma flags_ok_has fl f : flags_ok fl -> Z.land header_flags f = 0 -> has_flag fl f = false.
Proof. unfold flags_ok, has_flag. intros <- Hf. by rewrite <- Z.land_assoc, Hf, Z.land_0_r. Qed.

Lemma stage_flag v ma mi te fl cl f p : flags_ok fl -> flags_ok f -> stage v ma mi te fl cl p -> stage v ma mi te (Z.lor fl f) cl (set_flag f p).
Proof.
  intros Hfl Hf. by apply stage_set_flag, flags_ok_wrap, flags_ok_lor.
Qed.

(** *** One header *)

(** The parser at the end of a value, before [finish_header]. *)
Definition value_read (h : header_states) p : http_parser :=
  hp_set_header_state h (hp_set_state s_header_almost_done (hp_set_header_state h p)).

Lemma header_value_ends fuel start h p i ch n u i0 val rest : here data i (CR :: rest) -> (0 < fuel)%nat -> hp_http_errno p = HPE_OK ->
  here data i0 val -> i = i0 + len val -> 0 <= n -> start <= i -> n + (i - start) <= max ->
  value_loop fuel start h (mkExec p i ch s_header_value n (set_mark D_header_value (Some i0) no_marks) u) =
  Break (mkExec (value_read h p) i CR s_header_almost_done (n + (i - start)) no_marks (cb_value c val u)).
Proof.
  intros Hb Hf He Hv Hi Hn Hs Hm. destruct fuel as [|fuel]; [lia|]. destruct (here_cons _ _ _ _ Hb) as (Hc & Hi' & _).
  cbn [header_value_loop]. exec_cbn. unfold data_len. destruct (Z.eqb_spec i (len data)); [lia|]. rewrite reading_char_in, Hc by done.
  cbv zeta. exec_cbn. cbn [Z.eqb Pos.eqb CR]. unfold CALLBACK_DATA. pose proof (proj1 Hv). pose proof (len_nonneg val).
  rewrite (data_simple c data D_header_value _ _ _ _ i0) by first [done|cbn; lia|by destruct p].
  unfold do_header_value_end. exec_cbn. unfold data_len. destruct (Z.eqb_spec i (len data)); [lia|]. rewrite count_header by (exec_cbn; lia || done).
  exec_cbn. rewrite Z.add_0_r, Hi, (here_slice _ _ _ Hv). done.
Qed.

Lemma gets_value_via p0 p1 b l h' p2 i ch n u rest :
  (forall n, case_of (mkExec p0 i b s_header_value_discard_ws n no_marks u) =
    Break (mkExec p1 i b s_header_value n (set_mark D_header_value (Some i) no_marks) u)) ->
  value_loops (hp_header_state p1) p1 l h' p2 -> hp_http_errno p2 = HPE_OK ->
  here data i ((b :: l) ++ crlf ++ rest) -> 0 <= n -> n + len (b :: l) + 2 <= max ->
  gets (mkExec p0 i ch s_header_value_discard_ws n no_marks u) (eq (value_read h' p2))
    (i + len (b :: l) + 2) s_header_value_lws (n + len (b :: l) + 2) no_marks (cb_value c (b :: l) u).
Proof.
  intros Hs Hl He Hb Hn Hm. change crlf with [CR; LF] in Hb. destruct (here_app _ _ _ _ Hb) as [Hval Hcr]. cbn [app] in Hb, Hcr.
  destruct (here_cons _ _ _ _ Hcr) as (_ & Hi2 & Hlf).
  rewrite len_cons in *. pose proof (len_nonneg l).
  eapply gets_then; [exact Hb|done|lia|lia|by apply switch_step, Hs|intros ch1 Hb1].
  destruct (Hl (Z.to_nat (len data - (i + 1))) (i + 1) (i + 1) (char_at data (i + 1)) (n + 1 + 1)
    (set_mark D_header_value (Some i) no_marks) u (LF :: rest) Hb1) as (fuel & ch2 & Hf & E); [lia..|].
  assert (exists b2 l2, l ++ CR :: LF :: rest = b2 :: l2) as (b2 & l2 & El) by (destruct l; eauto).
  pose proof Hb1 as Hb1'. cbn [app] in Hb1'. rewrite El in Hb1'.
  assert (char_at data (i + 1) = b2) as Hc2 by (by destruct (here_cons _ _ _ _ Hb1')). rewrite Hc2 in E.
  eapply (gets_trans _ (eq (value_read h' p2))).
  - eapply gets_jump with (i' := i + 1 + len l); [exact Hb1'|done|lia|lia|lia| |reflexivity].
    apply switch_step. unfold HttpExec.step. exec_cbn. unfold do_header_value. exec_cbn. unfold data_len.
    refine (eq_trans E _). apply (header_value_ends _ _ _ _ _ _ _ _ i (b :: l) (LF :: rest)); try done; rewrite ?len_cons; try lia.
    by replace (i + 1 + len l) with (i + (len l + 1)) by lia.
  - intros p3 ch3 <-. replace (i + 1 + len l + 1) with (i + (len l + 1) + 1) by lia.
    eapply gets_then; [exact Hlf|done|lia|lia|reflexivity|intros ch4 _].
    replace (i + (len l + 1) + 2) with (i + (len l + 1) + 1 + 1) by lia.
    replace (n + (len l + 1) + 2) with (n + 1 + 1 + (i + 1 + len l - (i + 1)) + 1) by lia. by apply gets_refl.
Qed.

(** What the name leaves in [header_state], for each kind of header. *)
Definition kind_state (k : kind) (h : header_states) : bool :=
  match k, h with
  | K_connection, h_connection | K_length, h_content_length | K_upgrade, h_upgrade | K_encoding, _ => true
  | K_general, (h_general | h_C | h_CO | h_CON | h_matching_connection | h_matching_proxy_connection
      | h_matching_content_length | h_matching_transfer_encoding | h_matching_upgrade) => true
  | _, _ => false
  end.

Lemma kind_field name : kind_state (kind_of name) (field_of (lower name)) = true.
Proof.
  unfold kind_of, field_of. case_bool_decide; [done|]. case_bool_decide; [done|].
  destruct (is_prefix TRANSFER_ENCODING (lower name)) eqn:Hp; [done|]. rewrite (bool_decide_false (lower name = TRANSFER_ENCODING)).
  2: { intros E. rewrite E in Hp. by vm_compute in Hp. }
  case_bool_decide; [done|]. repeat case_match; done.
Qed.

Lemma value_started p b i n u : value_char_ok b = true -> (b =? " "%chr) = false -> (b =? TAB) = false ->
  case_of (mkExec p i b s_header_value_discard_ws n no_marks u) =
  do_header_value_start (mkExec p i b s_header_value_discard_ws n no_marks u).
Proof.
  intros Hb H1 H2. destruct (value_char_sane b Hb) as (H3 & H4 & _).
  unfold HttpExec.step. exec_cbn. unfold do_header_value_discard_ws. exec_cbn. by rewrite H1, H2, H3, H4.
Qed.

Lemma stage_read v ma mi te fl cl h p : stage v ma mi te fl cl p -> stage v ma mi te fl cl (value_read h p).
Proof. intros Hst. by apply stage_header_state, stage_state, stage_header_state. Qed.

(** A header's value, before its line ends: the word or the number is in the parser. *)
Definition value_done v ma mi te fl cl h p : Prop :=
  stage v ma mi te fl cl (finish_header (value_read h p)) /\ hp_http_errno p = HPE_OK.

(** A value [b :: l] is taken from the first byte to the CR, ending in [Q]. *)
Definition takes_value p b l (Q : header_states -> http_parser -> Prop) : Prop :=
  exists p1 h' p2, (forall i n u, case_of (mkExec p i b s_header_value_discard_ws n no_marks u) =
      Break (mkExec p1 i b s_header_value n (set_mark D_header_value (Some i) no_marks) u)) /\
    value_loops (hp_header_state p1) p1 l h' p2 /\ Q h' p2.

Lemma value_general v ma mi te fl cl p b l : kind_state K_general (hp_header_state p) = true -> stage v ma mi te fl cl p ->
  forallb value_char_ok (b :: l) = true -> (b =? " "%chr) = false -> (b =? TAB) = false ->
  takes_value p b l (fun h' p2 => value_done v ma mi te fl cl h' p2).
Proof.
  intros Hk Hst [Hb Hl]%andb_true_iff H1 H2. set (p1 := hp_set_header_state h_general (hp_set_index 0 p)).
  assert (stage v ma mi te fl cl p1) as Hp1 by (by apply stage_header_state, stage_index).
  exists p1, h_general, p1. split_and!.
  - intros i n u. rewrite value_started by done. unfold do_header_value_start, MARK. exec_cbn.
    destruct p. cbn in *. by destruct hp_header_state.
  - by apply value_loops_general.
  - split; [by apply stage_read|by apply Hp1].
Qed.

Lemma value_upgrade v ma mi te fl cl p b l : hp_header_state p = h_upgrade -> stage v ma mi te fl cl p -> flags_ok fl ->
  forallb value_char_ok (b :: l) = true -> (b =? " "%chr) = false -> (b =? TAB) = false ->
  takes_value p b l (fun h' p2 => value_done v ma mi te (Z.lor fl F_UPGRADE) cl h' p2).
Proof.
  intros Hk Hst Hfl [Hb Hl]%andb_true_iff H1 H2. set (p1 := hp_set_header_state h_general (set_flag F_UPGRADE (hp_set_index 0 p))).
  assert (stage v ma mi te (Z.lor fl F_UPGRADE) cl p1) as Hp1 by (by apply stage_header_state, stage_flag, stage_index).
  exists p1, h_general, p1. split_and!.
  - intros i n u. rewrite value_started by done. unfold do_header_value_start, MARK. exec_cbn.
    assert (hp_header_state (hp_set_index 0 p) = h_upgrade) as -> by (by destruct p). done.
  - by apply value_loops_general.
  - split; [by apply stage_read|by apply Hp1].
Qed.

Lemma value_length v ma mi te fl cl p b l : hp_header_state p = h_content_length -> stage v ma mi te fl cl p -> flags_ok fl ->
  forallb IS_NUM (b :: l) = true -> len (b :: l) <= 18 -> has_flag fl F_CONTENTLENGTH = false ->
  takes_value p b l (fun h' p2 => value_done v ma mi te (Z.lor fl F_CONTENTLENGTH) (digits_value (b :: l)) h' p2).
Proof.
  intros Hk Hst Hfl [Hb Hl]%andb_true_iff Hlen Hfc. assert (48 <= b <= 57) as Hb' by (unfold IS_NUM in Hb; lia).
  set (p0 := set_flag F_CONTENTLENGTH (hp_set_index 0 p)).
  assert (stage v ma mi te (Z.lor fl F_CONTENTLENGTH) cl p0) as Hp0 by (by apply stage_flag, stage_index).
  set (p1 := hp_set_header_state h_content_length_num (hp_set_content_length (b - 48) p0)).
  assert (stage v ma mi te (Z.lor fl F_CONTENTLENGTH) (b - 48) p1) as Hp1.
  { apply stage_header_state. eapply stage_length; [exact Hp0|lia]. }
  rewrite len_cons in Hlen. destruct (value_loops_digits _ _ _ _ _ l (b - 48) p1 1 Hp1) as (p2 & Hp2 & Hst2); try done; try lia.
  exists p1, h_content_length_num, p2. split_and!.
  - intros i n u. rewrite value_started by (try (unfold TAB; lia); unfold value_char_ok, IS_HEADER_CHAR, is_crlf, CR, LF; lia).
    unfold do_header_value_start, MARK. exec_cbn.
    assert (hp_header_state (hp_set_index 0 p) = h_content_length) as -> by (by destruct p).
    assert (hp_flags (hp_set_index 0 p) = fl) as -> by (rewrite <- (pa_flags _ _ _ _ _ (st_parsing _ _ _ _ _ _ _ Hst)); by destruct p).
    by rewrite Hb, Hfc.
  - done.
  - split; [|by apply Hst2]. assert (finish_header (value_read h_content_length_num p2) = value_read h_content_length_num p2) as -> by done.
    apply stage_read. unfold digits_value. cbn [fold_left]. by replace (10 * 0 + (b - 48)) with (b - 48) by lia.
Qed.

(** The rest of a [Connection] list, in the element [e]. *)
Lemma conn_case e : value_case (conn_state e) = true.
Proof.
  unfold conn_state, word_state, matching_state. destruct (element_word e) as [|x w]; [done|]. destruct (start_state x) as [h|] eqn:Hs; [|done].
  apply start_connection in Hs as [Hh _]. destruct (_ && _); [by destruct h|]. case_bool_decide; by destruct h.
Qed.

Lemma word_flag_ok w : flags_ok (word_flag w).
Proof. unfold word_flag. by repeat case_bool_decide. Qed.

Lemma stage_word v ma mi te fl cl e p : flags_ok fl -> element_ok e = true -> stage v ma mi te fl cl p ->
  value_done v ma mi te (Z.lor fl (word_flag (strip (element_word e)))) cl (conn_state e) p.
Proof.
  intros Hfl He Hst. split; [|by apply Hst]. destruct (conn_flag e He) as [[-> ->]|(h & Hh & -> & ->)].
  - rewrite Z.lor_0_r. by apply stage_read.
  - assert (finish_header (value_read (word_full h) p) = set_flag (connection_flag (word_full h)) (value_read (word_full h) p)) as -> by (by destruct h).
    apply stage_flag; [done|by destruct h|by apply stage_read].
Qed.

Lemma value_loops_list v ma mi te cl l : forall e fl p, forallb value_char_ok l = true -> forallb (fun z => negb (z =? ","%chr)) e = true ->
  forallb element_ok (split_on ","%chr (e ++ l)) = true -> flags_ok fl -> stage v ma mi te fl cl p -> at_word (element_word e) p ->
  exists h' p', value_loops (conn_state e) p l h' p' /\ value_done v ma mi te (list_flags (split_on ","%chr (e ++ l)) fl) cl h' p'.
Proof.
  induction l as [|ch l IH]; intros e fl p Hok Hcomma Hel Hfl Hst Hat.
  - exists (conn_state e), p. split; [apply value_loops_nil|]. rewrite app_nil_r, split_on_none in * by done.
    cbn [forallb list_flags fold_left] in *. apply andb_true_iff in Hel as [Hel _]. by apply stage_word.
  - cbn [forallb] in Hok. apply andb_true_iff in Hok as [Hch Hok]. destruct (ch =? ","%chr) eqn:Hc.
    + apply Z.eqb_eq in Hc. subst ch. rewrite split_on_app in * by done. cbn [split_on Z.eqb Pos.eqb] in *. rewrite app_nil_r in *.
      cbn [forallb list_flags fold_left] in *. apply andb_true_iff in Hel as [He Hel].
      change (fold_left _ ?es ?f) with (list_flags es f). set (f := word_flag _).
      destruct (IH [] (Z.lor fl f) (hp_set_index 0 (set_word_flag f p))) as (h' & p' & Hl & Hd); try done.
      { apply flags_ok_lor; [done|apply word_flag_ok]. }
      { apply stage_index. pose proof (word_flag_ok (strip (element_word e))) as Hf. fold f in Hf. unfold set_word_flag. destruct (Z.eqb_spec f 0) as [->|]; [by rewrite Z.lor_0_r|by apply stage_flag]. }
      exists h', p'. split; [|exact Hd]. eapply value_loops_cons; [|exact Hl]. intros.
      erewrite turn_word by first [eassumption|done|apply conn_case]. by rewrite (conn_comma e p He).
    + assert (element_word e = [] -> ch = " "%chr \/ STRICT_TOKEN (LOWER ch) <> 0) as Hstart.
      { intros Ee. destruct (Z.eqb_spec ch " "%chr) as [->|Hne]; [by left|right]. rewrite split_on_app in Hel by done. cbn [split_on] in Hel. rewrite Hc in Hel.
        destruct (split_on _ l) as [|e1 es]; cbn [forallb] in Hel; apply andb_true_iff in Hel as [Hel _]; revert Hel; unfold element_ok, element_word;
          rewrite trim_app by (by apply map_eq_nil in Ee); cbn [trim]; rewrite (proj2 (Z.eqb_neq ch 32) Hne); cbn [map];
          intros [H%negb_true_iff%Z.eqb_neq _]%andb_true_iff; exact H. }
      destruct (element_step e ch p Hch Hc Hstart Hat) as (p1 & Hp1 & Hor & Hat1).
      change (ch :: l) with ([ch] ++ l) in Hel |- *. rewrite app_assoc in Hel |- *.
      destruct (IH (e ++ [ch]) fl p1) as (h' & p' & Hl & Hd); try done.
      { rewrite forallb_app, Hcomma. cbn [forallb]. by rewrite Hc. }
      { destruct Hor as [-> | ->]; [done|by apply stage_index]. }
      exists h', p'. split; [|exact Hd]. eapply value_loops_cons; [|exact Hl]. intros.
      erewrite turn_word by first [eassumption|done|apply conn_case]. by rewrite Hp1.
Qed.

Lemma value_connection v ma mi te fl cl f p b l : hp_header_state p = h_connection -> stage v ma mi te fl cl p -> flags_ok fl ->
  forallb value_char_ok (b :: l) = true -> (b =? " "%chr) = false -> (b =? TAB) = false -> connection_flags (b :: l) = Some f ->
  takes_value p b l (fun h' p2 => value_done v ma mi te (Z.lor fl f) cl h' p2).
Proof.
  intros Hk Hst Hfl [Hb Hl]%andb_true_iff H1 H2 Hf. unfold connection_flags in Hf. fold (list_flags (split_on ","%chr (b :: l)) 0) in Hf.
  destruct (forallb element_ok _) eqn:Hel; [|done]. injection Hf as <-. rewrite <- list_flags_lor.
  assert ((b =? ","%chr) = false) as Hc.
  { destruct (Z.eqb_spec b ","%chr) as [->|]; [|done]. cbn [split_on Z.eqb Pos.eqb forallb] in Hel. by apply andb_true_iff in Hel as [? _]. }
  assert (element_word [b] = [LOWER b]) as Hw by (unfold element_word; cbn [trim]; by rewrite H1).
  set (p1 := hp_set_header_state (conn_state [b]) (hp_set_index 0 p)).
  assert (stage v ma mi te fl cl p1) as Hp1 by (by apply stage_header_state, stage_index).
  destruct (value_loops_list v ma mi te cl l [b] fl p1) as (h' & p2 & Hp2 & Hd); try done; [cbn; by rewrite Hc|by rewrite Hw|].
  exists p1, h', p2. split_and!; [|exact Hp2|exact Hd].
  intros i n u. rewrite value_started by done. unfold do_header_value_start, MARK. exec_cbn.
  assert (hp_header_state (hp_set_index 0 p) = h_connection) as -> by (by destruct p). unfold p1, conn_state. rewrite Hw.
  do 4 f_equal. cbn [word_state]. destruct (start_state (LOWER b)) eqn:Hs; [rewrite (start_matching _ _ Hs)|]; unfold start_state in Hs;
    repeat case_match; by simplify_eq.
Qed.

Lemma value_encoding v ma mi te fl cl p b l : hp_header_state p = h_transfer_encoding -> stage v ma mi te fl cl p -> flags_ok fl ->
  forallb value_char_ok (b :: l) = true -> (b =? " "%chr) = false -> (b =? TAB) = false -> map LOWER (b :: l) = CHUNKED ->
  takes_value p b l (fun h' p2 => value_done v ma mi te (Z.lor fl F_CHUNKED) cl h' p2).
Proof.
  intros Hk Hst Hfl [Hb Hl]%andb_true_iff H1 H2 Hw. set (h := h_matching_transfer_encoding_chunked).
  set (p1 := hp_set_header_state h (hp_set_index 0 p)).
  assert (stage v ma mi te fl cl p1) as Hp1 by (by apply stage_header_state, stage_index).
  destruct (value_loops_chunked v ma mi te fl cl l p1 [LOWER b]) as (p2 & Hp2 & Hst2); try done; [by intros ->|].
  exists p1, h_transfer_encoding_chunked, p2. split_and!.
  - intros i n u. rewrite value_started by done. unfold do_header_value_start, MARK. exec_cbn.
    assert (hp_header_state (hp_set_index 0 p) = h_transfer_encoding) as -> by (by destruct p). by injection Hw as -> _.
  - done.
  - split; [|by apply Hst2]. assert (finish_header (value_read h_transfer_encoding_chunked p2) = set_flag F_CHUNKED (value_read h_transfer_encoding_chunked p2)) as -> by done.
    by apply stage_flag, stage_read.
Qed.

(** What a header makes of the flags and the length is what [header_effect] says. *)
Lemma value_effect v ma mi te fl cl fl' cl' name p b l : header_effect (name, b :: l) (fl, cl) = Some (fl', cl') ->
  hp_header_state p = field_of (lower name) -> stage v ma mi te fl cl p -> flags_ok fl ->
  forallb value_char_ok (b :: l) = true -> (b =? " "%chr) = false -> (b =? TAB) = false ->
  takes_value p b l (fun h' p2 => value_done v ma mi te fl' cl' h' p2).
Proof.
  intros He Hh Hst Hfl Hok H1 H2. pose proof (kind_field name) as Hk. rewrite <- Hh in Hk. cbn [header_effect fst snd] in He.
  destruct (kind_of name).
  - injection He as <- <-. by apply value_general.
  - destruct (connection_flags _) as [f|] eqn:Ef; [|done]. injection He as <- <-.
    assert (hp_header_state p = h_connection) as Hc by (by destruct (hp_header_state p)).
    by apply value_connection.
  - destruct (forallb IS_NUM _) eqn:Hn; [|done]. destruct (Z.leb_spec (len (b :: l)) 18); [|done].
    destruct (has_flag _ _) eqn:Hc; [done|]. injection He as <- <-.
    assert (hp_header_state p = h_content_length) as Hc' by (by destruct (hp_header_state p)).
    by eapply value_length.
  - case_bool_decide as E; [|done]. destruct E as [En Ev]. injection He as <- <-. rewrite En in Hh.
    by apply value_encoding.
  - injection He as <- <-. assert (hp_header_state p = h_upgrade) as Hc by (by destruct (hp_header_state p)).
    by apply value_upgrade.
Qed.

Lemma header_effect_flags h fl cl fl' cl' : header_effect h (fl, cl) = Some (fl', cl') -> flags_ok fl -> flags_ok fl'.
Proof.
  unfold header_effect. intros He Hfl. destruct (kind_of h.1); [by injection He as <- <-| |..].
  - destruct (connection_flags _) as [f|] eqn:Ef; [|done]. injection He as <- <-. apply flags_ok_lor; [done|].
    revert Ef. apply (connection_flags_ind flags_ok); [done|]. intros g w Hg. by apply flags_ok_lor, word_flag_ok.
  - destruct (_ && _); [|done]. injection He as <- <-. by apply flags_ok_lor.
  - case_bool_decide; [|done]. injection He as <- <-. by apply flags_ok_lor.
  - injection He as <- <-. by apply flags_ok_lor.
Qed.

(** Between two headers, [uses_transfer_encoding] goes with the flag. *)
Definition staged v ma mi fl cl : http_parser -> Prop := stage v ma mi (has_flag fl F_CHUNKED) fl cl.

Lemma has_flag_lor a b f : has_flag (Z.lor a b) f = has_flag a f || has_flag b f.
Proof.
  unfold has_flag. rewrite Z.land_lor_distr_l. destruct (Z.eqb_spec (Z.lor (Z.land a f) (Z.land b f)) 0) as [E|E].
  - apply Z.lor_eq_0_iff in E as [-> ->]. done.
  - destruct (Z.eqb_spec (Z.land a f) 0) as [Ea|], (Z.eqb_spec (Z.land b f) 0) as [Eb|]; try done. by rewrite Ea, Eb in E.
Qed.

Lemma effect_chunked h fl cl fl' cl' : header_effect h (fl, cl) = Some (fl', cl') ->
  encoding_exact (lower h.1) /\ has_flag fl' F_CHUNKED = has_flag fl F_CHUNKED || bool_decide (lower h.1 = TRANSFER_ENCODING).
Proof.
  unfold header_effect, encoding_exact. pose proof (kind_field h.1) as Hk. intros He.
  destruct (is_prefix TRANSFER_ENCODING (lower h.1)) eqn:Hp.
  - assert (kind_of h.1 = K_encoding) as Hke.
    { unfold kind_of. rewrite Hp, !bool_decide_false; [done|intros E; rewrite E in Hp; by vm_compute in Hp|
        intros [E|E]; rewrite E in Hp; by vm_compute in Hp]. }
    rewrite Hke in He. case_bool_decide as E; [|done]. destruct E as [En _]. injection He as <- <-.
    by rewrite has_flag_lor, En, bool_decide_true.
  - rewrite (bool_decide_false (_ = TRANSFER_ENCODING)), orb_false_r by (intros E; rewrite E in Hp; by vm_compute in Hp).
    split; [done|]. destruct (kind_of h.1) eqn:Ek; [by injection He as <- <-| |..].
    + destruct (connection_flags _) as [f|] eqn:Ef; [|done]. injection He as <- <-. rewrite has_flag_lor.
      assert (has_flag f F_CHUNKED = false) as ->; [|by rewrite orb_false_r]. revert Ef. apply (connection_flags_ind (fun f => has_flag f F_CHUNKED = false)); [done|].
      intros g w Hg. rewrite has_flag_lor, Hg. unfold word_flag. by repeat case_bool_decide.
    + destruct (_ && _); [|done]. injection He as <- <-. by rewrite has_flag_lor, orb_false_r.
    + case_bool_decide as E; [|done]. destruct E as [En _]. rewrite En in Hp. by vm_compute in Hp.
    + injection He as <- <-. by rewrite has_flag_lor, orb_false_r.
Qed.

Lemma gets_header v ma mi fl cl fl' cl' h p s i ch n u rest :
  header_effect h (fl, cl) = Some (fl', cl') -> flags_ok fl -> header_ok h = true -> at_header (staged v ma mi fl cl) s p ->
  here data i (header_text h ++ rest) -> 0 <= n -> n + len (header_text h) <= max ->
  gets (mkExec p i ch s n no_marks u) (at_header (staged v ma mi fl' cl') s_header_value_lws)
    (i + len (header_text h)) s_header_value_lws (n + len (header_text h)) no_marks (header_user c u h).
Proof.
  destruct h as [name val]. intros He Hfl Hok Hs Hb Hn Hm. unfold header_ok in Hok. cbn [fst snd] in Hok.
  apply andb_true_iff in Hok as [[[Hname Hne%negb_true_iff%bool_decide_eq_false]%andb_true_iff Hval]%andb_true_iff Hws].
  destruct val as [|b l]; [done|]. apply andb_true_iff in Hws as [H1%negb_true_iff H2%negb_true_iff].
  destruct (effect_chunked _ _ _ _ _ He) as [Hte Hfc]. cbn [fst] in Hte, Hfc.
  unfold header_text in *. cbn [fst snd] in *. rewrite <- !app_assoc in Hb. rewrite !len_app in *.
  change (len (bs ": ")) with 2 in *. change (len crlf) with 2 in *.
  pose proof (len_nonneg name). pose proof (len_nonneg (b :: l)).
  eapply gets_trans; [by eapply gets_name; first [exact Hs|exact Hb|lia|done]|]. intros p1 ch1 [Hp1 Hh1].
  replace (i + (len name + (2 + (len (b :: l) + 2)))) with (i + len name + 2 + len (b :: l) + 2) by lia.
  replace (n + (len name + (2 + (len (b :: l) + 2)))) with (n + len name + 2 + len (b :: l) + 2) by lia.
  rewrite <- Hfc in Hp1. destruct (value_effect v ma mi (has_flag fl' F_CHUNKED) fl cl fl' cl' name p1 b l) as (q1 & h' & q2 & Hq1 & Hl & Hd & Hq2); try done.
  assert (here data (i + len name + 2) ((b :: l) ++ crlf ++ rest)) as Hb2.
  { apply here_app in Hb as [_ Hb]. apply here_app in Hb as [_ Hb]. by change (len (bs ": ")) with 2 in Hb. }
  eapply gets_trans; [eapply gets_value_via; [intros; apply Hq1|exact Hl|exact Hq2|exact Hb2|lia|lia]|].
  intros p2 ch2 <-. apply gets_refl. by right.
Qed.

(** *** All the headers, and the empty line *)

Lemma at_header_parsing S s p : at_header S s p -> PARSING_HEADER s = true.
Proof. by intros [[-> _]|[-> _]]. Qed.

Lemma gets_headers v ma mi hs : forall fl cl fl' cl' p s i ch n u rest,
  headers_effect hs (fl, cl) = Some (fl', cl') -> flags_ok fl -> forallb header_ok hs = true ->
  at_header (staged v ma mi fl cl) s p ->
  here data i (flat_map header_text hs ++ rest) -> 0 <= n -> n + len (flat_map header_text hs) <= max ->
  exists s', gets (mkExec p i ch s n no_marks u) (at_header (staged v ma mi fl' cl') s')
    (i + len (flat_map header_text hs)) s' (n + len (flat_map header_text hs)) no_marks (fold_left (header_user c) hs u).
Proof.
  induction hs as [|h hs IH]; intros fl cl fl' cl' p s i ch n u rest He Hfl Hok Hs Hb Hn Hm.
  - injection He as <- <-. exists s. cbn [flat_map fold_left]. change (len (@nil Z)) with 0. rewrite !Z.add_0_r.
    by apply gets_refl.
  - cbn [headers_effect] in He. destruct (header_effect h (fl, cl)) as [[fl1 cl1]|] eqn:He1; [|done]. cbn in He.
    cbn [forallb] in Hok. apply andb_true_iff in Hok as [Hh Hok]. cbn [flat_map] in *. rewrite <- app_assoc in Hb. rewrite !len_app in *.
    pose proof (len_nonneg (header_text h)). pose proof (len_nonneg (flat_map header_text hs)).
    destruct (gets_header v ma mi fl cl fl1 cl1 h p s i ch n u _ He1 Hfl Hh Hs Hb) as (p1 & ch1 & Hp1 & Hr1); [lia..|].
    apply here_app in Hb as [_ Hb].
    destruct (IH fl1 cl1 fl' cl' p1 s_header_value_lws (i + len (header_text h)) ch1 (n + len (header_text h)) (header_user c u h) rest)
      as (s' & p2 & ch2 & Hp2 & Hr2); try done; try lia; [by eapply header_effect_flags|].
    exists s', p2, ch2. split; [done|]. rewrite !Z.add_assoc. by etrans.
Qed.

Lemma headers_effect_flags hs : forall fl cl fl' cl', headers_effect hs (fl, cl) = Some (fl', cl') -> flags_ok fl -> flags_ok fl'.
Proof.
  induction hs as [|h hs IH]; intros fl cl fl' cl' He Hfl; [by injection He as <- <-|]. cbn [headers_effect] in He.
  destruct (header_effect h (fl, cl)) as [[fl1 cl1]|] eqn:He1; [|done]. by eapply IH, header_effect_flags.
Qed.

(** The CR of the empty line. *)
Lemma gets_empty v ma mi te fl cl p s i ch n u rest : at_header (stage v ma mi te fl cl) s p ->
  here data i (CR :: rest) -> 0 <= n -> n + 1 <= max ->
  gets (mkExec p i ch s n no_marks u) (stage v ma mi te fl cl) (i + 1) s_headers_almost_done (n + 1) no_marks u.
Proof.
  intros Hs Hb Hn Hm. pose proof (at_header_parsing _ _ _ Hs) as Hph. destruct Hs as [[-> Hp]|[-> Hp]].
  - eapply gets_then; [exact Hb|done|lia|lia|reflexivity|intros ch1 _]. by apply gets_refl.
  - eapply gets_then; [exact Hb|done|lia|lia| |intros ch1 _; apply gets_refl; exact Hp]. by eapply switch_again.
Qed.

(** A request up to the empty line that ends its head. *)
Lemma gets_fields p i ch n0 u r fl cl rest : hp_type p = HTTP_REQUEST -> hp_http_errno p = HPE_OK -> fields_ok r fl cl ->
  here data i (fields_text r ++ rest) -> 0 <= n0 -> n0 + len (fields_text r) <= max ->
  exists s, gets (mkExec p i ch s_start_req n0 no_marks u) (at_header (staged (Request (r_method r)) (r_major r) (r_minor r) fl cl) s)
    (i + len (fields_text r)) s (n0 + len (fields_text r)) no_marks
    (fold_left (header_user c) (r_headers r) (cb_url c (r_target r) (cb_begin c u))).
Proof.
  intros Ht Herr (He & Hv & Hurl & Hma & Hmi & Hok) Hb Hn0 Hm. destruct r as [v t ma mi hs body ks]. unfold effect_of, fields_text in *.
  cbn [r_method r_target r_major r_minor r_headers r_body] in *.
  set (hdr := flat_map header_text hs) in *. pose proof (len_nonneg (method_string v)). pose proof (len_nonneg t). pose proof (len_nonneg hdr).
  assert (len (method_string v ++ bs " " ++ t ++ bs " HTTP/" ++ [48 + ma] ++ bs "." ++ [48 + mi] ++ crlf ++ hdr) =
    len (method_string v) + 1 + len t + 1 + 10 + len hdr) as Hlen.
  { rewrite !len_app. change (len (bs " ")) with 1. change (len (bs " HTTP/")) with 6. change (len [48 + ma]) with 1.
    change (len (bs ".")) with 1. change (len [48 + mi]) with 1. change (len crlf) with 2. lia. }
  rewrite Hlen in *. rewrite <- !app_assoc in Hb.
  change (bs " HTTP/" ++ ?l) with (" "%chr :: bs "HTTP/" ++ l) in Hb. change (bs " " ++ ?l) with (" "%chr :: l) in Hb.
  rewrite !Z.add_assoc. pose proof Hb as Hb0. apply here_app in Hb as [_ Hb]. apply here_cons in Hb as (_ & _ & Hb).
  pose proof Hb as Hb1. apply here_app in Hb as [_ Hb]. apply here_cons in Hb as (_ & _ & Hb). pose proof Hb as Hb2.
  replace (bs "HTTP/" ++ [48 + ma] ++ bs "." ++ [48 + mi] ++ crlf ++ hdr ++ rest) with
    ((bs "HTTP/" ++ [48 + ma] ++ bs "." ++ [48 + mi] ++ crlf) ++ hdr ++ rest) in Hb by (by rewrite <- !app_assoc).
  apply here_app in Hb as [_ Hb]. change (len (bs "HTTP/" ++ _)) with 10 in Hb.
  destruct (gets_word c max lenient allow data p i ch n0 u v _ Hb0) as (p1 & ch1 & Hp1 & Hr1); [lia..|done|done|].
  destruct (gets_url c max lenient allow data t p1 _ ch1 (n0 + len (method_string v) + 1) (cb_begin c u) v _ Hb1) as (p2 & ch2 & Hp2 & Hr2); [lia..|done|done|done|].
  destruct (gets_version c max lenient allow data p2 _ ch2 (n0 + len (method_string v) + 1 + len t + 1) (cb_url c t (cb_begin c u)) v ma mi _ Hb2)
    as (p3 & ch3 & [Hp3 Hv3] & Hr3); [lia..|done|done|done|].
  destruct (gets_headers (Request v) ma mi hs 0 ULLONG_MAX fl cl p3 s_header_field_start _ ch3
    (n0 + len (method_string v) + 1 + len t + 1 + 10) (cb_url c t (cb_begin c u)) _ He eq_refl Hok (or_introl (conj eq_refl (Build_stage _ _ _ _ _ _ _ Hp3 Hv3))) Hb)
    as (s & p4 & ch4 & Hp4 & Hr4); [fold hdr; lia..|].
  exists s, p4, ch4. split; [exact Hp4|]. fold hdr in Hr4. etrans; [exact Hr1|]. etrans; [exact Hr2|]. etrans; [exact Hr3|exact Hr4].
Qed.

(** A request up to the LF that ends its head. *)
Lemma gets_head p i ch n0 u r fl cl rest : hp_type p = HTTP_REQUEST -> hp_http_errno p = HPE_OK -> fields_ok r fl cl ->
  here data i (head_text r ++ rest) -> 0 <= n0 -> n0 + len (head_text r) <= max ->
  exists n, 0 <= n < max /\
  gets (mkExec p i ch s_start_req n0 no_marks u) (staged (Request (r_method r)) (r_major r) (r_minor r) fl cl)
    (i + len (head_text r) - 1) s_headers_almost_done n no_marks
    (fold_left (header_user c) (r_headers r) (cb_url c (r_target r) (cb_begin c u))).
Proof.
  intros Ht Herr Hf Hb Hn0 Hm. rewrite head_fields, len_app in *. change (len crlf) with 2 in *. rewrite <- app_assoc in Hb.
  pose proof (len_nonneg (fields_text r)).
  destruct (gets_fields p i ch n0 u r fl cl _ Ht Herr Hf Hb Hn0) as [s Hg]; [lia|]. apply here_app in Hb as [_ Hb].
  change (crlf ++ rest) with (CR :: LF :: rest) in Hb. exists (n0 + len (fields_text r) + 1). split; [lia|].
  eapply gets_trans; [exact Hg|]. intros p1 ch1 Hp1. replace (i + (len (fields_text r) + 2) - 1) with (i + len (fields_text r) + 1) by lia.
  eapply gets_empty; [exact Hp1|exact Hb|lia..].
Qed.
End Headers.
