(* ===== verification/HttpBody.v ===== *)
(** * Bodies and pipelined requests in http_parser_execute

    The body of a request, of a known length or in chunks, and the theorem on a buffer of any
    number of requests. *)

From S2P Require Import Prelude HttpTypes HttpUrl HttpExec HttpSafety HttpWire HttpRun HttpHead.

Section Bodies.
Context {U : Type} (c : callbacks U) (max : Z) {Hmax : Header_limit max} (lenient allow : bool) (data : bytes).
Implicit Types (x y : exec U) (p : http_parser) (m : marks) (u : U).

Abbreviation gets := (HttpRun.gets c max lenient allow data).
Abbreviation switch := (reexecute (simple_settings c) max lenient allow data 4).
Abbreviation case_of := (HttpExec.step (simple_settings c) max lenient allow data).

Abbreviation stage v := (HttpHead.stage (Request v)).
Abbreviation gets_jump := (HttpRun.gets_jump c max lenient allow data).
Abbreviation gets_trans := (HttpRun.gets_trans c max lenient allow data).

(** *** The end of a request *)

(** Between two requests. *)
Definition idle p : Prop := hp_type p = HTTP_REQUEST /\ hp_http_errno p = HPE_OK.

(** A call returned after a whole message. The empty line that ends a body in chunks is counted in [nread]. *)
Definition left_in (upgrade alive : bool) p : Prop :=
  idle p /\ hp_upgrade p = upgrade /\ hp_state p = (if alive then s_start_req else s_dead) /\ 0 <= hp_nread p <= 2.

(** The loop returns [r] from [x]. *)
Definition stops x (Q : http_parser -> Prop) (r : Z) u : Prop :=
  exists p, Q p /\ forall n, len data - ex_p x <= Z.of_nat n ->
    main_loop (simple_settings c) max lenient allow data n x = Done r p u.

Lemma gets_stops x Q i s n m u Q' r u' : gets x Q i s n m u ->
  (forall p ch, Q p -> stops (mkExec p i ch s n m u) Q' r u') -> stops x Q' r u'.
Proof.
  intros (p & ch & HQ & Hr) Hs. destruct (Hs p ch HQ) as (p' & HQ' & Hl). exists p'. split; [done|].
  intros k Hk. destruct (Hr k Hk) as (k' & Hk' & ->). by apply Hl.
Qed.

(** The message is over: its callback, and the loop goes on or returns. *)
Definition message_over (upgrade alive : bool) x (i : Z) u : Prop :=
  if upgrade then stops x (left_in true alive) i (cb_complete c true u)
  else exists n, 0 <= n <= 2 /\
    gets x (fun p => idle p /\ hp_upgrade p = false) i (if alive then s_start_req else s_dead) n no_marks (cb_complete c false u).

Lemma stage_alive v ma mi te fl cl p : stage v ma mi te fl cl p ->
  NEW_MESSAGE p = if alive ma mi fl then s_start_req else s_dead.
Proof.
  intros [[[Ht _] _ _ Hf _] [Hma Hmi]]. unfold NEW_MESSAGE, http_should_keep_alive, http_message_needs_eof, start_state, alive.
  rewrite Ht, Hf, Hma, Hmi, decide_True by done. by destruct (_ && _), (has_flag _ _).
Qed.

(** The LF of the empty line, up to [s_headers_done]. *)
Lemma headers_almost_done v ma mi te fl cl p i n u : stage v ma mi te fl cl p -> flags_ok fl -> v <> HTTP_CONNECT ->
  te && has_flag fl F_CONTENTLENGTH = false ->
  switch (mkExec p i LF s_headers_almost_done n no_marks u) =
  reexecute (simple_settings c) max lenient allow data 3
    (mkExec (hp_set_upgrade (wants_upgrade fl) p) i LF s_headers_done n no_marks (cb_headers c v ma mi u)).
Proof.
  intros Hst Hfl Hv Hconf. cbn [reexecute]. unfold HttpExec.step at 1. exec_cbn. unfold do_headers_almost_done, STRICT_CHECK. exec_cbn.
  cbn [Z.eqb Pos.eqb LF negb]. destruct Hst as [[[Ht Hm] He Hte Hf Hc] [Hma Hmi]].
  assert (upgrade_requested p = wants_upgrade fl) as Hu.
  { unfold upgrade_requested, wants_upgrade. rewrite Hf, Ht, Hm. destruct (has_flag fl F_UPGRADE && _); [done|]. by apply bool_decide_false. }
  rewrite Hf, (flags_ok_has fl F_TRAILING) by done. unfold length_conflict. rewrite Hte, Hf, Hconf. cbn [andb].
  unfold call_headers_complete. cbn [simple_settings on_headers_complete]. exec_cbn. unfold ex_errno. exec_cbn. rewrite Hu.
  rewrite decide_True by done. destruct p. cbn in *. by subst.
Qed.

(** The locals once [on_message_complete] has run. *)
Definition completed q j b n u : exec U :=
  mkExec (hp_set_state (NEW_MESSAGE q) q) j b (NEW_MESSAGE q) n no_marks (cb_complete c (hp_upgrade q) u).

Lemma complete_notify q j b s n u ER k : hp_http_errno q = HPE_OK ->
  CALLBACK_NOTIFY_ (simple_settings c) N_message_complete ER (new_message (mkExec q j b s n no_marks u)) k = k (completed q j b n u).
Proof. intros He. rewrite notify_simple by first [by right|exact He]. by destruct q. Qed.

Lemma message_over_round v ma mi te fl cl p i ch s n u b l q j n' u' : here data i (b :: l) -> stage v ma mi te fl cl q -> i <= j -> 0 <= n' <= 2 ->
  round (simple_settings c) max lenient allow data (mkExec p i ch s n no_marks u) =
    (if hp_upgrade q then RETURN (j + 1) (completed q j b n' u') else Break (completed q j b n' u')) ->
  message_over (hp_upgrade q) (alive ma mi fl) (mkExec p i ch s n no_marks u) (j + 1) u'.
Proof.
  intros Hb Hq Hj Hn Hr. destruct (here_cons _ _ _ _ Hb) as (_ & Hi & _). unfold completed in Hr.
  rewrite (stage_alive _ _ _ _ _ _ _ Hq) in Hr. assert (idle q) as Hid by (by split; apply Hq).
  destruct (hp_upgrade q) eqn:Hup; unfold message_over.
  - eexists. split; [|intros k Hk; destruct k as [|k]; [cbn in *; lia|]].
    2: { cbn [main_loop]. exec_cbn. unfold data_len. destruct (Z.eqb_spec i (len data)); [lia|]. by rewrite Hr. }
    split; [by destruct q|]. split; [by destruct q|]. split; [by destruct (alive ma mi fl)|]. cbn. by rewrite wrap_small by lia.
  - exists n'. split; [done|]. eexists (hp_set_state _ q), b. split; [by destruct q, Hid|].
    apply (reaches_round c max lenient allow data _ (mkExec _ j b _ n' no_marks (cb_complete c false u'))); [cbn; lia|cbn; lia|exact Hr].
Qed.

(** What [s_headers_done] makes of the flags and the length. *)
Lemma headers_done v ma mi fl cl p i n u : stage v ma mi false fl cl p -> flags_ok fl -> has_flag fl F_CHUNKED = false -> v <> HTTP_CONNECT -> 0 <= cl ->
  let q := hp_set_nread 0 p in
  case_of (mkExec p i LF s_headers_done n no_marks u) =
  if (cl =? 0) || (cl =? ULLONG_MAX) then
    if hp_upgrade q then RETURN (i + 1) (completed q i LF 0 u) else Break (completed q i LF 0 u)
  else Break (mkExec q i LF s_body_identity 0 no_marks u).
Proof.
  intros Hst Hfl Hch Hv Hcl q. assert (stage v ma mi false fl cl q) as Hq by (by apply stage_nread).
  unfold HttpExec.step. exec_cbn. unfold do_headers_done, STRICT_CHECK, reset_nread. exec_cbn. cbn [Z.eqb Pos.eqb LF negb].
  fold q. clear Hst. pose proof Hq as [[[Ht Hm] He Hte Hf Hc] _].
  rewrite Hf, Hc, Hte, Hm, Hch, (flags_ok_has fl F_SKIPBODY), bool_decide_false by done. cbn [orb].
  assert (negb ((0 <? cl) && negb (cl =? ULLONG_MAX)) = (cl =? 0) || (cl =? ULLONG_MAX)) as Hbody.
  { destruct (Z.ltb_spec 0 cl), (Z.eqb_spec cl 0), (Z.eqb_spec cl ULLONG_MAX); try done; lia. }
  rewrite Hbody. unfold http_message_needs_eof. rewrite decide_True by done. clear Hbody.
  destruct (hp_upgrade q) eqn:Hu, (cl =? 0), (cl =? ULLONG_MAX); cbn [orb andb negb]; try done;
    by refine (eq_trans (complete_notify q i LF _ _ u _ _ He) _).
Qed.

Lemma headers_done_chunked v ma mi fl cl p i n u : stage v ma mi true fl cl p -> flags_ok fl -> has_flag fl F_CHUNKED = true -> v <> HTTP_CONNECT ->
  case_of (mkExec p i LF s_headers_done n no_marks u) = Break (mkExec (hp_set_nread 0 p) i LF s_chunk_size_start 0 no_marks u).
Proof.
  intros Hst Hfl Hch Hv. unfold HttpExec.step. exec_cbn. unfold do_headers_done, STRICT_CHECK, reset_nread. exec_cbn. cbn [Z.eqb Pos.eqb LF negb].
  pose proof (stage_nread _ _ _ _ _ _ 0 _ Hst) as [[[Ht Hm] He Hte Hf Hc] _].
  rewrite Hf, Hm, Hch, (flags_ok_has fl F_SKIPBODY), bool_decide_false by done. cbn [orb negb]. by rewrite andb_false_r.
Qed.

(** Data that are in the buffer are read at once. *)
Lemma read_whole p i b s u (d : bytes) : hp_content_length p = len d -> i + len d <= len data ->
  read_body data (mkExec p i b s 0 no_marks u) =
  mkExec (hp_set_content_length 0 p) (i + len d - 1) b s 0 (set_mark D_body (Some i) no_marks) u.
Proof.
  intros Hc Hd. unfold read_body, MARK, data_len. exec_cbn. rewrite Hc, Z.min_l by lia. unfold on_parser, ex_set_p, ex_set_marks. exec_cbn.
  rewrite Hc, Z.sub_diag. f_equal. lia.
Qed.

Lemma body_step v ma mi te fl p i b u body : HttpHead.stage v ma mi te fl (len body) p -> 0 < len body < ULLONG_MAX -> here data i body -> i + len body <= len data ->
  case_of (mkExec p i b s_body_identity 0 no_marks u) =
  Reexecute (mkExec (hp_set_state s_message_done (hp_set_content_length 0 p)) (i + len body - 1) b s_message_done 0 no_marks (cb_body c body u)).
Proof.
  intros Hst Hl Hb Hd. unfold HttpExec.step. exec_cbn. unfold do_body_identity, body_length_ok. exec_cbn.
  pose proof (st_parsing _ _ _ _ _ _ _ Hst) as [_ He Hte Hf Hc]. rewrite Hc.
  destruct (Z.eqb_spec (len body) 0), (Z.eqb_spec (len body) ULLONG_MAX); try lia. cbn [negb andb assert_].
  rewrite (read_whole _ _ _ _ _ body) by done.
  exec_cbn. cbn [hp_content_length hp_set_content_length]. change (wrap 64 0 =? 0) with true. cbn iota.
  pose proof (proj1 Hb). rewrite (data_simple c data D_body _ _ _ _ i) by first [done|cbn; lia|by destruct p]. exec_cbn.
  replace (i + len body - 1 + 1) with (i + len body) by lia. by rewrite (here_slice _ _ _ Hb).
Qed.

Lemma message_done_step q j b n u : hp_http_errno q = HPE_OK ->
  case_of (mkExec q j b s_message_done n no_marks u) =
  if hp_upgrade q then RETURN (j + 1) (completed q j b n u) else Break (completed q j b n u).
Proof.
  intros He. unfold HttpExec.step. exec_cbn. unfold do_message_done. refine (eq_trans (complete_notify q j b _ _ u _ _ He) _). by destruct q.
Qed.

(** The body of a known length, and the end of the message. *)
Lemma body_ends v ma mi te fl p i ch u body rest : stage v ma mi te fl (len body) p -> body <> [] -> len body < ULLONG_MAX -> here data i (body ++ rest) ->
  message_over (hp_upgrade p) (alive ma mi fl) (mkExec p i ch s_body_identity 0 no_marks u) (i + len body) (cb_body c body u).
Proof.
  intros Hst Hne Hmx Hb. pose proof (here_app _ _ _ _ Hb) as [Hbody _]. destruct body as [|b l] eqn:Eb; [done|]. rewrite <- Eb in *.
  assert (0 < len body) by (rewrite Eb, len_cons; pose proof (len_nonneg l); lia).
  pose proof (here_bound _ _ _ Hbody Hne). pose proof Hbody as Hb1. rewrite Eb in Hb1.
  set (q := hp_set_state s_message_done (hp_set_content_length 0 p)).
  assert (stage v ma mi te fl 0 q) as Hq by (destruct Hst as [[] []]; by destruct p).
  change (hp_upgrade p) with (hp_upgrade q).
  replace (i + len body) with (i + len body - 1 + 1) by lia.
  eapply (message_over_round v ma mi te fl 0 p i ch _ _ _ b l q); [exact Hb1|exact Hq|lia|done|].
  rewrite (round_body _ _ _ _ _ _ _ _ _ _ _ _ b l) by done. cbn [reexecute].
  erewrite body_step by (done || lia). rewrite message_done_step by apply Hq. fold q. by destruct (hp_upgrade q).
Qed.

Lemma message_over_trans x Q i s n m u up al j u' : gets x Q i s n m u ->
  (forall p ch, Q p -> message_over up al (mkExec p i ch s n m u) j u') -> message_over up al x j u'.
Proof.
  unfold message_over. destruct up; intros Hg Hn; [by eapply gets_stops|]. destruct Hg as (p & ch & HQ & Hx).
  destruct (Hn p ch HQ) as (k & Hk & p' & ch' & HQ' & Hx'). exists k. split; [done|]. exists p', ch'. split; [done|]. by etrans.
Qed.

(** *** Chunks *)

(** A round outside the head. *)
Lemma gets_body_jump p i ch s n m u b l p' i' ch' s' n' m' u' (Q : http_parser -> Prop) :
  here data i (b :: l) -> PARSING_HEADER s = false -> i <= i' ->
  switch (mkExec p i b s n m u) = Break (mkExec p' i' ch' s' n' m' u') -> Q p' ->
  gets (mkExec p i ch s n m u) Q (i' + 1) s' n' m' u'.
Proof.
  intros Hb Hs Hi' Hr HQ. exists p', ch'. split; [done|]. destruct (here_cons _ _ _ _ Hb) as (_ & Hi & _).
  apply (reaches_round c max lenient allow data _ (mkExec p' i' ch' s' n' m' u')); [cbn; lia|cbn; lia|]. by rewrite (round_body _ _ _ _ _ _ _ _ _ _ _ _ b l).
Qed.

Lemma notify_none n ER x k : n = N_chunk_header \/ n = N_chunk_complete -> hp_http_errno (ex_parser x) = HPE_OK ->
  CALLBACK_NOTIFY_ (simple_settings c) n ER x k = k x.
Proof. intros Hn He. unfold CALLBACK_NOTIFY_, ex_errno. rewrite He, decide_True by done. by destruct Hn as [-> | ->]. Qed.

Section Chunks.
Context (v : http_method) (ma mi fl : Z) (up : bool).
Hypothesis Hfl : flags_ok fl.
Hypothesis Hchunked : has_flag fl F_CHUNKED = true.

(** In a body in chunks; [f] are the flags and [cl] is the length, of what is left of a chunk. *)
Definition chunking (f cl : Z) p : Prop := stage v ma mi true f cl p /\ hp_upgrade p = up.

Lemma chunking_chunked cl p : chunking fl cl p -> has_flag (hp_flags p) F_CHUNKED = true.
Proof. intros [[[] _] _]. congruence. Qed.
Lemma chunking_length cl z p : chunking fl cl p -> 0 <= z < 2 ^ 64 -> chunking fl z (hp_set_content_length z p).
Proof. intros [Hst Hu] Hz. split; [by eapply stage_length|done]. Qed.
Lemma chunking_nread f cl z p : chunking f cl p -> chunking f cl (hp_set_nread z p).
Proof. intros [Hst Hu]. split; [by apply stage_nread|done]. Qed.
Lemma chunking_trailing p : chunking fl 0 p -> chunking (Z.lor fl F_TRAILING) 0 (set_flag F_TRAILING p).
Proof.
  intros [Hst Hu]. split; [|done]. apply stage_set_flag; [|done].
  pose proof (flags_ok_wrap _ Hfl) as Hf. unfold wrap in *. rewrite <- Z.land_ones in * by lia. by rewrite Z.land_lor_distr_l, Hf.
Qed.

Definition chunked p : Prop := has_flag (hp_flags p) F_CHUNKED = true.
Definition size_state (s : state) : bool := match s with s_chunk_size | s_chunk_parameters => true | _ => false end.
Definition is_hex (b : Z) : bool := 0 <=? table unhex b.

Lemma hex_sane b : is_hex b = true -> (b =? CR) = false /\ (table unhex b =? -1) = false /\ 0 <= table unhex b <= 15.
Proof.
  unfold is_hex. intros H. pose proof (unhex_range b). split_and!; [|lia..]. apply Z.eqb_neq. intros ->. by vm_compute in H.
Qed.

Lemma gets_hex l : forall a p i ch n u rest j, chunking fl a p -> 0 <= a < 16 ^ j -> 0 <= j -> j + len l <= 15 ->
  forallb is_hex l = true -> here data i (l ++ rest) -> 0 <= n -> n + len l <= max ->
  gets (mkExec p i ch s_chunk_size n no_marks u) (chunking fl (fold_left (fun a c => 16 * a + table unhex c) l a))
    (i + len l) s_chunk_size (n + len l) no_marks u.
Proof.
  induction l as [|b l IH]; intros a p i ch n u rest j Hp Ha Hj Hl Hx Hb Hn Hm.
  - change (len (@nil Z)) with 0. rewrite !Z.add_0_r. by apply gets_refl.
  - rewrite len_cons in *. pose proof (len_nonneg l). cbn [forallb] in Hx. apply andb_true_iff in Hx as [Hx Hxs].
    destruct (hex_sane b Hx) as (H1 & H2 & H3). cbn [app] in Hb.
    assert (16 ^ (j + 1) <= 16 ^ 15) by (apply Z.pow_le_mono_r; lia). rewrite Z.pow_add_r in * by lia.
    set (a' := 16 * a + table unhex b). assert (0 <= a' < 16 ^ j * 16 ^ 1) by lia. assert (a' < 2 ^ 64) by lia.
    assert (chunk_size_digit (table unhex b) a = Some a') as Hd.
    { unfold chunk_size_digit, u64. rewrite (Z.mod_small (a * 16)), Z.mod_small by lia. change ((ULLONG_MAX - 16) / 16) with 1152921504606846974.
      destruct (Z.ltb_spec 1152921504606846974 a); [lia|]. f_equal. lia. }
    eapply (gets_trans _ (chunking fl a') (i + 1) s_chunk_size (n + 1) no_marks u).
    + eapply (gets_jump p i ch s_chunk_size n no_marks u b _ (hp_set_content_length a' p)); [exact Hb|done|lia|lia|done| |by apply (chunking_length a); [|lia]].
      apply switch_step. unfold HttpExec.step. exec_cbn. unfold do_chunk_size, is_chunked, assert_. exec_cbn.
      by rewrite (chunking_chunked _ _ Hp), H1, H2, (pa_cl _ _ _ _ _ (st_parsing _ _ _ _ _ _ _ (proj1 Hp))), Hd.
    + intros p1 ch1 Hp1. destruct (here_cons _ _ _ _ Hb) as (_ & _ & Hb').
      replace (i + (len l + 1)) with (i + 1 + len l) by lia. replace (n + (len l + 1)) with (n + 1 + len l) by lia.
      by apply (IH a' p1 (i + 1) ch1 (n + 1) u rest (j + 1)); rewrite ?Z.pow_add_r; try done; lia.
Qed.

Lemma gets_params l : forall p i ch n u rest, chunked p -> forallb (fun b => negb (b =? CR)) l = true ->
  here data i (l ++ rest) -> 0 <= n -> n + len l <= max ->
  gets (mkExec p i ch s_chunk_parameters n no_marks u) (eq p) (i + len l) s_chunk_parameters (n + len l) no_marks u.
Proof.
  induction l as [|b l IH]; intros p i ch n u rest Hp Hx Hb Hn Hm.
  - change (len (@nil Z)) with 0. rewrite !Z.add_0_r. by apply gets_refl.
  - rewrite len_cons in *. pose proof (len_nonneg l). cbn [forallb app] in *. apply andb_true_iff in Hx as [Hx%negb_true_iff Hxs].
    eapply (gets_trans _ (eq p) (i + 1) s_chunk_parameters (n + 1) no_marks u).
    + eapply gets_jump; [exact Hb|done|lia|lia|done| |done].
      apply switch_step. unfold HttpExec.step. exec_cbn. unfold do_chunk_parameters, is_chunked, assert_. exec_cbn. by rewrite Hp, Hx.
    + intros p1 ch1 <-. destruct (here_cons _ _ _ _ Hb) as (_ & _ & Hb').
      replace (i + (len l + 1)) with (i + 1 + len l) by lia. replace (n + (len l + 1)) with (n + 1 + len l) by lia. apply (IH p _ _ _ _ rest); first [done|lia].
Qed.

(** A size and its parameters, up to the CR. *)
Lemma gets_size k cl p i ch u rest : chunking fl cl p -> chunk_ok k = true -> here data i (size_line k ++ rest) -> len (size_line k) <= max ->
  exists s n, size_state s = true /\ 0 <= n /\ n + 2 = len (size_line k) /\
  gets (mkExec p i ch s_chunk_size_start 0 no_marks u) (chunking fl (len (ck_data k))) (i + n) s n no_marks u.
Proof.
  intros Hp Hk Hb Hm. unfold size_line in *. rewrite !len_app in *. change (len crlf) with 2 in *. rewrite <- !app_assoc in Hb.
  apply andb_true_iff in Hk as [[[[Hx Hne%negb_true_iff%bool_decide_eq_false]%andb_true_iff Hl%Z.leb_le]%andb_true_iff Hpar]%andb_true_iff Hv%Z.eqb_eq].
  destruct (ck_size k) as [|b l]; [done|]. cbn [forallb] in Hx. apply andb_true_iff in Hx as [Hx Hxs]. rewrite len_cons in *. pose proof (len_nonneg l).
  destruct (hex_sane b Hx) as (H1 & H2 & H3). cbn [app] in Hb. pose proof (len_nonneg (ck_params k)).
  assert (gets (mkExec p i ch s_chunk_size_start 0 no_marks u) (chunking fl (len (ck_data k))) (i + 1 + len l) s_chunk_size (1 + len l) no_marks u) as Hsize.
  { eapply (gets_trans _ (chunking fl (table unhex b)) (i + 1) s_chunk_size 1 no_marks u).
    - eapply (gets_jump _ _ _ s_chunk_size_start 0 _ _ b _ (hp_set_content_length (table unhex b) p)); [exact Hb|done|lia|lia|done| |by apply (chunking_length cl); [|lia]].
      apply switch_step. unfold HttpExec.step. exec_cbn. unfold do_chunk_size_start, is_chunked, assert_. exec_cbn.
      by rewrite (chunking_chunked _ _ Hp), H2.
    - intros p1 ch1 Hp1. destruct (here_cons _ _ _ _ Hb) as (_ & _ & Hb'). rewrite <- Hv. unfold hex_value. cbn [fold_left].
      rewrite Z.mul_0_r, Z.add_0_l. by apply (gets_hex l _ _ _ _ _ _ _ 1 Hp1 ltac:(lia) ltac:(lia) ltac:(lia) Hxs Hb'); lia. }
  destruct (ck_params k) as [|b1 l1].
  - exists s_chunk_size, (1 + len l). change (len (@nil Z)) with 0 in *. split_and!; [done|lia..|]. by rewrite Z.add_assoc.
  - apply andb_true_iff in Hpar as [Hb1 Hl1]. rewrite len_cons in *. pose proof (len_nonneg l1).
    exists s_chunk_parameters, (1 + len l + 1 + len l1). split_and!; [done|lia..|].
    eapply gets_trans; [exact Hsize|]. intros p1 ch1 Hp1. destruct (here_cons _ _ _ _ Hb) as (_ & _ & Hb'). apply here_app in Hb' as [_ Hb']. cbn [app] in Hb'.
    eapply (gets_trans _ (eq p1) (i + 1 + len l + 1) s_chunk_parameters (1 + len l + 1) no_marks u).
    + eapply gets_jump; [exact Hb'|done|lia|lia|done| |done].
      apply switch_step. unfold HttpExec.step. exec_cbn. unfold do_chunk_size, is_chunked, assert_. exec_cbn.
      rewrite (chunking_chunked _ _ Hp1), Hb1. apply orb_true_iff in Hb1 as [->%Z.eqb_eq | ->%Z.eqb_eq]; done.
    + intros p2 ch2 <-. apply here_cons in Hb' as (_ & _ & Hb').
      replace (i + (1 + len l + 1 + len l1)) with (i + 1 + len l + 1 + len l1) by lia.
      eapply gets_weaken; [eapply gets_params; [by apply (chunking_chunked (len (ck_data k)))|done|exact Hb'|lia|lia]|by intros ? <-].
Qed.

(** The end of that line: data follow, or the empty line. *)
Definition after_size (cl : Z) p : http_parser := let q := hp_set_nread 0 p in if cl =? 0 then set_flag F_TRAILING q else q.

Lemma gets_size_end cl s p i ch n u rest : chunking fl cl p -> size_state s = true -> here data i (crlf ++ rest) -> 0 <= n -> n + 2 <= max ->
  gets (mkExec p i ch s n no_marks u) (eq (after_size cl p)) (i + 2) (if cl =? 0 then s_header_field_start else s_chunk_data) 0 no_marks u.
Proof.
  intros Hp Hs Hb Hn Hm. pose proof (chunking_chunked _ _ Hp) as Hc. change (crlf ++ rest) with (CR :: LF :: rest) in Hb.
  eapply (gets_trans _ (eq p) (i + 1) s_chunk_size_almost_done (n + 1) no_marks u).
  - eapply gets_jump; [exact Hb|by destruct s|lia|lia|done| |done]. apply switch_step.
    destruct s; try done; unfold HttpExec.step; exec_cbn; unfold do_chunk_size, do_chunk_parameters, is_chunked, assert_; exec_cbn; by rewrite Hc.
  - intros p1 ch1 <-. apply here_cons in Hb as (_ & _ & Hb). replace (i + 2) with (i + 1 + 1) by lia.
    eapply gets_jump; [exact Hb|done|lia|lia|done| |reflexivity]. apply switch_step.
    unfold HttpExec.step. exec_cbn. unfold do_chunk_size_almost_done, is_chunked, assert_, STRICT_CHECK, reset_nread. exec_cbn.
    rewrite Hc. cbn [Z.eqb Pos.eqb LF negb]. pose proof (chunking_nread _ _ 0 _ Hp) as [[[_ He _ _ Hcl] _] _]. rewrite Hcl.
    unfold CALLBACK_NOTIFY, after_size. destruct (cl =? 0); exec_cbn; by rewrite notify_none by first [by left|done].
Qed.

Lemma hex_bound l : forall a j, 0 <= a < 16 ^ j -> 0 <= j -> forallb is_hex l = true ->
  0 <= fold_left (fun a c => 16 * a + table unhex c) l a < 16 ^ (j + len l).
Proof.
  induction l as [|b l IH]; intros a j Ha Hj Hl; [change (len (@nil Z)) with 0; by rewrite Z.add_0_r|].
  cbn [forallb] in Hl. apply andb_true_iff in Hl as [Hb Hl]. rewrite len_cons. cbn [fold_left].
  replace (j + (len l + 1)) with (j + 1 + len l) by lia. apply IH; [|lia|done]. rewrite Z.pow_add_r by lia.
  pose proof (hex_sane b Hb). lia.
Qed.

Lemma chunk_small k : chunk_ok k = true -> len (ck_data k) < ULLONG_MAX.
Proof.
  intros [[[[Hx _]%andb_true_iff Hl%Z.leb_le]%andb_true_iff _]%andb_true_iff Hv%Z.eqb_eq]%andb_true_iff.
  pose proof (hex_bound (ck_size k) 0 0 ltac:(lia) ltac:(lia) Hx) as Hb. fold (hex_value (ck_size k)) in Hb. rewrite Hv in Hb.
  assert (16 ^ (0 + len (ck_size k)) <= 16 ^ 15) by (apply Z.pow_le_mono_r; lia). unfold ULLONG_MAX. lia.
Qed.

(** The data of a chunk and the end of its line. *)
Lemma gets_data d p i ch u rest : chunking fl (len d) p -> d <> [] -> len d < ULLONG_MAX -> here data i (d ++ crlf ++ rest) ->
  gets (mkExec p i ch s_chunk_data 0 no_marks u) (chunking fl 0) (i + len d + 2) s_chunk_size_start 0 no_marks (cb_body c d u).
Proof.
  intros Hp Hne Hd Hb. pose proof (here_app _ _ _ _ Hb) as [Hdata Hcr]. change (crlf ++ rest) with (CR :: LF :: rest) in *.
  destruct d as [|b l] eqn:Ed; [done|]. rewrite <- Ed in *. assert (0 < len d) by (rewrite Ed, len_cons; pose proof (len_nonneg l); lia).
  pose proof (here_bound _ _ _ Hdata Hne) as Hlen. set (p1 := hp_set_content_length 0 p).
  assert (chunking fl 0 p1) as Hp1 by (by apply (chunking_length (len d))).
  destruct (Hp) as [[[_ _ _ _ Hcl] _] _].
  eapply (gets_trans _ (eq p1) (i + len d - 1 + 1) s_chunk_data_almost_done 0 (set_mark D_body (Some i) no_marks) u).
  { pose proof Hb as Hb1. rewrite Ed in Hb1. cbn [app] in Hb1. eapply gets_body_jump; [exact Hb1|done| |apply switch_step|reflexivity]; [lia|].
    unfold HttpExec.step. exec_cbn. unfold do_chunk_data, is_chunked, assert_, body_length_ok. exec_cbn. rewrite (chunking_chunked _ _ Hp), Hcl.
    destruct (Z.eqb_spec (len d) 0), (Z.eqb_spec (len d) ULLONG_MAX); try lia. cbn [negb andb].
    by rewrite (read_whole _ _ _ _ _ d) by done. }
  intros p2 ch2 <-. replace (i + len d - 1 + 1) with (i + len d) by lia. set (p2 := hp_set_state s_chunk_data_done p1).
  eapply (gets_trans _ (eq p2) (i + len d + 1) s_chunk_data_done 0 no_marks (cb_body c d u)).
  { eapply gets_body_jump; [exact Hcr|done|done|apply switch_step|reflexivity].
    unfold HttpExec.step. exec_cbn. unfold do_chunk_data_almost_done, is_chunked, assert_, STRICT_CHECK. exec_cbn. rewrite (chunking_chunked _ _ Hp1).
    change (hp_content_length p1 =? 0) with true. cbn [Z.eqb Pos.eqb CR negb]. unfold CALLBACK_DATA.
    pose proof (proj1 Hdata). rewrite (data_simple c data D_body _ _ _ _ i) by (done || apply Hp1 || (cbn; lia)). exec_cbn. rewrite Z.add_0_r, (here_slice _ _ _ Hdata). done. }
  intros p3 ch3 <-. assert (chunking fl 0 p2) as Hp2 by (destruct Hp1; split; [by apply stage_state|done]).
  apply here_cons in Hcr as (_ & _ & Hlf). replace (i + len d + 2) with (i + len d + 1 + 1) by lia.
  eapply gets_body_jump; [exact Hlf|done|done|apply switch_step|by apply (chunking_nread _ _ 0), Hp2].
  unfold HttpExec.step. exec_cbn. unfold do_chunk_data_done, is_chunked, assert_, STRICT_CHECK, reset_nread. exec_cbn. rewrite (chunking_chunked _ _ Hp2).
  cbn [Z.eqb Pos.eqb LF negb]. unfold CALLBACK_NOTIFY. exec_cbn. by rewrite notify_none by first [by right|apply Hp2].
Qed.

Lemma gets_chunk k cl p i ch u rest : chunking fl cl p -> chunk_ok k = true -> ck_data k <> [] -> here data i (chunk_text k ++ rest) ->
  len (size_line k) <= max ->
  gets (mkExec p i ch s_chunk_size_start 0 no_marks u) (chunking fl 0) (i + len (chunk_text k)) s_chunk_size_start 0 no_marks (cb_body c (ck_data k) u).
Proof.
  intros Hp Hk Hne Hb Hm. unfold chunk_text in *. rewrite <- !app_assoc in Hb.
  destruct (gets_size k cl p i ch u _ Hp Hk Hb Hm) as (s & n & Hs & Hn & Hlen & Hg). pose proof (here_app _ _ _ _ Hb) as [_ Hb2].
  assert (here data (i + n) (crlf ++ ck_data k ++ crlf ++ rest)) as Hb1.
  { unfold size_line in Hb, Hlen. rewrite !len_app in Hlen. change (len crlf) with 2 in Hlen. rewrite <- !app_assoc, app_assoc in Hb. apply here_app in Hb as [_ Hb].
    rewrite len_app in Hb. by replace n with (len (ck_size k) + len (ck_params k)) by lia. }
  eapply gets_trans; [exact Hg|]. intros p1 ch1 Hp1.
  eapply gets_trans; [eapply gets_size_end; [exact Hp1|exact Hs|exact Hb1|done|lia]|]. intros p2 ch2 <-. unfold after_size.
  assert ((len (ck_data k) =? 0) = false) as -> by (apply Z.eqb_neq; destruct (ck_data k) as [|? l]; [done|rewrite len_cons; pose proof (len_nonneg l); lia]).
  rewrite !len_app. change (len crlf) with 2. replace (i + n + 2) with (i + len (size_line k)) by lia. rewrite !Z.add_assoc.
  eapply gets_data; [by apply chunking_nread|done|by apply chunk_small|exact Hb2].
Qed.

Lemma gets_chunks ks : forall cl p i ch u rest, chunking fl cl p ->
  forallb (fun k => chunk_ok k && negb (bool_decide (ck_data k = []))) ks = true ->
  here data i (flat_map chunk_text ks ++ rest) -> forallb (fun k => len (size_line k) <=? max) ks = true ->
  exists cl', gets (mkExec p i ch s_chunk_size_start 0 no_marks u) (chunking fl cl') (i + len (flat_map chunk_text ks)) s_chunk_size_start 0 no_marks
    (fold_left (fun u b => cb_body c b u) (map ck_data ks) u).
Proof.
  induction ks as [|k ks IH]; intros cl p i ch u rest Hp Hk Hb Hm.
  - exists cl. cbn [flat_map map fold_left]. change (len (@nil Z)) with 0. rewrite Z.add_0_r. by apply gets_refl.
  - cbn [forallb flat_map map fold_left] in *. rewrite <- app_assoc in Hb. rewrite len_app. apply andb_true_iff in Hm as [Hm%Z.leb_le Hms].
    apply andb_true_iff in Hk as [[Hk Hne%negb_true_iff%bool_decide_eq_false]%andb_true_iff Hks].
    destruct (gets_chunk k cl p i ch u _ Hp Hk Hne Hb Hm) as (p1 & ch1 & Hp1 & Hr1). apply here_app in Hb as [_ Hb].
    destruct (IH 0 p1 (i + len (chunk_text k)) ch1 (cb_body c (ck_data k) u) rest Hp1 Hks Hb Hms) as (cl' & p2 & ch2 & Hp2 & Hr2).
    exists cl', p2, ch2. split; [done|]. rewrite Z.add_assoc. by etrans.
Qed.

Lemma has_trailing : has_flag (Z.lor fl F_TRAILING) F_TRAILING = true.
Proof. rewrite has_flag_lor. apply orb_true_r. Qed.

Lemma alive_trailing : alive ma mi (Z.lor fl F_TRAILING) = alive ma mi fl.
Proof. unfold alive. rewrite !has_flag_lor. change (has_flag F_TRAILING _) with false. by rewrite !orb_false_r. Qed.

(** The empty chunk ends the message. *)
Lemma last_chunk k cl p i ch u rest : chunking fl cl p -> chunk_ok k = true -> ck_data k = [] -> here data i (chunk_text k ++ rest) ->
  len (size_line k) <= max ->
  message_over up (alive ma mi fl) (mkExec p i ch s_chunk_size_start 0 no_marks u) (i + len (chunk_text k)) u.
Proof.
  intros Hp Hk He Hb Hm. unfold chunk_text in *. rewrite He in *. cbn [app] in *. rewrite <- !app_assoc in Hb.
  destruct (gets_size k cl p i ch u _ Hp Hk Hb Hm) as (s & n & Hs & Hn & Hlen & Hg). pose proof (here_app _ _ _ _ Hb) as [_ Hb2].
  assert (here data (i + n) (crlf ++ crlf ++ rest)) as Hb1.
  { unfold size_line in Hb, Hlen. rewrite !len_app in Hlen. change (len crlf) with 2 in Hlen. rewrite <- !app_assoc, app_assoc in Hb. apply here_app in Hb as [_ Hb].
    rewrite len_app in Hb. by replace n with (len (ck_size k) + len (ck_params k)) by lia. }
  rewrite He in Hg. change (len []) with 0 in Hg.
  eapply message_over_trans; [exact Hg|]. intros p1 ch1 Hp1.
  eapply message_over_trans; [eapply gets_size_end; [exact Hp1|exact Hs|exact Hb1|done|lia]|]. intros p2 ch2 <-. unfold after_size. cbn [Z.eqb].
  pose proof (chunking_trailing _ (chunking_nread _ _ 0 _ Hp1)) as Hq. set (q := set_flag F_TRAILING (hp_set_nread 0 p1)) in *.
  replace (i + n + 2) with (i + len (size_line k)) by lia. change (crlf ++ rest) with (CR :: LF :: rest) in Hb2.
  eapply (message_over_trans _ (eq q)).
  { eapply gets_jump; [exact Hb2|done|done|lia|done|reflexivity|reflexivity]. }
  intros p2 ch3 <-. apply here_cons in Hb2 as (_ & _ & Hb2). rewrite len_app. change (len crlf) with 2.
  replace (i + (len (size_line k) + 2)) with (i + len (size_line k) + 1 + 1) by lia.
  rewrite <- alive_trailing. destruct Hq as [Hq Hup]. rewrite <- Hup.
  eapply (message_over_round) with (n' := 2); [exact Hb2|exact Hq|lia|done|].
  rewrite (round_header _ _ _ _ _ _ _ _ _ _ _ _ LF rest) by first [done|cbn; lia].
  pose proof (st_parsing _ _ _ _ _ _ _ Hq) as [_ Herr _ Hf _].
  cbn [reexecute]. unfold HttpExec.step at 1. exec_cbn. unfold do_headers_almost_done, STRICT_CHECK. exec_cbn. cbn [Z.eqb Pos.eqb LF negb].
  rewrite Hf, has_trailing. unfold CALLBACK_NOTIFY_NOADVANCE. rewrite notify_none by first [by right|done]. exec_cbn.
  unfold UPDATE_STATE. exec_cbn. change (0 + 1 + 1) with 2. rewrite message_done_step by done. by destruct (hp_upgrade q).
Qed.
End Chunks.

(** The callbacks of the pieces of a body. *)
Abbreviation pieces_user := (fold_left (fun u b => cb_body c b u)).

Lemma whole_over v ma mi fl cl p i ch n u body rest : stage v ma mi false fl cl p -> flags_ok fl -> has_flag fl F_CHUNKED = false -> v <> HTTP_CONNECT ->
  here data i (LF :: body ++ rest) -> 0 <= n < max -> 0 <= cl <= ULLONG_MAX -> len body = (if cl =? ULLONG_MAX then 0 else cl) ->
  message_over (wants_upgrade fl) (alive ma mi fl) (mkExec p i ch s_headers_almost_done n no_marks u) (i + 1 + len body)
    (pieces_user (if bool_decide (body = []) then [] else [body]) (cb_headers c v ma mi u)).
Proof.
  intros Hst Hfl Hch Hv Hb Hn Hcl Hlen. destruct (here_cons _ _ _ _ Hb) as (_ & _ & Hb').
  set (q := hp_set_nread 0 (hp_set_upgrade (wants_upgrade fl) p)).
  assert (stage v ma mi false fl cl q) as Hq by (by apply stage_nread, stage_upgrade).
  assert (round (simple_settings c) max lenient allow data (mkExec p i ch s_headers_almost_done n no_marks u) =
    if (cl =? 0) || (cl =? ULLONG_MAX) then
      if hp_upgrade q then RETURN (i + 1) (completed q i LF 0 (cb_headers c v ma mi u)) else Break (completed q i LF 0 (cb_headers c v ma mi u))
    else Break (mkExec q i LF s_body_identity 0 no_marks (cb_headers c v ma mi u))) as Hr.
  { erewrite round_header by (exact Hb || done || lia). rewrite (headers_almost_done v ma mi false fl cl) by done. cbn [reexecute].
    rewrite (headers_done v ma mi fl cl) by (by apply stage_upgrade || done || lia). fold q.
    destruct (_ || _), (hp_upgrade q); done. }
  change (wants_upgrade fl) with (hp_upgrade q).
  destruct ((cl =? 0) || (cl =? ULLONG_MAX)) eqn:Hc.
  - assert (body = []) as ->.
    { apply orb_true_iff in Hc. destruct body; [done|]. rewrite len_cons in Hlen. pose proof (len_nonneg body). destruct (cl =? ULLONG_MAX); lia. }
    change (len (@nil Z)) with 0. rewrite Z.add_0_r, bool_decide_true by done. by eapply message_over_round.
  - apply orb_false_iff in Hc as [Hc0%Z.eqb_neq Hc1]. rewrite Hc1 in Hlen. apply Z.eqb_neq in Hc1. subst cl.
    rewrite bool_decide_false by (intros ->; done).
    eapply (message_over_trans _ (eq q)); [|intros p' ch' <-; eapply body_ends; [exact Hq|by intros ->|lia|exact Hb']].
    exists q, LF. split; [done|]. apply (reaches_round c max lenient allow data _ (mkExec q i LF _ 0 no_marks _)); [|cbn; lia|exact Hr].
    destruct (here_cons _ _ _ _ Hb) as (_ & ? & _). cbn. lia.
Qed.

Lemma chunks_over v ma mi fl cl p i ch n u ks k rest : stage v ma mi true fl cl p -> flags_ok fl -> has_flag fl F_CHUNKED = true ->
  has_flag fl F_CONTENTLENGTH = false -> v <> HTTP_CONNECT -> 0 <= n < max ->
  forallb (fun k => chunk_ok k && negb (bool_decide (ck_data k = []))) ks = true -> chunk_ok k = true -> ck_data k = [] ->
  forallb (fun k => len (size_line k) <=? max) (ks ++ [k]) = true -> here data i (LF :: flat_map chunk_text (ks ++ [k]) ++ rest) ->
  message_over (wants_upgrade fl) (alive ma mi fl) (mkExec p i ch s_headers_almost_done n no_marks u) (i + 1 + len (flat_map chunk_text (ks ++ [k])))
    (pieces_user (map ck_data ks) (cb_headers c v ma mi u)).
Proof.
  intros Hst Hfl Hch Hcl Hv Hn Hks Hk He Hms Hb. rewrite forallb_app in Hms. apply andb_true_iff in Hms as [Hms [Hm%Z.leb_le _]%andb_true_iff].
  set (q := hp_set_nread 0 (hp_set_upgrade (wants_upgrade fl) p)).
  assert (chunking v ma mi (wants_upgrade fl) fl cl q) as Hq by (split; [by apply stage_nread, stage_upgrade|done]).
  eapply (message_over_trans _ (eq q) (i + 1) s_chunk_size_start 0 no_marks).
  { eapply gets_jump; [exact Hb|done|lia|lia|done| |reflexivity]. rewrite (headers_almost_done v ma mi true fl cl) by done. cbn [reexecute].
    by rewrite (headers_done_chunked v ma mi fl cl) by (by apply stage_upgrade || done). }
  intros q1 ch1 <-. apply here_cons in Hb as (_ & _ & Hb). rewrite flat_map_app in *. cbn [flat_map] in *. rewrite app_nil_r, <- app_assoc in *. rewrite len_app.
  destruct (gets_chunks v ma mi fl (wants_upgrade fl) Hch ks cl q (i + 1) ch1 (cb_headers c v ma mi u) _ Hq Hks Hb Hms) as [cl' Hg].
  eapply message_over_trans; [exact Hg|]. intros q2 ch2 Hq2. apply here_app in Hb as [_ Hb]. rewrite Z.add_assoc. by eapply last_chunk.
Qed.

(** *** Whole requests *)

Lemma fold_digits_bound l : forall a j, 0 <= a < 10 ^ j -> 0 <= j -> forallb IS_NUM l = true ->
  0 <= fold_left (fun a c => 10 * a + (c - 48)) l a < 10 ^ (j + len l).
Proof.
  induction l as [|b l IH]; intros a j Ha Hj Hl; [change (len (@nil Z)) with 0; by rewrite Z.add_0_r|].
  cbn [forallb] in Hl. apply andb_true_iff in Hl as [Hb Hl]. rewrite len_cons. cbn [fold_left].
  replace (j + (len l + 1)) with (j + 1 + len l) by lia. apply IH; [|lia|done]. rewrite Z.pow_add_r by lia.
  unfold IS_NUM in Hb. lia.
Qed.

Lemma headers_effect_length hs : forall fl cl fl' cl', headers_effect hs (fl, cl) = Some (fl', cl') -> 0 <= cl <= ULLONG_MAX -> 0 <= cl' <= ULLONG_MAX.
Proof.
  induction hs as [|h hs IH]; intros fl cl fl' cl' He Hcl; [by injection He as <- <-|]. cbn [headers_effect] in He.
  destruct (header_effect h (fl, cl)) as [[fl1 cl1]|] eqn:He1; [|done]. eapply IH; [exact He|].
  unfold header_effect in He1. destruct (kind_of h.1); [by injection He1 as <- <-| |..|by injection He1 as <- <-].
  - destruct (connection_flags _); [|done]. by injection He1 as <- <-.
  - destruct (forallb IS_NUM h.2) eqn:Hn; [|done]. destruct (Z.leb_spec (len h.2) 18); [|done]. destruct (has_flag _ _); [done|].
    injection He1 as <- <-. pose proof (fold_digits_bound h.2 0 0 ltac:(lia) ltac:(lia) Hn) as Hd. unfold digits_value.
    assert (10 ^ (0 + len h.2) <= 10 ^ 18) by (apply Z.pow_le_mono_r; lia). unfold ULLONG_MAX. lia.
  - case_bool_decide; [|done]. by injection He1 as <- <-.
Qed.

Lemma request_run p i ch n0 u r fl rest : idle p -> request_ok r fl -> here data i (request_text r ++ rest) -> within max r -> 0 <= n0 <= 2 ->
  message_over (wants_upgrade fl) (kept_alive r fl) (mkExec p i ch s_start_req n0 no_marks u) (i + len (request_text r))
    (pieces_user (body_pieces r) (head_user c r u)).
Proof.
  intros [Ht He] (cl & Heff & Hv & Hurl & Hma & Hmi & Hok & Hbody) Hb [Hm Hms] Hn0. unfold request_text in *. rewrite <- app_assoc in Hb.
  pose proof (headers_effect_flags _ _ _ _ _ Heff eq_refl) as Hfl.
  assert (0 <= cl <= ULLONG_MAX) as Hcl by (eapply headers_effect_length; [exact Heff|unfold ULLONG_MAX; lia]).
  destruct (gets_head c max lenient allow data p i ch n0 u r fl cl _ Ht He ltac:(done) Hb ltac:(lia) ltac:(lia)) as (n & Hn & Hg).
  eapply message_over_trans; [exact Hg|]. intros p1 ch1 Hp1. unfold staged in Hp1.
  assert (exists l, head_text r = l ++ [LF]) as [l Hl].
  { unfold head_text. change crlf with ([CR] ++ [LF]) at 2. rewrite !app_assoc. by eexists. }
  replace (i + len (head_text r ++ body_text r)) with (i + len (head_text r) - 1 + 1 + len (body_text r)) by (rewrite len_app; lia).
  assert (here data (i + len (head_text r) - 1) (LF :: body_text r ++ rest)) as Hb'.
  { rewrite Hl, len_snoc. replace (i + (len l + 1) - 1) with (i + len l) by lia. rewrite Hl, <- app_assoc in Hb. by apply here_app in Hb as [_ Hb]. }
  clear Hb. unfold body_text, body_pieces, kept_alive, head_user in *. destruct (r_chunks r) as [[ks k]|].
  - destruct Hbody as (Hch & Hcon & Hks & Hk & Hke & _). rewrite Hch in Hp1. by eapply chunks_over.
  - destruct Hbody as [Hch Hlen]. rewrite Hch in Hp1. by eapply whole_over.
Qed.

(** A request after which the connection goes on. *)
Definition plain (r : request) : Prop :=
  exists fl, request_ok r fl /\ wants_upgrade fl = false /\ kept_alive r fl = true /\ within max r.

Lemma requests_run rs : forall p i ch n0 u rest, idle p -> Forall plain rs -> here data i (flat_map request_text rs ++ rest) -> 0 <= n0 <= 2 ->
  exists n, 0 <= n <= 2 /\
  gets (mkExec p i ch s_start_req n0 no_marks u) idle (i + len (flat_map request_text rs)) s_start_req n no_marks
    (fold_left (fun u r => request_user c r false u) rs u).
Proof.
  induction rs as [|r rs IH]; intros p i ch n0 u rest Hp Hrs Hb Hn0.
  - exists n0. split; [done|]. cbn [flat_map fold_left]. change (len (@nil Z)) with 0. rewrite Z.add_0_r. by apply gets_refl.
  - apply Forall_cons in Hrs as [(fl & Hok & Hup & Hal & Hm) Hrs]. cbn [flat_map fold_left] in *. rewrite <- app_assoc in Hb. rewrite len_app.
    pose proof (request_run p i ch n0 u r fl _ Hp Hok Hb Hm Hn0) as Hr. rewrite Hup, Hal in Hr.
    destruct Hr as (n1 & Hn1 & p1 & ch1 & [Hp1 _] & Hr). apply here_app in Hb as [_ Hb].
    destruct (IH p1 (i + len (request_text r)) ch1 n1 (request_user c r false u) rest Hp1 Hrs Hb Hn1) as (n & Hn & Hg).
    destruct Hg as (p2 & ch2 & Hp2 & Hg). exists n. split; [done|]. rewrite Z.add_assoc. exists p2, ch2. split; [done|]. by etrans.
Qed.
End Bodies.

(** ** The theorem *)

Section Requests.
Context {U : Type} (c : callbacks U) (max : Z) {Hmax : Header_limit max}.

(** The end of the buffer, with no data pending. *)
Lemma loop_ends lenient allow data k p ch s n u : hp_http_errno p = HPE_OK ->
  main_loop (simple_settings c) max lenient allow data k (mkExec p (len data) ch s n no_marks u) =
  Done (len data) (hp_set_state s (hp_set_nread n p)) u.
Proof.
  intros He. assert (finish (end_of_buffer (simple_settings c) data (mkExec p (len data) ch s n no_marks u)) =
    Done (len data) (hp_set_state s (hp_set_nread n p)) u) as Hf.
  { unfold end_of_buffer. rewrite decide_True by (vm_compute; lia). unfold CALLBACK_DATA_NOADVANCE, CALLBACK_DATA_, ex_errno.
    cbn [ex_parser ex_marks get_mark no_marks header_field_mark header_value_mark url_mark body_mark status_mark].
    by rewrite He, !decide_True. }
  rewrite <- Hf. destruct k; cbn [main_loop ex_p]; unfold data_len; by rewrite Z.eqb_refl.
Qed.

(** [http_parser_execute] on any number of pipelined requests: the callbacks of each, in
    order; after a request for an upgrade, it stops at the first byte that follows. *)
Lemma requests_parsed p rs r fl rest u :
  left_in (hp_upgrade p) true p -> Forall (plain max) rs -> request_ok r fl -> within max r ->
  (wants_upgrade fl = false -> rest = []) ->
  let wire := flat_map request_text rs ++ request_text r in
  exists p', http_parser_execute (simple_settings c) max p (wire ++ rest) u =
      Done (len wire) p' (request_user c r (wants_upgrade fl) (fold_left (fun u r => request_user c r false u) rs u)) /\
    left_in (wants_upgrade fl) (kept_alive r fl) p'.
Proof.
  intros (Hp & _ & Hs & Hn) Hrs Hok Hm Hrest wire. unfold http_parser_execute. rewrite bool_decide_true by apply Hp. cbn [negb].
  assert (0 < len (wire ++ rest)).
  { unfold wire, request_text, head_text, body_text. rewrite !len_app. change (len crlf) with 2.
    repeat match goal with |- context [len ?l] => lazymatch goal with _ : 0 <= len l |- _ => fail | _ => pose proof (len_nonneg l) end end. lia. }
  destruct (Z.eqb_spec (len (wire ++ rest)) 0); [lia|].
  set (lenient := hp_lenient_http_headers p). set (allow := hp_allow_chunked_length p).
  assert (here (wire ++ rest) 0 (flat_map request_text rs ++ request_text r ++ rest)) as Hb.
  { split; [done|]. exists []. unfold wire. by rewrite drop_0, <- app_assoc, app_nil_r. }
  destruct (requests_run c max lenient allow (wire ++ rest) rs p 0 0 (hp_nread p) u _ Hp Hrs Hb Hn) as (n0 & Hn' & Hg).
  apply here_app in Hb as [_ Hb].
  assert (message_over c max lenient allow (wire ++ rest) (wants_upgrade fl) (kept_alive r fl) (entry p u) (len wire)
    (fold_left (fun u b => cb_body c b u) (body_pieces r) (head_user c r (fold_left (fun u r => request_user c r false u) rs u)))) as Hr.
  { unfold entry. rewrite Hs. cbn [entry_marks]. eapply message_over_trans; [exact Hg|]. intros p1 ch1 Hp1.
    unfold wire. rewrite len_app. by eapply request_run. }
  unfold message_over in Hr. destruct (wants_upgrade fl).
  - destruct Hr as (p' & Hp' & Hr). exists p'. split; [|done]. apply Hr. unfold len. cbn. lia.
  - rewrite (Hrest eq_refl), app_nil_r in *. destruct Hr as (n1 & Hn1 & p1 & ch1 & [Hp1 Hup] & Hr).
    destruct (Hr (length wire)) as (k & _ & ->); [unfold len; cbn; lia|].
    eexists. split; [apply loop_ends, Hp1|]. split; [by destruct p1, Hp1|]. split; [by destruct p1|]. split; [by destruct p1|].
    cbn. by rewrite wrap_small by lia.
Qed.
End Requests.
