(* ===== verification/HttpWindow.v ===== *)
(** * The same bytes in two buffers

    [http_parser_execute] on a buffer and on a larger one that contains its bytes: as long as
    the position stays in the common part, the two runs go through the same states, up to
    the offset, the fields the parser stores only when it returns, and a piece of data
    that the shorter run has delivered already.  One lemma per [case]. *)

From S2P Require Import Prelude HttpTypes HttpUrl HttpExec HttpSafety HttpWire HttpRun.

(** The parser without [state] and [nread], which are locals while it runs. *)
Definition core (p : http_parser) : http_parser := hp_set_nread 0 (hp_set_state s_dead p).

(** The two options a program sets, which no run changes. *)
Definition options (p : http_parser) : bool * bool := (hp_lenient_http_headers p, hp_allow_chunked_length p).

Lemma core_stored s n p q : core p = core q -> hp_set_state s (hp_set_nread n p) = hp_set_state s (hp_set_nread n q).
Proof. destruct p, q. by intros [= -> -> -> -> -> -> -> -> -> -> -> -> -> ->]. Qed.

Lemma entry_new_message p : entry_marks (NEW_MESSAGE p) = no_marks.
Proof. unfold NEW_MESSAGE, start_state. by repeat case_match. Qed.

Section Window.
Context {U : Type} (c : callbacks U) (max : Z) (lenient allow : bool).
Context (X Y : bytes) (k : Z).
Hypothesis Hwindow : exists pre post, X = pre ++ Y ++ post /\ len pre = k.
(** The data pending where [Y] begins, and where they begin in [X]. *)
Context (cut : option (data_cb * Z)).
Hypothesis Hcut : forall d m, cut = Some (d, m) -> 0 <= m <= k /\
  forall a b u, data_user c d (a ++ b) u = data_user c d b (data_user c d a u).

Implicit Types (x y : exec U) (p q : http_parser).

Lemma window_char i : 0 <= i < len Y -> char_at X (i + k) = char_at Y i.
Proof.
  clear -Hwindow. destruct Hwindow as (pre & post & -> & <-). intros Hi. unfold char_at, len in *.
  rewrite app_nth2 by lia. rewrite app_nth1 by lia. f_equal. lia.
Qed.

Lemma window_drop i : 0 <= i <= len Y -> exists post, drop (Z.to_nat (i + k)) X = drop (Z.to_nat i) Y ++ post.
Proof.
  clear -Hwindow. destruct Hwindow as (pre & post & -> & <-). intros Hi. exists post. unfold len in *.
  rewrite drop_app_ge by lia. rewrite drop_app_le by lia. do 2 f_equal. lia.
Qed.

Lemma window_slice i j : 0 <= i -> j <= len Y -> slice X (i + k) (j + k) = slice Y i j.
Proof.
  clear -Hwindow. intros Hi Hj. unfold slice. replace (j + k - (i + k)) with (j - i) by lia.
  destruct (decide (i <= len Y)) as [Hl|Hl].
  - destruct (window_drop i) as [post ->]; [lia|]. apply take_app_le. rewrite length_drop. unfold len in *. lia.
  - replace (Z.to_nat (j - i)) with 0%nat by lia. done.
Qed.

Lemma window_len : k + len Y <= len X.
Proof. clear -Hwindow. destruct Hwindow as (pre & post & -> & <-). rewrite !len_app. pose proof (len_nonneg post). lia. Qed.

Lemma window_nonneg : 0 <= k.
Proof. clear -Hwindow. destruct Hwindow as (pre & post & -> & <-). apply len_nonneg. Qed.

(** ** Related locals *)

(** The marks and the user's states: nothing is pending, or data that begin in [Y], or data
    that began before and of which the second run has delivered the first part. *)
Inductive marks_sim : marks -> marks -> U -> U -> Prop :=
  | ms_none u : marks_sim no_marks no_marks u u
  | ms_some d v u : 0 <= v -> marks_sim (set_mark d (Some (v + k)) no_marks) (set_mark d (Some v) no_marks) u u
  | ms_cut d m u : cut = Some (d, m) ->
      marks_sim (set_mark d (Some m) no_marks) (set_mark d (Some 0) no_marks) u (data_user c d (slice X m k) u).

Record sim x y : Prop := {
  sim_p : ex_p x = ex_p y + k;
  sim_ch : ex_ch x = ex_ch y;
  sim_state : ex_state x = ex_state y;
  sim_nread : ex_nread x = ex_nread y;
  sim_core : core (ex_parser x) = core (ex_parser y);
  sim_marks : marks_sim (ex_marks x) (ex_marks y) (ex_user x) (ex_user y);
  sim_range : 0 <= ex_nread x < 2 ^ 32;
  sim_begun : entry_marks (ex_state x) = no_marks \/ ex_marks x <> no_marks;
  sim_options : options (ex_parser x) = (lenient, allow);
  }.

#[local] Ltac sim_split := split; cbn; try done; try lia; try (by left); try (by right); try (left; first [apply entry_new_message|by repeat case_match]); try constructor.

(** The states that read many bytes at once. *)
Definition body_state (s : state) : bool := match s with s_body_identity | s_body_identity_eof | s_chunk_data => true | _ => false end.

(** The second run does what the first one does, when that is not an error; the character
    of a round that is over does not matter. *)
Definition related (o o' : outcome U) : Prop :=
  match o with
  | Break x => exists y, o' = Break y /\ sim x (ex_set_ch (ex_ch x) y)
  | Reexecute x => exists y, o' = Reexecute y /\ sim x y /\ body_state (ex_state x) = false
  | Return v x => ex_errno x = HPE_OK -> exists y, o' = Return (v - k) y /\ ex_parser x = ex_parser y /\ ex_user x = ex_user y
  | Goto_error _ | Assert_failed | Read_outside | Out_of_fuel => True
  end.

Lemma sim_any_ch x y : sim x y -> sim x (ex_set_ch (ex_ch x) y).
Proof. intros []. by split. Qed.

(** ** The callbacks *)

Definition notified (n : notify_cb) x : exec U :=
  match n with
  | N_message_begin | N_message_complete =>
      ex_set_user (notify_user c n (ex_parser x) (ex_user x)) (on_parser (hp_set_state (ex_state x)) x)
  | _ => x
  end.

Lemma notify_eq n ER x K : hp_http_errno (ex_parser x) = HPE_OK ->
  CALLBACK_NOTIFY_ (simple_settings c) n ER x K = K (notified n x).
Proof.
  intros He. destruct n; [apply notify_simple; auto..| |]; unfold CALLBACK_NOTIFY_, ex_errno; by rewrite He, decide_True.
Qed.

Definition delivered (data : bytes) (d : data_cb) (extra : Z) x : exec U :=
  match get_mark d (ex_marks x) with
  | None => x
  | Some v =>
      ex_set_marks (set_mark d None (ex_marks x))
        (ex_set_user (data_user c d (slice data v (ex_p x + extra)) (ex_user x))
          (match d with D_status => x | _ => on_parser (hp_set_state (ex_state x)) x end))
  end.

Lemma delivered_state data d extra x : ex_state (delivered data d extra x) = ex_state x.
Proof. unfold delivered. destruct (get_mark _ _), d; done. Qed.
Lemma delivered_p data d extra x : ex_p (delivered data d extra x) = ex_p x.
Proof. unfold delivered. destruct (get_mark _ _), d; done. Qed.

Lemma data_eq data d extra ER x K : hp_http_errno (ex_parser x) = HPE_OK -> marks_in data (ex_p x + extra) (ex_marks x) ->
  CALLBACK_DATA_ (simple_settings c) data d extra ER x K = K (delivered data d extra x).
Proof.
  intros He [Hin Hmk]. unfold delivered. destruct (get_mark d (ex_marks x)) as [v|] eqn:Em.
  - destruct (Hmk d v Em). destruct (decide (d = D_status)) as [->|Hd].
    + unfold CALLBACK_DATA_, ex_errno. rewrite He, decide_True, Em by done. cbn. by destruct x.
    + rewrite (data_simple c data d extra ER x K v) by done. by destruct d.
  - unfold CALLBACK_DATA_, ex_errno. by rewrite He, decide_True, Em.
Qed.

Lemma slice_app_cut data a b e : 0 <= a <= b -> b <= e -> slice data a b ++ slice data b e = slice data a e.
Proof.
  clear. intros Hab Hbe. unfold slice. replace (Z.to_nat (e - a)) with (Z.to_nat (b - a) + Z.to_nat (e - b))%nat by lia.
  rewrite <- take_take_drop, drop_drop. do 3 f_equal. lia.
Qed.

Lemma sim_delivered d extra x y : sim x y -> 0 <= ex_p y + extra <= len Y -> entry_marks (ex_state x) = no_marks ->
  sim (delivered X d extra x) (delivered Y d extra y).
Proof.
  intros [Hp Hc Hs Hn Hcore Hm Hr _ Hop] Hy Hst. destruct x as [px ix cx sx nx mx ux], y as [py iy cy sy ny my uy]. cbn in *. subst.
  pose proof window_nonneg as Hk.
  assert (forall s, core (hp_set_state s px) = core (hp_set_state s py)) as Hset by (intros s; destruct px, py; exact Hcore).
  inversion Hm as [u|d' v u Hv|d' m u Hd']; subst; unfold delivered; cbn [ex_marks].
  - by destruct d; split; try done; left.
  - destruct (decide (d = d')) as [<-|Hne].
    + replace (get_mark d (set_mark d (Some (v + k)) no_marks)) with (Some (v + k)) by (by destruct d).
      replace (get_mark d (set_mark d (Some v) no_marks)) with (Some v) by (by destruct d).
      replace (set_mark d None (set_mark d (Some (v + k)) no_marks)) with no_marks by (by destruct d).
      replace (set_mark d None (set_mark d (Some v) no_marks)) with no_marks by (by destruct d).
      cbn [ex_p ex_user]. replace (iy + k + extra) with (iy + extra + k) by lia. rewrite window_slice by lia.
      split; [by destruct d|by destruct d|by destruct d|by destruct d|by destruct d; cbn|constructor|by destruct d|left; by destruct d|by destruct d].
    + replace (get_mark d (set_mark d' (Some (v + k)) no_marks)) with (None (A := Z)) by (by destruct d, d').
      replace (get_mark d (set_mark d' (Some v) no_marks)) with (None (A := Z)) by (by destruct d, d').
      split; cbn; try done. by left.
  - destruct (decide (d = d')) as [<-|Hne].
    + replace (get_mark d (set_mark d (Some m) no_marks)) with (Some m) by (by destruct d).
      replace (get_mark d (set_mark d (Some 0) no_marks)) with (Some 0) by (by destruct d).
      replace (set_mark d None (set_mark d (Some m) no_marks)) with no_marks by (by destruct d).
      replace (set_mark d None (set_mark d (Some 0) no_marks)) with no_marks by (by destruct d).
      cbn [ex_p ex_user]. destruct (Hcut d m Hd') as [Hm0 Hadd].
      replace (slice X m (iy + k + extra)) with (slice X m k ++ slice Y 0 (iy + extra)).
      2: { rewrite <- (window_slice 0 (iy + extra)) by lia. rewrite slice_app_cut by lia. f_equal. lia. }
      rewrite Hadd. split; [by destruct d|by destruct d|by destruct d|by destruct d|by destruct d; cbn|constructor|by destruct d|left; by destruct d|by destruct d].
    + replace (get_mark d (set_mark d' (Some m) no_marks)) with (None (A := Z)) by (by destruct d, d').
      replace (get_mark d (set_mark d' (Some 0) no_marks)) with (None (A := Z)) by (by destruct d, d').
      split; cbn; try done. by left.
Qed.

(** The marks of the second run point into its buffer. *)
Lemma window_marks i e mx my u u' : marks_sim mx my u u' -> marks_in X (i + k) mx -> 0 <= i <= e -> e <= len Y -> marks_in Y e my.
Proof.
  intros Hm [_ Hmk] Hi He. split; [done|]. intros d v Hd. destruct Hm as [u|d' v' u Hv|d' m u _].
  - by destruct d.
  - rewrite get_set_mark in Hd. case_decide; [|by destruct d]. injection Hd as <-. subst d'.
    destruct (Hmk d (v' + k)); [by rewrite get_set_mark, decide_True|lia].
  - rewrite get_set_mark in Hd. case_decide; [|by destruct d]. injection Hd as <-. lia.
Qed.

Lemma window_marks_ok s i e mx my u u' : marks_sim mx my u u' -> marks_ok s (i + k) mx -> 0 <= i <= e -> e <= len Y -> marks_in Y e my.
Proof.
  intros Hm Hmk Hi He. pose proof window_len. eapply window_marks; [exact Hm|eapply marks_ok_in; [exact Hmk|]|done|done]. lia.
Qed.

Lemma marks_in_le data e e' m : marks_in data e m -> e <= e' <= len data -> marks_in data e' m.
Proof. intros [_ Hm] He. split; [lia|]. intros d v Hd. destruct (Hm d v Hd). lia. Qed.

(** ** The cases *)

(** Run in state [s] on related locals. *)
Definition sim_in (s : state) (f g : exec U -> outcome U) : Prop :=
  forall x y, ex_state x = s -> sim x y -> hp_http_errno (ex_parser x) = HPE_OK -> marks_ok s (ex_p x) (ex_marks x) ->
  0 <= ex_p y < len Y -> related (f x) (g y).

Lemma unmarked s i mx my u u' : marks_ok s i mx -> marks_sim mx my u u' -> mark_of s = None ->
  mx = no_marks /\ my = no_marks /\ u = u'.
Proof.
  intros Hok Hm Hs. inversion Hm as [|d v|d m]; subst; [done|..].
  - destruct (Hok d (v + k)) as [Hd _]; [by destruct d|congruence].
  - destruct (Hok d m) as [Hd _]; [by destruct d|congruence].
Qed.

(** Two explicit records with the same fields, but for the two of [core]. *)
Ltac sim_start :=
  intros x y Hst [Hp Hc Hs Hn Hcore Hm Hrg Hbg Hop] He Hmk Hy; destruct x as [px ix cx sx nx mx ux], y as [py i ch s0 n my uy];
  cbn [ex_p ex_ch ex_state ex_nread ex_marks ex_user ex_parser] in *; subst ix cx sx nx; try subst s0;
  try (destruct (unmarked _ _ _ _ _ _ Hmk Hm eq_refl) as (-> & -> & ->));
  destruct px, py; injection Hcore; intros; subst; cbn in He; subst.

Ltac sim_cbn := cbn [ex_p ex_ch ex_state ex_parser ex_nread ex_marks ex_user on_parser ex_set_p ex_set_ch
  UPDATE_STATE ex_set_nread ex_set_marks ex_set_user set_mark get_mark header_field_mark header_value_mark url_mark
  body_mark status_mark no_marks hp_type hp_flags hp_state hp_header_state hp_index hp_uses_transfer_encoding
  hp_allow_chunked_length hp_lenient_http_headers hp_nread hp_content_length hp_http_major hp_http_minor hp_status_code
  hp_method hp_http_errno hp_upgrade hp_set_status_code hp_set_content_length hp_set_flags set_flag hp_set_index hp_set_method
  hp_set_upgrade hp_set_header_state hp_set_state hp_set_nread hp_set_type reset_message hp_set_uses_transfer_encoding].

Ltac sim_step := cbv zeta; sim_cbn; lazymatch goal with
  | |- related (err _ _) _ => exact I
  | |- related Assert_failed _ => exact I
  | |- related (if ?b then _ else _) _ => destruct b eqn:?
  | |- related (Break _) (Break _) => eexists; split; [reflexivity|sim_split]
  | |- related (Reexecute _) (Reexecute _) => eexists; split; [reflexivity|split; [sim_split|done]]
  end.

Lemma sim_dead : sim_in s_dead do_dead do_dead.
Proof. sim_start. unfold do_dead. repeat sim_step. Qed.


(** The marks are inside the buffer. *)
Ltac fits_tac := cbn; pose proof window_len; pose proof window_nonneg;
  first [done
    |match goal with Hmk : marks_ok _ _ ?m |- marks_in X _ ?m => eapply marks_ok_in; [exact Hmk|lia] end
    |match goal with Hmk : marks_ok _ _ ?mx, Hm : marks_sim ?mx ?m _ _ |- marks_in Y _ ?m =>
       eapply window_marks_ok; [exact Hm|exact Hmk|lia|lia] end
    |solve [split; [lia|]; intros []; cbn; intros ? [= <-]; lia]].

(** The callbacks of the parser, then the rest. *)
Ltac sim_call :=
  unfold CALLBACK_NOTIFY, CALLBACK_NOTIFY_NOADVANCE, CALLBACK_DATA, CALLBACK_DATA_NOADVANCE;
  lazymatch goal with
  | |- related (CALLBACK_NOTIFY_ _ _ _ _ _) _ => rewrite !notify_eq by done; cbn [notified notify_user]
  | |- related (STRICT_CHECK _ _ _) _ => unfold STRICT_CHECK
  | |- related (CALLBACK_DATA_ _ _ _ _ _ _ _) _ => rewrite !data_eq by fits_tac; eexists; split; [reflexivity|];
      first [apply sim_any_ch|split; [|by repeat case_match]]; apply sim_delivered; [sim_split|cbn; lia|cbn; by repeat case_match]
  end.
Ltac sim_run := repeat first [sim_step|sim_call].

Lemma sim_start_req_or_res : sim_in s_start_req_or_res (do_start_req_or_res (simple_settings c)) (do_start_req_or_res (simple_settings c)).
Proof. sim_start. unfold do_start_req_or_res. sim_run. Qed.

Lemma sim_res_or_resp_H : sim_in s_res_or_resp_H do_res_or_resp_H do_res_or_resp_H.
Proof. sim_start. unfold do_res_or_resp_H. sim_run. Qed.

Lemma sim_start_res : sim_in s_start_res (do_start_res (simple_settings c)) (do_start_res (simple_settings c)).
Proof. sim_start. unfold do_start_res. sim_run. Qed.

Lemma sim_expect s w next : mark_of s = None -> entry_marks next = no_marks -> sim_in s (expect w next) (expect w next).
Proof. intros Hnone Hnext. sim_start. destruct (unmarked _ _ _ _ _ _ Hmk Hm Hnone) as (-> & -> & ->). unfold expect. sim_run. Qed.

Lemma sim_http_digit s store next : mark_of s = None -> entry_marks next = no_marks ->
  (forall v p q, core p = core q -> core (store v p) = core (store v q)) ->
  (forall v p, options (store v p) = options p) -> sim_in s (do_http_digit store next) (do_http_digit store next).
Proof.
  intros Hnone Hnext Hstore Hopt. sim_start. destruct (unmarked _ _ _ _ _ _ Hmk Hm Hnone) as (-> & -> & ->). unfold do_http_digit. sim_run.
  - by apply Hstore.
  - by rewrite Hopt.
Qed.

Lemma sim_http_dot s next : mark_of s = None -> entry_marks next = no_marks -> sim_in s (do_http_dot next) (do_http_dot next).
Proof. intros Hnone Hnext. sim_start. destruct (unmarked _ _ _ _ _ _ Hmk Hm Hnone) as (-> & -> & ->). unfold do_http_dot. sim_run. Qed.

Lemma sim_res_http_end : sim_in s_res_http_end do_res_http_end do_res_http_end.
Proof. sim_start. unfold do_res_http_end. sim_run. Qed.

Lemma sim_res_first_status_code : sim_in s_res_first_status_code do_res_first_status_code do_res_first_status_code.
Proof. sim_start. unfold do_res_first_status_code. sim_run. Qed.

Lemma sim_res_status_code : sim_in s_res_status_code do_res_status_code do_res_status_code.
Proof. sim_start. unfold do_res_status_code. sim_run. Qed.

Lemma sim_res_status_start : sim_in s_res_status_start do_res_status_start do_res_status_start.
Proof. sim_start. unfold do_res_status_start, MARK. sim_run. all: apply (ms_some D_status); lia. Qed.

Lemma sim_start_req : sim_in s_start_req (do_start_req (simple_settings c)) (do_start_req (simple_settings c)).
Proof. sim_start. unfold do_start_req. repeat first [sim_step|sim_call|destruct (first_method ch) eqn:?]. Qed.

Lemma sim_req_method : sim_in s_req_method do_req_method do_req_method.
Proof. sim_start. unfold do_req_method. repeat first [sim_step|sim_call|destruct (method_switch _ _ _) eqn:?]. Qed.

Lemma sim_req_http_start : sim_in s_req_http_start do_req_http_start do_req_http_start.
Proof. sim_start. unfold do_req_http_start. sim_run. Qed.

Lemma sim_req_http_end : sim_in s_req_http_end do_req_http_end do_req_http_end.
Proof. sim_start. unfold do_req_http_end. sim_run. Qed.

Lemma sim_req_line_almost_done : sim_in s_req_line_almost_done do_req_line_almost_done do_req_line_almost_done.
Proof. sim_start. unfold do_req_line_almost_done. sim_run. Qed.

Lemma sim_header_field_start : sim_in s_header_field_start do_header_field_start do_header_field_start.
Proof. sim_start. unfold do_header_field_start, MARK. sim_run. all: apply (ms_some D_header_field); lia. Qed.

Lemma url_char_sim x y : sim x y -> ex_marks x <> no_marks -> related (url_char x) (url_char y).
Proof.
  intros Hs Hmk. unfold url_char. pose proof Hs as [Hp Hc Hst Hn Hcore Hm Hrg Hbg Hop]. rewrite Hc, Hst.
  cbn [ex_state UPDATE_STATE]. case_decide; [exact I|]. eexists. split; [done|split; try done]. by right.
Qed.

Lemma sim_req_spaces_before_url : sim_in s_req_spaces_before_url do_req_spaces_before_url do_req_spaces_before_url.
Proof.
  sim_start. unfold do_req_spaces_before_url, MARK. sim_run. apply url_char_sim; [|by case_decide].
  case_decide; sim_split; apply (ms_some D_url); lia.
Qed.

Lemma sim_req_schema s : mark_of s = Some D_url -> sim_in s do_req_schema do_req_schema.
Proof. intros Hurl. sim_start. unfold do_req_schema. sim_run. apply url_char_sim; [by split|]. destruct Hbg as [Hbg|]; [by destruct s|done]. Qed.

Lemma sim_req_url s : mark_of s = Some D_url -> sim_in s (do_req_url (simple_settings c) X) (do_req_url (simple_settings c) Y).
Proof.
  intros Hurl. sim_start. unfold do_req_url. sim_run.
  apply url_char_sim; [by split|]. destruct Hbg as [Hbg|]; [by destruct s|done].
Qed.

Lemma sim_res_status : sim_in s_res_status (do_res_status (simple_settings c) X) (do_res_status (simple_settings c) Y).
Proof. sim_start. unfold do_res_status. sim_run. Qed.

Lemma header_value_start_sim x y : sim x y -> ex_marks x = no_marks -> 0 <= ex_p y -> related (do_header_value_start x) (do_header_value_start y).
Proof.
  intros [Hp Hc Hs Hn Hcore Hm Hrg Hbg Hop] Hmk Hy. destruct x as [px ix cx sx nx mx ux], y as [py i ch s0 n my uy].
  cbn [ex_p ex_ch ex_state ex_nread ex_marks ex_user ex_parser] in *. subst ix cx sx nx mx.
  inversion Hm as [u|[] v|[] m]; subst.
  destruct px, py; injection Hcore; intros; subst. unfold do_header_value_start, MARK. sim_cbn.
  destruct hp_header_state0; sim_run; apply (ms_some D_header_value); lia.
Qed.

Lemma sim_header_value_start : sim_in s_header_value_start do_header_value_start do_header_value_start.
Proof.
  intros x y Hst Hs He Hmk Hy. apply header_value_start_sim; [done| |lia]. destruct Hs as [_ _ _ _ _ Hm].
  by destruct (unmarked _ _ _ _ _ _ Hmk Hm eq_refl) as (-> & _).
Qed.

Lemma sim_header_value_discard_ws : sim_in s_header_value_discard_ws do_header_value_discard_ws do_header_value_discard_ws.
Proof. sim_start. unfold do_header_value_discard_ws. sim_run. apply header_value_start_sim; [sim_split|done|cbn; lia]. Qed.

Lemma sim_header_almost_done : sim_in s_header_almost_done do_header_almost_done do_header_almost_done.
Proof. sim_start. unfold do_header_almost_done. sim_run. Qed.

Lemma core_finish p q : core p = core q -> core (finish_header p) = core (finish_header q).
Proof. destruct p, q. intros H. injection H. intros. subst. unfold finish_header. cbn. by destruct hp_header_state0. Qed.

Lemma finish_options p : options (finish_header p) = options p.
Proof. unfold finish_header. by destruct (hp_header_state p). Qed.

Lemma sim_header_value_lws : sim_in s_header_value_lws do_header_value_lws do_header_value_lws.
Proof.
  sim_start. unfold do_header_value_lws. cbv zeta. sim_cbn. destruct (decide (hp_header_state0 = h_content_length_num)); sim_run; by apply core_finish || rewrite finish_options.
Qed.

Lemma sim_header_value_discard_lws : sim_in s_header_value_discard_lws (do_header_value_discard_lws (simple_settings c) X) (do_header_value_discard_lws (simple_settings c) Y).
Proof.
  sim_start. unfold do_header_value_discard_lws, MARK. destruct hp_header_state0; sim_run.
  all: apply (ms_some D_header_value); lia.
Qed.

Lemma call_headers_sim x y : sim x y -> hp_http_errno (ex_parser x) = HPE_OK -> ex_marks x = no_marks -> body_state (ex_state x) = false ->
  related (call_headers_complete (simple_settings c) x Reexecute) (call_headers_complete (simple_settings c) y Reexecute).
Proof.
  intros [Hp Hc Hs Hn Hcore Hm Hrg Hbg Hop] He Hmk Hst. destruct x as [px ix cx sx nx mx ux], y as [py i ch s0 n my uy].
  cbn [ex_p ex_ch ex_state ex_nread ex_marks ex_user ex_parser] in *. subst ix cx sx nx mx.
  inversion Hm as [u|[] v|[] m]; subst.
  destruct px, py; injection Hcore; intros; subst. cbn in He. subst. unfold call_headers_complete, ex_errno. cbn. rewrite !decide_True by done. sim_run.
Qed.

Lemma sim_headers_almost_done : sim_in s_headers_almost_done (do_headers_almost_done (simple_settings c) lenient allow) (do_headers_almost_done (simple_settings c) lenient allow).
Proof.
  sim_start. unfold do_headers_almost_done, length_conflict. sim_run.
  apply call_headers_sim; [sim_split|done..].
Qed.

Lemma RETURN_sim v w x y : sim x y -> ex_marks x = no_marks -> v = w + k -> related (RETURN v x) (RETURN w y).
Proof.
  intros [Hp Hc Hs Hn Hcore Hm Hrg Hbg Hop] Hmk -> _. rewrite Hmk in Hm. eexists. split; [unfold RETURN; by rewrite Z.add_simpl_r|].
  unfold RETURN. cbn. rewrite Hs, Hn. split; [by apply core_stored|]. inversion Hm as [|[]|[]]; congruence.
Qed.

Ltac sim_return := apply RETURN_sim; [sim_split|done|cbn; lia].

Lemma sim_headers_done : sim_in s_headers_done (do_headers_done (simple_settings c) lenient) (do_headers_done (simple_settings c) lenient).
Proof.
  sim_start. unfold do_headers_done, reset_nread, new_message, http_message_needs_eof. sim_run. all: sim_return.
Qed.

Lemma sim_message_done : sim_in s_message_done (do_message_done (simple_settings c)) (do_message_done (simple_settings c)).
Proof. sim_start. unfold do_message_done, new_message. sim_run. sim_return. Qed.

(** *** Chunks *)

Lemma related_assert b o o' : related o o' -> related (assert_ b o) (assert_ b o').
Proof. by destruct b. Qed.

Ltac sim_chunk := repeat first [sim_step|sim_call|progress cbn [is_chunked]|apply related_assert].

Lemma sim_chunk_size_start : sim_in s_chunk_size_start do_chunk_size_start do_chunk_size_start.
Proof. sim_start. unfold do_chunk_size_start. sim_chunk. Qed.

Lemma sim_chunk_size : sim_in s_chunk_size do_chunk_size do_chunk_size.
Proof. sim_start. unfold do_chunk_size. repeat first [sim_step|sim_call|apply related_assert|destruct (chunk_size_digit _ _) eqn:?]. Qed.

Lemma sim_chunk_parameters : sim_in s_chunk_parameters do_chunk_parameters do_chunk_parameters.
Proof. sim_start. unfold do_chunk_parameters. sim_chunk. Qed.

Lemma sim_chunk_size_almost_done : sim_in s_chunk_size_almost_done (do_chunk_size_almost_done (simple_settings c)) (do_chunk_size_almost_done (simple_settings c)).
Proof. sim_start. unfold do_chunk_size_almost_done, reset_nread. sim_chunk. destruct (hp_content_length0 =? 0); sim_chunk. Qed.

Lemma sim_chunk_data_almost_done : sim_in s_chunk_data_almost_done (do_chunk_data_almost_done (simple_settings c) X) (do_chunk_data_almost_done (simple_settings c) Y).
Proof. sim_start. unfold do_chunk_data_almost_done. sim_chunk. Qed.

Lemma sim_chunk_data_done : sim_in s_chunk_data_done (do_chunk_data_done (simple_settings c)) (do_chunk_data_done (simple_settings c)).
Proof. sim_start. unfold do_chunk_data_done, reset_nread. sim_chunk. Qed.

(** *** Data read at once *)

Lemma sim_MARK d x y : sim x y -> marks_ok (ex_state x) (ex_p x) (ex_marks x) -> mark_of (ex_state x) = Some d -> 0 <= ex_p y -> sim (MARK d x) (MARK d y).
Proof.
  intros [Hp Hc Hs Hn Hcore Hm Hrg Hbg Hop] Hmk Hd Hy. destruct x as [px ix cx sx nx mx ux], y as [py i ch s0 n my uy]. cbn in *. subst.
  unfold MARK. cbn. inversion Hm as [u|d' v u Hv|d' m u Hm']; subst.
  - split; destruct d; cbn; try done; try (by right); apply (ms_some D_header_field) || apply (ms_some D_header_value) || apply (ms_some D_url) || apply (ms_some D_body) || apply (ms_some D_status); done.
  - destruct (Hmk d' (v + k)) as [Hd' _]; [by destruct d'|]. rewrite Hd' in Hd. injection Hd as ->. by split; destruct d.
  - destruct (Hmk d' m) as [Hd' _]; [by destruct d'|]. rewrite Hd' in Hd. injection Hd as ->. by split; destruct d.
Qed.

Lemma core_length n p q : core p = core q ->
  core (hp_set_content_length (hp_content_length p - n) p) = core (hp_set_content_length (hp_content_length q - n) q).
Proof. intros H. destruct p, q. injection H. intros. by subst. Qed.

(** Both read the same number of bytes: they end together, or the body ends in [Y]. *)
Definition same_read x y : Prop := len X = k + len Y \/ hp_content_length (ex_parser y) <= len Y - ex_p y.

Lemma sim_length x y : sim x y -> hp_content_length (ex_parser x) = hp_content_length (ex_parser y).
Proof. intros [_ _ _ _ H _]. destruct (ex_parser x), (ex_parser y). by injection H. Qed.
Lemma sim_flags x y : sim x y -> hp_flags (ex_parser x) = hp_flags (ex_parser y).
Proof. intros [_ _ _ _ H _]. destruct (ex_parser x), (ex_parser y). by injection H. Qed.

Lemma sim_read_body x y : sim x y -> marks_ok (ex_state x) (ex_p x) (ex_marks x) -> mark_of (ex_state x) = Some D_body -> 0 <= ex_p y < len Y ->
  same_read x y -> sim (read_body X x) (read_body Y y).
Proof.
  intros Hs Hmk Hd Hy Hread. pose proof (sim_length x y Hs) as Hl. pose proof (sim_p x y Hs) as Hp. pose proof window_len.
  pose proof (sim_MARK D_body x y Hs Hmk Hd (proj1 Hy)) as [Hp' Hc' Hs' Hn' Hcore' Hm'].
  unfold read_body, data_len. rewrite Hl, Hp.
  replace (Z.min (hp_content_length (ex_parser y)) (len X - (ex_p y + k))) with (Z.min (hp_content_length (ex_parser y)) (len Y - ex_p y)).
  2: { destruct Hread; lia. }
  split; cbn; try done; [|by apply core_length]. unfold MARK. destruct (get_mark _ _), (get_mark _ _); cbn; lia.
Qed.

(** What [read_body] leaves. *)
Lemma read_body_end data x : 0 <= hp_content_length (ex_parser x) -> ex_p x < len data ->
  ex_p x <= ex_p (read_body data x) + 1 <= len data /\ hp_http_errno (ex_parser (read_body data x)) = hp_http_errno (ex_parser x).
Proof.
  intros Hl Hp. unfold read_body, MARK, data_len. destruct (get_mark _ _); cbn; (split; [lia|by destruct (ex_parser x)]).
Qed.

Lemma read_body_marks s data x : marks_ok s (ex_p x) (ex_marks x) -> 0 <= hp_content_length (ex_parser x) -> 0 <= ex_p x < len data ->
  marks_in data (ex_p (read_body data x) + 1) (ex_marks (read_body data x)).
Proof.
  intros Hm Hl Hp. unfold read_body, data_len. rewrite MARK_eq. cbn. eapply marks_in_marked; [exact Hm|lia|lia].
Qed.

(** A case that reads a body. *)
Definition sim_read (s : state) (f g : exec U -> outcome U) : Prop :=
  forall x y, ex_state x = s -> sim x y -> hp_http_errno (ex_parser x) = HPE_OK -> marks_ok s (ex_p x) (ex_marks x) ->
  0 <= ex_p y < len Y -> 0 <= hp_content_length (ex_parser x) -> same_read x y -> related (f x) (g y).

Lemma sim_body_identity : sim_read s_body_identity (do_body_identity (simple_settings c) X) (do_body_identity (simple_settings c) Y).
Proof.
  intros x y Hst Hs He Hmk Hy Hl Hread. unfold do_body_identity, body_length_ok. rewrite (sim_length x y Hs). apply related_assert.
  assert (sim (read_body X x) (read_body Y y)) as Hr by (apply sim_read_body; rewrite ?Hst; done).
  pose proof (sim_p x y Hs) as Hp. pose proof window_len as Hw.
  destruct (read_body_end X x) as [_ Hex]; [done|lia|]. rewrite He in Hex.
  destruct (read_body_end Y y) as [Hy' _]; [by rewrite <- (sim_length x y Hs)|lia|].
  pose proof window_nonneg. pose proof (read_body_marks _ X x Hmk Hl ltac:(lia)) as HmX.
  set (x' := read_body X x) in *. set (y' := read_body Y y) in *. cbv zeta. rewrite (sim_length x' y' Hr).
  destruct (hp_content_length (ex_parser y') =? 0); [|exists y'; by split; [|apply sim_any_ch]].
  assert (marks_in Y (ex_p y' + 1) (ex_marks y')) as HmY.
  { eapply window_marks; [exact (sim_marks x' y' Hr)| |split; [|reflexivity]; lia|lia].
    replace (ex_p y' + 1 + k) with (ex_p x' + 1) by (rewrite (sim_p x' y' Hr); lia). exact HmX. }
  rewrite !data_eq; [|destruct Hr as [_ _ _ _ Hcore _]; clearbody x' y'; clear -Hcore Hex|exact HmY|done|exact HmX].
  - eexists. split; [reflexivity|]. split; [|by rewrite delivered_state]. apply sim_delivered; [|change (ex_p (UPDATE_STATE s_message_done y')) with (ex_p y'); lia|done]. destruct Hr. split; try done. by left.
  - cbn. destruct (ex_parser x'), (ex_parser y'). injection Hcore. intros. cbn in *. congruence.
Qed.

Lemma sim_chunk_data : sim_read s_chunk_data (do_chunk_data X) (do_chunk_data Y).
Proof.
  intros x y Hst Hs He Hmk Hy Hl Hread. unfold do_chunk_data, is_chunked, body_length_ok. rewrite (sim_length x y Hs), (sim_flags x y Hs).
  do 2 apply related_assert.
  assert (sim (read_body X x) (read_body Y y)) as Hr by (apply sim_read_body; rewrite ?Hst; done).
  cbv zeta. rewrite (sim_length _ _ Hr). destruct (_ =? 0); eexists; (split; [reflexivity|]); apply sim_any_ch; [destruct Hr; split; try done; by left|done].
Qed.

Lemma sim_body_identity_eof x y : ex_state x = s_body_identity_eof -> sim x y -> marks_ok s_body_identity_eof (ex_p x) (ex_marks x) ->
  0 <= ex_p y -> len X = k + len Y -> related (do_body_identity_eof X x) (do_body_identity_eof Y y).
Proof.
  intros Hst Hs Hmk Hy Hend. unfold do_body_identity_eof. eexists. split; [reflexivity|].
  assert (sim (MARK D_body x) (MARK D_body y)) as [Hp Hc Hs' Hn Hcore Hm] by (apply sim_MARK; rewrite ?Hst; done).
  split; cbn; try done. unfold data_len. lia.
Qed.
End Window.
