(* ===== verification/HttpRound.v ===== *)
(** * A round of http_parser_execute in two buffers

    The two loops over the name and the value of a header, then the whole switch and a round of the main
    loop: on a buffer and on a larger one that contains its bytes they do the same, or the smaller
    buffer ends inside a name or a value. *)

From S2P Require Import Prelude HttpTypes HttpUrl HttpExec HttpSafety HttpWire HttpRun HttpWindow.

(** ** The scans *)

Lemma count_app f (l l' : bytes) : count_while f (l ++ l') =
  if count_while f l =? len l then len l + count_while f l' else count_while f l.
Proof.
  unfold len. induction l as [|b l IH]; cbn [app count_while length]; [done|]. destruct (f b); [|by case_match].
  rewrite IH. destruct (Z.eqb_spec (count_while f l) (Z.of_nat (length l))), (Z.eqb_spec (1 + count_while f l) (Z.of_nat (S (length l)))); lia.
Qed.

Lemma scan_app lenient (l l' : bytes) : scan_general lenient (l ++ l') =
  match scan_general lenient l with
  | (_, Scan_end) => let '(n, r) := scan_general lenient l' in (len l + n, r)
  | r => r
  end.
Proof.
  unfold len. induction l as [|b l IH]; cbn [app scan_general length]; [by destruct (scan_general _ _)|].
  destruct (is_crlf b); [done|]. destruct (_ && _); [done|]. rewrite IH.
  destruct (scan_general lenient l) as [n []]; [|done..]. destruct (scan_general lenient l') as [n' r]. f_equal. lia.
Qed.

(** What the loops do to the parser does not depend on [state] and [nread]. *)
Lemma core_field_char ch d p q : core p = core q ->
  (exists p' q', header_field_char ch d p = Some p' /\ header_field_char ch d q = Some q' /\ core p' = core q' /\
    hp_http_errno p' = hp_http_errno p /\ options p' = options p) \/
  (header_field_char ch d p = None /\ header_field_char ch d q = None).
Proof.
  destruct p, q. intros H. injection H. intros. subst. unfold header_field_char, match_field. cbn.
  destruct hp_header_state0; cbn; try (by right); left; repeat case_match; eexists _, _; (split_and!; [reflexivity|reflexivity|by repeat case_decide..]).
Qed.

Lemma core_value_char ch d h p q : core p = core q ->
  exists h' p' q', header_value_char ch d h p = (h', p') /\ header_value_char ch d h q = (h', q') /\ core p' = core q' /\
    hp_http_errno p' = hp_http_errno p /\ options p' = options p.
Proof.
  destruct p, q. intros H. injection H. intros. subst. unfold header_value_char, match_value. cbn.
  destruct h; cbn; repeat case_match; eexists _, _, _; split_and!; reflexivity.
Qed.

Section Loops.
Context {U : Type} (c : callbacks U) (max : Z) (lenient allow : bool).
Context (X Y : bytes) (k : Z).
Hypothesis Hwindow : exists pre post, X = pre ++ Y ++ post /\ len pre = k.
Context (cut : option (data_cb * Z)).
Hypothesis Hcut : forall d m, cut = Some (d, m) -> 0 <= m <= k /\
  forall a b u, data_user c d (a ++ b) u = data_user c d b (data_user c d a u).
Implicit Types (x y : exec U) (p q : http_parser).

Abbreviation sim := (sim c lenient allow X k cut).
Abbreviation related := (related c lenient allow X k cut).

Definition header_state (s : state) : bool := match s with s_header_field | s_header_value => true | _ => false end.

(** The second run is at the end of its buffer, inside a name or a value. *)
Definition in_header (o : outcome U) : Prop :=
  match o with
  | Break y => ex_p y + 1 = len Y /\ header_state (ex_state y) = true
  | Goto_error y => header_state (ex_state y) = true
  | _ => False
  end.

Definition follows (o o' : outcome U) : Prop := related o o' \/ (len X <> k + len Y /\ in_header o').

Lemma sim_count v x y K K' : sim x y ->
  (forall n, 0 <= n < 2 ^ 32 -> related (K (ex_set_nread n x)) (K' (ex_set_nread n y))) ->
  related (COUNT_HEADER_SIZE max v x K) (COUNT_HEADER_SIZE max v y K').
Proof.
  intros Hs HK. unfold COUNT_HEADER_SIZE. cbv zeta. rewrite (sim_nread _ _ _ _ _ _ _ _ Hs). cbn [ex_nread ex_set_nread].
  destruct (max <? _); [exact I|]. apply HK. unfold u32. apply Z.mod_pos_bound. lia.
Qed.

Lemma sim_errno x y : sim x y -> hp_http_errno (ex_parser x) = hp_http_errno (ex_parser y).
Proof. intros [_ _ _ _ Hcore _]. destruct (ex_parser x), (ex_parser y). by injection Hcore. Qed.

Lemma sim_set_nread n x y : sim x y -> 0 <= n < 2 ^ 32 -> sim (ex_set_nread n x) (ex_set_nread n y).
Proof. intros [] Hn. by split. Qed.

Lemma sim_move i ch p q s x y : sim x y -> core p = core q -> options p = options (ex_parser x) ->
  entry_marks s = no_marks \/ ex_marks x <> no_marks ->
  sim (mkExec p (i + k) ch s (ex_nread x) (ex_marks x) (ex_user x)) (mkExec q i ch s (ex_nread y) (ex_marks y) (ex_user y)).
Proof. intros [] Hc Ho Hs. split; try done. cbn [ex_parser]. congruence. Qed.

Lemma sim_count_break v x y : sim x y -> related (COUNT_HEADER_SIZE max v x Break) (COUNT_HEADER_SIZE max v y Break).
Proof.
  intros Hs. apply sim_count; [done|]. intros n Hn. eexists. split; [done|]. apply sim_any_ch. by apply sim_set_nread.
Qed.

Lemma sim_step_p x y v : sim x y -> sim (ex_set_p (ex_p x + v) x) (ex_set_p (ex_p y + v) y).
Proof. intros []. split; cbn; try done. lia. Qed.

(** The marks of two related runs, for a callback at the current byte. *)
Lemma sim_marks_in x y : sim x y -> marks_in X (ex_p x) (ex_marks x) -> 0 <= ex_p y <= len Y ->
  marks_in X (ex_p x + 0) (ex_marks x) /\ marks_in Y (ex_p y + 0) (ex_marks y).
Proof.
  intros Hs Hm Hy. rewrite !Z.add_0_r. split; [done|]. pose proof (sim_p _ _ _ _ _ _ _ _ Hs) as Hp. rewrite Hp in Hm.
  eapply window_marks; [exact (sim_marks _ _ _ _ _ _ _ _ Hs)|exact Hm|lia|lia].
Qed.

(** *** Names *)

Lemma sim_field_end start x y : sim x y -> hp_http_errno (ex_parser x) = HPE_OK -> 0 <= ex_p y <= len Y -> header_state (ex_state y) = true ->
  marks_in X (ex_p x) (ex_marks x) ->
  follows (do_header_field_end (simple_settings c) max X (start + k) x) (do_header_field_end (simple_settings c) max Y start y).
Proof.
  intros Hs He Hy Hst HmX. pose proof (sim_p _ _ _ _ _ _ _ _ Hs) as Hp. pose proof (window_len X Y k Hwindow) as Hw.
  destruct (sim_marks_in x y Hs HmX Hy) as [HmX' HmY'].
  unfold do_header_field_end, data_len. destruct (Z.eqb_spec (ex_p y) (len Y)) as [Hey|Hey].
  - destruct (decide (len X = k + len Y)) as [Hl|Hl].
    + left. destruct (Z.eqb_spec (ex_p x) (len X)); [|lia]. cbv zeta. cbn [ex_set_p ex_p].
      replace (ex_p x - 1 - (start + k)) with (ex_p y - 1 - start) by lia. apply sim_count_break. by apply (sim_step_p x y (-1)).
    + right. split; [done|]. unfold COUNT_HEADER_SIZE. cbv zeta. destruct (max <? _); cbn; [done|]. split; [lia|done].
  - left. destruct (Z.eqb_spec (ex_p x) (len X)); [lia|]. replace (ex_p x - (start + k)) with (ex_p y - start) by lia.
    apply sim_count; [done|]. intros nr Hnr. cbn [ex_ch ex_set_nread]. rewrite (sim_ch _ _ _ _ _ _ _ _ Hs). destruct (_ =? ":"%chr); [|exact I].
    unfold CALLBACK_DATA. rewrite !data_eq; [|cbn; by rewrite <- (sim_errno x y)|exact HmY'|done|exact HmX'].
    eexists. split; [done|]. apply sim_any_ch, sim_delivered; [done|done| |cbn; lia|done]. destruct Hs. split; cbn; try done. by left.
Qed.

(** What the scan of a name finds in [Y], it finds in [X], unless it comes to the end of [Y]. *)
Lemma window_rest i j j' : 0 <= i -> i <= j <= len Y -> j + k <= j' -> exists l, slice X (i + k) j' = slice Y i j ++ l.
Proof.
  intros Hi Hj Hj'. exists (slice X (j + k) j'). pose proof (window_nonneg X Y k Hwindow).
  rewrite <- (window_slice X Y k Hwindow i j) by lia. symmetry. apply slice_app_cut; lia.
Qed.

Lemma len_slice_eq (data : bytes) i j : 0 <= i <= j -> j <= len data -> len (slice data i j) = j - i.
Proof. intros Hi Hj. unfold slice, len in *. rewrite length_take, length_drop. lia. Qed.

Lemma sim_count_while f i : 0 <= i < len Y -> 0 <= max ->
  let n := count_while f (slice Y (i + 1) (i + Z.min (len Y - i) max)) in
  count_while f (slice X (i + k + 1) (i + k + Z.min (len X - (i + k)) max)) = n \/ (len X <> k + len Y /\ i + n + 1 = len Y).
Proof.
  intros Hi Hmax n. pose proof (window_len X Y k Hwindow) as Hw. replace (i + k + 1) with (i + 1 + k) by lia.
  destruct (decide (len X = k + len Y)) as [He|Hne].
  { left. replace (i + k + Z.min (len X - (i + k)) max) with (i + Z.min (len Y - i) max + k) by lia.
    rewrite (window_slice X Y k Hwindow) by lia. done. }
  destruct (decide (max <= len Y - i)) as [Hm|Hm].
  { left. replace (i + k + Z.min (len X - (i + k)) max) with (i + Z.min (len Y - i) max + k) by lia.
    rewrite (window_slice X Y k Hwindow) by lia. done. }
  destruct (window_rest (i + 1) (i + Z.min (len Y - i) max) (i + k + Z.min (len X - (i + k)) max)) as [l ->]; [lia..|].
  rewrite count_app. fold n. destruct (Z.eqb_spec n (len (slice Y (i + 1) (i + Z.min (len Y - i) max)))) as [Hn|Hn]; [|by left].
  right. split; [done|]. rewrite len_slice_eq in Hn by lia. lia.
Qed.

Hypothesis Hmax : 0 < max.

Abbreviation name_loop data := (header_field_loop (simple_settings c) max data).
Abbreviation value_loop data := (header_value_loop (simple_settings c) max lenient data).

(** At the end of [Y] a loop of [Y] ends. *)
Lemma name_at_end fuel start y : ex_p y = len Y -> header_state (ex_state y) = true -> in_header (name_loop Y fuel start y).
Proof.
  intros Hy Hst. assert (name_loop Y fuel start y = do_header_field_end (simple_settings c) max Y start y) as ->.
  { destruct fuel; cbn [header_field_loop]; unfold data_len; by rewrite Hy, Z.eqb_refl. }
  unfold do_header_field_end, data_len, COUNT_HEADER_SIZE. rewrite Hy, Z.eqb_refl. cbv zeta. destruct (max <? _); cbn; [done|]. split; [lia|done].
Qed.

Lemma sim_name_loop fuel : forall fuel' start x y, header_state (ex_state y) = true -> sim x y -> hp_http_errno (ex_parser x) = HPE_OK ->
  ex_marks x <> no_marks -> 0 <= ex_p y <= len Y -> len X - ex_p x <= Z.of_nat fuel -> len Y - ex_p y <= Z.of_nat fuel' ->
  marks_in X (ex_p x) (ex_marks x) ->
  follows (name_loop X fuel (start + k) x) (name_loop Y fuel' start y).
Proof.
  pose proof (window_len X Y k Hwindow) as Hw. pose proof (window_nonneg X Y k Hwindow) as Hk.
  induction fuel as [|fuel IH]; intros fuel' start x y Hst Hs He Hmk Hy Hf Hf' HmX; pose proof (sim_p _ _ _ _ _ _ _ _ Hs) as Hp.
  all: destruct (decide (ex_p y = len Y)) as [Hey|Hey].
  1, 3: destruct (decide (len X = k + len Y)) as [Hl|Hl]; [|right; split; [done|by apply name_at_end]].
  - destruct fuel'; cbn [header_field_loop]; unfold data_len; rewrite Hp, Hey, Hl, (Z.add_comm k), !Z.eqb_refl; by apply sim_field_end.
  - destruct fuel'; cbn [header_field_loop]; unfold data_len; rewrite Hp, Hey, Hl, (Z.add_comm k), !Z.eqb_refl; by apply sim_field_end.
  - lia.
  - destruct fuel' as [|fuel']; [lia|]. cbn [header_field_loop]. unfold data_len.
    destruct (Z.eqb_spec (ex_p x) (len X)); [lia|]. destruct (Z.eqb_spec (ex_p y) (len Y)); [done|].
    rewrite !reading_char_in by lia. rewrite Hp, (window_char X Y k Hwindow) by lia. set (b := char_at Y (ex_p y)). cbv zeta.
    assert (sim (ex_set_ch b x) (ex_set_ch b y)) as Hb by (destruct Hs; by split).
    destruct (TOKEN b =? 0); [by apply sim_field_end|].
    pose proof (core_field_char b (TOKEN b) _ _ (sim_core _ _ _ _ _ _ _ _ Hs)) as Hchar.
    assert (hp_header_state (ex_parser x) = hp_header_state (ex_parser y)) as Hh.
    { destruct Hs as [_ _ _ _ Hcore _]. destruct (ex_parser x), (ex_parser y). by injection Hcore. }
    cbn [ex_parser ex_set_ch]. rewrite Hh.
    assert (forall p' q' i, core p' = core q' -> hp_http_errno p' = HPE_OK -> options p' = options (ex_parser x) -> ex_p y < i <= len Y ->
      follows (name_loop X fuel (start + k) (ex_set_p (i + k) (on_parser (fun _ => p') (ex_set_ch b x))))
        (name_loop Y fuel' start (ex_set_p i (on_parser (fun _ => q') (ex_set_ch b y))))) as Hgo.
    { intros p' q' i Hc He' Ho Hi. apply IH; cbn; try done; try lia.
      - destruct Hb. split; cbn in *; try done. congruence.
      - eapply marks_in_le; [exact HmX|lia]. }
    destruct (hp_header_state (ex_parser y)).
    1: { cbn [ex_p ex_set_ch]. rewrite !reading_in by lia. destruct (sim_count_while (fun d => negb (TOKEN d =? 0)) (ex_p y)) as [Hn|[Hl Hn]]; [lia|lia|..]; cbn [ex_p ex_set_ch]; rewrite Hp.
      - rewrite Hn. set (m := count_while _ _).
        replace (ex_p y + k + m + 1) with (ex_p y + m + 1 + k) by lia.
        pose proof (count_while_le (fun d => negb (TOKEN d =? 0)) (slice Y (ex_p y + 1) (ex_p y + Z.min (len Y - ex_p y) max))) as Hnb. fold m in Hnb.
        pose proof (len_slice Y (ex_p y + 1) (ex_p y + Z.min (len Y - ex_p y) max)) as Hls. 
        apply (Hgo (ex_parser x) (ex_parser y)); [by apply (sim_core _ _ _ _ _ _ _ _ Hs)|done|done|idtac]. destruct Hnb as [Hn0 Hnb]. pose proof (Z.le_trans _ _ _ Hnb Hls). lia.
      - right. split; [done|]. apply name_at_end; [|done]. exact Hn. }
    all: destruct Hchar as [(p' & q' & -> & -> & Hc & He' & Ho)|[-> ->]]; [|left; exact I].
    all: cbn [ex_p ex_set_ch]; rewrite Hp; replace (ex_p y + k + 1) with (ex_p y + 1 + k) by lia.
    all: apply Hgo; [done|congruence|done|lia].
Qed.

(** *** Values *)

Lemma sim_scan i : 0 <= i < len Y ->
  let pe := i + Z.min (len Y - i) max in let pe' := i + k + Z.min (len X - (i + k)) max in
  let r := scan_general lenient (slice Y i pe) in
  (scan_general lenient (slice X (i + k) pe') = r /\ (r.2 = Scan_end -> pe' = pe + k /\ (pe' =? len X) = (pe =? len Y))) \/
  (len X <> k + len Y /\ r.2 = Scan_end /\ pe = len Y).
Proof.
  intros Hi pe pe' r. pose proof (window_len X Y k Hwindow) as Hw.
  destruct (decide (pe' = pe + k)) as [He|Hne].
  - assert (scan_general lenient (slice X (i + k) pe') = r) as Hr by (rewrite He, (window_slice X Y k Hwindow) by lia; done).
    destruct (decide (pe = len Y)) as [Hl|Hl].
    + destruct (decide (len X = k + len Y)) as [Hx|Hx].
      * left. split; [done|]. intros _. split; [done|]. rewrite He, Hl, Hx, (Z.add_comm k), !Z.eqb_refl. done.
      * destruct (r.2) eqn:Er; [by right|left; done..].
    + left. split; [done|]. intros _. split; [done|]. destruct (Z.eqb_spec pe' (len X)), (Z.eqb_spec pe (len Y)); lia.
  - assert (pe = len Y /\ len X <> k + len Y) as [Hl Hx] by lia.
    destruct (window_rest i pe pe') as [l Hsl]; [lia..|]. rewrite Hsl, scan_app. fold r. destruct r as [n []]; [by right|left; done..].
Qed.

Lemma value_at_end fuel start h y : ex_p y = len Y -> header_state (ex_state y) = true -> in_header (value_loop Y fuel start h y).
Proof.
  intros Hy Hst. assert (value_loop Y fuel start h y = do_header_value_end max Y start h y) as ->.
  { destruct fuel; cbn [header_value_loop]; unfold data_len; by rewrite Hy, Z.eqb_refl. }
  unfold do_header_value_end, data_len, COUNT_HEADER_SIZE. cbn [ex_p on_parser]. rewrite Hy, Z.eqb_refl. cbv zeta. destruct (max <? _); cbn; [done|]. split; [lia|done].
Qed.

Lemma core_header_state h p q : core p = core q -> core (hp_set_header_state h p) = core (hp_set_header_state h q).
Proof. destruct p, q. intros H. injection H. intros. by subst. Qed.

Lemma sim_value_end start h x y : sim x y -> 0 <= ex_p y <= len Y -> (ex_p y = len Y -> len X = k + len Y) ->
  related (do_header_value_end max X (start + k) h x) (do_header_value_end max Y start h y).
Proof.
  intros Hs Hy Hend. pose proof (sim_p _ _ _ _ _ _ _ _ Hs) as Hp. pose proof (window_len X Y k Hwindow) as Hw.
  unfold do_header_value_end, data_len. cbv zeta. cbn [ex_p on_parser].
  assert (sim (on_parser (hp_set_header_state h) x) (on_parser (hp_set_header_state h) y)) as Hs'.
  { destruct Hs. split; cbn; try done. by apply core_header_state. }
  assert ((ex_p x =? len X) = (ex_p y =? len Y)) as ->.
  { destruct (Z.eqb_spec (ex_p x) (len X)), (Z.eqb_spec (ex_p y) (len Y)); lia. }
  destruct (_ =? len Y); cbn [ex_p ex_set_p on_parser].
  - replace (ex_p x - 1 - (start + k)) with (ex_p y - 1 - start) by lia. apply sim_count_break. by apply (sim_step_p _ _ (-1) Hs').
  - replace (ex_p x - (start + k)) with (ex_p y - start) by lia. by apply sim_count_break.
Qed.

Lemma sim_value_loop fuel : forall fuel' start h x y, header_state (ex_state y) = true -> sim x y -> hp_http_errno (ex_parser x) = HPE_OK ->
  ex_marks x <> no_marks -> 0 <= ex_p y <= len Y -> len X - ex_p x <= Z.of_nat fuel -> len Y - ex_p y <= Z.of_nat fuel' ->
  marks_in X (ex_p x) (ex_marks x) ->
  follows (value_loop X fuel (start + k) h x) (value_loop Y fuel' start h y).
Proof.
  pose proof (window_len X Y k Hwindow) as Hw. pose proof (window_nonneg X Y k Hwindow) as Hk.
  induction fuel as [|fuel IH]; intros fuel' start h x y Hst Hs He Hmk Hy Hf Hf' HmX; pose proof (sim_p _ _ _ _ _ _ _ _ Hs) as Hp.
  all: destruct (decide (ex_p y = len Y)) as [Hey|Hey].
  1, 3: destruct (decide (len X = k + len Y)) as [Hl|Hl]; [left|right; split; [done|by apply value_at_end]].
  - destruct fuel'; cbn [header_value_loop]; unfold data_len; rewrite Hp, Hey, Hl, (Z.add_comm k), !Z.eqb_refl; by apply sim_value_end.
  - destruct fuel'; cbn [header_value_loop]; unfold data_len; rewrite Hp, Hey, Hl, (Z.add_comm k), !Z.eqb_refl; by apply sim_value_end.
  - lia.
  - destruct fuel' as [|fuel']; [lia|]. cbn [header_value_loop]. unfold data_len.
    destruct (Z.eqb_spec (ex_p x) (len X)) as [|Hnx]; [lia|]. destruct (Z.eqb_spec (ex_p y) (len Y)) as [|Hny]; [done|]. clear Hny.
    rewrite !reading_char_in by lia. destruct (sim_marks_in x y Hs HmX Hy) as [HmX' HmY']. rewrite Hp, (window_char X Y k Hwindow) by lia. cbv zeta.
    assert (forall h' p' q' i ch s, core p' = core q' -> hp_http_errno p' = HPE_OK -> options p' = options (ex_parser x) -> header_state s = true -> ex_p y < i <= len Y ->
      follows (value_loop X fuel (start + k) h' (mkExec p' (i + k) ch s (ex_nread x) (ex_marks x) (ex_user x)))
        (value_loop Y fuel' start h' (mkExec q' i ch s (ex_nread y) (ex_marks y) (ex_user y)))) as Hgo.
    { intros h' p' q' i ch s Hc He' Ho Hs' Hi. apply IH; cbn; try done; try lia; [apply sim_move; auto|].
      eapply marks_in_le; [exact HmX|lia]. }
    pose proof (sim_core _ _ _ _ _ _ _ _ Hs) as Hcore. pose proof (sim_errno _ _ Hs) as Herr. pose proof (sim_length _ _ _ _ _ _ _ _ Hs) as Hlen.
    pose proof (sim_ch _ _ _ _ _ _ _ _ Hs) as Hch. pose proof (sim_state _ _ _ _ _ _ _ _ Hs) as Hst'. pose proof (sim_nread _ _ _ _ _ _ _ _ Hs) as Hn.
    clear IH. destruct x as [px ix cx sx n mx ux], y as [py i cy sy n' my uy].
    cbn [ex_parser ex_p ex_ch ex_state ex_nread ex_marks ex_user] in *.
    subst ix cx sx n. set (b := char_at Y i). unfold on_parser, UPDATE_STATE, ex_set_p, ex_set_ch, SET_ERRNO. exec_cbn. replace (i + k + 1) with (i + 1 + k) by lia.
    destruct (b =? CR) eqn:Ecr; [|destruct (b =? LF) eqn:Elf]; [left|left|].
    + unfold CALLBACK_DATA. rewrite !data_eq; [|cbn; congruence|exact HmY'|done|exact HmX'].
      apply sim_value_end; [|rewrite delivered_p; cbn; lia..].
      apply sim_delivered; [done|done| |cbn; lia|done]. destruct Hs. split; cbn; try done; [by apply core_header_state|by left].
    + replace (i + k - (start + k)) with (i - start) by lia.
      assert (sim (mkExec px (i + k) b s_header_almost_done n' mx ux) (mkExec py i b s_header_almost_done n' my uy)) as Hs' by (destruct Hs; split; cbn; try done; by left).
      apply sim_count; [done|]. intros nr Hnr. unfold CALLBACK_DATA_NOADVANCE. rewrite !data_eq; [|cbn; congruence|exact HmY'|done|exact HmX'].
      eexists. split; [done|]. split; [|by rewrite delivered_state]. apply sim_delivered; [done|done| |cbn; lia|done].
      destruct Hs'. split; cbn; try done; by apply core_header_state.
    + destruct (negb lenient && negb (IS_HEADER_CHAR b)); [by left|].
      destruct (core_value_char b (LOWER b) h px py Hcore) as (hv & pv & qv & Hvx & Hvy & Hcv & Hev & Hov).
      assert (forall t, core (hp_set_content_length t px) = core (hp_set_content_length t py)) as Hsl.
      { intros t. destruct px, py. injection Hcore. intros. by subst. }
      rewrite <- Hlen.
      destruct h; rewrite ?Hvx, ?Hvy; try (by left); try (apply Hgo; by (done || congruence || lia)).
      2-4: repeat lazymatch goal with
        | |- follows (if ?e then _ else _) _ => destruct e
        | |- follows (match ?e with Some _ => _ | None => _ end) _ => destruct e end; by (left; exact I) || (apply Hgo; by (done || congruence || lia)).
      cbn [ex_p]. rewrite !reading_in by lia.
      destruct (sim_scan i) as [[-> Hend]|(Hx & Hend & Hpe)]; [lia|..].
      * destruct (scan_general lenient _) as [m r] eqn:Es. apply scan_general_bounds in Es as (Hm & _ & Hcr).
        pose proof (len_slice Y i (i + Z.min (len Y - i) max)) as Hsl'. pose proof (Z.le_trans _ _ _ (proj2 Hm) Hsl') as Hm'.
        destruct r; [|destruct (Hcr eq_refl) as [Hml Hnl]|by left].
        -- destruct (Hend eq_refl) as [-> ->]. clear Hend Hcr. set (pe := i + Z.min (len Y - i) max) in *.
           replace (pe + k - 1) with (pe - 1 + k) by lia. rewrite (window_char X Y k Hwindow) by lia.
           destruct (Z.eqb_spec pe (len Y)); exec_cbn.
           ++ replace (pe - 1 + k + 1) with (pe + k) by lia. replace (pe - 1 + 1) with pe by lia. apply Hgo; [done|done|done|done|lia].
           ++ replace (pe + k + 1) with (pe + 1 + k) by lia. apply Hgo; [done|done|done|done|lia].
        -- replace (i + k + m) with (i + m + k) by lia. rewrite (window_char X Y k Hwindow) by lia.
           replace (i + m + k - 1 + 1) with (i + m + k) by lia. replace (i + m - 1 + 1) with (i + m) by lia. apply Hgo; [done|done|done|done|].
           assert (m <> 0); [|lia]. intros ->. unfold is_crlf in Hnl. rewrite slice_head in Hnl by lia. fold b in Hnl. by rewrite Ecr, Elf in Hnl.
      * right. split; [done|]. destruct (scan_general lenient _) as [m r]. cbn in Hend. subst r. rewrite Hpe, Z.eqb_refl. apply value_at_end; [|done].
        cbn. lia.
Qed.

(** ** The switch *)

(** The body in [Y] is read whole, or [X] ends with [Y]. *)
Definition fits x y : Prop :=
  match ex_state x with
  | s_body_identity | s_chunk_data => same_read X Y k x y
  | s_body_identity_eof => len X = k + len Y
  | _ => True
  end.

Lemma sim_header_state x y : sim x y -> hp_header_state (ex_parser x) = hp_header_state (ex_parser y).
Proof. intros [_ _ _ _ Hcore _]. destruct (ex_parser x), (ex_parser y). by injection Hcore. Qed.

Lemma sim_names x y : ex_state x = s_header_field -> sim x y -> hp_http_errno (ex_parser x) = HPE_OK -> 0 <= ex_p y < len Y ->
  marks_in X (ex_p x) (ex_marks x) ->
  follows (do_header_field (simple_settings c) max X x) (do_header_field (simple_settings c) max Y y).
Proof.
  intros Hst Hs He Hy HmX. pose proof (window_len X Y k Hwindow). pose proof (window_nonneg X Y k Hwindow). pose proof (sim_p _ _ _ _ _ _ _ _ Hs) as Hp.
  unfold do_header_field, data_len. rewrite Hp. apply sim_name_loop; [|done|done| |lia..|exact HmX].
  - by rewrite <- (sim_state _ _ _ _ _ _ _ _ Hs), Hst.
  - destruct (sim_begun _ _ _ _ _ _ _ _ Hs) as [Hb|]; [by rewrite Hst in Hb|done].
Qed.

Lemma sim_values x y : ex_state x = s_header_value -> sim x y -> hp_http_errno (ex_parser x) = HPE_OK -> 0 <= ex_p y < len Y ->
  marks_in X (ex_p x) (ex_marks x) ->
  follows (do_header_value (simple_settings c) max lenient X x) (do_header_value (simple_settings c) max lenient Y y).
Proof.
  intros Hst Hs He Hy HmX. pose proof (window_len X Y k Hwindow). pose proof (window_nonneg X Y k Hwindow). pose proof (sim_p _ _ _ _ _ _ _ _ Hs) as Hp.
  unfold do_header_value, data_len. rewrite Hp, (sim_header_state x y) by done. apply sim_value_loop; [|done|done| |lia..|exact HmX].
  - by rewrite <- (sim_state _ _ _ _ _ _ _ _ Hs), Hst.
  - destruct (sim_begun _ _ _ _ _ _ _ _ Hs) as [Hb|]; [by rewrite Hst in Hb|done].
Qed.

#[local] Hint Resolve sim_dead sim_start_req_or_res sim_res_or_resp_H sim_start_res sim_res_http_end
  sim_res_first_status_code sim_res_status_code sim_res_status_start sim_res_status sim_start_req
  sim_req_method sim_req_spaces_before_url sim_req_http_start sim_req_http_end sim_req_line_almost_done
  sim_header_field_start sim_header_value_discard_ws sim_header_value_start
  sim_header_almost_done sim_header_value_lws sim_header_value_discard_lws sim_headers_almost_done sim_headers_done
  sim_message_done sim_chunk_size_start sim_chunk_size
  sim_chunk_parameters sim_chunk_size_almost_done sim_chunk_data_almost_done sim_chunk_data_done : core.
#[local] Hint Resolve sim_expect sim_http_digit sim_http_dot sim_req_schema sim_req_url : core.

Lemma sim_switch x y : sim x y -> hp_http_errno (ex_parser x) = HPE_OK -> marks_ok (ex_state x) (ex_p x) (ex_marks x) ->
  0 <= hp_content_length (ex_parser x) -> 0 <= ex_p y < len Y -> fits x y ->
  follows (step (simple_settings c) max lenient allow X x) (step (simple_settings c) max lenient allow Y y).
Proof.
  intros Hs He Hm Hl Hy Hfit. unfold step. rewrite <- (sim_state _ _ _ _ _ _ _ _ Hs). unfold fits in Hfit.
  assert (marks_in X (ex_p x) (ex_marks x)) as HmX.
  { eapply marks_ok_in; [exact Hm|]. pose proof (window_len X Y k Hwindow). rewrite (sim_p _ _ _ _ _ _ _ _ Hs). lia. }
  destruct (ex_state x) eqn:Hst.
  all: try (by apply sim_names); try (by apply sim_values); left.
  all: try (by apply sim_body_identity); try (by apply sim_chunk_data); try (by apply sim_body_identity_eof; [..|lia|]).
  all: match goal with |- HttpWindow.related _ _ _ _ _ _ (?f ?a) (?g ?b) => cut (sim_in c lenient allow X Y k cut (ex_state a) f g); [intros H; by apply H; rewrite ?Hst|rewrite Hst] end.
  all: try (apply sim_http_digit; [done|done| |done]; intros v [] []; by injection 1; intros; subst).
  all: by auto.
Qed.

(** *** A round *)

Abbreviation locals := (locals_ok (fun _ : U => True)).

Lemma callbacks_ok : settings_ok (fun _ => True) (simple_settings c).
Proof.
  constructor.
  - intros [] f; cbn; intros [= <-] ????? [= <- <- <-]; (split; [by left|done]).
  - intros [] f; cbn; intros [= <-] ?????? [= <- <- <-]; (split; [by left|done]).
  - intros f; cbn; intros [= <-] ????? [= <- <- <-]; (split; [by left|done]).
Qed.

Abbreviation switch data := (reexecute (simple_settings c) max lenient allow data).
Abbreviation step_of data := (step (simple_settings c) max lenient allow data).

Lemma sim_reexecute fuel : forall x y, sim x y -> locals 1 x -> locals 1 y -> 0 <= ex_p y < len Y -> fits x y ->
  follows (switch X fuel x) (switch Y fuel y).
Proof.
  pose proof (window_len X Y k Hwindow) as Hw. pose proof (window_nonneg X Y k Hwindow) as Hk.
  induction fuel as [|fuel IH]; intros x y Hs Hx Hy Hp Hfit; [by left|]. cbn [reexecute]. pose proof (sim_p _ _ _ _ _ _ _ _ Hs) as Hpx.
  pose proof Hx as (He & Hl & Hm & _). pose proof (sim_switch x y Hs He Hm (proj1 Hl) Hp Hfit) as Hf.
  pose proof (good_step (simple_settings c) max lenient allow X _ callbacks_ok 0 ltac:(lia) ltac:(lia) x ltac:(unfold in_buffer; lia) Hx) as Hgx.
  pose proof (good_step (simple_settings c) max lenient allow Y _ callbacks_ok 0 ltac:(lia) ltac:(lia) y ltac:(unfold in_buffer; lia) Hy) as Hgy.
  destruct Hf as [Hr|[Hne Hh]].
  - destruct (step_of X x) as [x'|x'|x'|v x'| | |]; try (by left).
    + destruct Hr as (y' & -> & Hs'). left. by exists y'.
    + destruct Hr as (y' & Hy' & Hs' & Hb). rewrite Hy' in *. destruct Hgx as (_ & Hx' & _), Hgy as (Hp' & Hy'' & _).
      apply IH; [done..|exact Hp'|]. unfold fits. destruct (ex_state x'); done.
    + left. intros Hok. destruct (Hr Hok) as (y' & -> & Hy'). by exists y'.
  - right. split; [done|]. by destruct (step_of Y y).
Qed.

Lemma sim_round x y : sim x (ex_set_ch (ex_ch x) y) -> locals 0 x -> locals 0 y -> 0 <= ex_p y < len Y -> fits x y ->
  follows (round (simple_settings c) max lenient allow X x) (round (simple_settings c) max lenient allow Y y).
Proof.
  intros Hs Hx Hy Hp Hfit. pose proof (sim_p _ _ _ _ _ _ _ _ Hs) as Hpx. cbn in Hpx.
  pose proof (window_len X Y k Hwindow). pose proof (window_nonneg X Y k Hwindow).
  unfold round. rewrite !reading_char_in by lia. rewrite Hpx, (window_char X Y k Hwindow) by lia. set (b := char_at Y (ex_p y)). cbv zeta.
  assert (sim (ex_set_ch b x) (ex_set_ch b y)) as Hs' by (destruct Hs; by split). clear Hs.
  pose proof (sim_state _ _ _ _ _ _ _ _ Hs') as Hst. cbn [ex_state ex_set_ch] in Hst |- *. rewrite <- Hst.
  destruct Hx as (He & Hl & Hm & Hsx & _), Hy as (Hey & Hly & Hmy & Hsy & _).
  apply state_inv_counted in Hsx as [Hx0 Hx1]. apply state_inv_counted in Hsy as [Hy0 Hy1].
  destruct (PARSING_HEADER (ex_state x)) eqn:Eh.
  - unfold COUNT_HEADER_SIZE. cbv zeta. cbn [ex_nread ex_set_nread ex_set_ch].
    pose proof (sim_nread _ _ _ _ _ _ _ _ Hs') as Hn. cbn in Hn. rewrite Hn. destruct (max <? _); [by left|].
    apply sim_reexecute; [apply sim_set_nread; [done|apply Z.mod_pos_bound; lia]|..|done|done].
    + split_and!; try done. rewrite <- Hn. by apply Hx1.
    + split_and!; try done. apply Hy1. by rewrite <- Hst.
  - apply sim_reexecute; [done|..|done|done]; split_and!; try done; [by apply Hx0|apply Hy0; by rewrite <- Hst].
Qed.
End Loops.
