(* ===== verification/HttpCut.v ===== *)
(** * A buffer cut in pieces

    [http_parser_execute] on the pieces of a buffer, one call on each, does what it does on the whole, unless
    a piece ends inside the name or the value of a header: a read of a body that goes over the cut, the main
    loop up to the cut, what the call stores and delivers there, and the main loop from there. *)

From S2P Require Import Prelude HttpTypes HttpUrl HttpExec HttpSafety HttpWire HttpRun HttpWindow HttpRound.

(** ** A read of the body that goes over the cut *)

(** Outcomes up to the character of a round that is over. *)
Definition like {U} (o o' : outcome U) : Prop :=
  match o, o' with
  | Break x, Break y => x = ex_set_ch (ex_ch x) y
  | Return v x, Return w y => v = w /\ ex_parser x = ex_parser y /\ ex_user x = ex_user y
  | _, _ => o = o'
  end.

Section Crossing.
Context {U : Type} (c : callbacks U) (max : Z) (lenient allow : bool).
Context (X : bytes) (K : Z).
Implicit Types (x y : exec U).

Abbreviation switch data := (reexecute (simple_settings c) max lenient allow data).

(** The same locals when the body has been read up to [K] only. *)
Definition read_to x : exec U :=
  let x' := ex_set_p K (MARK D_body x) in
  match ex_state x with
  | s_body_identity_eof => x'
  | _ => on_parser (fun p => hp_set_content_length (hp_content_length p - (K - ex_p x)) p) x'
  end.

Lemma message_done_ch b b' x : hp_http_errno (ex_parser x) = HPE_OK -> ex_state x = s_message_done ->
  like (switch X 3 (ex_set_ch b x)) (switch X 3 (ex_set_ch b' x)).
Proof.
  intros He Hst. destruct x as [p i ch s n m u]. cbn in Hst. subst s. cbn [reexecute step ex_state ex_set_ch]. unfold do_message_done, CALLBACK_NOTIFY.
  rewrite !notify_eq by done. cbn. by destruct (hp_upgrade p).
Qed.

Lemma switch_turn fuel x : switch X (S fuel) x = match step (simple_settings c) max lenient allow X x with Reexecute x' => switch X fuel x' | o => o end.
Proof. done. Qed.

Lemma step_identity x : ex_state x = s_body_identity -> step (simple_settings c) max lenient allow X x = do_body_identity (simple_settings c) X x.
Proof. unfold step. by intros ->. Qed.

Lemma delivered_ch d e x b : delivered c X d e (ex_set_ch b x) = ex_set_ch b (delivered c X d e x).
Proof. unfold delivered. cbn [ex_marks ex_set_ch]. by destruct (get_mark _ _), d. Qed.

Lemma read_body_ch data b x : read_body data (ex_set_ch b x) = ex_set_ch b (read_body data x).
Proof. unfold read_body, MARK. cbn. by destruct (body_mark _). Qed.

Lemma body_ch b b' x x' : ex_state x = s_body_identity -> hp_http_errno (ex_parser x) = HPE_OK -> ex_state x' = s_body_identity ->
  body_length_ok (ex_parser x) = true -> body_length_ok (ex_parser x') = true -> read_body X x' = read_body X x ->
  marks_in X (ex_p (read_body X x) + 1) (ex_marks (read_body X x)) ->
  like (switch X 4 (ex_set_ch b x)) (switch X 4 (ex_set_ch b' x')).
Proof.
  intros Hst He Hst' Hb Hb' Hr Hmk. rewrite !(switch_turn 3), (step_identity (ex_set_ch b x)), (step_identity (ex_set_ch b' x')) by done. unfold do_body_identity. rewrite !read_body_ch, Hr.
  cbn [ex_parser ex_set_ch]. rewrite Hb, Hb'. unfold assert_.
  assert (hp_http_errno (ex_parser (read_body X x)) = HPE_OK) as Her.
  { rewrite <- He. unfold read_body, MARK. destruct (get_mark _ _); cbn; by destruct (ex_parser x). }
  destruct (_ =? 0); [|done]. rewrite !data_eq; [|done|exact Hmk|done|exact Hmk].
  change (UPDATE_STATE s_message_done (ex_set_ch ?v ?r)) with (ex_set_ch v (UPDATE_STATE s_message_done r)). rewrite !delivered_ch.
  apply message_done_ch; [|by rewrite delivered_state]. unfold delivered. cbn. destruct (body_mark _); done.
Qed.

Lemma read_body_to x : ex_state x <> s_body_identity_eof -> length_ok (ex_parser x) -> ex_p x <= K -> K <= len X ->
  K - ex_p x < hp_content_length (ex_parser x) -> read_body X (read_to x) = read_body X x /\
  hp_content_length (ex_parser (read_to x)) = hp_content_length (ex_parser x) - (K - ex_p x).
Proof.
  intros Hst Hl Hp HK Hc.
  assert (read_to x = on_parser (fun p => hp_set_content_length (hp_content_length p - (K - ex_p x)) p) (ex_set_p K (MARK D_body x))) as ->.
  { unfold read_to. destruct (ex_state x); done. }
  destruct x as [p i ch s n m u]. unfold length_ok in Hl. cbn in *.
  assert (forall v, 0 <= v <= hp_content_length p -> hp_content_length (hp_set_content_length v p) = v) as Hset.
  { intros v Hv. cbn. change (wrap 64) with u64. by rewrite u64_id by lia. }
  assert (forall v q, hp_set_content_length v (hp_set_content_length (hp_content_length p - (K - i)) q) = hp_set_content_length v q) as Hset2 by (by intros v []).
  assert (forall j, marked D_body j (marked D_body i m) = marked D_body i m) as Hmk.
  { intros j. unfold marked at 1. unfold marked. destruct (get_mark D_body m) eqn:Em; [by rewrite Em|by destruct m]. }
  rewrite MARK_eq. split; [|apply Hset; lia].
  unfold read_body, data_len. rewrite !MARK_eq. unfold on_parser, ex_set_p, ex_set_marks. exec_cbn. rewrite Hmk, Hset by lia. rewrite Hset2.
  f_equal; [f_equal|]; lia.
Qed.
End Crossing.

Section Cutting.
Context {U : Type} (c : callbacks U) (max : Z) (lenient allow : bool).
Context (X Y : bytes) (k : Z).
Hypothesis Hwindow : exists pre post, X = pre ++ Y ++ post /\ len pre = k.
Context (cut : option (data_cb * Z)).
Hypothesis Hcut : forall d m, cut = Some (d, m) -> 0 <= m <= k /\
  forall a b u, data_user c d (a ++ b) u = data_user c d b (data_user c d a u).
Hypothesis Hmax : 0 < max.
Implicit Types (x y : exec U).

Abbreviation sim := (sim c lenient allow X k cut).
Abbreviation locals := (locals_ok (fun _ : U => True)).
Abbreviation round data := (round (simple_settings c) max lenient allow data).
Abbreviation loop data := (main_loop (simple_settings c) max lenient allow data).
Abbreviation K := (k + len Y).

(** The body goes on after the end of [Y]. *)
Definition crosses x y : Prop := body_state (ex_state x) = true /\ len X <> K /\
  (ex_state x = s_body_identity_eof \/ len Y - ex_p y < hp_content_length (ex_parser y)).

Lemma fits_or x y : fits X Y k x y \/ crosses x y.
Proof.
  unfold fits, crosses, same_read. destruct (decide (len X = K)) as [|Hne]; [destruct (ex_state x); auto|].
  destruct (ex_state x); auto; destruct (decide (hp_content_length (ex_parser y) <= len Y - ex_p y)); auto; right; split_and!; auto; right; lia.
Qed.

Lemma round_body_state data x : body_state (ex_state x) = true -> 0 <= ex_p x < len data ->
  round data x = reexecute (simple_settings c) max lenient allow data 4 (ex_set_ch (char_at data (ex_p x)) x).
Proof. intros Hb Hp. unfold HttpExec.round. rewrite reading_char_in by done. cbn [ex_state ex_set_ch]. by destruct (ex_state x). Qed.

Lemma read_to_state x : ex_state (read_to K x) = ex_state x.
Proof. unfold read_to. rewrite MARK_eq. destruct (ex_state x) eqn:E; exact E. Qed.

Lemma read_to_p x : ex_p (read_to K x) = K.
Proof. unfold read_to. rewrite MARK_eq. by destruct (ex_state x). Qed.

Lemma round_to x : body_state (ex_state x) = true -> locals 0 x -> 0 <= ex_p x <= K -> K < len X ->
  (ex_state x <> s_body_identity_eof -> K - ex_p x < hp_content_length (ex_parser x)) ->
  like (round X x) (round X (read_to K x)).
Proof.
  intros Hb (He & Hl & Hm & Hs & _) Hp HK Hc. rewrite !round_body_state by first [done|by rewrite read_to_state|rewrite ?read_to_p; lia]. set (b := char_at X _). set (b' := char_at X _).
  destruct (decide (ex_state x = s_body_identity_eof)) as [Heof|Hne].
  { rewrite !switch_turn. unfold step. cbn [ex_state ex_set_ch]. rewrite read_to_state, Heof. unfold do_body_identity_eof, read_to. rewrite Heof.
    unfold MARK. destruct x as [p i ch s n m u]. cbn. destruct (body_mark m) eqn:Em; cbn; [by rewrite Em|]. by destruct m. }
  destruct (read_body_to X K x) as [Hr Hl']; [done|done|lia|lia|by apply Hc|].
  assert (body_length_ok (ex_parser x) = true) as Hok.
  { apply body_length_ok_iff. destruct (ex_state x); try done. destruct Hs as (_ & ? & ?). done. }
  assert (body_length_ok (ex_parser (read_to K x)) = true) as Hok'.
  { apply body_length_ok_iff. rewrite Hl'. apply body_length_ok_iff in Hok as [_ Hok]. specialize (Hc Hne). unfold length_ok, ULLONG_MAX in *. lia. }
  destruct (ex_state x) eqn:Est; try done.
  - rewrite !switch_turn. unfold step. cbn [ex_state ex_set_ch]. rewrite read_to_state, Est. unfold do_chunk_data.
    destruct Hs as (Hck & _). unfold is_chunked. cbn [ex_parser ex_set_ch]. rewrite Hok, Hok'.
    assert (has_flag (hp_flags (ex_parser (read_to K x))) F_CHUNKED = true) as ->.
    { unfold read_to. rewrite Est. rewrite MARK_eq. exact Hck. }
    unfold chunked in Hck. rewrite Hck. unfold assert_. rewrite !read_body_ch, Hr. cbn. by destruct (_ =? 0).
  - apply body_ch; [done|exact He|by rewrite read_to_state|done|done|done|].
    eapply read_body_marks; [exact Hm|apply Hl|lia].
Qed.

Lemma read_to_locals x : body_state (ex_state x) = true -> locals 0 x -> 0 <= ex_p x <= K -> K < len X ->
  (ex_state x <> s_body_identity_eof -> K - ex_p x < hp_content_length (ex_parser x)) ->
  locals 0 (read_to K x).
Proof.
  intros Hb (He & Hl & Hm & Hs & _) Hp HK Hc.
  destruct (decide (ex_state x = s_body_identity_eof)) as [Heof|Hne].
  { unfold read_to. rewrite Heof, MARK_eq. split_and!; try done; cbn; rewrite Heof; try done.
    eapply marks_marked; [..|exact Hm]; [by rewrite Heof; right|done|lia|lia]. }
  destruct (read_body_to X K x) as [_ Hl']; [done|done|lia|lia|by apply Hc|]. specialize (Hc Hne).
  assert (locals 0 (read_to K x) <-> length_ok (ex_parser (read_to K x)) /\ marks_ok (ex_state x) K (marked D_body (ex_p x) (ex_marks x)) /\
    state_inv 0 (ex_state x) (ex_parser (read_to K x)) (ex_nread x)) as ->.
  { unfold locals_ok. rewrite read_to_state. unfold read_to, ex_errno in *. rewrite MARK_eq.
    destruct (ex_state x); try done; cbn; rewrite He; tauto. }
  split_and!.
  - unfold length_ok in *. lia.
  - eapply marks_marked; [..|exact Hm]; [|by destruct (ex_state x)|lia|lia]. destruct (ex_state x); try done; by right.
  - destruct (ex_state x) eqn:Est; try done; cbn in Hs |- *; rewrite Hl'; unfold length_ok, ULLONG_MAX in *.
    + destruct Hs as [Hs Hs']. split; [|lia]. unfold read_to. by rewrite Est, MARK_eq.
    + lia.
Qed.

(** Where the round of [Y] ends. *)
Lemma cross_round y : body_state (ex_state y) = true -> locals 0 y -> 0 <= ex_p y < len Y ->
  ex_state y = s_body_identity_eof \/ len Y - ex_p y < hp_content_length (ex_parser y) ->
  exists ch, round Y y = Break (ex_set_ch ch (ex_set_p (len Y - 1) (read_to (len Y) y))).
Proof.
  intros Hb (He & Hl & Hm & Hs & _) Hp Hor. exists (char_at Y (ex_p y)). rewrite round_body_state by done. rewrite switch_turn.
  destruct (decide (ex_state y = s_body_identity_eof)) as [Heof|Hne].
  { unfold step. cbn [ex_state ex_set_ch]. rewrite Heof. unfold do_body_identity_eof, read_to. rewrite Heof, !MARK_eq. done. }
  destruct Hor as [|Hc]; [done|].
  assert (body_length_ok (ex_parser y) = true) as Hok.
  { apply body_length_ok_iff. destruct (ex_state y); try done. destruct Hs as (_ & ? & ?). done. }
  assert (read_body Y y = ex_set_p (len Y - 1) (read_to (len Y) y)) as Hr.
  { unfold read_body, read_to, data_len. rewrite MARK_eq. destruct (ex_state y) eqn:Est; try done.
    all: destruct y as [p i ch s n m u]; cbn in *; unfold on_parser, ex_set_p, ex_set_marks; exec_cbn; rewrite (Z.min_r _ (len Y - i)) by lia; f_equal; lia. }
  destruct (read_body_to Y (len Y) y) as [_ Hl']; [done|done|lia|lia|done|].
  assert ((hp_content_length (ex_parser (ex_set_p (len Y - 1) (read_to (len Y) y))) =? 0) = false) as Hn.
  { cbn [ex_parser ex_set_p]. rewrite Hl'. apply Z.eqb_neq. lia. }
  unfold step. cbn [ex_state ex_set_ch]. destruct (ex_state y) eqn:Est; try done.
  - unfold do_chunk_data, is_chunked. destruct Hs as (Hck & _). unfold chunked in Hck. cbn [ex_parser ex_set_ch]. rewrite Hck, Hok. unfold assert_.
    cbv zeta. rewrite !read_body_ch, Hr. cbn [ex_parser ex_set_ch] in Hn |- *. by rewrite Hn.
  - unfold do_body_identity. cbn [ex_parser ex_set_ch]. rewrite Hok. unfold assert_.
    cbv zeta. rewrite !read_body_ch, Hr. cbn [ex_parser ex_set_ch] in Hn |- *. by rewrite Hn.
Qed.

Lemma sim_read_to x y : sim x (ex_set_ch (ex_ch x) y) -> locals 0 x -> 0 <= ex_p y -> body_state (ex_state x) = true ->
  sim (read_to K x) (ex_set_ch (ex_ch x) (read_to (len Y) y)).
Proof.
  intros Hs (_ & _ & Hm & _) Hy Hb. pose proof (sim_p _ _ _ _ _ _ _ _ Hs) as Hp. cbn in Hp.
  assert (sim (MARK D_body x) (MARK D_body (ex_set_ch (ex_ch x) y))) as Hs'.
  { apply sim_MARK; [done|done| |done]. destruct (ex_state x); done. }
  assert (ex_state y = ex_state x) as Est by (by rewrite (sim_state _ _ _ _ _ _ _ _ Hs)).
  pose proof (core_length (K - ex_p x) _ _ (sim_core _ _ _ _ _ _ _ _ Hs)) as Hc. cbn in Hc.
  rewrite !MARK_eq in Hs'. unfold read_to. rewrite Est, !MARK_eq. destruct Hs' as [A1 A2 A3 A4 A5 A6 A7 A8]. cbn in *.
  destruct (ex_state x) eqn:E; try done; (split; cbn; try done; try lia; try (by rewrite E, Est); try (left; by rewrite E)).
  all: by replace (len Y - ex_p y) with (K - ex_p x) by lia.
Qed.

Lemma sim_cross x y : sim x (ex_set_ch (ex_ch x) y) -> locals 0 x -> locals 0 y -> 0 <= ex_p y < len Y -> crosses x y ->
  exists y1, round Y y = Break y1 /\ ex_p y1 + 1 = len Y /\ sim (read_to K x) (ex_set_ch (ex_ch x) (ex_set_p (len Y) y1)).
Proof.
  intros Hs Hx Hy Hp (Hb & _ & Hor). pose proof (sim_state _ _ _ _ _ _ _ _ Hs) as Hst. cbn in Hst.
  destruct (cross_round y) as [ch Hr]; [by rewrite <- Hst|done|done|by rewrite <- Hst|].
  eexists. split; [exact Hr|]. split; [cbn; lia|]. pose proof (sim_read_to x y Hs Hx (proj1 Hp) Hb) as [A1 A2 A3 A4 A5 A6 A7 A8].
  assert (ex_p (read_to (len Y) y) = len Y) as Hpy by (unfold read_to; rewrite MARK_eq; by destruct (ex_state y)).
  split; try done. cbn in A1 |- *. lia.
Qed.
(** ** The main loop *)

Lemma loop_turn data n x : ex_p x <> len data -> loop data (S n) x =
  match round data x with Break x' => loop data n (ex_set_p (ex_p x' + 1) x') | o => finish o end.
Proof. intros Hp. cbn [main_loop]. unfold data_len. destruct (Z.eqb_spec (ex_p x) (len data)); [done|]. by destruct (round data x). Qed.

Lemma loop_end data n x : ex_p x = len data -> loop data n x = finish (end_of_buffer (simple_settings c) data x).
Proof. intros Hp. destruct n; cbn [main_loop]; unfold data_len; by rewrite Hp, Z.eqb_refl. Qed.

Lemma finish_ok o r p (u : U) : finish o = Done r p u -> hp_http_errno p = HPE_OK -> exists x, o = Return r x /\ p = ex_parser x /\ u = ex_user x.
Proof.
  destruct o as [x|x|x|v x| | |]; cbn; try done.
  - intros [= _ <- _] He. exfalso. case_decide; cbn in He; [done|]. unfold ex_errno in *. destruct (ex_parser x); by cbn in *.
  - intros [= -> <- <-] _. by exists x.
Qed.

(** The data pending at the end of the buffer, delivered. *)
Definition flushed data x : exec U :=
  fold_left (fun x d => delivered c data d 0 x) [D_header_field; D_header_value; D_url; D_body; D_status] x.

Lemma delivered_errno data d e x : hp_http_errno (ex_parser (delivered c data d e x)) = hp_http_errno (ex_parser x).
Proof. unfold delivered. destruct (get_mark _ _), d; done. Qed.

Lemma delivered_marks_in data d e j x : marks_in data j (ex_marks x) -> marks_in data j (ex_marks (delivered c data d e x)).
Proof.
  intros [Hj Hm]. split; [done|]. intros d' v. unfold delivered. destruct (get_mark d (ex_marks x)) eqn:E; [|apply Hm].
  assert (forall z : exec U, ex_marks (ex_set_marks (set_mark d None (ex_marks x)) z) = set_mark d None (ex_marks x)) as -> by done.
  rewrite get_set_mark. case_decide; [done|apply Hm].
Qed.

Lemma end_flushed data x : locals 0 x -> ex_p x = len data -> end_of_buffer (simple_settings c) data x = RETURN (len data) (flushed data x).
Proof.
  intros (He & _ & Hm & _) Hp. assert (marks_in data (ex_p x + 0) (ex_marks x)) as Hin by (eapply marks_ok_in; [exact Hm|lia]).
  unfold end_of_buffer. rewrite decide_True by (by eapply marks_ok_count). unfold CALLBACK_DATA_NOADVANCE.
  unfold ex_errno in He. rewrite !data_eq by (rewrite ?delivered_errno, ?delivered_p; auto using delivered_marks_in). done.
Qed.

Lemma flushed_state data x : ex_state (flushed data x) = ex_state x.
Proof. unfold flushed. cbn [fold_left]. by rewrite !delivered_state. Qed.

Lemma loop_ch data n v x : locals 0 x -> loop data n (ex_set_ch v x) = loop data n x.
Proof.
  intros Hx. destruct (decide (ex_p x = len data)) as [Hp|Hp].
  - rewrite !loop_end, !end_flushed by done. unfold flushed. cbn [fold_left]. by rewrite !delivered_ch.
  - destruct n as [|n]; [cbn [main_loop]; unfold data_len; cbn [ex_p ex_set_ch]; by destruct (Z.eqb_spec (ex_p x) (len data))|]. by rewrite !loop_turn.
Qed.

Lemma round_locals data x : 0 <= ex_p x < len data -> locals 0 x -> match round data x with
  | Break x' => ex_p x <= ex_p x' < len data /\ locals 0 (ex_set_p (ex_p x' + 1) x')
  | Return v _ => 0 <= v <= len data
  | Goto_error x' => 0 <= ex_p x' <= len data
  | Reexecute _ => False
  | _ => True end.
Proof.
  intros Hp Hx. pose proof (good_round (simple_settings c) max lenient allow data _ (callbacks_ok c) (ex_p x) (proj1 Hp) ltac:(lia) x ltac:(unfold in_buffer; lia) Hx) as Hg.
  destruct (round data x) as [x'|x'|x'|v x'| | |]; cbn in Hg; try done; [|by destruct Hg as (_ & _ & Hg); lia|tauto..].
  destruct Hg as [Hin (? & ? & Hm & ? & ?)]. split; [done|]. split_and!; try done. eapply marks_move; [by right| |exact Hm]. cbn. lia.
Qed.

Lemma loop_like data n x x' : 0 <= ex_p x' < len data -> ex_p x <> len data -> locals 0 x' -> like (round data x) (round data x') ->
  loop data (S n) x = loop data (S n) x'.
Proof.
  intros Hp' Hp Hx Hl. rewrite !loop_turn by lia. pose proof (round_locals data x' Hp' Hx) as Hr.
  destruct (round data x) as [z|z|z|v z| | |], (round data x') as [z'|z'|z'|v' z'| | |]; cbn in Hl; try done; try congruence.
  - rewrite Hl. destruct Hr as [_ Hr]. apply (loop_ch data n (ex_ch z) (ex_set_p (ex_p z' + 1) z') Hr).
  - cbn. destruct Hl as (-> & Hlp & Hlu). by rewrite Hlp, Hlu.
Qed.

(** What a call leaves in the parser at the end of the buffer. *)
Definition stored x : http_parser := hp_set_state (ex_state x) (hp_set_nread (ex_nread x) (ex_parser x)).

Lemma loop_flushed data n x : ex_p x = len data -> locals 0 x -> loop data n x = Done (len data) (stored (flushed data x)) (ex_user (flushed data x)).
Proof. intros Hp Hx. by rewrite loop_end, end_flushed. Qed.

Lemma in_header_done n y : 0 <= ex_p y < len Y -> locals 0 y -> in_header Y (round Y y) ->
  exists v q w, loop Y (S n) y = Done v q w /\ 0 <= v <= len Y /\ header_state (hp_state q) = true.
Proof.
  intros Hp Hy Hh. rewrite loop_turn by lia. pose proof (round_locals Y y Hp Hy) as Hr. destruct (round Y y) as [y'|y'|y'|v y'| | |]; try done.
  - destruct Hh as [He Hst], Hr as [_ Hr]. rewrite loop_flushed by done. do 3 eexists. split; [done|]. split; [lia|].
    unfold stored. by rewrite flushed_state.
  - cbn. do 3 eexists. split; [done|]. case_decide; cbn in *; split; lia || done.
Qed.

(** The run on [X] up to where [Y] ends: it returns before, and so does the run on [Y]; or [Y] ends in
    a name or a value; or both are at the same place. *)
Lemma loop_sim n : forall n' x y r p u, sim x (ex_set_ch (ex_ch x) y) -> locals 0 x -> locals 0 y -> 0 <= ex_p y <= len Y ->
  len X - ex_p x <= Z.of_nat n -> len Y - ex_p y <= Z.of_nat n' -> loop X n x = Done r p u -> hp_http_errno p = HPE_OK ->
  exists v q w, loop Y n' y = Done v q w /\ 0 <= v <= len Y /\
    ((v = r - k /\ q = p /\ w = u) \/
     (header_state (hp_state q) = true /\ len X <> K) \/
     (exists m x1 y1, len X - K <= Z.of_nat m /\ loop X m x1 = Done r p u /\ sim x1 (ex_set_ch (ex_ch x1) y1) /\
        locals 0 x1 /\ locals 0 y1 /\ ex_p y1 = len Y /\ v = len Y /\ q = stored (flushed Y y1) /\ w = ex_user (flushed Y y1))).
Proof.
  pose proof (window_len X Y k Hwindow) as Hw. pose proof (window_nonneg X Y k Hwindow) as Hk. pose proof (len_nonneg Y) as HY.
  induction n as [|n IH]; intros n' x y r p u Hs Hx Hy Hp Hn Hn' Hr He; pose proof (sim_p _ _ _ _ _ _ _ _ Hs) as Hpx; cbn in Hpx.
  all: destruct (decide (ex_p y = len Y)) as [Hey|Hey].
  1, 3: do 3 eexists; split; [by apply loop_flushed|]; split; [lia|]; right; right; do 3 eexists; split_and!; [|exact Hr|exact Hs|done..]; lia.
  { lia. }
  destruct n' as [|n']; [lia|]. pose proof (round_locals X x ltac:(lia) Hx) as Hrx. pose proof (round_locals Y y ltac:(lia) Hy) as Hry.
  destruct (fits_or x y) as [Hfit|Hcr].
  - destruct (sim_round c max lenient allow X Y k Hwindow cut Hcut Hmax x y Hs Hx Hy ltac:(lia) Hfit) as [Hrel|[Hne Hh]].
    + rewrite loop_turn in Hr by lia. rewrite loop_turn by lia. destruct (round X x) as [x'|x'|x'|v x'| | |]; try done.
      * destruct Hrel as (y' & Hy' & Hs'). rewrite Hy' in *. destruct Hrx as [Hbx Hlx], Hry as [Hby Hly].
        pose proof (sim_p _ _ _ _ _ _ _ _ Hs') as Hp'. cbn in Hp'.
        apply (IH n' (ex_set_p (ex_p x' + 1) x') _ r p u); [destruct Hs'; split; cbn in *; try done; lia|done|done|cbn; lia|cbn; lia|cbn; lia|done|done].
      * destruct (finish_ok _ _ _ _ Hr He) as (z & ? & _). done.
      * cbn in Hr. injection Hr as -> <- <-. destruct (Hrel He) as (y' & Hy' & Hq & Hu). rewrite Hy' in *. cbn.
        do 3 eexists. split; [done|]. split; [done|]. left. split_and!; done.
    + destruct (in_header_done n' y ltac:(lia) Hy Hh) as (v & q & w & Hl & Hv & Hst). exists v, q, w. split_and!; [done|lia|lia|]. right; left. done.
  - destruct (sim_cross x y Hs Hx Hy ltac:(lia) Hcr) as (y1 & Hr1 & Hp1 & Hs1). destruct Hcr as (Hb & Hne & Hor).
    assert (ex_state x <> s_body_identity_eof -> K - ex_p x < hp_content_length (ex_parser x)) as Hc.
    { intros Hneof. destruct Hor; [done|]. pose proof (sim_length _ _ _ _ _ _ _ _ Hs) as Hl. cbn in Hl. lia. }
    assert (ex_p (read_to K x) = K) as Hpk by (unfold read_to; rewrite MARK_eq; by destruct (ex_state x)).
    pose proof (read_to_locals x Hb Hx ltac:(lia) ltac:(lia) Hc) as Hx1.
    rewrite (loop_like X n x (read_to K x)) in Hr; [|lia|lia|done|apply round_to; [done|done|lia|lia|done]].
    rewrite Hr1 in Hry. destruct Hry as [_ Hy1]. rewrite loop_turn, Hr1 by lia. rewrite Hp1 in *.
    do 3 eexists. split; [by apply loop_flushed|]. split; [lia|]. right; right. exists (S n), (read_to K x), (ex_set_p (len Y) y1).
    split_and!; try done; [lia|]. assert (ex_ch (read_to K x) = ex_ch x) as ->; [|done]. unfold read_to. rewrite MARK_eq. by destruct (ex_state x).
Qed.

(** *** The end of the buffer *)

Lemma stored_state x : stored (on_parser (hp_set_state (ex_state x)) x) = stored x.
Proof. done. Qed.

Lemma flushed_none data x : ex_marks x = no_marks -> flushed data x = x.
Proof. destruct x. cbn. by intros ->. Qed.

Lemma flushed_some data x d v : ex_marks x = set_mark d (Some v) no_marks ->
  stored (flushed data x) = stored x /\ ex_user (flushed data x) = data_user c d (slice data v (ex_p x)) (ex_user x).
Proof. destruct x. cbn. intros ->. destruct d; cbn; by rewrite ?Z.add_0_r. Qed.

Lemma sim_stored x y : sim x (ex_set_ch (ex_ch x) y) -> stored x = stored y.
Proof. intros []. unfold stored. cbn in *. rewrite sim_state, sim_nread. by apply core_stored. Qed.

Lemma sim_flushed x y : sim x (ex_set_ch (ex_ch x) y) -> 0 <= ex_p y <= len Y ->
  stored (flushed X x) = stored (flushed Y y) /\ ex_user (flushed X x) = ex_user (flushed Y y).
Proof.
  intros Hs Hp. pose proof (sim_stored x y Hs) as Hst. pose proof (sim_p _ _ _ _ _ _ _ _ Hs) as Hpx. cbn in Hpx.
  destruct Hs as [_ _ _ _ _ Hm _ _ _]. cbn in Hm. pose proof (window_nonneg X Y k Hwindow) as Hk.
  remember (ex_marks x) as mx eqn:Ex. remember (ex_marks y) as my eqn:Ey. remember (ex_user x) as ux eqn:Eu. remember (ex_user y) as uy eqn:Euy.
  destruct Hm as [u|d v u Hv|d m u Hd]; symmetry in Ex, Ey.
  - by rewrite !flushed_none, <- Eu, <- Euy.
  - destruct (flushed_some X x d _ Ex) as [-> ->], (flushed_some Y y d _ Ey) as [-> ->].
    rewrite Hpx, (window_slice X Y k Hwindow), <- Eu, <- Euy by lia. done.
  - destruct (flushed_some X x d _ Ex) as [-> ->], (flushed_some Y y d _ Ey) as [-> ->]. destruct (Hcut d m Hd) as [Hm Hadd].
    split; [done|]. rewrite <- Euy, <- Eu, <- Hadd, Hpx. f_equal.
    rewrite <- (window_slice X Y k Hwindow 0 (ex_p y)) by lia. symmetry. apply slice_app_cut; lia.
Qed.

(** When both buffers end together, the second run does what the first one does. *)
Lemma loop_same n n' x y r p u : len X = K -> sim x (ex_set_ch (ex_ch x) y) -> locals 0 x -> locals 0 y -> 0 <= ex_p y <= len Y ->
  len X - ex_p x <= Z.of_nat n -> len Y - ex_p y <= Z.of_nat n' -> loop X n x = Done r p u -> hp_http_errno p = HPE_OK ->
  loop Y n' y = Done (r - k) p u.
Proof.
  intros Hl Hs Hx Hy Hp Hn Hn' Hr He. destruct (loop_sim n n' x y r p u Hs Hx Hy Hp Hn Hn' Hr He) as (v & q & w & -> & _ & Hor).
  destruct Hor as [(-> & -> & ->)|[[_ ?]|(m & x1 & y1 & Hm & Hr1 & Hs1 & Hx1 & Hy1 & Hp1 & -> & -> & ->)]]; [done|done|].
  pose proof (sim_p _ _ _ _ _ _ _ _ Hs1) as Hpx. cbn in Hpx. rewrite loop_flushed in Hr1 by (done || lia). injection Hr1 as <- <- <-.
  destruct (sim_flushed x1 y1 Hs1 ltac:(lia)) as [-> ->]. f_equal. lia.
Qed.
End Cutting.

(** ** Two reads *)

Section Reads.
Context {U : Type} (c : callbacks U) (max : Z).
Hypothesis Hmax : 0 < max.
Implicit Types (x y : exec U) (u : U) (p : http_parser) (a b : bytes).

Abbreviation execute := (http_parser_execute (simple_settings c) max).
Abbreviation locals := (locals_ok (fun _ : U => True)).

Lemma MARK_twice d x : MARK d (MARK d x) = MARK d x.
Proof. unfold MARK. destruct (get_mark d (ex_marks x)) eqn:E; [by rewrite E|]. destruct x as [? ? ? ? ? [] ?], d; done. Qed.

Lemma round_marked lenient allow data x : body_state (ex_state x) = true -> 0 <= ex_p x < len data ->
  round (simple_settings c) max lenient allow data (MARK D_body x) = round (simple_settings c) max lenient allow data x.
Proof.
  intros Hb Hin. assert (ex_p (MARK D_body x) = ex_p x /\ ex_state (MARK D_body x) = ex_state x) as [Hp Hst] by (by rewrite MARK_eq).
  rewrite !round_body_state, Hp by (rewrite ?Hst, ?Hp; done). set (ch := char_at _ _).
  replace (ex_set_ch ch (MARK D_body x)) with (MARK D_body (ex_set_ch ch x)) by (rewrite !MARK_eq; done).
  set (z := ex_set_ch ch x). assert (ex_state z = ex_state x) as Hz by done. clearbody z. clear Hp Hst.
  assert (read_body data (MARK D_body z) = read_body data z) as Hr by (unfold read_body; rewrite MARK_twice; rewrite MARK_eq; done).
  rewrite !switch_turn. assert (step (simple_settings c) max lenient allow data (MARK D_body z) = step (simple_settings c) max lenient allow data z) as ->; [|done].
  unfold step. assert (ex_state (MARK D_body z) = ex_state z) as -> by (by rewrite MARK_eq). rewrite Hz. destruct (ex_state x); try done.
  - unfold do_chunk_data, is_chunked. rewrite Hr. by rewrite MARK_eq.
  - unfold do_body_identity. rewrite Hr. by rewrite MARK_eq.
  - unfold do_body_identity_eof. by rewrite MARK_twice.
Qed.

Lemma loop_marked lenient allow data n x : body_state (ex_state x) = true -> 0 <= ex_p x < len data ->
  main_loop (simple_settings c) max lenient allow data (S n) (MARK D_body x) = main_loop (simple_settings c) max lenient allow data (S n) x.
Proof. intros Hb Hp. rewrite !loop_turn by (rewrite ?MARK_eq; cbn; lia). by rewrite round_marked. Qed.

Section Cut.
Context (lenient allow : bool) (a b : bytes).
Abbreviation X := (a ++ b).
Abbreviation loop data := (main_loop (simple_settings c) max lenient allow data).

Lemma window_first : exists pre post, X = pre ++ a ++ post /\ len pre = 0.
Proof. by exists [], b. Qed.
Lemma window_second : exists pre post, X = pre ++ b ++ post /\ len pre = len a.
Proof. exists a, []. by rewrite app_nil_r. Qed.

(** Where the data pending at the cut can be delivered in two pieces. *)
Definition additive (d : data_cb) : Prop := forall s t u, data_user c d (s ++ t) u = data_user c d t (data_user c d s u).

Lemma after_chunk_data data x : ex_state x = s_chunk_data_almost_done -> locals 0 x -> 0 <= ex_p x < len data ->
  round (simple_settings c) max lenient allow data x = let x' := ex_set_ch (char_at data (ex_p x)) x in
    if negb (char_at data (ex_p x) =? CR) then err HPE_STRICT x' else Break (delivered c data D_body 0 (UPDATE_STATE s_chunk_data_done x')).
Proof.
  intros Hst (He & _ & Hm & Hs & _) Hp. rewrite Hst in Hs. destruct Hs as [Hck Hl]. unfold chunked in Hck. unfold round. rewrite reading_char_in by done. cbn [ex_state ex_set_ch]. rewrite Hst.
  cbn [PARSING_HEADER reexecute]. unfold step. cbn [ex_state ex_set_ch]. rewrite Hst. unfold do_chunk_data_almost_done, is_chunked, STRICT_CHECK, CALLBACK_DATA.
  cbn [ex_parser ex_ch ex_set_ch]. rewrite Hck, Hl. cbv zeta. cbn [assert_ Z.eqb]. destruct (negb _); [done|]. rewrite data_eq; [done|done|]. eapply marks_ok_in; [exact Hm|cbn; lia].
Qed.

(** After the cut: the second call enters with what the first one stored, and the data pending have been delivered. *)
Record resumes (m : option (data_cb * Z)) x y : Prop := {
  re_p : ex_p x = len a /\ ex_p y = 0;
  re_state : ex_state x = ex_state y;
  re_nread : ex_nread x = ex_nread y;
  re_range : 0 <= ex_nread x < 2 ^ 32;
  re_core : core (ex_parser x) = core (ex_parser y);
  re_options : options (ex_parser x) = (lenient, allow);
  re_x : ex_marks x = match m with Some (d, v) => set_mark d (Some v) no_marks | None => no_marks end;
  re_y : ex_marks y = entry_marks (ex_state y);
  re_begun : entry_marks (ex_state x) = no_marks \/ ex_marks x <> no_marks;
  re_user : ex_user y = match m with Some (d, v) => data_user c d (slice X v (len a)) (ex_user x) | None => ex_user x end;
  re_add : forall d v, m = Some (d, v) -> additive d;
  }.

Lemma resumes_cut m x y : resumes m x y -> locals 0 x -> forall d v, m = Some (d, v) -> 0 <= v <= len a /\ additive d /\ mark_of (ex_state y) = Some d.
Proof.
  intros [[Hp _] Hs _ _ _ _ Hx _ _ _ Ha] (_ & _ & Hm & _) d v ->. destruct (Hm d v) as [Hd Hv].
  { rewrite Hx. by destruct d. }
  rewrite <- Hs, Hd. split; [lia|]. split; [by eapply Ha|done].
Qed.

Lemma resume m n n' x y r p u : resumes m x y -> locals 0 x -> locals 0 y -> 0 < len b ->
  len b <= Z.of_nat n -> len b <= Z.of_nat n' -> loop X n x = Done r p u -> hp_http_errno p = HPE_OK ->
  loop b n' y = Done (r - len a) p u.
Proof.
  intros Hre Hx Hy Hb Hn Hn' Hr He. pose proof (resumes_cut m x y Hre Hx) as Hcut.
  assert (forall d v, m = Some (d, v) -> 0 <= v <= len a /\ additive d) as Hadd by (intros d v Hd; by destruct (Hcut d v Hd) as (? & ? & _)).
  assert (len X = len a + len b) as HX by apply len_app. pose proof (len_nonneg a) as Ha.
  assert (forall z, ex_p z = 0 -> sim c lenient allow X (len a) m x (ex_set_ch (ex_ch x) z) -> locals 0 z -> loop b n' z = Done (r - len a) p u) as Hgo.
  { intros z Hz Hs Hlz. destruct Hre as [[Hpx Hpy] _ _ _ _ _ _ _ _ _ _].
    apply (loop_same c max lenient allow X b (len a) window_second m Hadd Hmax n n' x z); [lia|done|done|done|lia|lia|lia|done|done]. }
  destruct Hre as [[Hpx Hpy] A2 A3 A4 A5 A6 A7 A8 A9 A10 A11].
  assert (forall z, ex_p z = 0 -> ex_state z = ex_state y -> ex_nread z = ex_nread y -> ex_parser z = ex_parser y -> ex_user z = ex_user y ->
    match m with None => ex_marks z = no_marks | Some (d, _) => ex_marks z = set_mark d (Some 0) no_marks end ->
    sim c lenient allow X (len a) m x (ex_set_ch (ex_ch x) z)) as Hsim.
  { intros z B1 B2 B3 B4 B5 B6. split; cbn; try congruence; [lia|]. rewrite A7, B5, A10. destruct m as [[d v]|]; rewrite B6; by constructor. }
  destruct m as [[d v]|].
  2: { apply Hgo; [done| |done]. apply Hsim; try done. rewrite A8, <- A2. by destruct A9. }
  destruct (Hcut d v eq_refl) as (Hv & Hd & Hmk).
  assert (entry_marks (ex_state y) = set_mark d (Some 0) no_marks \/
    (d = D_body /\ entry_marks (ex_state y) = no_marks /\ (body_state (ex_state y) = true \/ ex_state y = s_chunk_data_almost_done))) as Hor.
  { destruct (ex_state y); cbn in Hmk; try discriminate; injection Hmk as <-; auto. }
  destruct Hor as [He0|(-> & He0 & [Hbody|Hdone])].
  - apply Hgo; [done| |done]. apply Hsim; try done. by rewrite A8.
  - destruct n' as [|n']; [lia|]. rewrite <- loop_marked by (done || lia).
    assert (MARK D_body y = ex_set_marks (set_mark D_body (Some 0) no_marks) y) as Hm by (rewrite MARK_eq, A8, He0, Hpy; done).
    rewrite Hm. apply Hgo; [done|by apply Hsim|]. destruct Hy as (B1 & B2 & B3 & B4 & B5). split_and!; try done.
    cbn. rewrite Hpy. intros d' v' Hd'. rewrite Hmk. destruct d'; try done. injection Hd' as <-. split; [done|lia].
  - assert (ex_marks y = no_marks) as Hmy by congruence. clear Hgo Hsim.
    destruct n as [|n]; [lia|]. destruct n' as [|n']; [lia|].
    pose proof (round_locals c max lenient allow Hmax X x ltac:(lia) Hx) as Hrx. pose proof (round_locals c max lenient allow Hmax b y ltac:(lia) Hy) as Hry.
    rewrite loop_turn in Hr by lia. rewrite loop_turn by lia.
    rewrite (after_chunk_data X x) in Hr, Hrx by first [done|congruence|lia]. rewrite (after_chunk_data b y) in Hry |- * by first [done|lia].
    assert (char_at X (ex_p x) = char_at b (ex_p y)) as Hch.
    { rewrite Hpx, Hpy. rewrite <- (window_char X b (len a) window_second 0) by lia. done. }
    rewrite Hch in Hr, Hrx. destruct (negb _); [by destruct (finish_ok _ _ _ _ Hr He) as (? & ? & _)|].
    destruct Hrx as [_ Hrx], Hry as [_ Hry].
    assert (forall z, ex_marks z = set_mark D_body (Some v) no_marks -> delivered c X D_body 0 z =
      ex_set_marks no_marks (ex_set_user (data_user c D_body (slice X v (ex_p z)) (ex_user z)) (on_parser (hp_set_state (ex_state z)) z))) as Hdx.
    { intros z Hz. unfold delivered. rewrite Hz. cbn. by rewrite Z.add_0_r. }
    assert (forall z, ex_marks z = no_marks -> delivered c b D_body 0 z = z) as Hdy by (intros z Hz; unfold delivered; by rewrite Hz).
    cbv zeta in Hr, Hrx, Hry |- *.     rewrite Hdx in Hr, Hrx by done. rewrite Hdy in Hry |- * by done.
    refine (loop_same c max lenient allow X b (len a) window_second None _ Hmax n n' _ _ r p u _ _ Hrx Hry _ _ _ Hr He); [done|lia| |cbn; lia..].
    split; cbn; try done; [lia| |by left]. rewrite A10, Hpx, Hmy. by constructor.
Qed.
End Cut.

Lemma core_options p q : core p = core q -> options p = options q.
Proof. destruct p, q. intros H. injection H. intros. by subst. Qed.

Lemma entry_locals p u : left_ok p -> hp_http_errno p = HPE_OK -> locals 0 (entry p u).
Proof. intros Hp He. destruct (Hp (or_introl He)) as [Hl Hs]. split_and!; [done|done|apply entry_marks_ok|done|done]. Qed.

Lemma entry_marks_shape s : entry_marks s = no_marks \/ exists d, entry_marks s = set_mark d (Some 0) no_marks.
Proof. destruct s; try (by left); right; [exists D_status|exists D_url..|exists D_header_field|exists D_header_value]; done. Qed.

Lemma execute_loop p data u : hp_http_errno p = HPE_OK -> 0 < len data -> execute p data u =
  main_loop (simple_settings c) max (hp_lenient_http_headers p) (hp_allow_chunked_length p) data (length data) (entry p u).
Proof. intros He Hl. unfold http_parser_execute. rewrite bool_decide_true by done. cbn [negb]. by destruct (Z.eqb_spec (len data) 0); [lia|]. Qed.

(** What the first call leaves is what the second one resumes. *)
Lemma stored_resumes lenient allow a b x y : sim c lenient allow (a ++ b) 0 None x (ex_set_ch (ex_ch x) y) -> locals 0 x -> ex_p y = len a ->
  (forall d, mark_of (ex_state y) = Some d -> additive d) ->
  exists m, resumes lenient allow a b m x (entry (stored (flushed c a y)) (ex_user (flushed c a y))).
Proof.
  intros Hs Hx Hp Hadd. pose proof (sim_p _ _ _ _ _ _ _ _ Hs) as Hpx. cbn in Hpx. pose proof (sim_stored _ _ _ _ _ _ _ _ Hs) as Hst.
  destruct Hx as (_ & _ & Hmk & _). destruct Hs as [_ _ A3 A4 A5 A6 A7 A8 A9]. cbn in A3, A4, A5, A6, A8.
  assert (wrap 32 (ex_nread y) = ex_nread y) as Hw by (rewrite <- A4; apply wrap_small; lia).
  assert (core (ex_parser x) = core (stored y)) as Hcs by done.
  assert (forall u, ex_p (entry (stored y) u) = 0 /\ ex_state x = ex_state (entry (stored y) u) /\ ex_nread x = ex_nread (entry (stored y) u)) as He.
  { intros u. split_and!; [done|done|]. cbn. by rewrite Hw. }
  remember (ex_marks x) as mx eqn:Ex. remember (ex_marks y) as my eqn:Ey. remember (ex_user x) as ux eqn:Eu. remember (ex_user y) as uy eqn:Euy.
  destruct A6 as [w|d v w Hv|d m w Hd]; [| |done].
  - exists None. rewrite flushed_none by done. destruct (He (ex_user y)) as (H1 & H2 & H3). split; try done; [split; [lia|done]|by rewrite <- Ex|by rewrite <- Euy, <- Eu].
  - rewrite Z.add_0_r in Ex, Hmk. exists (Some (d, v)). destruct (flushed_some c a y d v) as [-> Hu]; [done|]. rewrite Hu. destruct (He (ex_user y)) as (H1 & H2 & H3).
    destruct (Hmk d v) as [Hd Hv']; [by destruct d|]. rewrite A3 in Hd.
    split; try done; [split; [lia|done]|right; rewrite <- Ex; by destruct d| |].
    + cbn. rewrite <- Euy, <- Eu, Hp. f_equal. rewrite <- (window_slice (a ++ b) a 0 (window_first a b)) by lia. by rewrite !Z.add_0_r.
    + intros d' v' [= <- <-]. by apply Hadd.
Qed.

(** A buffer cut in two is parsed as if it had come whole, when the parser goes on past the cut, and
    the cut is not inside the name or the value of a header. *)
Lemma cut_run p a b u r p' u' r1 p1 u1 (Hp : left_ok p) (Hn : 0 <= hp_nread p < 2 ^ 32) (Ha : 0 < len a)
    (Hrun : execute p (a ++ b) u = Done r p' u') (He : hp_http_errno p' = HPE_OK) (Hr : len a < r)
    (Hfirst : execute p a u = Done r1 p1 u1) (Hst : header_state (hp_state p1) = false)
    (Hadd : forall d, mark_of (hp_state p1) = Some d -> additive d) :
  r1 = len a /\ (left_ok p1 /\ hp_http_errno p1 = HPE_OK /\ 0 <= hp_nread p1 < 2 ^ 32) /\ execute p1 b u1 = Done (r - len a) p' u'.
Proof.
  assert (hp_http_errno p = HPE_OK) as Hep.
  { unfold http_parser_execute in Hrun. case_bool_decide; [done|]. cbn in Hrun. injection Hrun as <- _ _. lia. }
  pose proof (execute_final (simple_settings c) max _ (callbacks_ok c) ltac:(lia) p (a ++ b) u Hp I) as Hf. rewrite Hrun in Hf. destruct Hf as (Hrb & _).
  pose proof (execute_final (simple_settings c) max _ (callbacks_ok c) ltac:(lia) p a u Hp I) as Hf. rewrite Hfirst in Hf. destruct Hf as (_ & Hleft & _).
  pose proof (len_nonneg b) as Hb. assert (len (a ++ b) = len a + len b) as Hlen by apply len_app.
  rewrite execute_loop in Hrun, Hfirst by (done || lia). set (lenient := hp_lenient_http_headers p) in *. set (allow := hp_allow_chunked_length p) in *.
  pose proof (entry_locals p u Hp Hep) as Hl.
  assert (sim c lenient allow (a ++ b) 0 None (entry p u) (ex_set_ch 0 (entry p u))) as Hs.
  { split; try done; [|cbn; destruct (entry_marks_shape (hp_state p)) as [->|[d ->]]; [by left|right; by destruct d]].
    cbn. destruct (entry_marks_shape (hp_state p)) as [->|[d ->]]; [constructor|]. by apply (ms_some c (a ++ b) 0 None d 0). }
  destruct (loop_sim c max lenient allow (a ++ b) a 0 (window_first a b) None ltac:(done) Hmax (length (a ++ b)) (length a) _ _ _ _ _ Hs Hl Hl
    ltac:(cbn; lia) ltac:(unfold len; cbn; lia) ltac:(unfold len; cbn; lia) Hrun He) as (v & q & w & Hq & Hv & Hor).
  rewrite Hq in Hfirst. injection Hfirst as -> -> ->.
  destruct Hor as [(-> & _)|[[? _]|(m & x1 & y1 & Hm & Hr1 & Hs1 & Hx1 & Hy1 & Hp1 & -> & -> & ->)]]; [lia|congruence|].
  assert (hp_state (stored (flushed c a y1)) = ex_state y1) as Hsy by exact (flushed_state c a y1). rewrite Hsy in Hadd.
  destruct (stored_resumes lenient allow a b x1 y1 Hs1 Hx1 Hp1 Hadd) as [m' Hre]. set (q := stored (flushed c a y1)) in *.
  assert (hp_http_errno q = HPE_OK) as Heq.
  { rewrite <- (proj1 Hy1). unfold q, stored, flushed. cbn [fold_left hp_http_errno hp_set_state hp_set_nread]. by rewrite !delivered_errno. }
  assert (0 <= hp_nread q < 2 ^ 32) by (apply Z.mod_pos_bound; lia).
  clearbody q. split; [done|]. split; [done|]. rewrite execute_loop by (done || lia).
  pose proof (core_options _ _ (re_core _ _ _ _ _ _ _ Hre)) as Ho. rewrite (re_options _ _ _ _ _ _ _ Hre) in Ho. injection Ho as Hol Hoa. cbn in Hol, Hoa. rewrite <- Hol, <- Hoa.
  apply (resume lenient allow a b m' m (length b) x1); try done; [by apply entry_locals|lia..].
Qed.

(** A call on each piece. *)
Fixpoint feed (l : list bytes) p u : option (http_parser * U) :=
  match l with
  | [] => Some (p, u)
  | d :: l => match execute p d u with Done _ p1 u1 => feed l p1 u1 | _ => None end
  end.

(** No piece but the last ends inside the name or the value of a header, or in data that
    a callback cannot be given in two pieces. *)
Fixpoint clean (l : list bytes) p u : Prop :=
  match l with
  | [] | [_] => True
  | d :: l =>
      match execute p d u with
      | Done _ p u => header_state (hp_state p) = false /\ (forall d, mark_of (hp_state p) = Some d -> additive d) /\ clean l p u
      | _ => False
      end
  end.

(** C6. A request that comes in any number of pieces is parsed as if it had come whole: when the parser accepts the
    bytes of all of them in one call and gets into the last one, and no piece but the last ends inside the name or the value of a
    header, then the calls on the pieces end with the same parser and the same user's state, provided the
    callback for data that is cut (the URL, the status or a body) may be given it in two pieces. *)
Theorem execute_pieces l d p u r p' u' (Hp : left_ok p) (Hn : 0 <= hp_nread p < 2 ^ 32) (Hl : Forall (fun s => 0 < len s) l)
    (Hrun : execute p (concat (l ++ [d])) u = Done r p' u') (He : hp_http_errno p' = HPE_OK) (Hr : len (concat l) < r)
    (Hclean : clean (l ++ [d]) p u) :
  feed (l ++ [d]) p u = Some (p', u').
Proof.
  revert p u r Hp Hn Hrun Hr Hclean. induction Hl as [|a l Ha Hl IH]; intros p u r Hp Hn Hrun Hr Hclean.
  - cbn [app concat feed] in *. rewrite app_nil_r in Hrun. by rewrite Hrun.
  - cbn [app concat feed] in *. rewrite len_app in Hr. pose proof (len_nonneg (concat l)).
    pose proof (execute_final (simple_settings c) max _ (callbacks_ok c) ltac:(lia) p a u Hp I) as Hf.
    assert (clean (a :: (l ++ [d])) p u) as Hc by exact Hclean. clear Hclean.
    destruct (execute p a u) as [r1 p1 u1| | |] eqn:Hfirst; [|done..].
    assert (header_state (hp_state p1) = false /\ (forall d, mark_of (hp_state p1) = Some d -> additive d) /\ clean (l ++ [d]) p1 u1) as (Hst & Hadd & Hc').
    { destruct (l ++ [d]) eqn:El; [by destruct l|]. cbn [clean] in Hc. by rewrite Hfirst in Hc. }
    destruct (cut_run p a (concat (l ++ [d])) u r p' u' r1 p1 u1) as (_ & (Hp1 & _ & Hn1) & Hrest); try done; [lia|].
    apply (IH p1 u1 (r - len a)); try done. lia.
Qed.
End Reads.

(** ** A run *)

(** Callbacks that gather the URL and the bodies and count the messages. *)
Definition gather : callbacks (bytes * Z) := {|
  cb_begin u := u;
  cb_url s u := (u.1 ++ s, u.2);
  cb_field _ u := u;
  cb_value _ u := u;
  cb_headers _ _ _ u := u;
  cb_body s u := (u.1 ++ s, u.2);
  cb_complete _ u := (u.1, u.2 + 1);
  |}.

Definition in_pieces : list bytes :=
  [bs "POST /a"; bs "b HTTP/1.1" ++ crlf ++ bs "Content-Length: 5" ++ crlf ++ crlf ++ bs "he"].

Lemma execute_pieces_witness : feed gather HTTP_MAX_HEADER_SIZE (in_pieces ++ [bs "llo"]) (http_parser_init HTTP_REQUEST) ([], 0) =
  Some (match http_parser_execute (simple_settings gather) HTTP_MAX_HEADER_SIZE (http_parser_init HTTP_REQUEST) (concat (in_pieces ++ [bs "llo"])) ([], 0) with
        | Done _ p _ => p | _ => http_parser_init HTTP_REQUEST end, (bs "/abhello", 1)).
Proof.
  apply (execute_pieces gather HTTP_MAX_HEADER_SIZE ltac:(done) in_pieces (bs "llo") _ _ 45); [| | | | | |].
  - apply init_left_ok.
  - done.
  - repeat constructor.
  - vm_compute. reflexivity.
  - vm_compute. reflexivity.
  - vm_compute. reflexivity.
  - assert (forall d, additive gather d) as Ha by (intros [] s t u; cbn; rewrite <- ?app_assoc; done).
    vm_compute in Ha |- *. repeat split; intros; apply Ha.
Defined.
