(* ===== verification/WsSession.v ===== *)
(** * WebSocket sessions (include/WebSocket.h, src/core/WebSocket.cpp)

    The sessions of a server and what their methods do to them.  Calls of libuv
    and of the application's callbacks are recorded in a log, in order; a
    callback is a function of the application's state that answers with the
    calls it makes on sessions, its own or others'.  The set of sessions the
    server keeps is reached through the class [WsOwner].

    A session lives as long as there is a [shared_ptr] to it: in the registry, in the
    context of a write, in the callback of a file reader, or in the application
    ([app_holds]); a call made through a pointer keeps it alive meanwhile.  The failed
    assertion of libuv on a handle closed twice, and the use of a session that was
    destroyed, are effects too ([Fault]): nothing happens after one. *)

From S2P Require Import Prelude WsParser WsCodec WsMember.
From stdpp Require Import gmap.
#[local] Open Scope Z_scope.

(** ** Data *)

Inductive WsStatus := CONNECTING | OPEN | CLOSING | CLOSED.
#[export] Instance WsStatus_eq_dec : EqDecision WsStatus.
Proof. solve_decision. Defined.

(** The exceptions handed to [m_onErrorCb]. *)
Inductive ws_error := Err_parse | Err_no_mask | Err_send.
#[export] Instance ws_error_eq_dec : EqDecision ws_error.
Proof. solve_decision. Defined.

(** How the process ends: [uv_close] asserts that the handle is not closing
    (third-party/libuv, src/unix/core.c); a method goes on in a session that is no more. *)
Inductive ws_fault := Handle_closing | Session_destroyed.
#[export] Instance ws_fault_eq_dec : EqDecision ws_fault.
Proof. solve_decision. Defined.

(** What a program may call on a session. *)
Inductive ws_call :=
  | Call_send (str : bytes)
  | Call_sendFile (path : bytes)
  | Call_close.

(** What a session does to the outside, in order. *)
Inductive effect :=
  | Uv_read_start
  | Uv_read_stop
  | Uv_close
  | Uv_write (ctx : nat) (bufs : list bytes)
  | Delete_ctx (ctx : nat)
  | File_read (path : bytes)
  | On_connect
  | On_message (message : bytes)
  | On_error (e : ws_error)
  | On_close
  | Delete_reader
  | Fault (f : ws_fault).
#[export] Instance effect_eq_dec : EqDecision effect.
Proof. solve_decision. Defined.

(** [m_parser] and [m_frame] are kept beside the world, in the parser's [pstate]:
    only the session's own reads change them. *)
Record Session := mkSession {
    readyState : WsStatus;
    m_recvBuf_len : Z;
  }.

(** The registry of a server, as its sessions use it. *)
Class WsOwner (Ow : Type) := {
    removeWsSession : nat -> Ow -> Ow;
    registered : nat -> Ow -> Prop;
    registered_dec :: forall i o, Decision (registered i o);
    owner_ok : Ow -> Prop;
    remove_ok : forall i o, owner_ok o -> owner_ok (removeWsSession i o);
    remove_registered : forall i j o, owner_ok o -> registered j (removeWsSession i o) <-> registered j o /\ j <> i;
  }.

Record World (Ow A : Type) := mkWorld {
    sessions : gmap nat Session;
    m_owner : Ow;
    app_state : A;
    next_ctx : nat;
    log : list (nat * effect);
  }.
Arguments mkWorld {Ow A}.
Arguments sessions {Ow A}.
Arguments m_owner {Ow A}.
Arguments app_state {Ow A}.
Arguments next_ctx {Ow A}.
Arguments log {Ow A}.

(** The callbacks of the application; [self] is the session they are called with.
    [app_holds a i]: in the state [a] it keeps a pointer to the session [i]. *)
Definition handler (A X : Type) : Type := option (nat -> X -> A -> A * list (nat * ws_call)).
Record Callbacks (A : Type) := mkCallbacks {
    m_onConnectCb : handler A unit;
    m_onCloseCb : handler A unit;
    m_onMessageCb : handler A bytes;
    m_onErrorCb : handler A ws_error;
    app_holds : A -> nat -> bool;
  }.
Arguments mkCallbacks {A}.
Arguments m_onConnectCb {A}.
Arguments m_onCloseCb {A}.
Arguments m_onMessageCb {A}.
Arguments m_onErrorCb {A}.
Arguments app_holds {A}.

(** ** The header [inter_send] builds *)

Definition frame_header (opcode payload_len : Z) : bytes :=
  u8 (Z.lor 0x80 opcode) ::
  (if payload_len <? 126 then [u8 (Z.lor payload_len 0)]
   else if payload_len <? Z.shiftl 1 16 then
     [u8 (Z.lor 126 0); u8 (Z.shiftr payload_len 8); u8 (Z.land payload_len 0xFF)]
   else u8 (Z.lor 127 0) :: map (fun i => u8 (Z.shiftr payload_len (i * 8))) [7; 6; 5; 4; 3; 2; 1; 0]).

(** ** The growth of the receive buffer ([recv_alloc_cb]) *)

Fixpoint alloc_loop (fuel : nat) (bufSize suggested_size : Z) : option Z :=
  if bufSize <? suggested_size then
    match fuel with
    | O => None
    | S fuel' => alloc_loop fuel' (u64 (bufSize + u64 (Z.shiftl bufSize 1))) suggested_size
    end
  else Some bufSize.

(** ** Operations *)

Section Operations.
Context {Ow A : Type} `{WsOwner Ow} (cbs : Callbacks A).
Implicit Types (w : World Ow A) (self : nat).

Definition emit self (e : effect) w : World Ow A :=
  mkWorld (sessions w) (m_owner w) (app_state w) (next_ctx w) (log w ++ [(self, e)]).
Definition set_app (a : A) w : World Ow A :=
  mkWorld (sessions w) (m_owner w) a (next_ctx w) (log w).
Definition set_owner (o : Ow) w : World Ow A :=
  mkWorld (sessions w) o (app_state w) (next_ctx w) (log w).
Definition upd_session self (f : Session -> Session) w : World Ow A :=
  mkWorld (alter f self (sessions w)) (m_owner w) (app_state w) (next_ctx w) (log w).
Definition set_readyState (s : WsStatus) (x : Session) : Session :=
  mkSession s (m_recvBuf_len x).

(** [readyState == CLOSED]; a session that does not exist cannot be called. *)
Definition is_closed self w : bool :=
  match sessions w !! self with Some x => bool_decide (readyState x = CLOSED) | None => true end.

(** *** Faults and lifetime *)

Definition is_fault (e : effect) : bool := match e with Fault _ => true | _ => false end.
Definition faulted w : bool := existsb (fun p => is_fault (snd p)) (log w).
(** What follows happens only if the process is still there. *)
Definition go_on (f : World Ow A -> World Ow A) w : World Ow A := if faulted w then w else f w.

(** [uv__is_closing] *)
Definition uv_is_closing self w : bool := bool_decide ((self, Uv_close) ∈ log w).

(** [WriteCtx::m_owner], of the contexts that have not been deleted. *)
Definition context_holds self w : bool :=
  existsb (fun p => match snd p with
    | Uv_write ctx _ => (fst p =? self)%nat && negb (bool_decide ((self, Delete_ctx ctx) ∈ log w))
    | _ => false
    end) (log w).
(** The [self] captured by [onClose] of a reader.  A reader that succeeds is never deleted:
  its context has no destructor for it. *)
Definition reader_holds self w : bool :=
  let number P := length (List.filter (fun p => (fst p =? self)%nat && P (snd p)) (log w)) in
  (number (fun e => match e with Delete_reader => true | _ => false end) <?
   number (fun e => match e with File_read _ => true | _ => false end))%nat.

(** No [shared_ptr] to the session is left. *)
Definition destroyed self w : bool :=
  negb (bool_decide (registered self (m_owner w)) || context_holds self w || reader_holds self w ||
        app_holds cbs (app_state w) self).
Definition gone self w : bool := faulted w || destroyed self w.
(** A method that goes on after a call that may have dropped the last pointer. *)
Definition in_session self (f : World Ow A -> World Ow A) w : World Ow A :=
  go_on (fun w => if destroyed self w then emit self (Fault Session_destroyed) w else f w) w.

(** *** Sending *)

(** [inter_send]: [bufs] and [payload_len] are the message, as one string or as the
  buffers of a file reader. *)
Definition inter_send self (bufs : list bytes) (payload_len opcode : Z) w : World Ow A :=
  let ctx := next_ctx w in
  emit self (Uv_write ctx (frame_header opcode payload_len :: bufs))
    (mkWorld (sessions w) (m_owner w) (app_state w) (S ctx) (log w)).
Definition send self (str : bytes) w : World Ow A := inter_send self [str] (len str) WS_TEXT w.
Definition sendPong self w : World Ow A := inter_send self [[]] 0 WS_PONG w.
Definition sendFile self (path : bytes) w : World Ow A := emit self (File_read path) w.
(** The reader's [onError] callback set by [sendFile]. *)
Definition sendFile_failed self w : World Ow A := emit self Delete_reader w.
(** The reader's [onClose] callback set by [sendFile]. *)
Definition sendFile_done self (bufs : list bytes) (readByte : Z) w : World Ow A :=
  inter_send self bufs readByte WS_TEXT w.

(** *** Closing *)

(** The calls a callback makes on the sessions there are, [ic] being [inter_close]. *)
Definition do_call (ic : nat -> World Ow A -> option (World Ow A)) (c : nat * ws_call) w : option (World Ow A) :=
  match sessions w !! c.1 with
  | None => Some w
  | Some _ =>
      match c with
      | (i, Call_send s) => Some (send i s w)
      | (i, Call_sendFile p) => Some (sendFile i p w)
      | (i, Call_close) => if is_closed i w then Some w else ic i w
      end
  end.
Fixpoint do_calls (ic : nat -> World Ow A -> option (World Ow A)) (cs : list (nat * ws_call)) w : option (World Ow A) :=
  match cs with
  | [] => Some w
  | c :: cs' =>
      if faulted w then Some w
      else match do_call ic c w with Some w' => do_calls ic cs' w' | None => None end
  end.

(** [WS_CALLBACK(cb, self, x)] *)
Definition WS_CALLBACK (ic : nat -> World Ow A -> option (World Ow A)) {X} (cb : handler A X) (e : effect)
    self (x : X) w : option (World Ow A) :=
  match cb with
  | None => Some w
  | Some f => let '(a, cs) := f self x (app_state w) in do_calls ic cs (set_app a (emit self e w))
  end.

(** [inter_close]; closing may call a callback that closes another session, and so on. *)
Fixpoint inter_close_fuel (fuel : nat) self w : option (World Ow A) :=
  match fuel with
  | O => None
  | S fuel' =>
      let w := emit self Uv_read_stop (upd_session self (set_readyState CLOSED) w) in
      if uv_is_closing self w then Some (emit self (Fault Handle_closing) w)
      else match WS_CALLBACK (inter_close_fuel fuel') (m_onCloseCb cbs) On_close self tt (emit self Uv_close w) with
      | Some w => Some (go_on (fun w => set_owner (removeWsSession self (m_owner w)) w) w)
      | None => None
      end
  end.

(** How many sessions can still be closed: the depth of nested closings. *)
Definition open_count w : nat :=
  size (filter (fun p : nat * Session => readyState (snd p) <> CLOSED) (sessions w)).

Definition inter_close self w : World Ow A := default w (inter_close_fuel (S (open_count w)) self w).
Definition close self w : World Ow A := if is_closed self w then w else inter_close self w.

(** A callback made while no session is being closed. *)
Definition callback {X} (cb : handler A X) (e : effect) self (x : X) w : World Ow A :=
  default w (WS_CALLBACK (fun i w => Some (inter_close i w)) cb e self x w).

(** *** Connecting and receiving *)

Definition connect self w : World Ow A :=
  let w := emit self Uv_read_start (upd_session self (set_readyState CONNECTING) w) in
  callback (m_onConnectCb cbs) On_connect self tt (upd_session self (set_readyState OPEN) w).

(** [handleWsFrame], the parser's [onComplete]; the frame is [m_frame]. *)
Definition handleWsFrame self (f : WsFrame) w : World Ow A :=
  if negb (WsParser.mask f) then
    in_session self (inter_close self) (callback (m_onErrorCb cbs) (On_error Err_no_mask) self Err_no_mask w)
  else if opcode f =? WS_PONG then w
  else if opcode f =? WS_PING then sendPong self w
  else if opcode f =? WS_CLOSE then inter_close self w
  else callback (m_onMessageCb cbs) (On_message (payload f)) self (payload f) w.

(** [handleMessage] on the bytes received. *)
Definition handleMessage self (data : bytes) (st : pstate (World Ow A)) : option (pstate (World Ow A)) :=
  match parse_member (gone self) (handleWsFrame self) st data with
  | None => None
  | Some (Member_parsed err st) =>
      Some (if bool_decide (err = SUCCESS) then st
            else mkP (pp st) (pf st)
              (in_session self (inter_close self) (callback (m_onErrorCb cbs) (On_error Err_parse) self Err_parse (ps st))))
  | Some (Member_gone st) => Some (mkP (pp st) (pf st) (in_session self (fun w => w) (ps st)))
  end.

(** [recv_cb] with [nread < 0]: [None]; with the bytes read: [Some data]. *)
Definition recv_cb self (data : option bytes) (st : pstate (World Ow A)) : option (pstate (World Ow A)) :=
  match data with
  | None => Some (mkP (pp st) (pf st) (inter_close self (ps st)))
  | Some data =>
      if bool_decide (readyState <$> sessions (ps st) !! self = Some OPEN)
      then handleMessage self data st else Some st
  end.

(** [recv_alloc_cb]; 64 bits are at most 41 triplings. *)
Definition recv_alloc_cb self (suggested_size : Z) w : option (World Ow A) :=
  match sessions w !! self with
  | None => None
  | Some x =>
      match alloc_loop 41 (m_recvBuf_len x) suggested_size with
      | Some n => Some (upd_session self (fun x => mkSession (readyState x) n) w)
      | None => None
      end
  end.

(** The callback of [uv_write]: on failure it goes on after its own clean-up; the local
  pointer [ss] keeps the session. *)
Definition write_cb self (ctx : nat) (status : Z) w : World Ow A :=
  let w :=
    if status <? 0 then
      let w := callback (m_onErrorCb cbs) (On_error Err_send) self Err_send w in
      go_on (fun w => inter_close self (emit self (Delete_ctx ctx) w)) w
    else w in
  go_on (emit self (Delete_ctx ctx)) w.
End Operations.

(** The constructor: the receive buffer is the one of the HTTP session. *)
Definition WsSession_init (recvBuf_len : Z) : Session := mkSession CLOSED recvBuf_len.

(** ** What is sent *)

Lemma frame_header_encode op m :
  0 <= op < 16 -> frame_header op (len m) ++ m = WsCodec.encode (mkWire true 0 op None m).
Proof.
  intros Hop. unfold frame_header, WsCodec.encode, first_byte, length_field, has_key, mask_data. cbn [w_fin w_rsv w_opcode w_key w_data].
  rewrite Z.shiftl_0_l, Z.lor_0_l. pose proof (len_nonneg m).
  assert (u8 (Z.lor 128 op) = Z.lor 128 op) as ->.
  { assert (forallb (fun o => u8 (Z.lor 128 o) =? Z.lor 128 o) (seqZ 0 16) = true) as Hall by done.
    rewrite forallb_forall in Hall. apply Z.eqb_eq, Hall, list_elem_of_In, elem_of_seqZ. lia. }
  change (bool_decide _) with false. cbn [app_state default]. f_equal.
  change (Z.shiftl 1 16) with (2 ^ 16). rewrite !Z.lor_0_r, Z.lor_0_l.
  destruct (len m <? 126) eqn:E1; bool_to_prop; [unfold u8; by rewrite Z.mod_small by lia|].
  destruct (len m <? 2 ^ 16); [|done]. cbn [be_bytes app_state]. do 2 f_equal. f_equal.
  rewrite Z.shiftr_0_r. unfold u8. change 255 with (Z.ones 8). rewrite Z.land_ones by lia. by rewrite Z.mod_mod.
Qed.

(** ** The receive buffer *)

Lemma alloc_loop_spec fuel n s :
  0 < n -> s <= 2 ^ 62 -> s <= 3 ^ Z.of_nat fuel * n ->
  exists n', alloc_loop fuel n s = Some n' /\ s <= n' /\ n <= n' /\ n' < Z.max (n + 1) (3 * s).
Proof.
  revert n. induction fuel as [|fuel IH]; intros n Hn Hs Hf; cbn [alloc_loop].
  - destruct (Z.ltb_spec n s); [|exists n; split_and!; done || lia]. change (3 ^ Z.of_nat 0) with 1 in Hf. lia.
  - destruct (Z.ltb_spec n s) as [Hlt|]; [|exists n; split_and!; done || lia].
    assert (u64 (n + u64 (Z.shiftl n 1)) = 3 * n) as ->.
    { rewrite Z.shiftl_mul_pow2 by lia. change (2 ^ 1) with 2. rewrite (u64_id (n * 2)), u64_id; lia. }
    destruct (IH (3 * n)) as (n' & Hn' & ? & ? & ?); [lia|done| |exists n'; split_and!; try done; lia].
    rewrite Nat2Z.inj_succ, Z.pow_succ_r in Hf by lia. lia.
Qed.

Lemma alloc_loop_zero fuel s : 0 < s -> alloc_loop fuel 0 s = None.
Proof. intros Hs. induction fuel as [|fuel IH]; cbn [alloc_loop]; destruct (Z.ltb_spec 0 s); (done || lia). Qed.

(** ** Closing *)

Section Closing.
Context {Ow A : Type} `{WsOwner Ow} (cbs : Callbacks A).
Implicit Types (w : World Ow A) (i j self : nat).

Lemma is_closed_upd i j s w :
  is_closed i (upd_session j (set_readyState s) w) =
  if decide (i = j) then match sessions w !! j with Some _ => bool_decide (s = CLOSED) | None => true end
  else is_closed i w.
Proof.
  unfold is_closed, upd_session. cbn. case_decide as Hij; [subst|by rewrite lookup_alter_ne].
  rewrite lookup_alter_eq. by destruct (sessions w !! j).
Qed.

(** Closing a session that was open leaves one session fewer to close. *)
Lemma open_count_close i w :
  open_count w = (open_count (upd_session i (set_readyState CLOSED) w) + if is_closed i w then 0 else 1)%nat.
Proof.
  unfold open_count, is_closed, upd_session. cbn. destruct (sessions w !! i) as [x|] eqn:E.
  - assert (alter (set_readyState CLOSED) i (sessions w) = <[i := set_readyState CLOSED x]> (sessions w)) as ->.
    { rewrite <- (insert_id (sessions w) i x) at 1 by done. by rewrite alter_insert_eq. }
    rewrite map_filter_insert_False by (intros Hx; by apply Hx). rewrite map_filter_delete.
    case_bool_decide as Hc.
    + rewrite map_size_delete_None; [lia|]. apply map_lookup_filter_None. right. intros y Hy HP. apply HP. cbn. congruence.
    + rewrite map_size_delete_Some; [|exists x; by rewrite map_lookup_filter_Some].
      assert (size (filter (fun p : nat * Session => readyState (snd p) <> CLOSED) (sessions w)) <> 0)%nat; [|lia].
      apply (map_size_ne_0_lookup_2 _ i). eexists. by rewrite map_lookup_filter_Some.
  - rewrite alter_id' by done. lia.
Qed.

(** What every operation does to the sessions: none is reopened, the log only grows. *)
Record later w w' : Prop := mkLater {
  later_log : exists l, log w' = log w ++ l;
  later_closed : forall i, is_closed i w = true -> is_closed i w' = true;
  later_count : (open_count w' <= open_count w)%nat;
  later_sessions : forall i, is_Some (sessions w' !! i) <-> is_Some (sessions w !! i);
  }.

#[export] Instance later_preorder : PreOrder later.
Proof.
  split.
  - intros w. split; [exists []; by rewrite app_nil_r|done|lia|done].
  - intros w1 w2 w3 [[l1 H1] Hc1 Ho1 Hs1] [[l2 H2] Hc2 Ho2 Hs2]. split; [|auto|lia|].
    2: { intros i. by rewrite Hs2, Hs1. }
    exists (l1 ++ l2). by rewrite H2, H1, app_assoc.
Qed.

Lemma later_emit i e w : later w (emit i e w).
Proof. by split; [eexists|..]. Qed.
Lemma later_set_app a w : later w (set_app a w).
Proof. by split; [exists []; rewrite app_nil_r|..]. Qed.
Lemma later_set_owner o w : later w (set_owner o w).
Proof. by split; [exists []; rewrite app_nil_r|..]. Qed.
Lemma later_inter_send i bufs n op w : later w (inter_send i bufs n op w).
Proof. by split; [eexists|..]. Qed.
Lemma later_close i w : later w (upd_session i (set_readyState CLOSED) w).
Proof.
  split; [exists []; by rewrite app_nil_r| |rewrite (open_count_close i w); lia|].
  2: { intros j. apply lookup_alter_is_Some. }
  intros j Hj. rewrite is_closed_upd. case_decide; [|done]. by destruct (sessions w !! i).
Qed.
#[local] Hint Resolve later_emit later_set_app later_set_owner later_inter_send later_close : ws.

(** *** Faults *)

Lemma faulted_emit i e w : faulted (emit i e w) = faulted w || is_fault e.
Proof. unfold faulted, emit. cbn [log]. rewrite existsb_app. cbn. by rewrite orb_false_r. Qed.
Lemma faulted_send i bufs n op w : faulted (inter_send i bufs n op w) = faulted w.
Proof. unfold inter_send. rewrite faulted_emit. by rewrite orb_false_r. Qed.
Lemma faulted_later w w' : later w w' -> faulted w = true -> faulted w' = true.
Proof. intros [[l Hl] _ _ _]. unfold faulted. rewrite Hl, existsb_app. by intros ->. Qed.
Lemma faulted_later_false w w' : later w w' -> faulted w' = false -> faulted w = false.
Proof. intros Hl Hw. destruct (faulted w) eqn:E; [|done]. by rewrite (faulted_later _ _ Hl E) in Hw. Qed.

Lemma later_go_on (f : World Ow A -> World Ow A) w : (forall w, later w (f w)) -> later w (go_on f w).
Proof. intros Hf. unfold go_on. by destruct (faulted w). Qed.
Lemma later_in_session self (f : World Ow A -> World Ow A) w :
  (forall w, later w (f w)) -> later w (in_session cbs self f w).
Proof. intros Hf. apply later_go_on. intros w'. case_match; [apply later_emit|apply Hf]. Qed.

Lemma in_session_runs self (f : World Ow A -> World Ow A) w :
  faulted (in_session cbs self f w) = false ->
  faulted w = false /\ destroyed cbs self w = false /\ in_session cbs self f w = f w.
Proof.
  unfold in_session, go_on. destruct (faulted w) eqn:Hf; [congruence|].
  destruct (destroyed cbs self w); [by rewrite faulted_emit, orb_true_r|done].
Qed.

(** ** Closing always ends *)

(** A property kept by the calls a callback can make is kept by the callback. *)
Lemma do_calls_ind (R : World Ow A -> World Ow A -> Prop) (ok : World Ow A -> Prop) ic `{!PreOrder R} :
  (forall i s w, faulted w = false -> ok w -> R w (send i s w) /\ ok (send i s w)) ->
  (forall i p w, faulted w = false -> ok w -> R w (sendFile i p w) /\ ok (sendFile i p w)) ->
  (forall i w, faulted w = false -> ok w -> is_closed i w = false -> exists w', ic i w = Some w' /\ R w w' /\ ok w') ->
  forall cs w, ok w -> exists w', do_calls ic cs w = Some w' /\ R w w' /\ ok w'.
Proof.
  intros Hs Hf Hc cs. induction cs as [|[i c] cs IH]; intros w Hw; cbn [do_calls].
  { exists w. split_and!; done. }
  destruct (faulted w) eqn:Hfw; [by exists w|].
  assert (exists w1, do_call ic (i, c) w = Some w1 /\ R w w1 /\ ok w1) as (w1 & -> & HR & Hw1).
  { unfold do_call. cbn [fst]. destruct (sessions w !! i) as [y|]; [|by exists w]. destruct c as [s|p|].
    - destruct (Hs i s w Hfw Hw). by eexists.
    - destruct (Hf i p w Hfw Hw). by eexists.
    - destruct (is_closed i w) eqn:E; [by exists w|by apply Hc]. }
  destruct (IH w1 Hw1) as (w2 & -> & HR2 & Hw2). exists w2. split_and!; [done|by transitivity w1|done].
Qed.

(** However the close callbacks close other sessions. *)
Lemma inter_close_fuel_ends fuel self w :
  (open_count (upd_session self (set_readyState CLOSED) w) < fuel)%nat ->
  exists w', inter_close_fuel cbs fuel self w = Some w' /\ later w w' /\ is_closed self w' = true.
Proof.
  revert self w. induction fuel as [|fuel IH]; intros self w Hf; [lia|]. cbn [inter_close_fuel].
  set (w1 := emit self Uv_read_stop _).
  assert (later w w1) as H1 by (unfold w1; etransitivity; [apply later_close|apply later_emit]).
  assert (open_count w1 <= fuel)%nat as Hc1
    by (change (open_count w1) with (open_count (upd_session self (set_readyState CLOSED) w)); lia).
  assert (is_closed self w1 = true) as Hc.
  { change (is_closed self w1) with (is_closed self (upd_session self (set_readyState CLOSED) w)).
    rewrite is_closed_upd, decide_True by done. by destruct (sessions w !! self). }
  destruct (uv_is_closing self w1).
  { eexists. split; [done|]. split; [|done]. etransitivity; [done|apply later_emit]. }
  set (w2 := emit self Uv_close w1). assert (later w w2) as H2 by (etransitivity; [exact H1|apply later_emit]).
  assert (exists w3, WS_CALLBACK (inter_close_fuel cbs fuel) (m_onCloseCb cbs) On_close self tt w2 = Some w3 /\ later w2 w3)
    as (w3 & -> & H3).
  { unfold WS_CALLBACK. destruct (m_onCloseCb cbs) as [f|]; [|by exists w2].
    destruct (f self tt (app_state w2)) as [a cs].
    destruct (do_calls_ind later (fun w => open_count w <= fuel)%nat (inter_close_fuel cbs fuel))
      with (cs := cs) (w := set_app a (emit self On_close w2)) as (w3 & -> & H3 & _); [..|exact Hc1|].
    - intros i s w' _ ?. by split; [apply later_inter_send|].
    - intros i p w' _ ?. by split; [apply later_emit|].
    - intros i w' _ Hw' Hi. pose proof (open_count_close i w') as Hcnt. rewrite Hi in Hcnt.
      destruct (IH i w') as (w3 & -> & H3 & _); [lia|]. exists w3. split_and!; [done..|].
      pose proof (later_count _ _ H3). lia.
    - exists w3. split; [done|]. etransitivity; [|exact H3]. etransitivity; [apply later_emit|apply later_set_app]. }
  assert (later w3 (go_on (fun w => set_owner (removeWsSession self (m_owner w)) w) w3)) as H4.
  { apply later_go_on. intros w'. apply later_set_owner. }
  eexists. split; [done|]. split; [by do 2 (etransitivity; [done|])|].
  by apply (later_closed _ _ H4), (later_closed _ _ H3).
Qed.

Lemma inter_close_ends self w :
  inter_close_fuel cbs (S (open_count w)) self w = Some (inter_close cbs self w) /\
  later w (inter_close cbs self w) /\ is_closed self (inter_close cbs self w) = true.
Proof.
  destruct (inter_close_fuel_ends (S (open_count w)) self w) as (w' & Hw' & Hl & Hc).
  - rewrite (open_count_close self w). destruct (is_closed self w); lia.
  - unfold inter_close. rewrite Hw'. by split_and!.
Qed.

Lemma later_inter_close self w : later w (inter_close cbs self w).
Proof. apply inter_close_ends. Qed.

Lemma is_closed_inter_close self w : is_closed self (inter_close cbs self w) = true.
Proof. apply inter_close_ends. Qed.

Lemma is_closed_close self w : is_closed self (close cbs self w) = true.
Proof. unfold close. destruct (is_closed self w) eqn:E; [done|apply is_closed_inter_close]. Qed.

(** A callback made from outside. *)
Lemma later_callback {X} (cb : handler A X) e self (x : X) w : later w (callback cbs cb e self x w).
Proof.
  unfold callback, WS_CALLBACK. destruct cb as [f|]; [|done]. destruct (f self x (app_state w)) as [a cs].
  destruct (do_calls_ind later (fun _ => True) (fun i w => Some (inter_close cbs i w)))
    with (cs := cs) (w := set_app a (emit self e w)) as (w2 & -> & H2 & _); try done.
  - intros i s w' _ _. by split; [apply later_inter_send|].
  - intros i p w' _ _. by split; [apply later_emit|].
  - intros i w' _ _ _. eexists. split; [done|]. by split; [apply later_inter_close|].
  - cbn. etransitivity; [|exact H2]. etransitivity; [apply later_emit|apply later_set_app].
Qed.

Lemma later_handleWsFrame self f w : later w (handleWsFrame cbs self f w).
Proof.
  unfold handleWsFrame. repeat case_match; [|done|apply later_inter_send|apply later_inter_close|apply later_callback].
  etransitivity; [|apply later_in_session, later_inter_close]. apply later_callback.
Qed.

(** ** Invariants of closing *)

(** An invariant of the world while the sessions of [C] are being closed, those of
  [B] being closed already.  No open session has a handle that is closing. *)
Record closing_invariant (B : list nat) (I : list nat -> World Ow A -> Prop) : Prop := {
  inv_closed : forall C w i, I C w -> i ∈ C ++ B -> is_closed i w = true;
  inv_handle : forall C w i, I C w -> is_closed i w = false -> uv_is_closing i w = false;
  inv_emit : forall C i e w, e <> Uv_close -> I C w -> I C (emit i e w);
  inv_send : forall C i bufs n op w, I C w -> I C (inter_send i bufs n op w);
  inv_app : forall C a w, I C w -> I C (set_app a w);
  inv_close : forall C i w, i ∉ C ++ B -> I C w ->
    I (i :: C) (emit i Uv_close (emit i Uv_read_stop (upd_session i (set_readyState CLOSED) w)));
  inv_remove : forall C i w, I (i :: C) w -> I C (set_owner (removeWsSession i (m_owner w)) w);
  }.

Lemma uv_is_closing_stop self w :
  uv_is_closing self (emit self Uv_read_stop (upd_session self (set_readyState CLOSED) w)) = uv_is_closing self w.
Proof.
  unfold uv_is_closing, emit. cbn [log upd_session]. apply bool_decide_ext. rewrite elem_of_app, list_elem_of_singleton.
  split; [by intros [?|[=]]|by left].
Qed.

(** The calls of a callback keep it, and none fails. *)
Lemma do_calls_safe B I C ic cs w w' :
  closing_invariant B I ->
  (forall i w w', faulted w = false -> I C w -> is_closed i w = false -> ic i w = Some w' -> faulted w' = false /\ I C w') ->
  faulted w = false -> I C w -> do_calls ic cs w = Some w' -> faulted w' = false /\ I C w'.
Proof.
  intros HI Hic. revert w. induction cs as [|[i c] cs IH]; intros w Hf Hw; cbn [do_calls]; [by intros [= <-]|].
  rewrite Hf. destruct (do_call ic (i, c) w) as [w1|] eqn:E; [|done].
  assert (faulted w1 = false /\ I C w1) as [Hf1 Hw1]; [|by apply IH].
  revert E. unfold do_call. cbn [fst]. destruct (sessions w !! i) as [y|]; [|by intros [= <-]]. destruct c as [s|p|].
  - intros [= <-]. unfold send. rewrite faulted_send. split; [done|]. by apply (inv_send _ _ HI).
  - intros [= <-]. unfold sendFile. rewrite faulted_emit, Hf. split; [done|]. by apply (inv_emit _ _ HI).
  - destruct (is_closed i w) eqn:Ei; [by intros [= <-]|by apply Hic].
Qed.

(** Closing a session whose handle is not closing keeps every such invariant. *)
Lemma inter_close_fuel_safe B I fuel C self w w' :
  closing_invariant B I -> I C w -> faulted w = false -> uv_is_closing self w = false -> self ∉ C ++ B ->
  inter_close_fuel cbs fuel self w = Some w' -> faulted w' = false /\ I C w'.
Proof.
  intros HI. revert C self w w'. induction fuel as [|fuel IH]; intros C self w w' HC Hf Hcl Hself; [done|]. cbn [inter_close_fuel].
  rewrite uv_is_closing_stop, Hcl. apply (inv_close _ _ HI C self w Hself) in HC.
  set (w1 := emit self Uv_close _) in *.
  assert (faulted w1 = false) as Hf1 by (unfold w1; rewrite !faulted_emit; cbn [is_fault]; by rewrite !orb_false_r).
  destruct (WS_CALLBACK _ _ _ _ _ w1) as [w2|] eqn:E; [|done]. intros [= <-].
  assert (faulted w2 = false /\ I (self :: C) w2) as [Hf2 HC2].
  2: { unfold go_on. rewrite Hf2. split; [done|by apply (inv_remove _ _ HI)]. }
  revert E. unfold WS_CALLBACK. destruct (m_onCloseCb cbs) as [f|]; [|by intros [= <-]].
  destruct (f self tt (app_state w1)) as [a cs]. apply (do_calls_safe B); try done.
  - intros i v v' Hv HIv Hi. apply IH; [done..|by apply (inv_handle _ _ HI _ _ _ HIv)|].
    intros Hin. by rewrite (inv_closed _ _ HI _ _ _ HIv Hin) in Hi.
  - change (faulted (set_app a ?v)) with (faulted v). by rewrite faulted_emit, Hf1.
  - by apply (inv_app _ _ HI), (inv_emit _ _ HI).
Qed.

Lemma inter_close_safe B I C self w :
  closing_invariant B I -> I C w -> faulted w = false -> uv_is_closing self w = false -> self ∉ C ++ B ->
  faulted (inter_close cbs self w) = false /\ I C (inter_close cbs self w).
Proof. intros HI Hw Hf Hcl Hself. by apply (inter_close_fuel_safe B I (S (open_count w)) C self w _ HI Hw Hf Hcl Hself), inter_close_ends. Qed.

(** Closing a handle that is closing. *)
Lemma inter_close_twice self w : uv_is_closing self w = true -> faulted (inter_close cbs self w) = true.
Proof.
  intros Hcl. destruct (inter_close_ends self w) as (He & _). revert He. cbn [inter_close_fuel].
  rewrite uv_is_closing_stop, Hcl. intros [= <-]. rewrite faulted_emit. apply orb_true_r.
Qed.

(** The same for a callback made from outside. *)
Lemma callback_safe B I C {X} (cb : handler A X) e self (x : X) w :
  closing_invariant B I -> I C w -> faulted w = false -> e <> Uv_close -> is_fault e = false ->
  faulted (callback cbs cb e self x w) = false /\ I C (callback cbs cb e self x w).
Proof.
  intros HI Hw Hf He Hef. unfold callback. destruct (WS_CALLBACK _ _ _ _ _ w) as [w'|] eqn:E; [|done]. revert E.
  unfold WS_CALLBACK. destruct cb as [f|]; [|by intros [= <-]]. destruct (f self x (app_state w)) as [a cs].
  apply (do_calls_safe B); try done.
  - intros i v v' Hv HIv Hi [= <-]. apply (inter_close_safe B); [done..|by apply (inv_handle _ _ HI _ _ _ HIv)|].
    intros Hin. by rewrite (inv_closed _ _ HI _ _ _ HIv Hin) in Hi.
  - change (faulted (set_app a ?v)) with (faulted v). by rewrite faulted_emit, Hf, Hef.
  - by apply (inv_app _ _ HI), (inv_emit _ _ HI).
Qed.

(** The least such invariant. *)
Definition all_closed (C : list nat) w : Prop :=
  (forall i, i ∈ C -> is_closed i w = true) /\ (forall i, is_closed i w = false -> uv_is_closing i w = false).

Lemma all_closed_invariant : closing_invariant [] all_closed.
Proof.
  assert (forall i e w j, e <> Uv_close -> uv_is_closing j (emit i e w) = uv_is_closing j w) as He.
  { intros i e w j He. unfold uv_is_closing, emit. cbn [log]. apply bool_decide_ext. rewrite elem_of_app, list_elem_of_singleton.
    split; [by intros [?|[= _ <-]]|by left]. }
  split; try done.
  - intros C w i [HC _] Hi. apply HC. by rewrite app_nil_r in Hi.
  - intros C w i [_ Hh]. apply Hh.
  - intros C i e w Hne [HC Hh]. split; [done|]. intros j. rewrite He by done. apply Hh.
  - intros C i bufs n op w [HC Hh]. split; [done|]. intros j Hj. unfold inter_send. rewrite He by done. by apply Hh.
  - intros C i w Hi [HC Hh]. set (w1 := emit i Uv_close _).
    assert (forall j, is_closed j w1 = if decide (j = i) then true else is_closed j w) as Hcl.
    { intros j. change (is_closed j w1) with (is_closed j (upd_session i (set_readyState CLOSED) w)). rewrite is_closed_upd.
      case_decide; [|done]. by destruct (sessions w !! i). }
    split; intros j; rewrite Hcl; case_decide as Hj; try done.
    + rewrite elem_of_cons. intros [?|?]; [done|by apply HC].
    + intros Hopen%Hh. revert Hopen. unfold uv_is_closing, w1, emit. cbn [log upd_session].
      rewrite !bool_decide_eq_false, !elem_of_app, !list_elem_of_singleton. intros Hn [[?|[=]]|[= ->]]; done.
  - intros C i w [HC Hh]. split; [|done]. intros j Hj. apply HC. by constructor.
Qed.

Lemma inter_close_no_fault self w :
  (forall i, is_closed i w = false -> uv_is_closing i w = false) -> faulted w = false -> uv_is_closing self w = false ->
  faulted (inter_close cbs self w) = false.
Proof.
  intros Hh Hf Hcl. apply (inter_close_safe [] all_closed [] self w all_closed_invariant); [|done|done|apply not_elem_of_nil].
  split; [|done]. intros i Hi. by apply elem_of_nil in Hi.
Qed.

(** What a step of a read of [self] leaves: the invariant, or a fault of a session that
  was closed before. *)
Definition read_inv (I : list nat -> World Ow A -> Prop) self w : Prop :=
  if faulted w then is_closed self w = true else I [] w.

Section Read.
Context (I : list nat -> World Ow A -> Prop) (HI : closing_invariant [] I).
Hypothesis Halive : forall i w, I [] w -> destroyed cbs i w = true -> is_closed i w = true.

Lemma read_inv_inter_close self w : faulted w = false -> I [] w -> read_inv I self (inter_close cbs self w).
Proof.
  intros Hf Hw. unfold read_inv. destruct (uv_is_closing self w) eqn:Hcl.
  - rewrite inter_close_twice by done. apply is_closed_inter_close.
  - by destruct (inter_close_safe [] I [] self w HI Hw Hf Hcl (not_elem_of_nil _)) as [-> ?].
Qed.

Lemma read_inv_in_session self (f : World Ow A -> World Ow A) w :
  (forall w, faulted w = false -> I [] w -> read_inv I self (f w)) -> read_inv I self w -> read_inv I self (in_session cbs self f w).
Proof.
  intros Hf. unfold in_session, go_on, read_inv at 1. destruct (faulted w) eqn:E; [by unfold read_inv; rewrite E|].
  intros Hw. destruct (destroyed cbs self w) eqn:Ed; [|by apply Hf].
  unfold read_inv. rewrite faulted_emit, orb_true_r. by apply Halive in Ed.
Qed.

Lemma read_inv_callback {X} (cb : handler A X) e self (x : X) w :
  faulted w = false -> I [] w -> e <> Uv_close -> is_fault e = false -> read_inv I self (callback cbs cb e self x w).
Proof. intros Hf Hw He Hef. unfold read_inv. by destruct (callback_safe [] I [] cb e self x w HI Hw Hf He Hef) as [-> ?]. Qed.

Lemma read_inv_handle self f w : faulted w = false -> I [] w -> read_inv I self (handleWsFrame cbs self f w).
Proof.
  intros Hf Hw. unfold handleWsFrame.
  repeat case_match; [| | |by apply read_inv_inter_close|by apply read_inv_callback].
  - apply read_inv_in_session; [apply read_inv_inter_close|by apply read_inv_callback].
  - unfold read_inv. by rewrite Hf.
  - unfold read_inv, sendPong. rewrite faulted_send, Hf. by apply (inv_send _ _ HI).
Qed.

Lemma read_inv_recv self data st st' :
  faulted (ps st) = false -> I [] (ps st) -> recv_cb cbs self data st = Some st' -> read_inv I self (ps st').
Proof.
  intros Hf Hw. destruct data as [data|]; cbn [recv_cb]; [|intros [= <-]; by apply read_inv_inter_close].
  assert (read_inv I self (ps st)) as Hst by (unfold read_inv; by rewrite Hf).
  case_bool_decide; [|by intros [= <-]]. unfold handleMessage.
  destruct (parse_member _ _ st data) as [o|] eqn:E; [|done].
  assert (read_inv I self (ps (outcome_st o))) as Ho.
  { eapply (parse_member_preserves _ _ (read_inv I self)); [|exact Hst|exact E].
    intros f x Hg Hx. unfold gone in Hg. apply orb_false_elim in Hg as [Hg _]. unfold read_inv in Hx. rewrite Hg in Hx.
    by apply read_inv_handle. }
  destruct o as [err st1|st1]; cbn [outcome_st] in Ho; intros [= <-]; cbn [ps].
  2: { apply read_inv_in_session; [|done]. intros w Hfw HIw. unfold read_inv. by rewrite Hfw. }
  case_bool_decide; [done|]. cbn [ps]. unfold read_inv in Ho. destruct (faulted (ps st1)) eqn:Hf1.
  2: { apply read_inv_in_session; [apply read_inv_inter_close|by apply read_inv_callback]. }
  set (w1 := callback _ _ _ _ _ _). assert (later (ps st1) w1) as Hl by apply later_callback.
  unfold in_session, go_on. rewrite (faulted_later _ _ Hl Hf1). unfold read_inv. rewrite (faulted_later _ _ Hl Hf1).
  by apply (later_closed _ _ Hl).
Qed.
End Read.

Lemma later_recv self data st st' : recv_cb cbs self data st = Some st' -> later (ps st) (ps st').
Proof.
  destruct data as [data|]; cbn [recv_cb]; [|intros [= <-]; apply later_inter_close].
  case_bool_decide; [|by intros [= <-]]. unfold handleMessage.
  destruct (parse_member _ _ st data) as [o|] eqn:E; [|done].
  assert (later (ps st) (ps (outcome_st o))) as Hl.
  { eapply (parse_member_preserves _ _ (later (ps st))); [|done|exact E]. intros f x _ Hx.
    etransitivity; [exact Hx|apply later_handleWsFrame]. }
  destruct o as [err st1|st1]; cbn [outcome_st] in Hl; intros [= <-]; cbn [ps].
  2: { etransitivity; [exact Hl|]. by apply later_in_session. }
  case_bool_decide; [done|]. cbn [ps]. etransitivity; [exact Hl|].
  etransitivity; [|apply later_in_session, later_inter_close]. apply later_callback.
Qed.

Lemma later_write_cb self ctx status w : later w (write_cb cbs self ctx status w).
Proof.
  unfold write_cb. case_match; [|apply later_go_on, later_emit].
  etransitivity; [|apply later_go_on, later_emit].
  etransitivity; [|apply later_go_on; intros w'; etransitivity; [apply later_emit|apply later_inter_close]].
  apply later_callback.
Qed.
End Closing.
