(* ===== verification/WsService.v ===== *)
(** * What a WebSocket session does for its client

    The behaviour of [recv_cb] on whole streams of frames, stated without the
    parser: [serve] is what one complete frame makes the session do. *)

From S2P Require Import Prelude WsParser WsCodec WsMember WsSession.
From stdpp Require Import gmap.
#[local] Open Scope Z_scope.

Section Service.
Context {Ow A : Type} `{WsOwner Ow} (cbs : Callbacks A).
Implicit Types (w : World Ow A) (self : nat) (st : pstate (World Ow A)).

(** ** Frames *)

(** The frame of a client: a message in one piece. *)
Definition message_frame (wf : wire_frame) : Prop :=
  wire_ok wf /\ w_fin wf = true /\ w_opcode wf <> WS_CONTINUATION.

Definition serve self w (wf : wire_frame) : World Ow A :=
  if decide (w_key wf = None)
  then in_session cbs self (inter_close cbs self) (callback cbs (m_onErrorCb cbs) (On_error Err_no_mask) self Err_no_mask w)
  else if decide (w_opcode wf = WS_PONG) then w
  else if decide (w_opcode wf = WS_PING) then emit self (Uv_write (next_ctx w) [[0x8A; 0]; []])
    (mkWorld (sessions w) (m_owner w) (app_state w) (S (next_ctx w)) (log w))
  else if decide (w_opcode wf = WS_CLOSE) then inter_close cbs self w
  else callback cbs (m_onMessageCb cbs) (On_message (w_data wf)) self (w_data wf) w.

Definition is_open self w : Prop := readyState <$> sessions w !! self = Some OPEN.

Lemma handle_serve self f w wf :
  message_frame wf -> handleWsFrame cbs self (apply_frame false f wf) w = serve self w wf.
Proof.
  intros (Hok & Hfin & Hop). unfold handleWsFrame, serve, apply_frame, starts_message.
  apply Z.eqb_neq in Hop. unfold WS_CONTINUATION in Hop. rewrite Hop.
  cbn [WsParser.mask opcode payload negb andb app]. unfold has_key.
  destruct (w_key wf) as [k|] eqn:Ek; [|done]. rewrite decide_False by done.
  rewrite bool_decide_true by done. cbn [negb].
  repeat (case_decide as Hd; [by rewrite Hd|apply Z.eqb_neq in Hd; rewrite Hd; clear Hd]). done.
Qed.

Lemma serve_fold self ws f w :
  Forall message_frame ws ->
  exists F, fold_left (frame_step (handleWsFrame cbs self)) ws (false, f, w) = (false, F, fold_left (serve self) ws w).
Proof.
  intros Hws. revert f w. induction Hws as [|wf ws Hwf Hws IH]; intros f w; [by eexists|].
  cbn [fold_left]. rewrite <- (handle_serve self f w wf Hwf). unfold frame_step at 2.
  destruct Hwf as (_ & Hfin & _). rewrite Hfin. apply IH.
Qed.

(** C27. A session that is open serves the frames of its client one by one, in order:
  reading a stream of unfragmented frames, of at most 1 MiB each and the last of them not
  empty, has exactly the effects of [serve] on each (an unmasked frame is an error and
  closes, a Ping is answered by a Pong, a Close closes, anything else calls [onMessage]
  once with the unmasked data), and leaves the parser at the start of a frame; provided
  the session is still there, and the process too, after every frame but the last. *)
Theorem recv_serves self (ws : list wire_frame) (n : Z) (f : WsFrame) w (Hopen : is_open self w)
    (Hn : 0 <= n) (Hf : WsFrame_ok f) (Hws : Forall message_frame ws) (Hne : ws <> [])
    (Hlast : w_data <$> last ws <> Some [])
    (Hthere : forall ws1 wf ws2, ws = ws1 ++ wf :: ws2 -> gone cbs self (fold_left (serve self) ws1 w) = false) :
  exists F, recv_cb cbs self (Some (encode_all ws)) (idle_st n false f w) =
    Some (idle_st 0 false F (fold_left (serve self) ws w)).
Proof.
  unfold recv_cb, handleMessage. cbn [ps idle_st]. rewrite bool_decide_true by done.
  rewrite parse_member_stream; try done.
  - rewrite bool_decide_true by done. destruct (serve_fold self ws f w Hws) as [F HF]. exists F. by rewrite HF.
  - eapply Forall_impl; [done|]. by intros ? (? & _).
  - intros ws1 wf ws2 Hw. specialize (Hthere ws1 wf ws2 Hw). rewrite Hw in Hws. apply Forall_app in Hws as [Hws _].
    destruct (serve_fold self ws1 f w Hws) as [F HF]. by rewrite HF.
Qed.

(** A message in one read. *)
Lemma message_served self (op : Z) (parts : list (option bytes * bytes)) (n : Z) (f : WsFrame) w
    (Hopen : is_open self w) (Hn : 0 <= n) (Hf : WsFrame_ok f) (Hop : op = WS_TEXT \/ op = WS_BINARY)
    (Hparts : Forall part_ok parts) (Hmask : exists k, fst <$> last parts = Some (Some k))
    (Hlast : exists k d, last parts = Some (k, d) /\ d <> []) (Hthere : gone cbs self w = false) :
  exists F, recv_cb cbs self (Some (encode_all (fragments op parts))) (idle_st n false f w) =
    Some (idle_st 0 false F
      (callback cbs (m_onMessageCb cbs) (On_message (concat (snd <$> parts))) self (concat (snd <$> parts)) w)).
Proof.
  destruct Hlast as (k & d & Hl & Hd), Hmask as [k' Hk']. rewrite Hl in Hk'. injection Hk' as ->.
  assert (parts <> []) as Hne by (by intros ->). assert (0 < op < 16) as Hop' by (destruct Hop as [-> | ->]; done).
  unfold recv_cb, handleMessage. cbn [ps idle_st]. rewrite bool_decide_true by done.
  destruct (parse_member_message (gone cbs self) (handleWsFrame cbs self) op parts n f w) as (F & HF & Hfin & Ho & Hpay & Hm);
    [done..|by exists (Some k'), d|done|].
  rewrite HF. exists F. rewrite bool_decide_true by done. do 2 f_equal. unfold handleWsFrame.
  rewrite (Hm (Some k')) by (by rewrite Hl). rewrite Ho, Hpay. by destruct Hop as [-> | ->].
Qed.

(** C17. A text or binary message that arrives in one read at an open session that is
  still there, in any number of fragments of at most 1 MiB, the last of them masked and
  not empty, calls the application's [onMessage] once, with the whole message unmasked. *)
Theorem recv_message self (op : Z) (parts : list (option bytes * bytes)) (n : Z) (f : WsFrame) w
    (Hopen : is_open self w) (Hn : 0 <= n) (Hf : WsFrame_ok f) (Hop : op = WS_TEXT \/ op = WS_BINARY)
    (Hparts : Forall part_ok parts) (Hmask : exists k, fst <$> last parts = Some (Some k))
    (Hlast : exists k d, last parts = Some (k, d) /\ d <> []) (Hthere : gone cbs self w = false) :
  exists F, recv_cb cbs self (Some (encode_all (fragments op parts))) (idle_st n false f w) =
    Some (idle_st 0 false F
      (callback cbs (m_onMessageCb cbs) (On_message (concat (snd <$> parts))) self (concat (snd <$> parts)) w)).
Proof. by eapply message_served. Qed.

(** How the transport cuts the stream into reads does not matter while the process runs and
  the session stays open: one read of [a ++ b] is a read of [a] and a read of [b]. *)
Lemma recv_segmentation self (a b : bytes) st st' (Hst : nonneg st)
    (Ha : recv_cb cbs self (Some a) st = Some st') (Hopen : is_open self (ps st')) (Hst0 : is_open self (ps st))
    (Hrun : faulted (ps st') = false) :
  recv_cb cbs self (Some (a ++ b)) st = recv_cb cbs self (Some b) st'.
Proof.
  revert Ha. unfold recv_cb. rewrite !bool_decide_true by done. unfold handleMessage.
  destruct (parse_member _ _ st a) as [[e s|s]|] eqn:E; [| |done].
  - case_bool_decide as He; intros [= <-].
    + subst e. by rewrite (parse_member_app _ _ st s a b Hst (parse_member_nonneg _ _ _ _ _ Hst E) E).
    + exfalso. cbn [ps] in *. apply in_session_runs in Hrun as (_ & _ & Heq). rewrite Heq in Hopen.
      pose proof (is_closed_inter_close cbs self (callback cbs (m_onErrorCb cbs) (On_error Err_parse) self Err_parse (ps s))) as Hc.
      unfold is_open in Hopen. unfold is_closed in Hc. destruct (sessions _ !! self); [|done].
      apply bool_decide_eq_true in Hc. cbn in Hopen. congruence.
  - intros [= <-]. exfalso. cbn [ps] in *. apply in_session_runs in Hrun as (Hf & Hd & _).
    apply parse_member_gone in E. unfold gone in E. by rewrite Hf, Hd in E.
Qed.

(** The frame of a message. *)
Lemma send_frame self (m : bytes) w {T} (cb : WsFrame -> T -> T) (n : Z) (f : WsFrame) (x : T)
    (Hn : 0 <= n) (Hf : WsFrame_ok f) (Hm : bytes_ok m) (Hne : m <> []) (Hl : len m <= LIMIT_PAYLOAD_LEN) :
  exists bufs F, log (send self m w) = log w ++ [(self, Uv_write (next_ctx w) bufs)] /\
    parse cb (idle_st n false f x) (concat bufs) = Some (SUCCESS, idle_st 0 false F (cb F x)) /\
    opcode F = WS_TEXT /\ payload F = m.
Proof.
  exists [frame_header WS_TEXT (len m); m].
  destruct (decode_message_masked cb WS_TEXT [(None, m)] n f x Hn Hf) as (F & HF & _ & Ho & Hp & _); [done| |by exists None, m|].
  { repeat constructor; done. }
  exists F. split; [done|]. split; [|split; [done|]].
  - cbn [concat]. rewrite app_nil_r, frame_header_encode by done.
    unfold encode_all, fragments in HF. cbn [fmap list_fmap concat] in HF. by rewrite app_nil_r in HF.
  - rewrite Hp. cbn. by rewrite app_nil_r.
Qed.

(** C28. What [send] writes for a string that is not empty and not longer than the
  parser's limit of 1 MiB is one frame that the parser decodes back: a peer that runs
  websocket_parser on the bytes written gets the string, once, as a text message. *)
Theorem send_decodes self (m : bytes) w {T} (cb : WsFrame -> T -> T) (n : Z) (f : WsFrame) (x : T)
    (Hn : 0 <= n) (Hf : WsFrame_ok f) (Hm : bytes_ok m) (Hne : m <> []) (Hl : len m <= LIMIT_PAYLOAD_LEN) :
  exists bufs F, log (send self m w) = log w ++ [(self, Uv_write (next_ctx w) bufs)] /\
    parse cb (idle_st n false f x) (concat bufs) = Some (SUCCESS, idle_st 0 false F (cb F x)) /\
    opcode F = WS_TEXT /\ payload F = m.
Proof. by eapply send_frame. Qed.

(** The same for a file, whose reader counted its bytes. *)
Lemma sendFile_encodes self (bufs : list bytes) w :
  log (sendFile_done self bufs (len (concat bufs)) w) =
    log w ++ [(self, Uv_write (next_ctx w) (frame_header WS_TEXT (len (concat bufs)) :: bufs))] /\
  concat (frame_header WS_TEXT (len (concat bufs)) :: bufs) =
    WsCodec.encode (mkWire true 0 WS_TEXT None (concat bufs)).
Proof. split; [done|]. cbn [concat]. by apply frame_header_encode. Qed.

(** C33. Closing always ends: however the close callbacks close other sessions,
  whose close callbacks close others, [inter_close] returns, the session is
  closed, no session is reopened, and a second [close] does nothing.  A second
  [inter_close] ends in libuv's assertion; a first one never does, when no open session
  has a handle that is closing. *)
Theorem inter_close_returns self w :
  exists w', inter_close_fuel cbs (S (open_count w)) self w = Some w' /\ inter_close cbs self w = w' /\
    is_closed self w' = true /\ (forall i, is_closed i w = true -> is_closed i w' = true) /\ close cbs self w' = w' /\
    (uv_is_closing self w = true -> faulted w' = true) /\
    (faulted w = false -> (forall i, is_closed i w = false -> uv_is_closing i w = false) -> uv_is_closing self w = false ->
     faulted w' = false).
Proof.
  destruct (inter_close_ends cbs self w) as (Hf & Hl & Hc).
  eexists. split; [exact Hf|]. split; [done|]. split; [done|]. split; [apply Hl|]. split; [unfold close; by rewrite Hc|].
  split; [apply inter_close_twice|]. intros Hfw Hh Hcl. by apply inter_close_no_fault.
Qed.

(** C34. [recv_alloc_cb] gives a buffer at least as large as libuv suggests, by
  triplings that never overflow 64 bits and stay below three times the
  suggestion. *)
Theorem recv_alloc_grows self x (s : Z) w
    (Hx : sessions w !! self = Some x) (Hpos : 0 < m_recvBuf_len x) (Hs : 0 <= s <= 2 ^ 62) :
  exists n, recv_alloc_cb self s w = Some (upd_session self (fun x => mkSession (readyState x) n) w) /\
    s <= n /\ m_recvBuf_len x <= n /\ n < Z.max (m_recvBuf_len x + 1) (3 * s).
Proof.
  destruct (alloc_loop_spec 41 (m_recvBuf_len x) s) as (n & Hn & ?); [done|lia| |].
  { change (Z.of_nat 41) with 41. assert (2 ^ 62 <= 3 ^ 41) by (vm_compute; congruence). nia. }
  exists n. unfold recv_alloc_cb. by rewrite Hx, Hn.
Qed.

(** From an empty buffer it never returns: [bufSize += bufSize << 1] stays 0. *)
Lemma recv_alloc_empty self x (s : Z) w :
  sessions w !! self = Some x -> m_recvBuf_len x = 0 -> 0 < s -> recv_alloc_cb self s w = None.
Proof. intros Hx H0 Hs. unfold recv_alloc_cb. by rewrite Hx, H0, alloc_loop_zero. Qed.

(** A failed write frees its context twice, if closing does not end the process before: the
  branch for [status < 0] does not return. *)
Lemma failed_write_frees_twice self ctx w (Hrun : faulted (write_cb cbs self ctx (-1) w) = false) :
  exists l1 l2, log (write_cb cbs self ctx (-1) w) = l1 ++ (self, Delete_ctx ctx) :: l2 ++ [(self, Delete_ctx ctx)].
Proof.
  revert Hrun. unfold write_cb. replace (-1 <? 0) with true by done. cbv zeta iota.
  set (w0 := callback cbs (m_onErrorCb cbs) (On_error Err_send) self Err_send w).
  unfold go_on at 2 4. destruct (faulted w0) eqn:Hf0; [unfold go_on; by rewrite Hf0, Hf0|].
  set (w1 := emit self (Delete_ctx ctx) w0). unfold go_on. destruct (faulted (inter_close cbs self w1)) eqn:Hf1; [by rewrite Hf1|].
  intros _. destruct (later_log _ _ (later_inter_close cbs self w1)) as [l2 Hl2]. exists (log w0), l2.
  cbn [emit log]. rewrite Hl2. unfold w1. cbn [emit log]. by rewrite <- !app_assoc.
Qed.
End Service.

(** ** Concrete sessions *)

(** A registry, and an application that echoes its messages and keeps no session. *)
#[local] Program Instance list_owner : WsOwner (list nat) := {
    removeWsSession := fun i l => filter (fun j => j <> i) l;
    registered := fun i l => i ∈ l;
    owner_ok := fun _ => True;
  }.
Next Obligation. done. Qed.
Next Obligation. cbn. intros i j l _. rewrite list_elem_of_filter. tauto. Qed.

Definition echo_callbacks : Callbacks unit :=
  mkCallbacks None None (Some (fun self m a => (a, [(self, Call_send m)]))) None (fun _ _ => false).

Definition one_session : World (list nat) unit :=
  mkWorld {[ 0%nat := mkSession OPEN 65536 ]} [0%nat] tt 0 [].

Definition masked_text (m : bytes) : wire_frame := mkWire true 0 WS_TEXT (Some key1) m.
Definition masked_close : wire_frame := mkWire true 0 WS_CLOSE (Some key1) [3; 232].

Definition log_after (o : option (pstate (World (list nat) unit))) : list (nat * effect) :=
  match o with Some st => log (ps st) | None => [] end.

(** The echo server at work. *)
Example echo_hello :
  log_after (recv_cb echo_callbacks 0 (Some (WsCodec.encode (masked_text (bs "Hello"))))
    (idle_st 1 false (WsFrame_init false) one_session)) =
  [(0%nat, On_message (bs "Hello")); (0%nat, Uv_write 0 [[0x81; 5]; bs "Hello"])].
Proof. vm_compute. reflexivity. Qed.

(** The first of two Close frames in one read drops the last pointer to the session, in whose
    parser [parse] then reads on. *)
Example close_frame_twice :
  log_after (recv_cb echo_callbacks 0 (Some (encode_all [masked_close; masked_close]))
    (idle_st 1 false (WsFrame_init false) one_session)) =
  [(0%nat, Uv_read_stop); (0%nat, Uv_close); (0%nat, Fault Session_destroyed)].
Proof. vm_compute. reflexivity. Qed.

(** The same for an empty Close, even alone but for the byte that completes it. *)
Example empty_close_destroys :
  log_after (recv_cb echo_callbacks 0 (Some (WsCodec.encode (mkWire true 0 WS_CLOSE (Some key1) []) ++ [0]))
    (idle_st 1 false (WsFrame_init false) one_session)) =
  [(0%nat, Uv_read_stop); (0%nat, Uv_close); (0%nat, Fault Session_destroyed)].
Proof. vm_compute. reflexivity. Qed.

(** An application that keeps its sessions keeps the parser too. *)
Definition keeping_callbacks : Callbacks unit :=
  mkCallbacks None None (Some (fun self m a => (a, [(self, Call_send m)]))) None (fun _ _ => true).

(** Then the second Close closes a handle that is closing. *)
Example close_frame_asserts :
  log_after (recv_cb keeping_callbacks 0 (Some (encode_all [masked_close; masked_close]))
    (idle_st 1 false (WsFrame_init false) one_session)) =
  [(0%nat, Uv_read_stop); (0%nat, Uv_close); (0%nat, Uv_read_stop); (0%nat, Fault Handle_closing)].
Proof. vm_compute. reflexivity. Qed.

(** A message after the Close is still delivered, and answered on the closed handle. *)
Example message_after_close :
  log_after (recv_cb keeping_callbacks 0 (Some (encode_all [masked_close; masked_text (bs "Hi")]))
    (idle_st 1 false (WsFrame_init false) one_session)) =
  [(0%nat, Uv_read_stop); (0%nat, Uv_close); (0%nat, On_message (bs "Hi")); (0%nat, Uv_write 0 [[0x81; 2]; bs "Hi"])].
Proof. vm_compute. reflexivity. Qed.

(** [uv_close] cancels the writes that are pending: their callbacks close once more. *)
Example cancelled_write_asserts :
  log (write_cb echo_callbacks 0 0 (-125) (close echo_callbacks 0 (send 0 (bs "Hi") one_session))) =
  [(0%nat, Uv_write 0 [[0x81; 2]; bs "Hi"]); (0%nat, Uv_read_stop); (0%nat, Uv_close); (0%nat, Delete_ctx 0);
   (0%nat, Uv_read_stop); (0%nat, Fault Handle_closing)].
Proof. vm_compute. reflexivity. Qed.

(** A file that was sent keeps its session for ever: nothing deletes the reader. *)
Example sent_file_keeps_session :
  destroyed echo_callbacks 0 (close echo_callbacks 0 (write_cb echo_callbacks 0 0 0
    (sendFile_done 0 [bs "Hi"] 2 (sendFile 0 (bs "f") one_session)))) = false.
Proof. vm_compute. reflexivity. Qed.

(** ** Witnesses *)

Lemma masked_text_ok m : bytes_ok m -> len m <= LIMIT_PAYLOAD_LEN -> message_frame (masked_text m).
Proof.
  intros Hm Hl. split; [|done]. split; [done|]. split; [done|]. split; [apply key1_ok|done].
Qed.

Lemma masked_close_ok : message_frame masked_close.
Proof. split; [|done]. repeat constructor; vm_compute; congruence. Qed.

Lemma hello_ok : bytes_ok (bs "Hello") /\ len (bs "Hello") <= LIMIT_PAYLOAD_LEN.
Proof. split; [repeat constructor; vm_compute; congruence|vm_compute; congruence]. Qed.

Lemma recv_serves_witness : exists F,
  recv_cb echo_callbacks 0 (Some (encode_all [masked_text (bs "Hello"); masked_close]))
    (idle_st 1 false (WsFrame_init false) one_session) =
  Some (idle_st 0 false F (fold_left (serve echo_callbacks 0) [masked_text (bs "Hello"); masked_close] one_session)).
Proof.
  apply (recv_serves echo_callbacks); try done.
  - constructor; [apply masked_text_ok; apply hello_ok|]. constructor; [apply masked_close_ok|constructor].
  - intros [|wf1 [|wf2 [|wf3 ws1]]] wf ws2 Hw; [reflexivity| | |]; injection Hw; intros; by subst.
Defined.

Definition two_parts : list (option bytes * bytes) := [(Some key1, bs "Hel"); (Some key1, bs "lo")].

Lemma two_parts_ok : Forall part_ok two_parts.
Proof. repeat constructor; vm_compute; congruence. Qed.

Lemma recv_message_witness : exists F,
  recv_cb echo_callbacks 0 (Some (encode_all (fragments WS_TEXT two_parts))) (idle_st 1 false (WsFrame_init false) one_session) =
  Some (idle_st 0 false F (callback echo_callbacks (m_onMessageCb echo_callbacks) (On_message (bs "Hello")) 0 (bs "Hello") one_session)).
Proof.
  apply (recv_message echo_callbacks 0 WS_TEXT two_parts); try done.
  - by left.
  - apply two_parts_ok.
  - by exists key1.
  - by exists (Some key1), (bs "lo").
Defined.

Example echo_segmentation :
  recv_cb echo_callbacks 0 (Some (take 3 hello_frame ++ drop 3 hello_frame)) (idle_st 1 false (WsFrame_init false) one_session) =
  recv_cb echo_callbacks 0 (Some (drop 3 hello_frame))
    (mkP (mkParser Status_maskKey 3 false 0) (mkWsFrame true 0 1 true 5 [0] []) one_session).
Proof. apply (recv_segmentation echo_callbacks); [by split|vm_compute; reflexivity|done|done|done]. Qed.

Lemma send_decodes_witness : exists bufs F,
  log (send 0 (bs "Hello") one_session) = [] ++ [(0%nat, Uv_write 0 bufs)] /\
  parse (fun f l => log_frame f l) (idle_st 1 false (WsFrame_init false) []) (concat bufs) =
    Some (SUCCESS, idle_st 0 false F (log_frame F [])) /\
  opcode F = WS_TEXT /\ payload F = bs "Hello".
Proof. apply (send_decodes 0 (bs "Hello") one_session log_frame 1 (WsFrame_init false) []); done || apply hello_ok. Defined.

Lemma recv_alloc_grows_witness : exists n,
  recv_alloc_cb 0 100000 one_session = Some (upd_session 0 (fun x => mkSession (readyState x) n) one_session) /\
  100000 <= n /\ 65536 <= n /\ n < Z.max (65536 + 1) (3 * 100000).
Proof. apply (recv_alloc_grows 0 (mkSession OPEN 65536) 100000 one_session); cbn; done || lia. Defined.
