(* ===== verification/WsServer.v ===== *)
(** * The WebSocket server (include/WsServer.h, src/core/WsServer.cpp)

    The registry of sessions, which implements the interface [WsOwner] of
    WsSession.v, and the server as a system: any interleaving of upgrades, reads,
    completed writes and calls of the program on any number of sessions. *)

From S2P Require Import Prelude WsParser WsMember WsSession.
From stdpp Require Import gmap.
#[local] Open Scope Z_scope.

(** ** The registry *)

(** [m_wsSessions], as the identities of the sessions. *)
Definition pushWsSession (ws : nat) (l : list nat) : list nat := l ++ [ws].
Definition getWsCount (l : list nat) : nat := length l.

(** [removeWsSession]: the found element is swapped with the last one, which is popped. *)
#[export] Program Instance registry_owner : WsOwner (list nat) := {
    removeWsSession := swap_remove;
    registered := fun i l => i ∈ l;
    owner_ok := fun l => NoDup l;
  }.
Next Obligation. intros i l Hl. by apply swap_remove_NoDup. Qed.
Next Obligation. intros i j l Hl. cbn. by apply swap_remove_elem_of. Qed.

(** ** The server *)

Record WsServer (A : Type) := mkWsServer {
    world : World (list nat) A;
    parsers : gmap nat (websocket_parser * WsFrame);
  }.
Arguments mkWsServer {A}.
Arguments world {A}.
Arguments parsers {A}.

Section Server.
Context {A : Type} (cbs : Callbacks A) (onConnectCb : handler A unit).
Implicit Types (s : WsServer A) (w : World (list nat) A) (self : nat).

(** [onUpgrade]: [make_shared<WsSession>], then the server's callback (which sets
  the session's own), then [connect]. *)
Definition onUpgrade self (recvBuf_len : Z) (fin0 : bool) s : WsServer A :=
  let w := world s in
  let w := mkWorld (<[self := WsSession_init recvBuf_len]> (sessions w)) (pushWsSession self (m_owner w))
             (app_state w) (next_ctx w) (log w) in
  let w := callback cbs onConnectCb On_connect self tt w in
  mkWsServer (go_on (connect cbs self) w) (<[self := (websocket_parser_init, WsFrame_init fin0)]> (parsers s)).

(** A read reaches [recv_cb] of a session between [uv_read_start] and [uv_read_stop]. *)
Definition read self (data : option bytes) s : option (WsServer A) :=
  match parsers s !! self with
  | None => None
  | Some (p, f) =>
      match recv_cb cbs self data (mkP p f (world s)) with
      | None => None
      | Some st => Some (mkWsServer (ps st) (<[self := (pp st, pf st)]> (parsers s)))
      end
  end.

Definition set_world w s : WsServer A := mkWsServer w (parsers s).

(** One event of the loop. *)
Inductive ws_event : WsServer A -> WsServer A -> Prop :=
  | step_upgrade s self n b : sessions (world s) !! self = None -> (forall e, (self, e) ∉ log (world s)) ->
      ws_event s (onUpgrade self n b s)
  | step_read s s' self data : readyState <$> sessions (world s) !! self = Some OPEN ->
      read self data s = Some s' -> ws_event s s'
  | step_alloc s self n w : recv_alloc_cb self n (world s) = Some w -> ws_event s (set_world w s)
  | step_written s self ctx bufs status : (self, Uv_write ctx bufs) ∈ log (world s) ->
      ws_event s (set_world (write_cb cbs self ctx status (world s)) s)
  | step_file s self path bufs n : (self, File_read path) ∈ log (world s) ->
      ws_event s (set_world (sendFile_done self bufs n (world s)) s)
  | step_file_failed s self path : (self, File_read path) ∈ log (world s) ->
      ws_event s (set_world (sendFile_failed self (world s)) s)
  | step_send s self str : is_Some (sessions (world s) !! self) -> ws_event s (set_world (send self str (world s)) s)
  | step_close s self : ws_event s (set_world (close cbs self (world s)) s).

(** A step of the process: an event that does not end it. *)
Definition ws_step s s' : Prop := ws_event s s' /\ faulted (world s') = false.

Definition WsServer_init (a : A) : WsServer A := mkWsServer (mkWorld ∅ [] a 0 []) ∅.

(** ** The registry invariant *)

(** While the sessions of [C] are being closed (or connected) they may still be registered. *)
Record registry_inv (C : list nat) w : Prop := {
  reg_nodup : NoDup (m_owner w);
  reg_closing : forall i, i ∈ C -> is_closed i w = true;
  reg_open : forall i, is_closed i w = false -> i ∈ m_owner w;
  reg_registered : forall i, i ∈ m_owner w -> is_closed i w = false \/ i ∈ C;
  reg_handle : forall i, is_closed i w = false -> (i, Uv_close) ∉ log w;
  reg_status : forall i x, sessions w !! i = Some x -> readyState x = OPEN \/ readyState x = CLOSED;
  }.

Lemma registry_closing : closing_invariant [] registry_inv.
Proof.
  split.
  - intros C w i HC. rewrite app_nil_r. apply (reg_closing _ _ HC).
  - intros C w i HC Hi. apply bool_decide_eq_false. by apply (reg_handle _ _ HC).
  - intros C i e w He [H1 H2 H3 H4 H5 H6]. split; try done. intros j Hj. cbn. rewrite elem_of_app, list_elem_of_singleton.
    intros [Hin|[= -> <-]]; [by apply (H5 j)|done].
  - intros C i bufs n op w [H1 H2 H3 H4 H5 H6]. split; try done. intros j Hj. cbn. rewrite elem_of_app, list_elem_of_singleton.
    intros [Hin|?]; [by apply (H5 j)|done].
  - intros C a w [H1 H2 H3 H4 H5 H6]. by split.
  - intros C i w Hi [H1 H2 H3 H4 H5 H6]. set (w1 := emit i Uv_close _).
    assert (forall j, is_closed j w1 = if decide (i = j) then true else is_closed j w) as Hcl.
    { intros j. change (is_closed j w1) with (is_closed j (upd_session i (set_readyState CLOSED) w)).
      rewrite is_closed_upd. case_decide; subst; [rewrite decide_True by done; by destruct (sessions w !! i)|].
      by rewrite decide_False. }
    split; [done|..]; intros j; rewrite ?Hcl.
    + case_decide; [done|]. rewrite elem_of_cons. intros [?|?]; [done|by apply H2].
    + case_decide; [done|]. apply H3.
    + intros Hj. rewrite elem_of_cons. case_decide; [by right; left|]. destruct (H4 j Hj); tauto.
    + case_decide; [done|]. intros Hj. unfold w1. cbn. rewrite !elem_of_app, !list_elem_of_singleton.
      intros [[Hin|?]|[= ->]]; [by apply (H5 j)|done|done].
    + intros x. cbn. rewrite lookup_alter. case_decide; [|apply H6].
      destruct (sessions w !! i); [|done]. intros [= <-]. by right.
  - intros C i w [H1 H2 H3 H4 H5 H6]. pose proof (swap_remove_elem_of i) as Hin. split.
    + by apply swap_remove_NoDup.
    + intros j Hj. apply H2. by constructor.
    + intros j Hj. apply Hin; [done|]. split; [by apply H3|]. intros ->.
      assert (is_closed i w = true) by (apply H2; constructor). change (is_closed i w = false) in Hj. congruence.
    + intros j [Hj Hne]%Hin; [|done]. destruct (H4 j Hj) as [?|Hc]; [by left|].
      apply elem_of_cons in Hc as [?|?]; [done|by right].
    + done.
    + done.
Qed.

(** *** Every event keeps it *)

Lemma registry_emit_only i e w : e <> Uv_close -> registry_inv [] w -> registry_inv [] (emit i e w).
Proof. apply (inv_emit _ _ registry_closing). Qed.

Lemma registry_destroyed i w : registry_inv [] w -> destroyed cbs i w = true -> is_closed i w = true.
Proof.
  intros Hw Hd. destruct (is_closed i w) eqn:E; [done|]. apply (reg_open _ _ Hw) in E. revert Hd.
  unfold destroyed. cbn [registered registry_owner]. by rewrite bool_decide_true.
Qed.

Lemma registry_inter_close self w :
  registry_inv [] w -> faulted w = false -> faulted (inter_close cbs self w) = false -> registry_inv [] (inter_close cbs self w).
Proof.
  intros Hw Hf Hf'. pose proof (read_inv_inter_close cbs registry_inv registry_closing self w Hf Hw) as H.
  unfold read_inv in H. by rewrite Hf' in H.
Qed.

Lemma registry_close self w : registry_inv [] w -> faulted w = false -> registry_inv [] (close cbs self w).
Proof.
  intros Hw Hf. unfold close. destruct (is_closed self w) eqn:E; [done|].
  by apply (inter_close_safe cbs [] registry_inv [] self w registry_closing Hw Hf (inv_handle _ _ registry_closing _ _ _ Hw E)
    (not_elem_of_nil _)).
Qed.

(** A session being connected: registered, closed, and never to be closed meanwhile. *)
Definition connecting_inv self (C : list nat) w : Prop :=
  registry_inv (C ++ [self]) w /\ NoDup (C ++ [self]) /\ self ∈ m_owner w /\ ((self, Uv_close) ∉ log w) /\ is_Some (sessions w !! self).

Lemma connecting_closing self : closing_invariant [self] (connecting_inv self).
Proof.
  split.
  - intros C w i (HC & _). apply (reg_closing _ _ HC).
  - intros C w i (HC & _). apply (inv_handle _ _ registry_closing _ _ _ HC).
  - intros C i e w He (HC & Hnd & Ho & Hl & Hs). split_and!; try done; [by apply (inv_emit _ _ registry_closing)|].
    cbn. rewrite elem_of_app, list_elem_of_singleton. by intros [?|[=]].
  - intros C i bufs n op w (HC & Hnd & Ho & Hl & Hs). split_and!; try done; [by apply (inv_send _ _ registry_closing)|].
    cbn. rewrite elem_of_app, list_elem_of_singleton. by intros [?|[=]].
  - intros C a w (HC & Hnd & Ho & Hl & Hs). split_and!; try done. by apply (inv_app _ _ registry_closing).
  - intros C i w Hi (HC & Hnd & Ho & Hl & Hs). assert (i <> self) by (intros ->; apply Hi, elem_of_app; right; constructor).
    split_and!; try done.
    + apply (inv_close _ _ registry_closing); [by rewrite app_nil_r|done].
    + cbn. constructor; done.
    + cbn. rewrite !elem_of_app, !list_elem_of_singleton. intros [[?|?]|[= ?]]; by simplify_eq.
    + cbn. by rewrite lookup_alter_ne.
  - intros C i w (HC & Hnd & Ho & Hl & Hs). apply NoDup_cons in Hnd as [Hi Hnd].
    split_and!; try done; [by apply (inv_remove _ _ registry_closing)|].
    cbn. apply swap_remove_elem_of; [apply HC|]. split; [done|]. intros ->. apply Hi, elem_of_app. right. constructor.
Qed.

Lemma registry_connect self w : connecting_inv self [] w -> faulted w = false ->
  faulted (connect cbs self w) = false /\ registry_inv [] (connect cbs self w).
Proof.
  intros ([H1 H2 H3 H4 H5 H6] & _ & Hreg & Hlog & [x Hx]) Hf. unfold connect.
  apply (callback_safe cbs [] registry_inv []); [apply registry_closing| |by rewrite <- Hf, <- (orb_false_r (faulted w)), <- (faulted_emit self Uv_read_start)|done|done].
  set (w1 := upd_session self (set_readyState OPEN) _).
  assert (forall j, sessions w1 !! j = if decide (j = self) then Some (set_readyState OPEN x) else sessions w !! j) as Hl.
  { intros j. unfold w1. cbn. case_decide as Hj; [|by rewrite !lookup_alter_ne].
    subst j. by rewrite !lookup_alter_eq, Hx. }
  assert (forall j, is_closed j w1 = if decide (j = self) then false else is_closed j w) as Hcl.
  { intros j. unfold is_closed. rewrite Hl. by case_decide. }
  split; [done|..].
  - intros i Hi. by apply elem_of_nil in Hi.
  - intros i. rewrite Hcl. case_decide; [by subst|apply H3].
  - intros i Hi. rewrite Hcl. case_decide; [by left|]. destruct (H4 i Hi) as [?|?%list_elem_of_singleton]; [by left|done].
  - intros i. rewrite Hcl. unfold w1. cbn. rewrite elem_of_app, list_elem_of_singleton.
    case_decide; subst; [intros _ [?|[=]]; done|]. intros Hi [?|[=]]. by apply (H5 i).
  - intros i y. rewrite Hl. case_decide; [|apply H6]. intros [= <-]. by left.
Qed.

Lemma registry_upgrade self n b s :
  registry_inv [] (world s) -> faulted (world s) = false ->
  sessions (world s) !! self = None -> (forall e, (self, e) ∉ log (world s)) ->
  faulted (world (onUpgrade self n b s)) = false /\ registry_inv [] (world (onUpgrade self n b s)).
Proof.
  intros [H1 H2 H3 H4 H5 H6] Hf Hs Hlog. unfold onUpgrade. cbn.
  lazymatch goal with |- context [callback cbs onConnectCb On_connect self tt ?w] =>
    destruct (callback_safe cbs [self] (connecting_inv self) [] onConnectCb On_connect self tt w) as [Hf' HI] end;
    [apply connecting_closing| |done..|].
  2: { unfold go_on. rewrite Hf'. by apply registry_connect. }
  set (w1 := mkWorld _ _ _ _ _).
  assert (forall j, is_closed j w1 = is_closed j (world s)) as Hcl.
  { intros j. unfold is_closed, w1. cbn. destruct (decide (j = self)) as [->|Hj]; [by rewrite lookup_insert_eq, Hs|by rewrite lookup_insert_ne]. }
  assert (self ∉ m_owner (world s)) as Hnew.
  { intros Hin. destruct (H4 self Hin) as [Hc|Hc]; [|by apply elem_of_nil in Hc]. unfold is_closed in Hc. by rewrite Hs in Hc. }
  split_and!; [split| | | |]; unfold w1; cbn; fold w1.
  - unfold pushWsSession. apply NoDup_app. split_and!; [done| |apply NoDup_singleton].
    intros i Hi ?%list_elem_of_singleton. by subst.
  - intros i ->%list_elem_of_singleton. unfold is_closed, w1. cbn. by rewrite lookup_insert_eq.
  - intros i. rewrite Hcl. unfold pushWsSession. rewrite elem_of_app. left. by apply H3.
  - intros i. rewrite Hcl. unfold pushWsSession. rewrite elem_of_app. intros [Hi|Hi]; [|by right].
    left. destruct (H4 i Hi) as [?|Hc]; [done|by apply elem_of_nil in Hc].
  - intros i. rewrite Hcl. apply H5.
  - intros i x. destruct (decide (i = self)) as [->|Hi]; [rewrite lookup_insert_eq; intros [= <-]; by right|].
    rewrite lookup_insert_ne by done. apply H6.
  - apply NoDup_singleton.
  - unfold pushWsSession. apply elem_of_app. right. by constructor.
  - apply Hlog.
  - by rewrite lookup_insert_eq.
Qed.

Lemma registry_write_cb self ctx status w :
  registry_inv [] w -> faulted w = false -> faulted (write_cb cbs self ctx status w) = false ->
  registry_inv [] (write_cb cbs self ctx status w).
Proof.
  intros Hw Hf. unfold write_cb. destruct (status <? 0).
  2: { intros _. unfold go_on. rewrite Hf. by apply registry_emit_only. }
  destruct (callback_safe cbs [] registry_inv [] (m_onErrorCb cbs) (On_error Err_send) self Err_send w) as [Hf1 Hw1]; [apply registry_closing|done..|].
  unfold go_on at 2 4. rewrite Hf1. set (w2 := inter_close _ _ _). unfold go_on. destruct (faulted w2) eqn:Hf2; [congruence|].
  intros _. apply registry_emit_only; [done|]. apply registry_inter_close; [by apply registry_emit_only| |done].
  by rewrite faulted_emit, Hf1.
Qed.

(** The parsers of the sessions stay usable: [parse] returns on any bytes. *)
Definition parsers_ok s : Prop :=
  (forall i p f, parsers s !! i = Some (p, f) -> 0 <= m_byteNeed p /\ 0 <= payload_len f) /\
  (forall i, is_Some (sessions (world s) !! i) -> is_Some (parsers s !! i)).

Lemma recv_returns self data st :
  nonneg st -> exists st', recv_cb cbs self data st = Some st' /\ nonneg st' /\ later (ps st) (ps st').
Proof.
  intros Hn. assert (exists st', recv_cb cbs self data st = Some st' /\ nonneg st') as (st' & Hr & Hn').
  2: { exists st'. split_and!; [done..|]. by apply (later_recv cbs self data). }
  destruct data as [data|]; cbn [recv_cb]; [|by eexists].
  case_bool_decide; [|by eexists]. unfold handleMessage.
  pose proof (fun o => parse_member_nonneg (gone cbs self) (handleWsFrame cbs self) st data o Hn) as Hn'.
  rewrite parse_member_feed in * by done. specialize (Hn' _ eq_refl).
  destruct (member_result _) as [err st1|st1]; cbn in Hn'; [case_bool_decide|]; eexists; by split.
Qed.

Lemma read_returns self data s :
  parsers_ok s -> is_Some (sessions (world s) !! self) ->
  exists s', read self data s = Some s' /\ parsers_ok s'.
Proof.
  intros [Hn Hd] Hs. unfold read. destruct (Hd self Hs) as [[p f] Hp]. rewrite Hp.
  destruct (recv_returns self data (mkP p f (world s))) as (st & -> & Hst & Hl); [by apply Hn in Hp|].
  eexists. split; [done|]. split; cbn.
  - intros i p' f'. rewrite lookup_insert. case_decide; [|apply Hn]. intros [= <- <-]. apply Hst.
  - intros i Hi. rewrite lookup_insert. case_decide; [done|]. by apply Hd, (later_sessions _ _ Hl).
Qed.

(** A read keeps it, or the process ends and the session was closed before. *)
Lemma read_leaves self data s s' :
  registry_inv [] (world s) -> faulted (world s) = false -> read self data s = Some s' ->
  read_inv registry_inv self (world s').
Proof.
  intros Hw Hf. unfold read. destruct (parsers s !! self) as [[p f]|]; [|done].
  destruct (recv_cb _ _ _ _) as [st|] eqn:E; [|done]. intros [= <-].
  exact (read_inv_recv cbs registry_inv registry_closing registry_destroyed self data (mkP p f (world s)) st Hf Hw E).
Qed.

Lemma registry_read self data s s' :
  registry_inv [] (world s) -> faulted (world s) = false -> read self data s = Some s' -> faulted (world s') = false ->
  registry_inv [] (world s').
Proof. intros Hw Hf Hr Hf'. pose proof (read_leaves self data s s' Hw Hf Hr) as H. unfold read_inv in H. by rewrite Hf' in H. Qed.

Definition server_ok s : Prop := registry_inv [] (world s) /\ parsers_ok s /\ faulted (world s) = false.

Lemma parsers_ok_later w s : parsers_ok s -> later (world s) w -> parsers_ok (set_world w s).
Proof. intros [Hn Hd] Hl. split; [done|]. intros i Hi. by apply Hd, (later_sessions _ _ Hl). Qed.

Lemma later_ws_close self w : later w (close cbs self w).
Proof. unfold close. case_match; [done|apply later_inter_close]. Qed.

Lemma parsers_ok_upgrade self n b s : parsers_ok s -> parsers_ok (onUpgrade self n b s).
Proof.
  intros [Hn Hd]. split; cbn.
  - intros i p f. rewrite lookup_insert. case_decide; [|apply Hn]. intros [= <- <-]. split; cbn; lia.
  - intros i. rewrite lookup_insert. case_decide as Hi; [done|]. intros Hs. apply Hd. revert Hs.
    assert (forall w, is_Some (sessions (go_on (connect cbs self) w) !! i) <-> is_Some (sessions w !! i)) as Hc.
    { intros w. unfold go_on. destruct (faulted w); [done|]. unfold connect.
      rewrite (later_sessions _ _ (later_callback cbs (m_onConnectCb cbs) On_connect self tt _)).
      cbn. by rewrite !lookup_alter_is_Some. }
    rewrite Hc, (later_sessions _ _ (later_callback cbs onConnectCb On_connect self tt _)).
    cbn. by rewrite lookup_insert_ne.
Qed.

Lemma registry_alloc self n x w :
  sessions w !! self = Some x -> registry_inv [] w ->
  registry_inv [] (upd_session self (fun x => mkSession (readyState x) n) w).
Proof.
  intros Hx [H1 H2 H3 H4 H5 H6]. set (w1 := upd_session _ _ _).
  assert (forall i, is_closed i w1 = is_closed i w) as Hcl.
  { intros i. unfold is_closed, w1. cbn. rewrite lookup_alter. case_decide; [|done]. subst. by rewrite Hx. }
  split; try done; try (intros i; rewrite Hcl; auto).
  intros i y. unfold w1. cbn. rewrite lookup_alter. case_decide; [|apply H6]. subst. rewrite Hx.
  intros [= <-]. exact (H6 _ x Hx).
Qed.

Lemma server_ok_step s s' : ws_step s s' -> server_ok s -> server_ok s'.
Proof.
  intros [Hstep Hf'] (Hr & Hp & Hf). assert (registry_inv [] (world s') /\ parsers_ok s') as [??]; [|by split_and!].
  destruct Hstep as [s self n b Hs Hlog|s s' self data Hopen Hread|s self n w Hw|s self ctx bufs status Hin
    |s self path bufs n Hin|s self path Hin|s self str _|s self].
  - split; [by apply registry_upgrade|]. by apply parsers_ok_upgrade.
  - destruct (read_returns self data s Hp) as (s1 & Hread1 & Hp1); [by destruct (sessions _ !! self)|].
    rewrite Hread in Hread1. injection Hread1 as <-. split; [|done].
    by apply (registry_read self data s s') in Hread.
  - unfold recv_alloc_cb in Hw. destruct (sessions (world s) !! self) as [x|] eqn:E; [|done].
    destruct (alloc_loop _ _ _) as [n'|]; [|done]. injection Hw as <-.
    split; [by apply (registry_alloc self n' x)|]. destruct Hp as [Hn Hd]. split; [done|].
    intros i. cbn. rewrite lookup_alter_is_Some. apply Hd.
  - split; [by apply registry_write_cb|]. apply parsers_ok_later; [done|]. apply later_write_cb.
  - split; [by apply (inv_send _ _ registry_closing)|]. apply parsers_ok_later; [done|]. apply later_inter_send.
  - split; [by apply registry_emit_only|]. apply parsers_ok_later; [done|]. apply later_emit.
  - split; [by apply (inv_send _ _ registry_closing)|]. apply parsers_ok_later; [done|]. apply later_inter_send.
  - split; [by apply registry_close|]. apply parsers_ok_later; [done|]. apply later_ws_close.
Qed.

Lemma server_ok_reachable s s' : rtc ws_step s s' -> server_ok s -> server_ok s'.
Proof. induction 1 as [|s1 s2 s3 Hstep _ IH]; [done|]. intros Hs. by eapply IH, server_ok_step. Qed.

Lemma WsServer_init_ok a : server_ok (WsServer_init a).
Proof.
  split; [split; try done; cbn; [constructor|set_solver..]|].
  split; [|done]. split; [done|]. intros i [x Hx]. done.
Qed.

(** C10. In every reachable state of the server, whatever the interleaving of
  upgrades, reads, completed writes, sends and closes over any number of
  sessions and whatever the callbacks do, the registry holds each open session
  exactly once and no closed one, and no open session has had its handle
  closed. *)
Theorem registry_is_open_sessions a s :
  rtc ws_step (WsServer_init a) s ->
  NoDup (m_owner (world s)) /\
  (forall i, i ∈ m_owner (world s) <-> readyState <$> sessions (world s) !! i = Some OPEN) /\
  (forall i, i ∈ m_owner (world s) -> (i, Uv_close) ∉ log (world s)).
Proof.
  intros Hs. assert (server_ok s) as ([H1 _ H3 H4 H5 H6] & _).
  { eapply server_ok_reachable; [exact Hs|apply WsServer_init_ok]. }
  assert (forall i, is_closed i (world s) = false <-> readyState <$> sessions (world s) !! i = Some OPEN) as Ho.
  { intros i. unfold is_closed. destruct (sessions _ !! i) as [x|] eqn:E; [|done]. cbn.
    destruct (H6 i x E) as [-> | ->]; done. }
  split_and!; [done| |].
  - intros i. rewrite <- Ho. split; [|apply H3]. intros Hi. destruct (H4 i Hi) as [?|Hc]; [done|by apply elem_of_nil in Hc].
  - intros i Hi. apply H5. destruct (H4 i Hi) as [?|Hc]; [done|by apply elem_of_nil in Hc].
Qed.

(** C19. A read always ends: on an open session of a reachable server [recv_cb] returns on
  any bytes, and when the peer has closed, with the process running on.  Only a read that
  has closed the session can end the process: by parsing on in a session that was
  destroyed, or by closing the handle once more. *)
Theorem read_never_stuck a s self data :
  rtc ws_step (WsServer_init a) s -> readyState <$> sessions (world s) !! self = Some OPEN ->
  exists s', read self data s = Some s' /\
    (ws_step s s' \/
     data <> None /\ faulted (world s') = true /\ readyState <$> sessions (world s') !! self = Some CLOSED).
Proof.
  intros Hs Hopen. assert (server_ok s) as (Hr & Hp & Hf).
  { eapply server_ok_reachable; [exact Hs|apply WsServer_init_ok]. }
  destruct (read_returns self data s Hp) as (s' & Hread & Hp'); [by destruct (sessions _ !! self)|].
  exists s'. split; [done|]. destruct (faulted (world s')) eqn:Hf'.
  2: { left. split; [by eapply step_read|done]. }
  right. split_and!; [|done|].
  - intros ->. revert Hread. unfold read. destruct (parsers s !! self) as [[p f]|]; [|done]. cbn [recv_cb].
    intros [= <-]. cbn [world ps] in Hf'. rewrite inter_close_no_fault in Hf'; [done| |done|].
    + intros i. by apply (inv_handle _ _ registry_closing _ _ _ Hr).
    + apply (inv_handle _ _ registry_closing _ _ _ Hr). unfold is_closed. by destruct (sessions _ !! self) as [[[]]|].
  - pose proof (read_leaves self data s s' Hr Hf Hread) as Hc. unfold read_inv in Hc. rewrite Hf' in Hc.
    assert (is_Some (sessions (world s') !! self)) as [x Hx].
    { revert Hread. unfold read. destruct (parsers s !! self) as [[p f]|]; [|done].
      destruct (recv_cb _ _ _ _) as [st|] eqn:E; [|done]. intros [= <-]. apply (later_sessions _ _ (later_recv cbs self data _ _ E)).
      cbn [ps]. by destruct (sessions _ !! self). }
    unfold is_closed in Hc. rewrite Hx in Hc |- *. cbn. by apply bool_decide_eq_true in Hc as ->.
Qed.
End Server.

(** ** A run: two connections, one closed by its peer *)

Definition quiet : Callbacks unit := mkCallbacks None None None None (fun _ _ => false).
Definition server0 : WsServer unit := WsServer_init tt.
Definition server1 : WsServer unit := onUpgrade quiet None 0 65536 false server0.
Definition server2 : WsServer unit := onUpgrade quiet None 1 65536 false server1.
Definition server3 : WsServer unit := default server0 (read quiet 0 None server2).

Lemma server2_reachable : rtc (ws_step quiet None) server0 server2.
Proof.
  eapply rtc_l; [split; [apply (step_upgrade quiet None server0 0 65536 false); [done|set_solver]|reflexivity]|].
  apply rtc_once. split; [|reflexivity]. apply (step_upgrade quiet None server1 1 65536 false); [done|].
  intros e. vm_compute. intros Hin. inversion Hin as [|? ? ? H1]; subst; inversion H1.
Qed.

Lemma registry_is_open_sessions_witness :
  rtc (ws_step quiet None) server0 server3 /\ m_owner (world server3) = [1%nat] /\
  NoDup (m_owner (world server3)) /\
  (forall i, i ∈ m_owner (world server3) <-> readyState <$> sessions (world server3) !! i = Some OPEN) /\
  (forall i, i ∈ m_owner (world server3) -> (i, Uv_close) ∉ log (world server3)).
Proof.
  assert (rtc (ws_step quiet None) server0 server3) as Hs.
  { eapply rtc_r; [apply server2_reachable|]. split; [by apply (step_read _ _ _ _ 0 None)|reflexivity]. }
  split; [exact Hs|]. split; [reflexivity|]. exact (registry_is_open_sessions quiet None tt server3 Hs).
Defined.

Lemma read_never_stuck_witness : exists s',
  read quiet 1 (Some hello_frame) server2 = Some s' /\
    (ws_step quiet None server2 s' \/
     Some hello_frame <> None /\ faulted (world s') = true /\ readyState <$> sessions (world s') !! 1%nat = Some CLOSED).
Proof. apply (read_never_stuck quiet None tt server2 1 (Some hello_frame)); [apply server2_reachable|reflexivity]. Defined.
