(* ===== verification/WsKnown.v ===== *)
(** * Effects of the WebSocket server concern its sessions

    Every effect a reachable [WsServer] asks for is on a session that was handed over
    to it: what lets the connections of the two servers be told apart. *)

From S2P Require Import Prelude WsParser WsCodec WsMember WsSession WsServer.
From stdpp Require Import gmap.
#[local] Open Scope Z_scope.

(** ** The operations *)

Section Grows.
Context {Ow A : Type} `{WsOwner Ow} (cbs : Callbacks A).
Implicit Types (w : World Ow A) (i self : nat).

Definition has_session w i : Prop := is_Some (sessions w !! i).

(** The same sessions, and new effects on them only. *)
Record grows w w' : Prop := mkGrows {
  gr_sessions : forall i, has_session w' i <-> has_session w i;
  gr_log : forall i e, (i, e) ∈ log w' -> (i, e) ∈ log w \/ has_session w i;
  }.

#[export] Instance grows_preorder : PreOrder grows.
Proof.
  split; [by split; [|left]|]. intros w1 w2 w3 [Hs1 Hl1] [Hs2 Hl2]. split.
  - intros i. by rewrite Hs2.
  - intros i e [Hin|Hi]%Hl2; [by apply Hl1|]. right. by apply Hs1.
Qed.

Lemma grows_emit i e w : has_session w i -> grows w (emit i e w).
Proof.
  intros Hi. split; [done|]. intros j e'. cbn. rewrite elem_of_app, list_elem_of_singleton.
  intros [?|[= -> ->]]; [by left|by right].
Qed.
Lemma grows_upd i f w : grows w (upd_session i f w).
Proof. split; [|by left]. intros j. unfold has_session. cbn. apply lookup_alter_is_Some. Qed.
Lemma grows_send i bufs n op w : has_session w i -> grows w (inter_send i bufs n op w).
Proof.
  intros Hi. destruct (grows_emit i (Uv_write (next_ctx w) (frame_header op n :: bufs))
    (mkWorld (sessions w) (m_owner w) (app_state w) (S (next_ctx w)) (log w)) Hi). by split.
Qed.
Lemma grows_app a w : grows w (set_app a w).
Proof. by split; [|left]. Qed.
Lemma grows_owner o w : grows w (set_owner o w).
Proof. by split; [|left]. Qed.

Lemma grows_go_on (f : World Ow A -> World Ow A) w : grows w (f w) -> grows w (go_on f w).
Proof. unfold go_on. by destruct (faulted w). Qed.
Lemma grows_in_session self (f : World Ow A -> World Ow A) w :
  has_session w self -> grows w (f w) -> grows w (in_session cbs self f w).
Proof. intros Hs Hf. apply grows_go_on. case_match; [by apply grows_emit|done]. Qed.

Lemma grows_do_calls (ic : nat -> World Ow A -> option (World Ow A)) cs :
  (forall i w w', has_session w i -> ic i w = Some w' -> grows w w') ->
  forall w w', do_calls ic cs w = Some w' -> grows w w'.
Proof.
  intros Hic. induction cs as [|[i c] cs IH]; cbn [do_calls]; intros w w'; [by intros [= ->]|].
  destruct (faulted w); [by intros [= ->]|].
  destruct (do_call ic (i, c) w) as [w1|] eqn:E; [|done]. intros Hw'%IH. etrans; [|exact Hw'].
  revert E. unfold do_call. cbn [fst]. destruct (sessions w !! i) as [x|] eqn:Ex; [|by intros [= ->]].
  assert (has_session w i) as Hi by (by exists x).
  destruct c; [intros [= <-]; by apply grows_send|intros [= <-]; by apply grows_emit|].
  destruct (is_closed i w); [by intros [= ->]|by apply Hic].
Qed.

Lemma grows_callback_with ic {X} (cb : handler A X) e self (x : X) w w' :
  (forall i w w', has_session w i -> ic i w = Some w' -> grows w w') ->
  has_session w self -> WS_CALLBACK ic cb e self x w = Some w' -> grows w w'.
Proof.
  intros Hic Hself. unfold WS_CALLBACK. destruct cb as [f|]; [|by intros [= ->]]. destruct (f self x (app_state w)) as [a cs].
  intros Hw'%grows_do_calls; [|done]. etrans; [by apply (grows_emit self e)|]. etrans; [apply (grows_app a)|done].
Qed.

Lemma grows_inter_close_fuel fuel : forall self w w', has_session w self ->
  inter_close_fuel cbs fuel self w = Some w' -> grows w w'.
Proof.
  induction fuel as [|fuel IH]; intros self w w' Hself; [done|]. cbn [inter_close_fuel]. set (w1 := emit self Uv_read_stop _).
  assert (grows w w1) as H1.
  { pose proof (grows_upd self (set_readyState CLOSED) w) as H0. apply (gr_sessions _ _ H0) in Hself.
    etrans; [exact H0|]. by apply grows_emit. }
  destruct (uv_is_closing self w1).
  { intros [= <-]. etrans; [exact H1|]. by apply grows_emit, (gr_sessions _ _ H1). }
  destruct (WS_CALLBACK _ _ _ _ _ _) as [w2|] eqn:E; [|done]. intros [= <-].
  assert (grows w (emit self Uv_close w1)) as H2 by (etrans; [exact H1|]; by apply grows_emit, (gr_sessions _ _ H1)).
  apply grows_callback_with in E; [|exact IH|by apply (gr_sessions _ _ H2)].
  etrans; [exact H2|]. etrans; [exact E|]. apply grows_go_on. apply grows_owner.
Qed.

Lemma grows_inter_close self w : has_session w self -> grows w (inter_close cbs self w).
Proof.
  intros Hself. unfold inter_close. destruct (inter_close_fuel _ _ _ _) as [w'|] eqn:E; [|done].
  by apply grows_inter_close_fuel in E.
Qed.

Lemma grows_close self w : grows w (close cbs self w).
Proof.
  unfold close. destruct (is_closed self w) eqn:E; [done|]. apply grows_inter_close.
  unfold is_closed in E. unfold has_session. by destruct (sessions w !! self).
Qed.

Lemma grows_callback {X} (cb : handler A X) e self (x : X) w : has_session w self -> grows w (callback cbs cb e self x w).
Proof.
  intros Hself. unfold callback. destruct (WS_CALLBACK _ _ _ _ _ _) as [w'|] eqn:E; [|done].
  apply grows_callback_with in E; [done| |done]. intros i w1 w2 Hi [= <-]. by apply grows_inter_close.
Qed.

(** Chains of operations on one session. *)
Lemma grows_then self w w1 w2 : has_session w self -> grows w w1 -> (has_session w1 self -> grows w1 w2) -> grows w w2.
Proof. intros Hself H1 H2. etrans; [exact H1|]. by apply H2, (gr_sessions _ _ H1). Qed.

Lemma grows_closing self w w1 : has_session w self -> grows w w1 -> grows w (in_session cbs self (inter_close cbs self) w1).
Proof.
  intros Hself H1. eapply grows_then; [done|exact H1|]. intros Hs. apply grows_in_session; [done|by apply grows_inter_close].
Qed.

Lemma grows_handle self f w : has_session w self -> grows w (handleWsFrame cbs self f w).
Proof.
  intros Hself. unfold handleWsFrame. repeat case_match;
    [|done|by apply grows_send|by apply grows_inter_close|by apply grows_callback].
  apply grows_closing; [done|]. by apply grows_callback.
Qed.

Lemma grows_recv self data st st' : has_session (ps st) self -> recv_cb cbs self data st = Some st' -> grows (ps st) (ps st').
Proof.
  intros Hself. destruct data as [data|]; cbn [recv_cb]; [|intros [= <-]; by apply grows_inter_close].
  case_bool_decide; [|by intros [= <-]]. unfold handleMessage.
  destruct (parse_member _ _ st data) as [o|] eqn:E; [|done].
  assert (grows (ps st) (ps (outcome_st o))) as H1.
  { eapply (parse_member_preserves _ _ (grows (ps st))); [|done|exact E]. intros f x _ Hx.
    eapply grows_then; [done|exact Hx|apply grows_handle]. }
  destruct o as [err st1|st1]; cbn [outcome_st] in H1; intros [= <-]; cbn [ps].
  2: { eapply grows_then; [done|exact H1|]. intros Hs. by apply grows_in_session. }
  case_bool_decide; [done|]. cbn [ps]. apply grows_closing; [done|]. eapply grows_then; [done|exact H1|]. apply grows_callback.
Qed.

Lemma grows_write_cb self ctx status w : has_session w self -> grows w (write_cb cbs self ctx status w).
Proof.
  intros Hself. unfold write_cb. case_match; [|by apply grows_go_on, grows_emit].
  eapply grows_then; [done| |intros Hs; by apply grows_go_on, grows_emit].
  eapply (grows_then self w (callback cbs (m_onErrorCb cbs) (On_error Err_send) self Err_send w)); [done|by apply grows_callback|].
  intros Hs. apply grows_go_on. eapply grows_then; [done|by apply (grows_emit self (Delete_ctx ctx))|]. apply grows_inter_close.
Qed.

Lemma grows_connect self w : has_session w self -> grows w (connect cbs self w).
Proof.
  intros Hself. unfold connect. eapply grows_then; [done| |apply grows_callback]. etrans; [|apply grows_upd].
  eapply grows_then; [done| |apply grows_emit]. apply grows_upd.
Qed.
End Grows.

(** ** The server *)

Section Known.
Context {A : Type} (cbs : Callbacks A) (onConnectCb : handler A unit).
Implicit Types (s : WsServer A) (i self : nat).

Definition log_known s : Prop := forall i e, (i, e) ∈ log (world s) -> has_session (world s) i.

Lemma known_grows s w p : log_known s -> grows (world s) w -> log_known (mkWsServer w p).
Proof. intros Hs [H1 H2] i e [Hin|Hi]%H2; cbn; apply H1; [by eapply Hs|done]. Qed.

Lemma upgrade_sessions self n b s i :
  has_session (world (onUpgrade cbs onConnectCb self n b s)) i <-> i = self \/ has_session (world s) i.
Proof.
  unfold onUpgrade. cbn [world]. set (w1 := mkWorld _ _ _ _ _).
  assert (has_session w1 self) as H1 by (unfold has_session, w1; cbn; by rewrite lookup_insert_eq).
  assert (grows w1 (go_on (connect cbs self) (callback cbs onConnectCb On_connect self tt w1))) as Hg.
  { eapply grows_then; [done|by apply grows_callback|]. intros Hs1. by apply grows_go_on, grows_connect. }
  rewrite (gr_sessions _ _ Hg). unfold has_session, w1. cbn. rewrite lookup_insert.
  case_decide; subst; [by split; [left|]|]. split; [by right|]. by intros [?|].
Qed.

Lemma known_upgrade self n b s : log_known s -> log_known (onUpgrade cbs onConnectCb self n b s).
Proof.
  intros Hs i e. rewrite upgrade_sessions. unfold onUpgrade. cbn [world]. set (w1 := mkWorld _ _ _ _ _).
  assert (has_session w1 self) as H1 by (unfold has_session, w1; cbn; by rewrite lookup_insert_eq).
  assert (grows w1 (go_on (connect cbs self) (callback cbs onConnectCb On_connect self tt w1))) as Hg.
  { eapply grows_then; [done|by apply grows_callback|]. intros Hs1. by apply grows_go_on, grows_connect. }
  intros [Hin|Hi]%(gr_log _ _ Hg); [right; by eapply Hs|]. revert Hi. unfold has_session, w1. cbn. rewrite lookup_insert.
  case_decide; [by left|by right].
Qed.

(** Every event but an upgrade. *)
Lemma step_grows s s' : ws_step cbs onConnectCb s s' -> log_known s ->
  grows (world s) (world s') \/ exists self n b, s' = onUpgrade cbs onConnectCb self n b s.
Proof.
  intros [Hstep _] Hs. destruct Hstep as [s self n b _ _|s s' self data Hopen Hread|s self n w Hw|s self ctx bufs status Hin
    |s self path bufs n Hin|s self path Hin|s self str Hself|s self]; [right; by eexists _, _, _|left..].
  - assert (has_session (world s) self) as Hself by (unfold has_session; by destruct (sessions _ !! self)).
    unfold read in Hread. destruct (parsers s !! self) as [[p f]|]; [|done].
    destruct (recv_cb _ _ _ _) as [st|] eqn:E; [|done]. injection Hread as <-.
    by apply (grows_recv cbs self data _ st) in E.
  - unfold recv_alloc_cb in Hw. destruct (sessions (world s) !! self) as [x|]; [|done].
    destruct (alloc_loop _ _ _); [|done]. injection Hw as <-. apply grows_upd.
  - apply grows_write_cb. by eapply Hs.
  - apply grows_send. by eapply Hs.
  - apply grows_emit. by eapply Hs.
  - by apply grows_send.
  - apply grows_close.
Qed.

Lemma known_step s s' : ws_step cbs onConnectCb s s' -> log_known s -> log_known s'.
Proof.
  intros Hstep Hs. destruct (step_grows _ _ Hstep Hs) as [Hg|(self & n & b & ->)]; [|by apply known_upgrade].
  destruct s' as [w p]. by apply (known_grows s).
Qed.
End Known.
