(* ===== verification/HttpReq.v ===== *)
(** * Requests (src/core/httpReq.h, src/core/httpReq.cpp)

    The request record and the query parameters [query] extracts from the URL. *)

From S2P Require Import Prelude HttpTypes.
From stdpp Require Import gmap.
#[local] Open Scope Z_scope.

(** ** Strings as C++ searches them *)

(** [find(c, 0)]: the first position of [c], [None] for [npos]. *)
Fixpoint find_char (c : Z) (s : bytes) : option nat :=
  match s with
  | [] => None
  | x :: s' => if x =? c then Some O else S <$> find_char c s'
  end.
(** [find(c, pos)] *)
Definition find_from (c : Z) (s : bytes) (pos : nat) : option nat :=
  (fun i => (pos + i)%nat) <$> find_char c (drop pos s).
(** [substr(pos, count)] for [pos <= size]. *)
Definition substr (s : bytes) (pos count : nat) : bytes := take count (drop pos s).

(** ** The request *)

Abbreviation strmap := (gmap bytes bytes).

Record httpReq := mkReq {
    url : bytes;
    headers : strmap;
    body : bytes;
    method : http_method;
    version : bytes;
    params : strmap;
    is_queryParams_parsed : bool;
    ip : bytes;
    port : Z;
    queryParams : strmap;
  }.

(** A default-constructed request ([method] and [port] have no initialiser: they
    hold [m] and [p]). *)
Definition httpReq_init (m : http_method) (p : Z) : httpReq := mkReq [] ∅ [] m [] ∅ false [] p ∅.

Definition set_url (v : bytes) (r : httpReq) : httpReq :=
  mkReq v (headers r) (body r) (method r) (version r) (params r) (is_queryParams_parsed r) (ip r) (port r) (queryParams r).
Definition set_headers (v : strmap) (r : httpReq) : httpReq :=
  mkReq (url r) v (body r) (method r) (version r) (params r) (is_queryParams_parsed r) (ip r) (port r) (queryParams r).
Definition set_body (v : bytes) (r : httpReq) : httpReq :=
  mkReq (url r) (headers r) v (method r) (version r) (params r) (is_queryParams_parsed r) (ip r) (port r) (queryParams r).
Definition set_method (v : http_method) (r : httpReq) : httpReq :=
  mkReq (url r) (headers r) (body r) v (version r) (params r) (is_queryParams_parsed r) (ip r) (port r) (queryParams r).
Definition set_version (v : bytes) (r : httpReq) : httpReq :=
  mkReq (url r) (headers r) (body r) (method r) v (params r) (is_queryParams_parsed r) (ip r) (port r) (queryParams r).
Definition set_params (v : strmap) (r : httpReq) : httpReq :=
  mkReq (url r) (headers r) (body r) (method r) (version r) v (is_queryParams_parsed r) (ip r) (port r) (queryParams r).
Definition set_parsed (v : bool) (r : httpReq) : httpReq :=
  mkReq (url r) (headers r) (body r) (method r) (version r) (params r) v (ip r) (port r) (queryParams r).
Definition set_peer (i : bytes) (p : Z) (r : httpReq) : httpReq :=
  mkReq (url r) (headers r) (body r) (method r) (version r) (params r) (is_queryParams_parsed r) i p (queryParams r).
Definition set_queryParams (v : strmap) (r : httpReq) : httpReq :=
  mkReq (url r) (headers r) (body r) (method r) (version r) (params r) (is_queryParams_parsed r) (ip r) (port r) v.

(** ** [urlDecode] *)

(** One pair [key=value]; a key alone has an empty value, an empty key is ignored. *)
Definition add_pair (pair_str : bytes) (m : strmap) : strmap :=
  let '(key, value) :=
    match find_char "="%chr pair_str with
    | None => (pair_str, [])
    | Some eq => (substr pair_str 0 eq, substr pair_str (eq + 1) (length pair_str - eq - 1))
    end in
  match key with [] => m | _ => <[key := value]> m end.

(** The [while (pos < str.size())] loop; every round moves [pos] forward. *)
Fixpoint urlDecode_loop (fuel : nat) (str : bytes) (pos : nat) (m : strmap) : option strmap :=
  if (pos <? length str)%nat then
    match fuel with
    | O => None
    | S fuel' =>
        let end_ := default (length str) (find_from "&"%chr str pos) in
        urlDecode_loop fuel' str (end_ + 1) (add_pair (substr str pos (end_ - pos)) m)
    end
  else Some m.

Definition urlDecode (str : bytes) (m : strmap) : option strmap :=
  let pos := match find_char "?"%chr str with None => length str | Some pos => (pos + 1)%nat end in
  urlDecode_loop (length str) str pos m.

Definition query (r : httpReq) : option (strmap * httpReq) :=
  if is_queryParams_parsed r then Some (queryParams r, r)
  else
    match urlDecode (url r) ∅ with
    | Some m => Some (m, set_parsed true (set_queryParams m r))
    | None => None
    end.

(** [set_ip], [peer] being what [uv_tcp_getpeername] and [uv_ip4_name] or
    [uv_ip6_name] give, if the socket has a peer of one of these families
    ([Some ([], 0)] stands for another family). *)
Definition set_ip (peer : option (bytes * Z)) (r : httpReq) : httpReq :=
  match peer with
  | Some (i, p) => set_peer i p r
  | None => set_peer [] 0 r
  end.

(** ** The reference: split at the separators *)

(** What comes before the first [c] (everything when there is none), and what follows it
    (nothing when there is none). *)
Fixpoint before_first (c : Z) (s : bytes) : bytes :=
  match s with [] => [] | x :: s' => if x =? c then [] else x :: before_first c s' end.
Fixpoint after_first (c : Z) (s : bytes) : bytes :=
  match s with [] => [] | x :: s' => if x =? c then s' else after_first c s' end.

(** A piece is a key, an equals sign and a value; without a key it counts for nothing. *)
Definition bind_piece (m : strmap) (piece : bytes) : strmap :=
  match before_first "="%chr piece with [] => m | key => <[key := after_first "="%chr piece]> m end.

Definition query_spec (u : bytes) : strmap :=
  fold_left bind_piece (split_on "&"%chr (after_first "?"%chr u)) ∅.

(** ** Searching *)

Lemma find_char_None c s : find_char c s = None <-> c ∉ s.
Proof.
  induction s as [|x s IH]; cbn [find_char]; [split; [intros; apply not_elem_of_nil|done]|].
  rewrite not_elem_of_cons. destruct (x =? c) eqn:E; bool_to_prop.
  - split; [done|]. intros [? _]. congruence.
  - rewrite fmap_None, IH. split; [intros Hs; split; [congruence|done]|by intros [_ ?]].
Qed.

Lemma split_on_cut c s i :
  find_char c s = Some i -> split_on c s = take i s :: split_on c (drop (S i) s).
Proof.
  revert i. induction s as [|x s IH]; intros i; cbn; [done|].
  destruct (x =? c) eqn:E; [by intros [= <-]|].
  destruct (find_char c s) as [j|] eqn:Ej; [|done]. cbn. intros [= <-]. by rewrite (IH j eq_refl).
Qed.

Lemma split_on_whole c s : find_char c s = None -> split_on c s = [s].
Proof.
  induction s as [|x s IH]; cbn; [done|]. destruct (x =? c); [done|].
  destruct (find_char c s); [done|]. intros _. by rewrite IH.
Qed.

Lemma first_found c s i :
  find_char c s = Some i -> before_first c s = take i s /\ after_first c s = drop (S i) s.
Proof.
  revert i. induction s as [|x s IH]; intros i; cbn; [done|].
  destruct (x =? c); [by intros [= <-]|]. destruct (find_char c s) as [j|]; [|done].
  cbn. intros [= <-]. by destruct (IH j eq_refl) as [-> ->].
Qed.

Lemma first_missing c s : find_char c s = None -> before_first c s = s /\ after_first c s = [].
Proof.
  induction s as [|x s IH]; cbn; [done|]. destruct (x =? c); [done|].
  destruct (find_char c s); [done|]. intros _. by destruct IH as [-> ->].
Qed.

Lemma add_pair_piece p m : add_pair p m = bind_piece m p.
Proof.
  unfold add_pair, bind_piece, substr. destruct (find_char _ p) as [i|] eqn:E.
  - destruct (first_found _ _ _ E) as [-> ->]. rewrite drop_0, Nat.add_1_r.
    rewrite (take_ge (drop (S i) p)) by (rewrite length_drop; lia). by destruct (take i p).
  - destruct (first_missing _ _ E) as [-> ->]. by destruct p.
Qed.

Lemma add_pair_empty m : add_pair [] m = m.
Proof. done. Qed.

(** The index loop visits the pieces in order. *)
Lemma urlDecode_loop_split fuel str pos m :
  (length str - pos <= fuel)%nat ->
  urlDecode_loop fuel str pos m = Some (fold_left bind_piece (split_on "&"%chr (drop pos str)) m).
Proof.
  revert pos m. induction fuel as [|fuel IH]; intros pos m Hf; cbn [urlDecode_loop]; rewrite ?add_pair_piece.
  all: destruct (Nat.ltb_spec pos (length str)) as [Hlt|Hge]; [|by rewrite drop_ge by done].
  - lia.
  - unfold find_from. destruct (find_char _ (drop pos str)) as [i|] eqn:E; cbn.
    + rewrite (split_on_cut _ _ _ E), drop_drop. cbn [fold_left]. rewrite IH by lia.
      unfold substr. by replace (pos + i - pos)%nat with i by lia; replace (pos + S i)%nat with (pos + i + 1)%nat by lia.
    + rewrite (split_on_whole _ _ E). cbn [fold_left]. rewrite IH by lia. rewrite (drop_ge str (length str + 1)%nat) by lia. cbn.
      unfold substr. by rewrite take_ge by (rewrite length_drop; lia).
Qed.

Lemma urlDecode_spec u m :
  urlDecode u m = Some (fold_left bind_piece (split_on "&"%chr (after_first "?"%chr u)) m).
Proof.
  unfold urlDecode. destruct (find_char _ u) as [i|] eqn:E.
  - destruct (first_found _ _ _ E) as [_ ->]. rewrite urlDecode_loop_split by lia. by rewrite Nat.add_1_r.
  - destruct (first_missing _ _ E) as [_ ->]. rewrite urlDecode_loop_split by lia. by rewrite drop_ge.
Qed.

(** C31. [query] returns, for any URL, exactly the parameters of the reference:
    the part after the first question mark cut at each ampersand, each piece cut
    at its first equals sign, later keys overriding earlier ones; and the second
    call gives the same map without parsing again. *)
Theorem query_correct (r : httpReq) (Hfresh : is_queryParams_parsed r = false) :
  exists r', query r = Some (query_spec (url r), r') /\ query r' = Some (query_spec (url r), r') /\
    url r' = url r /\ headers r' = headers r /\ body r' = body r.
Proof.
  unfold query. rewrite Hfresh, urlDecode_spec. eexists. split; [done|]. done.
Qed.

(** ** Round trip *)

Definition pair_str (kv : bytes * bytes) : bytes := fst kv ++ "="%chr :: snd kv.
Fixpoint query_string (kvs : list (bytes * bytes)) : bytes :=
  match kvs with
  | [] => []
  | [kv] => pair_str kv
  | kv :: kvs' => pair_str kv ++ "&"%chr :: query_string kvs'
  end.

Definition pair_ok (kv : bytes * bytes) : Prop :=
  fst kv <> [] /\ ("="%chr ∉ fst kv) /\ ("&"%chr ∉ fst kv) /\ ("&"%chr ∉ snd kv).

Lemma find_char_app c s s' : c ∉ s -> find_char c (s ++ c :: s') = Some (length s).
Proof.
  induction s as [|x s IH]; cbn; intros Hc; [by rewrite Z.eqb_refl|].
  apply not_elem_of_cons in Hc as [Hx Hs]. destruct (x =? c) eqn:E; bool_to_prop; [congruence|].
  by rewrite IH.
Qed.

Lemma add_pair_str kv m : pair_ok kv -> add_pair (pair_str kv) m = <[fst kv := snd kv]> m.
Proof.
  destruct kv as [k v]. intros (Hk & He & _). cbn in *. unfold add_pair, pair_str. cbn [fst snd].
  rewrite find_char_app by done. unfold substr. rewrite drop_0, take_app_length.
  rewrite drop_app_add, length_app. cbn [length drop]. rewrite drop_0, take_ge; [by destruct k|rewrite ?length_app; cbn; lia].
Qed.

Lemma find_char_notin c s : c ∉ s -> find_char c s = None.
Proof. by rewrite find_char_None. Qed.

Lemma pair_str_amp kv : pair_ok kv -> "&"%chr ∉ pair_str kv.
Proof.
  intros (_ & _ & Hk & Hv). unfold pair_str. rewrite elem_of_app, elem_of_cons. intros [?|[?|?]]; done.
Qed.

Lemma split_query_string kvs :
  kvs <> [] -> Forall pair_ok kvs -> split_on "&"%chr (query_string kvs) = pair_str <$> kvs.
Proof.
  intros Hne Hok. induction Hok as [|kv kvs Hkv Hkvs IH]; [done|].
  destruct kvs as [|kv' kvs].
  - cbn [query_string fmap list_fmap]. by rewrite split_on_whole by (by apply find_char_notin, pair_str_amp).
  - change (query_string (kv :: kv' :: kvs)) with (pair_str kv ++ "&"%chr :: query_string (kv' :: kvs)).
    rewrite (split_on_cut _ _ (length (pair_str kv))) by (by apply find_char_app, pair_str_amp).
    rewrite take_app_length, <- Nat.add_1_r, drop_app_add. cbn [drop]. by rewrite drop_0, IH.
Qed.

(** Round trip: a query string built from keys and values that contain no
    separator gives back those keys and values; the last value of a repeated key
    wins. *)
Theorem query_roundtrip (path : bytes) (kvs : list (bytes * bytes)) (r : httpReq)
    (Hpath : "?"%chr ∉ path) (Hne : kvs <> []) (Hkvs : Forall pair_ok kvs)
    (Hr : is_queryParams_parsed r = false) (Hurl : url r = path ++ "?"%chr :: query_string kvs) :
  exists r', query r = Some (list_to_map (reverse kvs), r').
Proof.
  unfold query. rewrite Hr, urlDecode_spec, Hurl.
  destruct (first_found "?"%chr (path ++ "?"%chr :: query_string kvs) (length path)) as [_ ->]; [by apply find_char_app|].
  rewrite <- Nat.add_1_r, drop_app_add. cbn [drop]. rewrite drop_0, split_query_string by done.
  eexists. do 2 f_equal. clear Hne Hurl.
  assert (forall m, fold_left bind_piece (pair_str <$> kvs) m =
                    foldr (fun kv m => <[fst kv := snd kv]> m) m (reverse kvs)) as Hfold.
  { induction Hkvs as [|kv kvs Hkv Hkvs IH]; intros m; cbn [fold_left fmap list_fmap]; [done|].
    rewrite <- add_pair_piece, add_pair_str, reverse_cons, foldr_app by done. by rewrite IH. }
  by rewrite Hfold.
Qed.

Lemma query_correct_witness : exists r',
  let r := set_url (bs "/a?x=1&y&x=2") (httpReq_init HTTP_GET 0) in
  query r = Some (query_spec (url r), r') /\ query r' = Some (query_spec (url r), r') /\
  url r' = url r /\ headers r' = headers r /\ body r' = body r.
Proof. apply (query_correct (set_url (bs "/a?x=1&y&x=2") (httpReq_init HTTP_GET 0))). reflexivity. Defined.

Example query_values :
  query_spec (bs "/a?x=1&y&x=2&=3&") = {[ bs "x" := bs "2"; bs "y" := [] ]}.
Proof. vm_compute. reflexivity. Qed.

Lemma query_roundtrip_witness : exists r',
  query (set_url (bs "/a?x=1&y=2") (httpReq_init HTTP_GET 0)) =
  Some (list_to_map (reverse [(bs "x", bs "1"); (bs "y", bs "2")]), r').
Proof.
  apply (query_roundtrip (bs "/a") [(bs "x", bs "1"); (bs "y", bs "2")]); try done.
  - rewrite <- find_char_None. reflexivity.
  - repeat constructor; try done; rewrite <- find_char_None; reflexivity.
Defined.
