(* ===== verification/HttpRouter.v ===== *)
(** * Routing (src/core/httpRouter.h, src/core/httpRouter.cpp)

    [addRoute], [dispatch] and the translation of path templates.  Regular
    expressions of the C++ library are reached through the class [RegexEngine];
    [mini_regex] is a backtracking matcher for the part of ECMAScript's syntax that
    the templates of the repository use. *)

From S2P Require Import Prelude HttpTypes HttpReq.
From stdpp Require Import gmap.
#[local] Open Scope Z_scope.

(** ** Regular expressions *)

(** What the router uses of [std::regex]: construction from a string ([None] is the
    exception [std::regex_error]) and [regex_match] with its groups. *)
Class RegexEngine := {
    regex : Type;
    regex_compile : bytes -> option regex;
    regex_match : regex -> bytes -> option (list bytes);
  }.

(** ** Templates: [parse_path_to_regex] *)

(** [\w] *)
Definition is_word (c : Z) : bool :=
  (("a"%chr <=? c) && (c <=? "z"%chr)) || (("A"%chr <=? c) && (c <=? "Z"%chr)) ||
  (("0"%chr <=? c) && (c <=? "9"%chr)) || (c =? "_"%chr).

Fixpoint span (f : Z -> bool) (s : bytes) : bytes * bytes :=
  match s with
  | [] => ([], [])
  | c :: s' => if f c then let '(w, r) := span f s' in (c :: w, r) else ([], s)
  end.

(** A match of [:(\w+)] at the front: the name and what follows. *)
Definition match_param (s : bytes) : option (bytes * bytes) :=
  match s with
  | c :: s' => if c =? ":"%chr then match span is_word s' with ([], _) => None | wr => Some wr end else None
  | [] => None
  end.

(** The lazy [(.+?)\)]: at least one character that is not a line end, up to the first
    parenthesis after it. *)
Fixpoint lazy_close (s : bytes) : option (bytes * bytes) :=
  match s with
  | [] => None
  | c :: s' =>
      if c =? ")"%chr then Some ([], s')
      else if (c =? LF) || (c =? CR) then None
      else match lazy_close s' with Some (x, r) => Some (c :: x, r) | None => None end
  end.
Definition match_param_with_regex (s : bytes) : option (bytes * bytes) :=
  match match_param s with
  | Some (_, p :: c :: s') =>
      if (p =? "("%chr) && negb ((c =? LF) || (c =? CR))
      then match lazy_close s' with Some (x, r) => Some (c :: x, r) | None => None end
      else None
  | _ => None
  end.

(** The matches of [sregex_iterator], and [regex_replace]; every match is at least
    two characters long, so the length of the string is enough fuel. *)
Fixpoint param_names (fuel : nat) (s : bytes) : list bytes :=
  match fuel, s with
  | S fuel', _ :: s' =>
      match match_param s with Some (w, r) => w :: param_names fuel' r | None => param_names fuel' s' end
  | _, _ => []
  end.
Fixpoint replace (m : bytes -> option (bytes * bytes)) (out : bytes -> bytes) (fuel : nat) (s : bytes) : bytes :=
  match fuel, s with
  | S fuel', c :: s' =>
      match m s with Some (w, r) => out w ++ replace m out fuel' r | None => c :: replace m out fuel' s' end
  | _, _ => s
  end.

Definition parse_path_to_regex (path_template : bytes) : bytes * list bytes :=
  let names := param_names (length path_template) path_template in
  let s := replace match_param_with_regex (fun x => bs "(" ++ x ++ bs ")") (length path_template) path_template in
  let s := replace match_param (fun _ => bs "([^/]+)") (length s) s in
  (bs "^" ++ s ++ bs "$", names).

(** ** The router *)

Section Router.
Context `{RegexEngine} {Handler : Type}.

Record Route := mkRoute {
  pattern : regex;
  handler : Handler;
  paramNames : list bytes;
  }.

(** [routes]: the routes of a method in the order they were added; [None] while the
  map has no entry for it. *)
Definition httpRouter : Type := http_method -> option (list Route).
Definition httpRouter_init : httpRouter := fun _ => None.

Definition addRoute (m : http_method) (pattern_template : bytes) (h : Handler) (routes : httpRouter) : httpRouter :=
  let '(regex_str, names) := parse_path_to_regex pattern_template in
  match regex_compile regex_str with
  | None => routes
  | Some r => fun m' =>
      if decide (m' = m) then Some (default [] (routes m) ++ [mkRoute r h names]) else routes m'
  end.

(** The loop from [i = 1] below [min(match_results.size(), paramNames.size())];
  [groups] are [match_results[1]] and on, so [match_results] has one more. *)
Fixpoint set_params_loop (fuel i : nat) (names groups : list bytes) (ps : strmap) : strmap :=
  match fuel with
  | O => ps
  | S fuel' =>
      if (i <? Nat.min (S (length groups)) (length names))%nat
      then set_params_loop fuel' (S i) names groups (<[nth (i - 1) names [] := nth (i - 1) groups []]> ps)
      else ps
  end.

Fixpoint first_match (routes : list Route) (path : bytes) : option (Route * list bytes) :=
  match routes with
  | [] => None
  | r :: routes' =>
      match regex_match (pattern r) path with
      | Some groups => Some (r, groups)
      | None => first_match routes' path
      end
  end.

Definition path_of (u : bytes) : bytes :=
  match find_char "?"%chr u with None => u | Some pos => take pos u end.

Definition dispatch (routes : httpRouter) (req : httpReq) : option Handler * httpReq :=
  match routes (method req) with
  | None => (None, req)
  | Some method_routes =>
      match first_match method_routes (path_of (url req)) with
      | Some (route, groups) =>
          (Some (handler route),
           set_params (set_params_loop (length (paramNames route)) 1 (paramNames route) groups (params req)) req)
      | None => (None, set_params ∅ req)
      end
  end.
End Router.
Arguments Route {_} _.
Arguments httpRouter {_} _.

(** ** A matcher for simple expressions *)

(** A set of characters: ranges, possibly negated. *)
Record charset := mkCharset { cs_neg : bool; cs_ranges : list (Z * Z) }.
Definition in_charset (cs : charset) (c : Z) : bool :=
  xorb (cs_neg cs) (existsb (fun r => (fst r <=? c) && (c <=? snd r)) (cs_ranges cs)).

Inductive quantifier := One | Star | Plus.
Inductive re_item := Item (cs : charset) (q : quantifier).
Inductive re_node := Plain (i : re_item) | Group (its : list re_item).

(** Greedy repetition: as many characters as possible first. *)
Fixpoint match_star {X} (cs : charset) (s : bytes) (k : bytes -> option X) : option X :=
  match s with
  | c :: s' =>
      if in_charset cs c
      then match match_star cs s' k with Some x => Some x | None => k s end
      else k s
  | [] => k s
  end.
Definition match_item {X} (i : re_item) (s : bytes) (k : bytes -> option X) : option X :=
  let 'Item cs q := i in
  match q, s with
  | Star, _ => match_star cs s k
  | _, [] => None
  | One, c :: s' => if in_charset cs c then k s' else None
  | Plus, c :: s' => if in_charset cs c then match_star cs s' k else None
  end.
Fixpoint match_items {X} (its : list re_item) (s : bytes) (k : bytes -> option X) : option X :=
  match its with
  | [] => k s
  | i :: its' => match_item i s (fun s' => match_items its' s' k)
  end.
(** The whole string must match; the groups in order. *)
Fixpoint match_nodes (ns : list re_node) (s : bytes) : option (list bytes) :=
  match ns with
  | [] => match s with [] => Some [] | _ => None end
  | Plain i :: ns' => match_item i s (match_nodes ns')
  | Group its :: ns' =>
      match_items its s (fun r => cons (take (length s - length r) s) <$> match_nodes ns' r)
  end.

Definition special (c : Z) : bool := existsb (Z.eqb c) (bs "^$\.*+?()[]{}|").
Definition digits : list (Z * Z) := [("0"%chr, "9"%chr)].
Definition words : list (Z * Z) := [("a"%chr, "z"%chr); ("A"%chr, "Z"%chr); ("0"%chr, "9"%chr); ("_"%chr, "_"%chr)].

(** The ranges of a bracket expression after its [^], up to its [\]]. *)
Fixpoint parse_class (fuel : nat) (s : bytes) : option (list (Z * Z) * bytes) :=
  match fuel, s with
  | S fuel', c :: s' =>
      if c =? "]"%chr then Some ([], s')
      else if (c =? "\"%chr) || (c =? "["%chr) then None
      else match s' with
           | d :: e :: s'' =>
               if (d =? "-"%chr) && negb (e =? "]"%chr)
               then match parse_class fuel' s'' with Some (rs, r) => Some ((c, e) :: rs, r) | None => None end
               else match parse_class fuel' s' with Some (rs, r) => Some ((c, c) :: rs, r) | None => None end
           | _ => match parse_class fuel' s' with Some (rs, r) => Some ((c, c) :: rs, r) | None => None end
           end
  | _, _ => None
  end.

(** One atom. *)
Definition parse_atom (s : bytes) : option (charset * bytes) :=
  match s with
  | [] => None
  | c :: s' =>
      if c =? "."%chr then Some (mkCharset true [(LF, LF); (CR, CR)], s')
      else if c =? "\"%chr then
        match s' with
        | d :: s'' =>
            if d =? "d"%chr then Some (mkCharset false digits, s'')
            else if d =? "w"%chr then Some (mkCharset false words, s'')
            else if special d || (d =? "/"%chr) then Some (mkCharset false [(d, d)], s'')
            else None
        | [] => None
        end
      else if c =? "["%chr then
        match s' with
        | d :: s'' =>
            if d =? "^"%chr
            then match parse_class (length s'') s'' with Some (rs, r) => Some (mkCharset true rs, r) | None => None end
            else match parse_class (length s') s' with Some (rs, r) => Some (mkCharset false rs, r) | None => None end
        | [] => None
        end
      else if special c then None
      else Some (mkCharset false [(c, c)], s')
  end.

Definition parse_item (s : bytes) : option (re_item * bytes) :=
  match parse_atom s with
  | Some (cs, c :: s') =>
      if c =? "*"%chr then Some (Item cs Star, s')
      else if c =? "+"%chr then Some (Item cs Plus, s')
      else if (c =? "?"%chr) || (c =? "{"%chr) then None
      else Some (Item cs One, c :: s')
  | Some (cs, []) => Some (Item cs One, [])
  | None => None
  end.

(** The items of a group, up to its [)]. *)
Fixpoint parse_group (fuel : nat) (s : bytes) : option (list re_item * bytes) :=
  match fuel, s with
  | S fuel', c :: s' =>
      if c =? ")"%chr then Some ([], s')
      else match parse_item s with
           | Some (i, r) => match parse_group fuel' r with Some (its, r') => Some (i :: its, r') | None => None end
           | None => None
           end
  | _, _ => None
  end.

(** The nodes up to the final [$]. *)
Fixpoint parse_nodes (fuel : nat) (s : bytes) : option (list re_node) :=
  match fuel, s with
  | S fuel', c :: s' =>
      if (c =? "$"%chr) && bool_decide (s' = []) then Some []
      else if c =? "("%chr then
        match parse_group (length s') s' with
        | Some (its, r) => cons (Group its) <$> parse_nodes fuel' r
        | None => None
        end
      else match parse_item s with
           | Some (i, r) => cons (Plain i) <$> parse_nodes fuel' r
           | None => None
           end
  | _, _ => None
  end.

Definition mini_compile (s : bytes) : option (list re_node) :=
  match s with
  | c :: s' => if c =? "^"%chr then parse_nodes (length s') s' else None
  | [] => None
  end.

#[export] Instance mini_regex : RegexEngine := {
    regex := list re_node;
    regex_compile := mini_compile;
    regex_match := match_nodes;
  }.

Example template_regex :
  parse_path_to_regex (bs "/users/:id/posts/:post(\d+)") = (bs "^/users/([^/]+)/posts/(\d+)$", [bs "id"; bs "post"]).
Proof. vm_compute. reflexivity. Qed.

Example template_match :
  (r ← mini_compile (fst (parse_path_to_regex (bs "/users/:id/posts/:post(\d+)"))); match_nodes r (bs "/users/ann/posts/42"))
  = Some [bs "ann"; bs "42"].
Proof. vm_compute. reflexivity. Qed.

(** ** Dispatching *)

Section Dispatch.
Context `{RegexEngine} {Handler : Type}.
Implicit Types (routes : @httpRouter _ Handler) (rs : list (@Route _ Handler)) (names groups : list bytes).

(** The parameters set by [dispatch]: how many names get their group. *)
Definition params_set (names groups : list bytes) : nat := Nat.min (length groups) (length names - 1).

Lemma set_params_loop_spec fuel i names groups ps :
  (1 <= i)%nat -> (length names <= fuel + i)%nat ->
  set_params_loop fuel i names groups ps =
  fold_left (fun m kv => <[fst kv := snd kv]> m)
    (zip (drop (i - 1) (take (params_set names groups) names)) (drop (i - 1) groups)) ps.
Proof.
  unfold params_set. revert i ps. induction fuel as [|fuel IH]; intros i ps Hi Hf; cbn [set_params_loop].
  { by rewrite drop_ge by (rewrite length_take; lia). }
  destruct (Nat.ltb_spec i (Nat.min (S (length groups)) (length names))) as [Hlt|Hge].
  2: { by rewrite drop_ge by (rewrite length_take; lia). }
  rewrite IH by lia. replace (S i - 1)%nat with (S (i - 1)) by lia.
  destruct (lookup_lt_is_Some_2 names (i - 1)) as [n Hn]; [lia|].
  destruct (lookup_lt_is_Some_2 groups (i - 1)) as [g Hg]; [lia|].
  rewrite (drop_S (take _ names) n (i - 1)) by (rewrite lookup_take_lt by lia; done).
  rewrite (drop_S groups g (i - 1)) by done. cbn [zip_with fold_left fst snd].
  by rewrite (nth_lookup_Some _ _ _ _ Hn), (nth_lookup_Some _ _ _ _ Hg).
Qed.

(** The first route, in the order of registration, that matches. *)
Definition is_first rs (path : bytes) (r : Route Handler) (groups : list bytes) : Prop :=
  exists before after, rs = before ++ r :: after /\ regex_match (pattern r) path = Some groups /\
    Forall (fun r' => regex_match (pattern r') path = None) before.

Lemma first_match_spec rs path :
  match first_match rs path with
  | Some (r, groups) => is_first rs path r groups
  | None => Forall (fun r => regex_match (pattern r) path = None) rs
  end.
Proof.
  induction rs as [|r rs IH]; cbn [first_match]; [constructor|].
  destruct (regex_match (pattern r) path) as [groups|] eqn:E.
  - exists [], rs. by repeat constructor.
  - destruct (first_match rs path) as [[r' groups]|]; [|by constructor].
    destruct IH as (before & after & -> & Hm & Hall). exists (r :: before), after. split_and!; [done|done|by constructor].
Qed.

(** C30. [dispatch] runs the handler of the first registered route of the request's
  method whose pattern matches the path (the URL up to its question mark), with
  the leading parameter names bound to their groups; and returns no handler
  exactly when no route of the method matches. *)
Theorem dispatch_correct routes (req : httpReq) :
  match dispatch routes req with
  | (Some h, req') => exists rs r groups, routes (method req) = Some rs /\
      is_first rs (path_of (url req)) r groups /\ h = handler r /\
      req' = set_params (fold_left (fun m kv => <[fst kv := snd kv]> m)
        (zip (take (params_set (paramNames r) groups) (paramNames r)) groups) (params req)) req
  | (None, req') =>
      Forall (fun r => regex_match (pattern r) (path_of (url req)) = None) (default [] (routes (method req))) /\
      req' = (if decide (routes (method req) = None) then req else set_params ∅ req)
  end.
Proof.
  unfold dispatch. destruct (routes (method req)) as [rs|] eqn:Er.
  2: { rewrite decide_True by done. by repeat constructor. }
  pose proof (first_match_spec rs (path_of (url req))) as Hf.
  destruct (first_match rs _) as [[r groups]|].
  - exists rs, r, groups. split_and!; try done. by rewrite set_params_loop_spec by lia.
  - rewrite decide_False by done. done.
Qed.

(** C37. The last parameter of a route is never set: the loop stops one name early,
  so with a group for every name the value of the last one stays what it was. *)
Theorem dispatch_drops_last_param routes (req req' : httpReq) h rs r groups ns last_name
    (Hd : dispatch routes req = (Some h, req')) (Hrs : routes (method req) = Some rs)
    (Hfirst : first_match rs (path_of (url req)) = Some (r, groups))
    (Hnames : paramNames r = ns ++ [last_name]) (Hnew : last_name ∉ ns) :
  params req' !! last_name = params req !! last_name.
Proof.
  unfold dispatch in Hd. rewrite Hrs, Hfirst in Hd. injection Hd as <- <-. cbn [params set_params].
  rewrite set_params_loop_spec by lia. rewrite Hnames. cbn [drop]. rewrite !drop_0.
  assert (forall k gs ps, fold_left (fun m kv => <[fst kv := snd kv]> m) (zip (take k ns) gs) ps !! last_name =
    (ps : strmap) !! last_name) as Hfold.
  { intros k gs ps. assert (last_name ∉ take k ns) as Hn.
    { intros (i & Hi & _)%elem_of_take. by eapply Hnew, list_elem_of_lookup_2. }
    revert ps gs Hn. generalize (take k ns) as l. induction l as [|n l IH]; intros ps gs Hn; [done|].
    destruct gs as [|g gs]; [done|]. cbn [zip_with fold_left]. apply not_elem_of_cons in Hn as [Hne Hn].
    rewrite IH by done. by rewrite lookup_insert_ne. }
  unfold params_set. rewrite length_app, take_app_le by (cbn; lia). apply Hfold.
Qed.
End Dispatch.

(** ** Concrete routers *)

Definition users_router : httpRouter nat :=
  addRoute HTTP_GET (bs "/users/:id") 2%nat
    (addRoute HTTP_GET (bs "/users/:id/posts/:post(\d+)") 1%nat httpRouter_init).
Definition get_req (u : bytes) : httpReq := set_url u (httpReq_init HTTP_GET 0).

Example dispatch_posts :
  let '(h, r) := dispatch users_router (get_req (bs "/users/ann/posts/42?page=2")) in
  (h, params r) = (Some 1%nat, {[ bs "id" := bs "ann" ]}).
Proof. vm_compute. reflexivity. Qed.

(** The one parameter of the README's [/id/:id] never reaches the handler. *)
Lemma dispatch_drops_last_param_witness :
  let '(h, r) := dispatch users_router (get_req (bs "/users/ann")) in
  h = Some 2%nat /\ params r !! bs "id" = params (get_req (bs "/users/ann")) !! bs "id".
Proof.
  split; [reflexivity|].
  eapply (dispatch_drops_last_param users_router (get_req (bs "/users/ann")) _ 2%nat _ _ [bs "ann"] [] (bs "id")).
  - reflexivity.
  - reflexivity.
  - vm_compute. reflexivity.
  - reflexivity.
  - apply not_elem_of_nil.
Defined.

