(* ===== verification/FileReader.v ===== *)
(** * Reading a file (src/core/FileReader.h, src/core/FileReader.cpp)

    The reader's callbacks as one step each; what they ask of libuv and the
    callbacks they make are effects in a log. *)

From S2P Require Import Prelude.
From stdpp Require Import list.
#[local] Open Scope Z_scope.

Inductive FileReaderErr := read_success | open_failed | read_failed | close_failed.

Definition DEFAULT_FILE_READER_BUFF_SIZE : Z := 1024.

(** A [uv_buf_t]: its [len] and the bytes read into it. *)
Record fbuf := mkFbuf { fb_len : Z; fb_data : bytes }.
Definition new_fbuf : fbuf := mkFbuf DEFAULT_FILE_READER_BUFF_SIZE [].

Inductive fr_effect :=
  | Fs_open (path : bytes)
  | Fs_read (fd : Z) (buf : nat)
  | Fs_close (fd : Z)
  | Fr_onError
  | Fr_onClose.

Record FileReader := mkReader {
    m_bufferVec : list fbuf;
    m_buffUsed : nat;
    m_readByte : Z;
    m_result : option FileReaderErr;   (* [None]: never assigned *)
    m_fd : Z;
    m_path : bytes;
    has_onClose : bool;
    has_onError : bool;
    fr_log : list fr_effect;
  }.

(** The constructor ([m_fd] is whatever the memory holds). *)
Definition FileReader_init (fd : Z) (on_close on_error : bool) : FileReader :=
  mkReader [new_fbuf] 0 0 None fd [] on_close on_error [].

Definition fr_emit (e : fr_effect) (r : FileReader) : FileReader :=
  mkReader (m_bufferVec r) (m_buffUsed r) (m_readByte r) (m_result r) (m_fd r) (m_path r)
    (has_onClose r) (has_onError r) (fr_log r ++ [e]).
Definition fr_set_buffers (v : list fbuf) (n : nat) (r : FileReader) : FileReader :=
  mkReader v n (m_readByte r) (m_result r) (m_fd r) (m_path r) (has_onClose r) (has_onError r) (fr_log r).
Definition fr_set_readByte (n : Z) (r : FileReader) : FileReader :=
  mkReader (m_bufferVec r) (m_buffUsed r) n (m_result r) (m_fd r) (m_path r) (has_onClose r) (has_onError r) (fr_log r).
Definition fr_set_result (e : FileReaderErr) (r : FileReader) : FileReader :=
  mkReader (m_bufferVec r) (m_buffUsed r) (m_readByte r) (Some e) (m_fd r) (m_path r) (has_onClose r) (has_onError r) (fr_log r).
Definition fr_set_fd (fd : Z) (r : FileReader) : FileReader :=
  mkReader (m_bufferVec r) (m_buffUsed r) (m_readByte r) (m_result r) fd (m_path r) (has_onClose r) (has_onError r) (fr_log r).
Definition fr_set_path (p : bytes) (r : FileReader) : FileReader :=
  mkReader (m_bufferVec r) (m_buffUsed r) (m_readByte r) (m_result r) (m_fd r) p (has_onClose r) (has_onError r) (fr_log r).

(** [FILE_ON_ERROR(result, err)] *)
Definition FILE_ON_ERROR (result : Z) (err : FileReaderErr) (r : FileReader) : FileReader :=
  if result <? 0 then
    let r := fr_set_result err r in if has_onError r then fr_emit Fr_onError r else r
  else r.

Definition fileRead (path : bytes) (r : FileReader) : FileReader :=
  fr_emit (Fs_open path) (fr_set_readByte 0 (fr_set_buffers (m_bufferVec r) 0 (fr_set_path path r))).

(** [onOpen], [result] being the descriptor or an error. *)
Definition onOpen (result : Z) (r : FileReader) : FileReader :=
  let r := FILE_ON_ERROR result open_failed r in
  if result <? 0 then r
  else
    let v := match m_bufferVec r with [] => [new_fbuf] | v => v end in
    let r := fr_set_fd result (fr_set_buffers v 0 r) in
    fr_emit (Fs_read (m_fd r) 0) r.

(** What [uv_fs_read] gives: an error, or bytes put in the buffer it was given. *)
Definition fs_result (res : Z + bytes) : Z := match res with inl e => e | inr d => len d end.
Definition fill (i : nat) (d : bytes) (v : list fbuf) : list fbuf :=
  alter (fun b => mkFbuf (fb_len b) d) i v.

Definition onRead (res : Z + bytes) (r : FileReader) : FileReader :=
  let v := match res with inr d => fill (m_buffUsed r) d (m_bufferVec r) | inl _ => m_bufferVec r end in
  let r := fr_set_buffers v (m_buffUsed r) r in
  let result := fs_result res in
  if result <? 0 then FILE_ON_ERROR result read_failed r
  else
    let r := fr_set_readByte (m_readByte r + result) r in
    if result =? fb_len (nth (m_buffUsed r) (m_bufferVec r) new_fbuf) then
      let used := S (m_buffUsed r) in
      let v := if Nat.eqb used (length (m_bufferVec r)) then m_bufferVec r ++ [new_fbuf] else m_bufferVec r in
      fr_emit (Fs_read (m_fd r) used) (fr_set_buffers v used r)
    else
      let v := alter (fun b => mkFbuf result (fb_data b)) (m_buffUsed r) (m_bufferVec r) in
      fr_emit (Fs_close (m_fd r)) (fr_set_buffers v (S (m_buffUsed r)) r).

Definition onClose (result : Z) (r : FileReader) : FileReader :=
  let r := FILE_ON_ERROR result close_failed r in
  if has_onClose r then fr_emit Fr_onClose r else r.

(** [appendToBuff] and [getReadByte]. *)
Definition appendToBuff (r : FileReader) (buff : list fbuf) : list fbuf := buff ++ take (m_buffUsed r) (m_bufferVec r).
Definition getReadByte (r : FileReader) : Z := m_readByte r.

(** [getBuff] assigns its own copy of the pointer it was given: the caller's is unchanged. *)
Definition getBuff (r : FileReader) (buff : list fbuf) : list fbuf * nat := (buff, m_buffUsed r).
Definition getResult (r : FileReader) : option FileReaderErr := m_result r.

(** The setters [onError] and [onClose], and the destructor, which frees the buffers. *)
Definition set_onError (r : FileReader) : FileReader :=
  mkReader (m_bufferVec r) (m_buffUsed r) (m_readByte r) (m_result r) (m_fd r) (m_path r) (has_onClose r) true (fr_log r).
Definition set_onClose (r : FileReader) : FileReader :=
  mkReader (m_bufferVec r) (m_buffUsed r) (m_readByte r) (m_result r) (m_fd r) (m_path r) true (has_onError r) (fr_log r).
Definition FileReader_delete (r : FileReader) : FileReader := fr_set_buffers [] (m_buffUsed r) r.

(** The bytes the appended buffers stand for. *)
Definition contents (r : FileReader) : list bytes :=
  (fun b => take (Z.to_nat (fb_len b)) (fb_data b)) <$> appendToBuff r [].

(** ** A file on disk

    [uv_fs_read] at the current position of a regular file: as much as fits. *)
Definition disk_read (file : bytes) (pos : Z) (size : Z) : bytes := take (Z.to_nat size) (drop (Z.to_nat pos) file).

(** The reads the loop makes one after the other; each round but the last reads a full
    buffer, so one more round than the file has bytes is enough. *)
Fixpoint read_all (fuel : nat) (file : bytes) (r : FileReader) : option FileReader :=
  match fuel with
  | O => None
  | S fuel' =>
      let d := disk_read file (m_readByte r) (fb_len (nth (m_buffUsed r) (m_bufferVec r) new_fbuf)) in
      let r' := onRead (inr d) r in
      if Nat.ltb (length d) (Z.to_nat DEFAULT_FILE_READER_BUFF_SIZE) then Some r' else read_all fuel' file r'
  end.

Definition read_file (path file : bytes) (fd : Z) (r : FileReader) : option FileReader :=
  match read_all (S (length file)) file (onOpen fd (fileRead path r)) with
  | Some r => Some (onClose 0 r)
  | None => None
  end.

(** ** The invariant of the loop *)

Definition full (b : fbuf) : Prop :=
  fb_len b = DEFAULT_FILE_READER_BUFF_SIZE /\ len (fb_data b) = DEFAULT_FILE_READER_BUFF_SIZE.

(** While reads are pending: full buffers holding [done], then one that waits. *)
Definition reading (r : FileReader) (done : bytes) : Prop :=
  exists pre d0, m_bufferVec r = pre ++ [mkFbuf DEFAULT_FILE_READER_BUFF_SIZE d0] /\
    m_buffUsed r = length pre /\ Forall full pre /\ concat (fb_data <$> pre) = done /\ m_readByte r = len done.

Lemma full_contents pre :
  Forall full pre -> (fun b => take (Z.to_nat (fb_len b)) (fb_data b)) <$> pre = fb_data <$> pre.
Proof.
  induction 1 as [|b pre [Hb Hd] Hall IH]; [done|]. cbn [fmap list_fmap]. rewrite IH. f_equal.
  rewrite take_ge; [done|]. unfold len in Hd. lia.
Qed.

Lemma alter_last {B} (f : B -> B) (l : list B) x : alter f (length l) (l ++ [x]) = l ++ [f x].
Proof. rewrite <- (Nat.add_0_r (length l)) at 1. by rewrite alter_app_r. Qed.

(** A full read goes on, anything shorter ends. *)
Lemma onRead_full r done d :
  reading r done -> len d = DEFAULT_FILE_READER_BUFF_SIZE ->
  reading (onRead (inr d) r) (done ++ d) /\
  fr_log (onRead (inr d) r) = fr_log r ++ [Fs_read (m_fd r) (S (m_buffUsed r))] /\
  m_fd (onRead (inr d) r) = m_fd r /\ has_onClose (onRead (inr d) r) = has_onClose r /\
  m_buffUsed (onRead (inr d) r) = S (m_buffUsed r).
Proof.
  intros (pre & d0 & Hv & Hu & Hpre & Hc & Hn) Hd. unfold onRead, fs_result. rewrite Hv, Hu, Hd.
  change (DEFAULT_FILE_READER_BUFF_SIZE <? 0) with false. unfold fill. rewrite alter_last. cbn.
  rewrite nth_middle. cbn [fb_len]. rewrite ?Z.eqb_refl. cbn. rewrite length_app, Nat.add_1_r, Nat.eqb_refl.
  split; [|done]. exists (pre ++ [mkFbuf DEFAULT_FILE_READER_BUFF_SIZE d]), []. cbn.
  rewrite length_app, Nat.add_1_r. split_and!; try done.
  - apply Forall_app. split; [done|]. by repeat constructor.
  - rewrite fmap_app, concat_app, Hc. cbn. by rewrite app_nil_r.
  - by rewrite Hn, len_app, Hd.
Qed.

Lemma onRead_short r done d :
  reading r done -> len d < DEFAULT_FILE_READER_BUFF_SIZE ->
  concat (contents (onRead (inr d) r)) = done ++ d /\ getReadByte (onRead (inr d) r) = len (done ++ d) /\
  fr_log (onRead (inr d) r) = fr_log r ++ [Fs_close (m_fd r)] /\
  has_onClose (onRead (inr d) r) = has_onClose r.
Proof.
  intros (pre & d0 & Hv & Hu & Hpre & Hc & Hn) Hd. pose proof (len_nonneg d).
  unfold onRead, fs_result, contents, appendToBuff, getReadByte. rewrite Hv, Hu.
  assert ((len d <? 0) = false) as -> by (apply Z.ltb_ge; lia). unfold fill. rewrite alter_last. cbn.
  rewrite nth_middle. cbn [fb_len]. assert ((len d =? DEFAULT_FILE_READER_BUFF_SIZE) = false) as -> by (apply Z.eqb_neq; lia).
  cbn. rewrite alter_last. cbn. split_and!; try done.
  - rewrite take_ge by (rewrite length_app; cbn; lia).
    rewrite fmap_app, full_contents, concat_app, Hc by done. cbn. rewrite app_nil_r.
    rewrite take_ge; [done|]. unfold len. lia.
  - by rewrite Hn, len_app.
Qed.

Lemma read_all_spec fuel file r done rest :
  reading r done -> file = done ++ rest -> (length rest < fuel)%nat ->
  exists r' k, read_all fuel file r = Some r' /\ concat (contents r') = file /\ getReadByte r' = len file /\
    fr_log r' = fr_log r ++ map (Fs_read (m_fd r)) (seq (S (m_buffUsed r)) k) ++ [Fs_close (m_fd r)] /\
    has_onClose r' = has_onClose r.
Proof.
  revert r done rest. induction fuel as [|fuel IH]; intros r done rest Hr Hf Hl; [lia|]. cbn [read_all].
  assert (fb_len (nth (m_buffUsed r) (m_bufferVec r) new_fbuf) = DEFAULT_FILE_READER_BUFF_SIZE) as ->.
  { destruct Hr as (pre & d0 & -> & -> & _). by rewrite nth_middle. }
  assert (disk_read file (m_readByte r) DEFAULT_FILE_READER_BUFF_SIZE = take 1024 rest) as ->.
  { destruct Hr as (pre & d0 & _ & _ & _ & _ & ->). unfold disk_read. rewrite Hf. unfold len. rewrite Nat2Z.id.
    by rewrite drop_app_length. }
  change (Z.to_nat DEFAULT_FILE_READER_BUFF_SIZE) with 1024%nat.
  destruct (Nat.ltb_spec (length (take 1024 rest)) 1024) as [Hlt|Hge].
  - destruct (onRead_short r done (take 1024 rest) Hr) as (Hc & Hn & Hlog & Hcl).
    { unfold len. change DEFAULT_FILE_READER_BUFF_SIZE with 1024. lia. }
    rewrite length_take in Hlt. rewrite (take_ge rest) in * by lia.
    eexists _, 0%nat. rewrite <- Hf in *. by split_and!.
  - rewrite length_take in Hge.
    destruct (onRead_full r done (take 1024 rest) Hr) as (Hr' & Hlog & Hfd & Hcl & Hused).
    { unfold len. rewrite length_take. change DEFAULT_FILE_READER_BUFF_SIZE with 1024. lia. }
    destruct (IH _ (done ++ take 1024 rest) (drop 1024 rest) Hr') as (r' & k & Hr1 & Hc & Hn & Hlog' & Hcl').
    { by rewrite <- app_assoc, take_drop. }
    { rewrite length_drop. lia. }
    exists r', (S k). split_and!; try done; [|by rewrite Hcl', Hcl].
    rewrite Hlog', Hlog, Hfd, Hused. cbn [seq map]. by rewrite <- app_assoc.
Qed.

(** A file, from its first read to its close. *)
Lemma file_read (path file : bytes) (fd fd0 : Z) (on_error : bool) (Hfd : 0 <= fd) :
  exists r k, read_file path file fd (FileReader_init fd0 true on_error) = Some r /\
    concat (contents r) = file /\ getReadByte r = len (concat (contents r)) /\
    fr_log r = Fs_open path :: map (Fs_read fd) (seq 0 (S k)) ++ [Fs_close fd; Fr_onClose].
Proof.
  assert ((fd <? 0) = false) as Hneg by (apply Z.ltb_ge; lia).
  set (r1 := onOpen fd (fileRead path (FileReader_init fd0 true on_error))).
  assert (r1 = mkReader [new_fbuf] 0 0 None fd path true on_error [Fs_open path; Fs_read fd 0]) as Hr1.
  { unfold r1, onOpen, FILE_ON_ERROR. rewrite Hneg. done. }
  destruct (read_all_spec (S (length file)) file r1 [] file) as (r & k & Hr & Hc & Hn & Hlog & Hcl); [|done|lia|].
  { rewrite Hr1. exists [], []. by repeat constructor. }
  exists (onClose 0 r), k. unfold read_file. fold r1. rewrite Hr. rewrite Hr1 in Hlog, Hcl. cbn in Hcl, Hlog.
  unfold onClose, FILE_ON_ERROR. cbn [Z.ltb Z.compare]. rewrite Hcl.
  split; [done|]. split; [done|]. split; [change (getReadByte r = len (concat (contents r))); by rewrite Hc|].
  cbn [fr_emit fr_log seq map]. rewrite Hlog. cbn. by rewrite <- app_assoc.
Qed.

(** C32. Reading a file of any size: the buffers handed on hold exactly its bytes, in
    order, [getReadByte] (the Content-Length, the length of a frame) is their
    number, the descriptor is closed once, after the last read, and then the
    close callback runs once. *)
Theorem read_file_correct (path file : bytes) (fd fd0 : Z) (on_error : bool) (Hfd : 0 <= fd) :
  exists r k, read_file path file fd (FileReader_init fd0 true on_error) = Some r /\
    concat (contents r) = file /\ getReadByte r = len (concat (contents r)) /\
    fr_log r = Fs_open path :: map (Fs_read fd) (seq 0 (S k)) ++ [Fs_close fd; Fr_onClose].
Proof. by eapply file_read. Qed.

Lemma read_file_correct_witness : exists r k,
  read_file (bs "a.txt") (replicate 1500 65) 3 (FileReader_init 0 true true) = Some r /\
  concat (contents r) = replicate 1500 65 /\ getReadByte r = len (concat (contents r)) /\
  fr_log r = Fs_open (bs "a.txt") :: map (Fs_read 3) (seq 0 (S k)) ++ [Fs_close 3; Fr_onClose].
Proof. apply (read_file_correct (bs "a.txt") (replicate 1500 65) 3 0 true). lia. Defined.

(** ** Errors *)

(** A failed open makes no read and calls [onError] once; a failed read calls it and
    leaves the descriptor open. *)
Lemma open_error path e r :
  e < 0 -> has_onError r = true ->
  fr_log (onOpen e (fileRead path r)) = fr_log r ++ [Fs_open path; Fr_onError] /\
  m_result (onOpen e (fileRead path r)) = Some open_failed.
Proof.
  intros He Hr. unfold onOpen, FILE_ON_ERROR. assert ((e <? 0) = true) as -> by (by apply Z.ltb_lt).
  unfold fileRead, fr_emit. cbn. rewrite Hr. cbn. by rewrite <- app_assoc.
Qed.

Lemma read_error_leaks_fd e r :
  e < 0 -> has_onError r = true ->
  fr_log (onRead (inl e) r) = fr_log r ++ [Fr_onError] /\ m_result (onRead (inl e) r) = Some read_failed.
Proof.
  intros He Hr. unfold onRead, fs_result, FILE_ON_ERROR. assert ((e <? 0) = true) as -> by (by apply Z.ltb_lt).
  cbn. by rewrite Hr.
Qed.

(** After an error of close both callbacks run, the first of which deletes the reader
    in every use of the class. *)
Lemma close_error_calls_both e r :
  e < 0 -> has_onError r = true -> has_onClose r = true ->
  fr_log (onClose e r) = fr_log r ++ [Fr_onError; Fr_onClose].
Proof.
  intros He Hr Hc. unfold onClose, FILE_ON_ERROR. assert ((e <? 0) = true) as -> by (by apply Z.ltb_lt).
  cbn. rewrite Hr. cbn. rewrite Hc. cbn. by rewrite <- app_assoc.
Qed.
