(* ===== verification/HttpResp.v ===== *)
(** * Responses (src/core/httpResp.h, src/core/httpResp.cpp)

    The response record, the head [send] writes, and the three ways to send a
    body.  [std::unordered_map] iterates in an order of its own: the function
    [order] of the section. *)

From S2P Require Import Prelude HttpReq FileReader.
From stdpp Require Import gmap.
#[local] Open Scope Z_scope.

(** ** Status and type *)

Inductive httpStatus :=
  | SWITCHING_PROTOCOLS | OK | CREATED | ACCEPTED | NO_CONTENT | MOVED_PERMANENTLY | FOUND | NOT_MODIFIED
  | BAD_REQUEST | UNAUTHORIZED | FORBIDDEN | NOT_FOUND | INTERNAL_SERVER_ERROR | NOT_IMPLEMENTED
  | BAD_GATEWAY | SERVICE_UNAVAILABLE | GATEWAY_TIMEOUT.

(** The values of the enumeration. *)
Definition httpStatus_code (s : httpStatus) : Z :=
  match s with
  | SWITCHING_PROTOCOLS => 101
  | OK => 200
  | CREATED => 201
  | ACCEPTED => 202
  | NO_CONTENT => 204
  | MOVED_PERMANENTLY => 301
  | FOUND => 302
  | NOT_MODIFIED => 304
  | BAD_REQUEST => 400
  | UNAUTHORIZED => 401
  | FORBIDDEN => 403
  | NOT_FOUND => 404
  | INTERNAL_SERVER_ERROR => 500
  | NOT_IMPLEMENTED => 501
  | BAD_GATEWAY => 502
  | SERVICE_UNAVAILABLE => 503
  | GATEWAY_TIMEOUT => 504
  end.

Definition httpStatus_str (s : httpStatus) : bytes :=
  match s with
  | SWITCHING_PROTOCOLS => bs "101 Web Socket Protocol Handshake"
  | OK => bs "200 OK"
  | CREATED => bs "201 Created"
  | ACCEPTED => bs "202 Accepted"
  | NO_CONTENT => bs "204 No Content"
  | MOVED_PERMANENTLY => bs "301 Moved Permanently"
  | FOUND => bs "302 Found"
  | NOT_MODIFIED => bs "304 Not Modified"
  | BAD_REQUEST => bs "400 Bad Request"
  | UNAUTHORIZED => bs "401 Unauthorized"
  | FORBIDDEN => bs "403 Forbidden"
  | NOT_FOUND => bs "404 Not Found"
  | INTERNAL_SERVER_ERROR => bs "500 Internal Server Error"
  | NOT_IMPLEMENTED => bs "501 Not Implemented"
  | BAD_GATEWAY => bs "502 Bad Gateway"
  | SERVICE_UNAVAILABLE => bs "503 Service Unavailable"
  | GATEWAY_TIMEOUT => bs "504 Gateway Timeout"
  end.

(** [find_last_of]: what follows the last [c], with [c] itself. *)
Fixpoint from_last (c : Z) (s : bytes) : option bytes :=
  match s with
  | [] => None
  | x :: s' =>
      match from_last c s' with
      | Some r => Some r
      | None => if x =? c then Some s else None
      end
  end.

(** [fs::path(path).extension()]: of the file name, from its last dot, if that is not
    its first character and the name is not [..]. *)
Definition extension (path : bytes) : bytes :=
  let filename := match from_last "/"%chr path with Some (_ :: f) => f | _ => path end in
  if bool_decide (filename = bs "..") then []
  else match from_last "."%chr filename with
       | Some e => if bool_decide (e = filename) then [] else e
       | None => []
       end.

Definition mimeTypes : list (bytes * bytes) :=
  [(bs ".html", bs "text/html"); (bs ".htm", bs "text/html"); (bs ".css", bs "text/css");
   (bs ".js", bs "application/javascript"); (bs ".json", bs "application/json");
   (bs ".txt", bs "text/plain"); (bs ".map", bs "application/json");
   (bs ".ttf", bs "font/ttf"); (bs ".woff", bs "font/woff"); (bs ".woff2", bs "font/woff2");
   (bs ".eot", bs "application/vnd.ms-fontobject"); (bs ".otf", bs "font/otf");
   (bs ".png", bs "image/png"); (bs ".jpg", bs "image/jpeg"); (bs ".jpeg", bs "image/jpeg");
   (bs ".gif", bs "image/gif"); (bs ".svg", bs "image/svg+xml"); (bs ".ico", bs "image/x-icon");
   (bs ".webp", bs "image/webp"); (bs ".mp3", bs "audio/mpeg"); (bs ".mp4", bs "video/mp4")].

Definition getMimeType (path : bytes) : bytes :=
  match list_find (fun kv => fst kv = extension path) mimeTypes with
  | Some (_, (_, t)) => t
  | None => bs "application/octet-stream"
  end.

(** ** The response *)

Inductive SendType := SendType_NONE | SendType_STR | SendType_JSON | SendType_FILE.

Record httpResp := mkResp {
    m_body : bytes;
    m_status : httpStatus;
    m_headers : strmap;
    m_filePath : bytes;
    m_sendType : SendType;
    m_reader : option FileReader;
    m_head : bytes;
    m_buffers : list bytes;
  }.

Definition httpResp_init : httpResp := mkResp [] OK ∅ [] SendType_NONE None [] [].

Definition setStatus (s : httpStatus) (r : httpResp) : httpResp :=
  mkResp (m_body r) s (m_headers r) (m_filePath r) (m_sendType r) (m_reader r) (m_head r) (m_buffers r).
Definition setHeader (key value : bytes) (r : httpResp) : httpResp :=
  mkResp (m_body r) (m_status r) (<[key := value]> (m_headers r)) (m_filePath r) (m_sendType r) (m_reader r)
    (m_head r) (m_buffers r).
Definition set_content (b : bytes) (t : SendType) (r : httpResp) : httpResp :=
  mkResp b (m_status r) (m_headers r) (m_filePath r) t (m_reader r) (m_head r) (m_buffers r).
Definition set_reader (path : bytes) (f : option FileReader) (r : httpResp) : httpResp :=
  mkResp (m_body r) (m_status r) (m_headers r) path (m_sendType r) f (m_head r) (m_buffers r).
Definition clearContent (r : httpResp) : httpResp :=
  mkResp [] OK ∅ [] SendType_NONE (m_reader r) (m_head r) (m_buffers r).

Definition Content_Type : bytes := bs "Content-Type".

Section Sending.
Context (order : strmap -> list (bytes * bytes)).

Definition header_line (kv : bytes * bytes) : bytes := fst kv ++ bs ": " ++ snd kv ++ [13; 10].

(** What [send] has to send after the head, and its size; a file that has no reader is
  undefined behaviour ([None]). *)
Definition body_of (r : httpResp) : option (list bytes * Z) :=
  match m_sendType r with
  | SendType_FILE =>
      match m_reader r with Some f => Some (contents f, getReadByte f) | None => None end
  | _ => Some ([m_body r], len (m_body r))
  end.

(** [send]: the response with its buffers, which are handed to [uv_write]. *)
Definition send (r : httpResp) : option httpResp :=
  match body_of r with
  | None => None
  | Some (bufs, n) =>
      let head := bs "HTTP/1.1 " ++ httpStatus_str (m_status r) ++ [13; 10] ++
        concat (map header_line (order (m_headers r))) ++
        bs "Content-Length: " ++ to_string n ++ [13; 10] ++ [13; 10] in
      Some (mkResp (m_body r) (m_status r) (m_headers r) (m_filePath r) (m_sendType r) (m_reader r)
              head (head :: bufs))
  end.

Definition sendStr (str : bytes) (r : httpResp) : option httpResp :=
  send (set_content str SendType_STR (setHeader Content_Type (bs "text/plain") r)).
(** [sendJson], on the text [stringify] gives. *)
Definition sendJson (text : bytes) (r : httpResp) : option httpResp :=
  send (set_content text SendType_JSON (setHeader Content_Type (bs "application/json") r)).

Definition sendErr (r : httpResp) : option httpResp :=
  let r := setStatus INTERNAL_SERVER_ERROR
    (mkResp [] (m_status r) ∅ (m_filePath r) (m_sendType r) (m_reader r) (m_head r) (m_buffers r)) in
  sendStr (httpStatus_str INTERNAL_SERVER_ERROR) r.

(** [sendFile] starts a reader; [sendFile_closed] and [sendFile_failed] are the
  callbacks [initReader] gives it. *)
Definition sendFile (path : bytes) (fd : Z) (r : httpResp) : httpResp :=
  let r := setHeader Content_Type (getMimeType path) r in
  let r := set_content (m_body r) SendType_FILE r in
  set_reader path (Some (fileRead path (FileReader_init fd true true))) r.
Definition sendFile_closed (reader : FileReader) (r : httpResp) : option httpResp :=
  send (set_reader (m_filePath r) (Some reader) r).
Definition sendFile_failed (r : httpResp) : option httpResp := sendErr r.

(** ** What is written *)

Hypothesis Horder : forall m, order m ≡ₚ map_to_list m.

(** *** A client's view: lines up to an empty one, then the body *)

Definition read_line (s : bytes) : option (bytes * bytes) :=
  match find_char 13 s with
  | Some i => if bool_decide (drop i s !! 1%nat = Some 10) then Some (take i s, drop (i + 2) s) else None
  | None => None
  end.
Fixpoint read_head (fuel : nat) (s : bytes) : option (list bytes * bytes) :=
  match fuel with
  | O => None
  | S fuel' =>
      match read_line s with
      | Some ([], r) => Some ([], r)
      | Some (l, r) => match read_head fuel' r with Some (ls, b) => Some (l :: ls, b) | None => None end
      | None => None
      end
  end.

Lemma read_line_crlf l r : 13 ∉ l -> read_line (l ++ [13; 10] ++ r) = Some (l, r).
Proof.
  intros Hl. unfold read_line. cbn [app]. rewrite find_char_app by done.
  rewrite drop_app_length, take_app_length, drop_app_add. done.
Qed.

Lemma read_head_lines ls body :
  Forall (fun l => l <> [] /\ 13 ∉ l) ls ->
  read_head (S (length ls)) (concat (map (fun l => l ++ [13; 10]) ls) ++ [13; 10] ++ body) = Some (ls, body).
Proof.
  induction 1 as [|l ls [Hne Hl] Hall IH]; [done|]. cbn [length map concat].
  cbn [read_head]. rewrite <- !app_assoc, (read_line_crlf l) by done.
  destruct l as [|c l]; [done|]. cbn [read_head] in IH. by rewrite IH.
Qed.

Definition line_of (kv : bytes * bytes) : bytes := fst kv ++ bs ": " ++ snd kv.
Definition header_ok (kv : bytes * bytes) : Prop := (13 ∉ fst kv) /\ (13 ∉ snd kv).

Lemma no_cr s : find_char 13 s = None -> 13 ∈ s -> False.
Proof. by rewrite find_char_None. Qed.

Lemma status_no_cr s : 13 ∉ httpStatus_str s.
Proof. rewrite <- find_char_None. by destruct s. Qed.

Lemma to_string_loop_chars fuel n acc :
  Forall (fun c => 48 <= c <= 57) acc -> Forall (fun c => 48 <= c <= 57) (to_string_loop fuel n acc).
Proof.
  revert n acc. induction fuel as [|fuel IH]; intros n acc Hacc; cbn [to_string_loop]; [done|].
  pose proof (Z.mod_pos_bound n 10 ltac:(lia)).
  assert (Forall (fun c => 48 <= c <= 57) ((48 + n mod 10) :: acc)) by (constructor; [lia|done]).
  case_match; [done|by apply IH].
Qed.

Lemma digits_no_cr n : 13 ∉ to_string n.
Proof.
  intros Hin. assert (Forall (fun c => 48 <= c <= 57) (to_string n)) as Hall by (apply to_string_loop_chars; constructor).
  rewrite Forall_forall in Hall. specialize (Hall 13 Hin). lia.
Qed.

(** A client that reads the bytes of a response gets back its status line, each
  header once in some order, a Content-Length that is the number of the bytes
  that follow the head, and these bytes: the body, whatever the way it was sent. *)
Lemma response_readable (r : httpResp) (bufs : list bytes) (n : Z)
    (Hbody : body_of r = Some (bufs, n)) (Hn : n = len (concat bufs)) (Hsmall : n < 10 ^ 20)
    (Hheaders : Forall header_ok (map_to_list (m_headers r))) :
  exists r' ls digits, send r = Some r' /\
    read_head (length ls + 3) (concat (m_buffers r')) =
      Some ((bs "HTTP/1.1 " ++ httpStatus_str (m_status r)) :: ls ++ [bs "Content-Length: " ++ digits], concat bufs) /\
    ls ≡ₚ map line_of (map_to_list (m_headers r)) /\ digits_value digits = len (concat bufs).
Proof.
  unfold send. rewrite Hbody. eexists _, (map line_of (order (m_headers r))), (to_string n). split; [done|].
  split_and!.
  - cbn [m_buffers concat].
    set (all := (bs "HTTP/1.1 " ++ httpStatus_str (m_status r)) :: map line_of (order (m_headers r)) ++
      [bs "Content-Length: " ++ to_string n]).
    replace (length (map line_of (order (m_headers r))) + 3)%nat with (S (length all))
      by (unfold all; cbn [length]; rewrite length_app; cbn; lia).
    rewrite <- read_head_lines.
    + f_equal. unfold all. cbn [map concat]. rewrite map_app, concat_app. cbn [map concat].
      rewrite map_map. replace (map (fun x => line_of x ++ [13; 10]) (order (m_headers r)))
        with (map header_line (order (m_headers r))).
      2: { apply map_ext. intros [k v]. unfold line_of, header_line. by rewrite <- !app_assoc. }
      by rewrite <- !app_assoc.
    + unfold all. constructor; [split; [done|]|apply Forall_app; split].
      * rewrite elem_of_app. intros [Hin|Hin]; [|by eapply status_no_cr]. by eapply no_cr, Hin.
      * rewrite Forall_map. eapply Forall_impl; [by rewrite (Horder (m_headers r))|].
        intros [k v] [Hk Hv]. unfold line_of. cbn [fst snd] in *. split; [intros Hl%(f_equal length); rewrite !length_app in Hl; cbn in Hl; lia|].
        rewrite !elem_of_app. intros [?|[Hin|?]]; [done| |done]. by eapply no_cr, Hin.
      * constructor; [split; [done|]|constructor]. rewrite elem_of_app. intros [Hin|Hin]; [|by eapply digits_no_cr].
        by eapply no_cr, Hin.
  - by rewrite (Horder (m_headers r)).
  - rewrite to_string_value; [done|]. split; [|done]. rewrite Hn. apply len_nonneg.
Qed.

(** The file of [sendFile] arrives whole: the reader's close callback sends a
  response whose body is the file's bytes and whose Content-Length is their
  number. *)
Lemma sendFile_whole (path file : bytes) (fd fd0 : Z) (r0 : httpResp) (Hfd : 0 <= fd) (Hsmall : len file < 10 ^ 20)
    (Hheaders : Forall header_ok (map_to_list (<[Content_Type := getMimeType path]> (m_headers r0)))) :
  exists reader r' ls digits, read_file path file fd (FileReader_init fd0 true true) = Some reader /\
    sendFile_closed reader (sendFile path fd0 r0) = Some r' /\
    read_head (length ls + 3) (concat (m_buffers r')) =
      Some ((bs "HTTP/1.1 " ++ httpStatus_str (m_status r0)) :: ls ++ [bs "Content-Length: " ++ digits], file) /\
    digits_value digits = len file.
Proof.
  destruct (file_read path file fd fd0 true Hfd) as (reader & k & Hr & Hc & Hn & _).
  destruct (response_readable (set_reader path (Some reader) (sendFile path fd0 r0)) (contents reader) (getReadByte reader))
    as (r' & ls & digits & Hsend & Hhead & _ & Hd); try done.
  { by rewrite Hn, Hc. }
  exists reader, r', ls, digits. rewrite <- Hc. split_and!; try done. by rewrite Hc.
Qed.
End Sending.

Example response_readable_404 : exists r' ls digits,
  send map_to_list (set_content (bs "404 Not Found") SendType_STR (setStatus NOT_FOUND httpResp_init)) = Some r' /\
  read_head (length ls + 3) (concat (m_buffers r')) =
    Some ((bs "HTTP/1.1 404 Not Found") :: ls ++ [bs "Content-Length: " ++ digits], bs "404 Not Found") /\
  ls ≡ₚ map line_of (map_to_list (∅ : strmap)) /\ digits_value digits = 13.
Proof.
  apply (response_readable map_to_list ltac:(done) (set_content (bs "404 Not Found") SendType_STR (setStatus NOT_FOUND httpResp_init))
    [bs "404 Not Found"] 13); try done.
Qed.

Example sendFile_whole_b : exists reader r' ls digits,
  read_file (bs "/a/b.txt") (bs "hi") 3 (FileReader_init 0 true true) = Some reader /\
  sendFile_closed map_to_list reader (sendFile (bs "/a/b.txt") 0 httpResp_init) = Some r' /\
  read_head (length ls + 3) (concat (m_buffers r')) =
    Some (bs "HTTP/1.1 200 OK" :: ls ++ [bs "Content-Length: " ++ digits], bs "hi") /\ digits_value digits = 2.
Proof.
  apply (sendFile_whole map_to_list ltac:(done) (bs "/a/b.txt") (bs "hi") 3 0 httpResp_init); [lia|done|].
  replace (map_to_list _) with [(Content_Type, bs "text/plain")] by (vm_compute; reflexivity).
  constructor; [split; (intros Hin; by eapply no_cr, Hin)|constructor].
Qed.

(** The text of a status begins with its number. *)
Lemma httpStatus_str_code s : take 4 (httpStatus_str s) = to_string (httpStatus_code s) ++ bs " ".
Proof. by destruct s. Qed.

Example mime_html : getMimeType (bs "/www/index.tar.html") = bs "text/html".
Proof. vm_compute. reflexivity. Qed.
Example mime_hidden : getMimeType (bs "/www/.html") = bs "application/octet-stream".
Proof. vm_compute. reflexivity. Qed.
