(* ===== verification/HttpReply.v ===== *)
(** * The responses of httpResp.cpp, read by http_parser

    [http_parser_execute] in its response mode, on the bytes [httpResp::send] hands to the socket. *)

From S2P Require Import Prelude HttpTypes HttpUrl HttpExec HttpSafety HttpWire HttpRun HttpHead HttpBody HttpReq FileReader HttpResp.

(** ** A response on the wire *)

Record status := mkStatus {
    st_code : Z;
    st_phrase : bytes;
  }.

(** The three digits of a code. *)
Definition code_digits (code : Z) : bytes := [48 + code / 100; 48 + code / 10 mod 10; 48 + code mod 10].
Definition status_line (s : status) : bytes := bs "HTTP/1.1 " ++ code_digits (st_code s) ++ bs " " ++ st_phrase s ++ crlf.
Definition status_ok (s : status) : bool :=
  (0 <=? st_code s) && (st_code s <=? 999) && negb (bool_decide (st_phrase s = [])) && forallb (fun ch => negb (is_crlf ch)) (st_phrase s).

(** An upgrade follows a response that offers it with the status 101. *)
Definition reply_upgrade (code flags : Z) : bool := wants_upgrade flags && (code =? 101).

(** The callbacks of a response. *)
Definition body_user {U} (c : callbacks U) (body : bytes) (u : U) : U := if bool_decide (body = []) then u else cb_body c body u.
Definition reply_user {U} (c : callbacks U) (hs : list (bytes * bytes)) (body : bytes) (upgrade : bool) (u : U) : U :=
  cb_complete c upgrade (body_user c body (cb_headers c HTTP_DELETE 1 1 (fold_left (header_user c) hs (cb_begin c u)))).

Section Replies.
Context {U : Type} (c : callbacks U) (max : Z) {Hmax : Header_limit max} (lenient allow : bool) (data : bytes).
Implicit Types (x y : exec U) (p : http_parser) (m : marks) (u : U).

Abbreviation gets := (HttpRun.gets c max lenient allow data).
Abbreviation switch := (reexecute (simple_settings c) max lenient allow data 4).
Abbreviation case_of := (HttpExec.step (simple_settings c) max lenient allow data).
Abbreviation stops := (HttpBody.stops c max lenient allow data).
Abbreviation gets_then := (HttpRun.gets_then c max lenient allow data).
Abbreviation gets_byte := (HttpRun.gets_byte c max lenient allow data).
Abbreviation gets_trans := (HttpRun.gets_trans c max lenient allow data).
Abbreviation completed := (HttpBody.completed c).
Abbreviation stage code := (HttpHead.stage (Response code)).

(** ** The status line *)

(** One byte that the switch takes by computation, to the parser [q]. *)
Ltac byte q := eapply gets_then with (p' := q); [eassumption|reflexivity|lia|lia|reflexivity|intros ? ?].

(** No callback is given for the phrase: its mark is dropped. *)
Lemma gets_phrase l : forall p i ch n u j rest, here data i (l ++ crlf ++ rest) -> 0 <= n -> n + len l + 2 <= max ->
  hp_http_errno p = HPE_OK -> forallb (fun ch => negb (is_crlf ch)) l = true ->
  gets (mkExec p i ch s_res_status n (set_mark D_status (Some j) no_marks) u) (eq p)
    (i + len l + 2) s_header_field_start (n + len l + 2) no_marks u.
Proof.
  induction l as [|b l IH]; intros p i ch n u j rest Hb Hn Hm He Hl.
  - change (len (@nil Z)) with 0 in *. rewrite !Z.add_0_r in *. cbn [app crlf] in Hb.
    eapply gets_then; [exact Hb|done|lia|lia| |intros ch1 Hb1].
    { apply switch_step. unfold HttpExec.step. exec_cbn. unfold do_res_status. exec_cbn. cbn [Z.eqb Pos.eqb CR].
      unfold CALLBACK_DATA, CALLBACK_DATA_, ex_errno. exec_cbn. rewrite decide_True by done.
      cbn [simple_settings on_status data_callback]. reflexivity. }
    eapply gets_then; [exact Hb1|done|lia|lia|reflexivity|intros ch2 _].
    replace (i + 2) with (i + 1 + 1) by lia. replace (n + 2) with (n + 1 + 1) by lia. by apply gets_refl.
  - rewrite len_cons in *. pose proof (len_nonneg l). cbn [app forallb] in *. apply andb_true_iff in Hl as [Hc%negb_true_iff Hl].
    unfold is_crlf in Hc. apply orb_false_iff in Hc as [H1 H2].
    eapply gets_then; [exact Hb|done|lia|lia| |intros ch1 Hb1].
    { apply switch_step. unfold HttpExec.step. exec_cbn. unfold do_res_status. exec_cbn. rewrite H1, H2. reflexivity. }
    replace (i + (len l + 1) + 2) with (i + 1 + len l + 2) by lia. replace (n + (len l + 1) + 2) with (n + 1 + len l + 2) by lia.
    by eapply (IH p (i + 1) ch1 (n + 1) u j rest); try done; lia.
Qed.

Lemma wrap16 z : 0 <= z < 65536 -> wrap 16 z = z.
Proof. intros Hz. by apply wrap_small. Qed.

(** A digit of the code after the first. *)
Lemma status_digit p i d n m u v : 0 <= d <= 9 -> hp_status_code p = v -> 0 <= v -> v * 10 + d <= 999 ->
  switch (mkExec p i (48 + d) s_res_status_code n m u) = Break (mkExec (hp_set_status_code (v * 10 + d) p) i (48 + d) s_res_status_code n m u).
Proof.
  intros Hd Hv H0 H9. destruct (digit_num _ Hd) as [Hn Hs]. apply switch_step.
  unfold HttpExec.step. exec_cbn. unfold do_res_status_code. exec_cbn. rewrite Hn, Hs. cbn [negb]. rewrite Hv.
  assert (hp_set_status_code (hp_status_code (hp_set_status_code (v * 10) p) + d) (hp_set_status_code (v * 10) p) = hp_set_status_code (v * 10 + d) p) as Hset.
  { destruct p. unfold hp_set_status_code. cbn. by rewrite (wrap16 (v * 10)) by lia. }
  rewrite Hset. assert (hp_status_code (hp_set_status_code (v * 10 + d) p) = v * 10 + d) as -> by (destruct p; cbn; apply wrap16; lia).
  destruct (Z.ltb_spec 999 (v * 10 + d)); [lia|]. unfold on_parser. exec_cbn. by rewrite Hv, Hset.
Qed.

Lemma stage_status v ma mi te fl cl z p : stage v ma mi te fl cl p -> 0 <= z < 65536 -> stage z ma mi te fl cl (hp_set_status_code z p).
Proof. intros [[(Ht & _ & Hm) ] []] Hz. destruct p. cbn in *. subst. split; [split|]; try done. split_and!; try done. by apply wrap16. Qed.

(** Where a response has got to before its headers. *)
Abbreviation answering v := (stage v 1 1 false 0 ULLONG_MAX).

Lemma gets_reply_version p i ch n u rest : here data i (bs "HTTP/1.1 " ++ rest) -> 0 <= n -> n + 9 <= max ->
  hp_type p = HTTP_RESPONSE -> hp_method p = HTTP_DELETE -> hp_http_errno p = HPE_OK ->
  gets (mkExec p i ch s_start_res n no_marks u) (answering (hp_status_code p)) (i + 9) s_res_first_status_code (n + 9) no_marks (cb_begin c u).
Proof.
  intros Hb Hn Hm Ht Hv He. cbn [bs app] in Hb.
  eapply (gets_trans _ (parsing (Response (hp_status_code p)) false 0 ULLONG_MAX) (i + 1) s_res_H (n + 1) no_marks (cb_begin c u)).
  { eapply gets_byte; [exact Hb|done|lia|lia| |].
    - apply switch_step. unfold HttpExec.step. exec_cbn. unfold do_start_res. exec_cbn. cbn [is_crlf Z.eqb Pos.eqb CR LF orb].
      unfold CALLBACK_NOTIFY. rewrite notify_simple by first [by left|exact He]. exec_cbn. reflexivity.
    - by destruct p. }
  intros p1 ch1 Hp1. apply here_cons in Hb as (_ & _ & Hb). clear ch Ht Hv He.
  do 4 byte p1. byte (hp_set_http_major 1 p1). byte (hp_set_http_major 1 p1).
  do 2 byte (hp_set_http_minor 1 (hp_set_http_major 1 p1)). replace (i + 9) with (i + 1 + 1 + 1 + 1 + 1 + 1 + 1 + 1 + 1) by lia.
  replace (n + 9) with (n + 1 + 1 + 1 + 1 + 1 + 1 + 1 + 1 + 1) by lia. apply gets_refl.
  destruct Hp1 as [(Ht & Hs & Hv) ]. clear Hb. destruct p1. cbn in *. subst. by split; [split|].
Qed.

Lemma gets_code code p i ch n u v rest : here data i (code_digits code ++ bs " " ++ rest) -> 0 <= n -> n + 4 <= max -> 0 <= code <= 999 ->
  answering v p ->
  gets (mkExec p i ch s_res_first_status_code n no_marks u) (answering code) (i + 4) s_res_status_start (n + 4) no_marks u.
Proof.
  unfold code_digits. cbn [bs app]. intros Hb Hn Hm Hc Hst.
  assert (0 <= code / 100 <= 9) as Hd1 by (split; [apply Z.div_pos; lia|assert (code / 100 < 10) by (apply Z.div_lt_upper_bound; lia); lia]).
  pose proof (Z.mod_pos_bound (code / 10) 10 ltac:(lia)) as Hd2. pose proof (Z.mod_pos_bound code 10 ltac:(lia)) as Hd3.
  assert (code / 10 = code / 100 * 10 + code / 10 mod 10) as E2.
  { pose proof (Z.div_mod (code / 10) 10 ltac:(lia)) as E. rewrite Z.div_div in E by lia. change (10 * 10) with 100 in E. lia. }
  assert (code = code / 10 * 10 + code mod 10) as E3 by (pose proof (Z.div_mod code 10 ltac:(lia)); lia).
  set (a := code / 100) in *. set (b := code / 10 mod 10) in *. set (d := code mod 10) in *. rewrite E3, E2. clearbody a b d. clear E2 E3.
  set (p1 := hp_set_status_code a p). assert (answering a p1) as Hp1 by (apply (stage_status v); [done|lia]).
  eapply gets_then; [exact Hb|done|lia|lia| |intros ch1 Hb1].
  { destruct (digit_num _ Hd1) as [Hnum Hsub]. apply switch_step. unfold HttpExec.step. exec_cbn. unfold do_res_first_status_code. exec_cbn.
    rewrite Hnum, Hsub. reflexivity. }
  eapply gets_then; [exact Hb1|done|lia|lia|apply (status_digit p1 (i + 1) b _ _ _ a); try lia; apply Hp1|intros ch2 Hb2].
  pose proof (stage_status _ _ _ _ _ _ (a * 10 + b) _ Hp1 ltac:(lia)) as Hp2.
  eapply gets_then; [exact Hb2|done|lia|lia|apply (status_digit _ (i + 1 + 1) d _ _ _ (a * 10 + b)); try lia; apply Hp2|intros ch3 Hb3].
  byte (hp_set_status_code ((a * 10 + b) * 10 + d) (hp_set_status_code (a * 10 + b) p1)). replace (i + 4) with (i + 1 + 1 + 1 + 1) by lia. replace (n + 4) with (n + 1 + 1 + 1 + 1) by lia. apply gets_refl.
  apply (stage_status _ _ _ _ _ _ _ _ Hp2). lia.
Qed.

Lemma gets_status_line st p i ch n u rest : here data i (status_line st ++ rest) -> 0 <= n -> n + len (status_line st) <= max ->
  status_ok st = true -> hp_type p = HTTP_RESPONSE -> hp_method p = HTTP_DELETE -> hp_http_errno p = HPE_OK ->
  gets (mkExec p i ch s_start_res n no_marks u) (answering (st_code st))
    (i + len (status_line st)) s_header_field_start (n + len (status_line st)) no_marks (cb_begin c u).
Proof.
  destruct st as [code phrase]. unfold status_line, status_ok. cbn [st_code st_phrase]. intros Hb Hn Hm Hok Ht Hv He.
  apply andb_true_iff in Hok as [[[H0%Z.leb_le H9%Z.leb_le]%andb_true_iff Hne%negb_true_iff%bool_decide_eq_false]%andb_true_iff Hph].
  destruct phrase as [|b l]; [done|]. clear Hne. cbn [forallb] in Hph. apply andb_true_iff in Hph as [Hc%negb_true_iff Hl].
  pose proof (len_nonneg l). rewrite !len_app, len_cons in *. change (len (bs "HTTP/1.1 ")) with 9 in *. change (len (bs " ")) with 1 in *.
  change (len crlf) with 2 in *. change (len (code_digits code)) with 3 in *. rewrite <- !app_assoc in Hb.
  eapply gets_trans; [eapply gets_reply_version; [exact Hb|lia..|done|done|done]|intros p1 ch1 Hp1].
  apply here_app in Hb as [_ Hb]. change (len (bs "HTTP/1.1 ")) with 9 in Hb.
  eapply gets_trans; [eapply gets_code; [exact Hb|lia..|exact Hp1]|intros p2 ch2 Hp2].
  rewrite app_assoc in Hb. apply here_app in Hb as [_ Hb]. change (len (code_digits code ++ bs " ")) with 4 in Hb.
  assert (answering code (hp_set_index 0 p2)) as Hp3 by (by apply stage_index).
  eapply gets_then; [exact Hb|done|lia|lia| |intros ch3 Hb3].
  { apply switch_step. unfold HttpExec.step. exec_cbn. unfold do_res_status_start, MARK. exec_cbn. rewrite Hc. reflexivity. }
  replace (i + (9 + (3 + (1 + (len l + 1 + 2))))) with (i + 9 + 4 + 1 + len l + 2) by lia.
  replace (n + (9 + (3 + (1 + (len l + 1 + 2))))) with (n + 9 + 4 + 1 + len l + 2) by lia.
  eapply gets_weaken; [eapply gets_phrase; [exact Hb3|lia|lia|apply Hp3|exact Hl]|]. by intros p4 <-.
Qed.

(** ** The end of the head *)

Lemma reply_almost_done v ma mi fl cl p i n u : stage v ma mi false fl cl p -> flags_ok fl ->
  switch (mkExec p i LF s_headers_almost_done n no_marks u) =
  reexecute (simple_settings c) max lenient allow data 3
    (mkExec (hp_set_upgrade (reply_upgrade v fl) p) i LF s_headers_done n no_marks (cb_headers c HTTP_DELETE ma mi u)).
Proof.
  intros Hst Hfl. cbn [reexecute]. unfold HttpExec.step at 1. exec_cbn. unfold do_headers_almost_done, STRICT_CHECK. exec_cbn.
  cbn [Z.eqb Pos.eqb LF negb]. destruct Hst as [[(Ht & Hs & Hm) He Hte Hf Hc] [Hma Hmi]].
  assert (upgrade_requested p = reply_upgrade v fl) as Hu.
  { unfold upgrade_requested, reply_upgrade, wants_upgrade. rewrite Hf, Ht, Hs, Hm. by destruct (has_flag fl F_UPGRADE && _). }
  rewrite Hf, (flags_ok_has fl F_TRAILING) by done. unfold length_conflict. rewrite Hte. cbn [andb].
  unfold call_headers_complete. cbn [simple_settings on_headers_complete]. exec_cbn. unfold ex_errno. exec_cbn. rewrite Hu.
  rewrite decide_True by done. destruct p. cbn in *. by subst.
Qed.

(** What [s_headers_done] makes of the flags and the length. *)
Lemma reply_done v ma mi fl cl p i n u : stage v ma mi false fl cl p -> flags_ok fl -> has_flag fl F_CHUNKED = false ->
  0 <= cl < ULLONG_MAX ->
  let q := hp_set_nread 0 p in
  case_of (mkExec p i LF s_headers_done n no_marks u) =
  if cl =? 0 then
    if hp_upgrade q then RETURN (i + 1) (completed q i LF 0 u) else Break (completed q i LF 0 u)
  else Break (mkExec q i LF s_body_identity 0 no_marks u).
Proof.
  intros Hst Hfl Hch Hcl q. assert (stage v ma mi false fl cl q) as Hq by (by apply stage_nread).
  unfold HttpExec.step. exec_cbn. unfold do_headers_done, STRICT_CHECK, reset_nread. exec_cbn. cbn [Z.eqb Pos.eqb LF negb].
  fold q. clear Hst. pose proof Hq as [[(_ & _ & Hm) He Hte Hf Hc] _].
  rewrite Hf, Hc, Hte, Hm, Hch, (flags_ok_has fl F_SKIPBODY), (bool_decide_false (HTTP_DELETE = _)) by done. cbn [orb].
  assert (negb (cl =? ULLONG_MAX) = true) as -> by lia. rewrite andb_true_r.
  assert (negb (0 <? cl) = (cl =? 0)) as -> by lia.
  destruct (hp_upgrade q) eqn:Hu, (cl =? 0); cbn [andb]; try done; by refine (eq_trans (complete_notify c q i LF _ _ u _ _ He) _).
Qed.

(** A call returned after a whole response. *)
Definition reply_left (code : Z) (upgrade alive : bool) p : Prop :=
  about (Response code) p /\ hp_http_errno p = HPE_OK /\ hp_upgrade p = upgrade /\ hp_state p = if alive then s_start_res else s_dead.

Lemma reply_alive v ma mi fl cl p : stage v ma mi false fl cl p -> cl < ULLONG_MAX -> NEW_MESSAGE p = if alive ma mi fl then s_start_res else s_dead.
Proof.
  intros [[(Ht & _ & _) _ Hte Hf Hc] [Hma Hmi]] Hcl. unfold NEW_MESSAGE, http_should_keep_alive, alive.
  assert (http_message_needs_eof p = false) as ->.
  { unfold http_message_needs_eof. rewrite decide_False, Hte, Hc by (by rewrite Ht). assert ((cl =? ULLONG_MAX) = false) as -> by lia.
    destruct (_ || _); [done|]. cbn. by rewrite orb_true_r. }
  unfold start_state. rewrite Hf, Hma, Hmi, decide_False by (by rewrite Ht). by destruct (_ && _), (has_flag _ _).
Qed.

(** The round that ends the response: the loop returns, or is at the end of the buffer. *)
Lemma reply_round v ma mi fl cl p i ch s n u b l q j u' : here data i (b :: l) -> stage v ma mi false fl cl q -> cl < ULLONG_MAX -> i <= j ->
  (hp_upgrade q = false -> j + 1 = len data) ->
  round (simple_settings c) max lenient allow data (mkExec p i ch s n no_marks u) =
    (if hp_upgrade q then RETURN (j + 1) (completed q j b 0 u') else Break (completed q j b 0 u')) ->
  stops (mkExec p i ch s n no_marks u) (reply_left v (hp_upgrade q) (alive ma mi fl)) (j + 1) (cb_complete c (hp_upgrade q) u').
Proof.
  intros Hb Hq Hcl Hj Hend Hr. destruct (here_cons _ _ _ _ Hb) as (_ & Hi & _). unfold HttpBody.completed in Hr.
  rewrite (reply_alive _ _ _ _ _ _ Hq Hcl) in Hr. pose proof Hq as [[Hab He _ _ _] _].
  destruct (hp_upgrade q) eqn:Hup.
  - eexists. split; [|intros k Hk; destruct k as [|k]; [cbn in *; lia|]].
    2: { cbn [main_loop]. exec_cbn. unfold data_len. destruct (Z.eqb_spec i (len data)); [lia|]. by rewrite Hr. }
    split; [by destruct q|]. split; [by destruct q|]. split; [by destruct q|]. by destruct (alive ma mi fl).
  - set (s' := if alive ma mi fl then s_start_res else s_dead) in *.
    exists (hp_set_state s' (hp_set_nread 0 (hp_set_state s' q))). split; [by destruct q|]. intros k Hk.
    destruct (reaches_round c max lenient allow data
      (mkExec p i ch s n no_marks u) (mkExec (hp_set_state s' q) j b s' 0 no_marks (cb_complete c false u')) ltac:(cbn; lia) ltac:(cbn; lia) Hr k Hk)
      as (k' & _ & ->). unfold ex_set_p. exec_cbn. rewrite (Hend eq_refl). by apply loop_ends.
Qed.

(** ** The body *)

Lemma reply_body_ends v ma mi fl p i ch u body : stage v ma mi false fl (len body) p -> body <> [] -> len body < ULLONG_MAX ->
  here data i body -> (hp_upgrade p = false -> i + len body = len data) ->
  stops (mkExec p i ch s_body_identity 0 no_marks u) (reply_left v (hp_upgrade p) (alive ma mi fl)) (i + len body)
    (cb_complete c (hp_upgrade p) (cb_body c body u)).
Proof.
  intros Hst Hne Hmx Hb Hend. pose proof (here_bound _ _ _ Hb Hne). destruct body as [|b l] eqn:Eb; [done|]. rewrite <- Eb in *.
  assert (0 < len body) by (rewrite Eb, len_cons; pose proof (len_nonneg l); lia). pose proof Hb as Hb1. rewrite Eb in Hb1.
  set (q := hp_set_state s_message_done (hp_set_content_length 0 p)).
  assert (stage v ma mi false fl 0 q) as Hq by (apply stage_state; by eapply stage_length).
  change (hp_upgrade p) with (hp_upgrade q) in *. replace (i + len body) with (i + len body - 1 + 1) in * by lia.
  eapply (reply_round v ma mi fl 0 p i ch _ _ _ b l q); [exact Hb1|exact Hq|done|lia|done|].
  rewrite (round_body _ _ _ _ _ _ _ _ _ _ _ _ b l) by done. cbn [reexecute].
  erewrite body_step by (done || lia). rewrite message_done_step by apply Hq. fold q. by destruct (hp_upgrade q).
Qed.

Lemma reply_ends v ma mi fl p i ch n u body rest : stage v ma mi false fl (len body) p -> flags_ok fl -> has_flag fl F_CHUNKED = false ->
  here data i (LF :: body ++ rest) -> 0 <= n < max -> len body < ULLONG_MAX -> (reply_upgrade v fl = false -> i + 1 + len body = len data) ->
  stops (mkExec p i ch s_headers_almost_done n no_marks u) (reply_left v (reply_upgrade v fl) (alive ma mi fl)) (i + 1 + len body)
    (cb_complete c (reply_upgrade v fl) (body_user c body (cb_headers c HTTP_DELETE ma mi u))).
Proof.
  intros Hst Hfl Hch Hb Hn Hmx Hend. destruct (here_cons _ _ _ _ Hb) as (_ & Hi & Hb'). apply here_app in Hb' as [Hb' _].
  pose proof (len_nonneg body).
  set (q := hp_set_nread 0 (hp_set_upgrade (reply_upgrade v fl) p)).
  assert (stage v ma mi false fl (len body) q) as Hq by (by apply stage_nread, stage_upgrade).
  assert (round (simple_settings c) max lenient allow data (mkExec p i ch s_headers_almost_done n no_marks u) =
    if len body =? 0 then
      if hp_upgrade q then RETURN (i + 1) (completed q i LF 0 (cb_headers c HTTP_DELETE ma mi u)) else Break (completed q i LF 0 (cb_headers c HTTP_DELETE ma mi u))
    else Break (mkExec q i LF s_body_identity 0 no_marks (cb_headers c HTTP_DELETE ma mi u))) as Hr.
  { erewrite round_header by (exact Hb || done || lia). rewrite (reply_almost_done v ma mi fl (len body)) by done. cbn [reexecute].
    rewrite (reply_done v ma mi fl (len body)) by (by apply stage_upgrade || done || lia). fold q.
    destruct (len body =? 0), (hp_upgrade q); done. }
  change (reply_upgrade v fl) with (hp_upgrade q) in Hend |- *. unfold body_user. destruct body as [|b l] eqn:Eb.
  - rewrite bool_decide_true by done. change (len (@nil Z)) with 0 in *. rewrite Z.add_0_r in *.
    by eapply (reply_round v ma mi fl 0).
  - rewrite <- Eb in *. rewrite bool_decide_false by (by rewrite Eb).
    assert ((len body =? 0) = false) as Hl by (rewrite Eb, len_cons; pose proof (len_nonneg l); lia). rewrite Hl in Hr.
    eapply (gets_stops c max lenient allow data _ (eq q) (i + 1)).
    + exists q, LF. split; [done|]. apply (reaches_round c max lenient allow data (mkExec p i ch s_headers_almost_done n no_marks u)
        (mkExec q i LF s_body_identity 0 no_marks (cb_headers c HTTP_DELETE ma mi u))); [cbn; lia|cbn; lia|exact Hr].
    + intros p' ch' <-. apply reply_body_ends; try done. by rewrite Eb.
Qed.

(** A whole response, whose headers give the length of its body. *)
Lemma reply_run st hs fl body rest p i ch u : here data i (status_line st ++ flat_map header_text hs ++ crlf ++ body ++ rest) ->
  len (status_line st ++ flat_map header_text hs ++ crlf) <= max ->
  status_ok st = true -> hp_type p = HTTP_RESPONSE -> hp_method p = HTTP_DELETE -> hp_http_errno p = HPE_OK ->
  headers_effect hs (0, ULLONG_MAX) = Some (fl, len body) -> has_flag fl F_CHUNKED = false -> forallb HttpWire.header_ok hs = true -> len body < ULLONG_MAX ->
  (reply_upgrade (st_code st) fl = false -> i + len (status_line st ++ flat_map header_text hs ++ crlf ++ body) = len data) ->
  stops (mkExec p i ch s_start_res 0 no_marks u) (reply_left (st_code st) (reply_upgrade (st_code st) fl) (alive 1 1 fl))
    (i + len (status_line st ++ flat_map header_text hs ++ crlf ++ body)) (reply_user c hs body (reply_upgrade (st_code st) fl) u).
Proof.
  intros Hb Hm Hst Ht Hv He Heff Hch Hok Hmx Hend. pose proof (headers_effect_flags _ _ _ _ _ Heff eq_refl) as Hfl.
  rewrite !len_app in *. change (len crlf) with 2 in *. pose proof (len_nonneg (status_line st)). pose proof (len_nonneg (flat_map header_text hs)).
  set (n1 := len (status_line st)) in *. set (n2 := len (flat_map header_text hs)) in *.
  eapply gets_stops; [eapply gets_status_line; [exact Hb|lia|fold n1; lia|done..]|]. intros p1 ch1 Hp1. fold n1.
  apply here_app in Hb as [_ Hb]. fold n1 in Hb.
  destruct (gets_headers c max lenient allow data (Response (st_code st)) 1 1 hs 0 ULLONG_MAX fl (len body) p1 s_header_field_start (i + n1) ch1
    (0 + n1) (cb_begin c u) _ Heff eq_refl Hok (or_introl (conj eq_refl Hp1)) Hb) as [s' Hg]; [lia|fold n2; lia|].
  eapply gets_stops; [exact Hg|]. intros p2 ch2 Hp2. fold n2 in Hp2 |- *. apply here_app in Hb as [_ Hb]. fold n2 in Hb.
  change (crlf ++ body ++ rest) with (CR :: LF :: body ++ rest) in Hb.
  eapply gets_stops; [eapply (gets_empty c max lenient allow data); [exact Hp2|exact Hb|lia|lia]|]. intros p3 ch3 Hp3. rewrite Hch in Hp3.
  apply here_cons in Hb as (_ & _ & Hb).
  replace (i + (n1 + (n2 + (2 + len body)))) with (i + n1 + n2 + 1 + 1 + len body) in * by lia.
  eapply reply_ends; try done; lia.
Qed.
End Replies.

(** ** What [send] writes *)

Definition status_of (s : httpStatus) : status := mkStatus (httpStatus_code s) (drop 4 (httpStatus_str s)).

Lemma status_of_ok s : status_ok (status_of s) = true.
Proof. by destruct s. Qed.
Lemma status_of_line s : status_line (status_of s) = bs "HTTP/1.1 " ++ httpStatus_str s ++ crlf.
Proof. by destruct s. Qed.

Definition length_header (n : Z) : bytes * bytes := (bs "Content-Length", to_string n).

Lemma to_string_nums n : forallb IS_NUM (to_string n) = true.
Proof.
  rewrite forallb_forall. intros ch Hin%list_elem_of_In. assert (Forall (fun c => 48 <= c <= 57) (to_string n)) as Hall by (apply to_string_loop_chars; constructor).
  rewrite Forall_forall in Hall. specialize (Hall ch Hin). unfold IS_NUM. lia.
Qed.

Lemma length_header_ok n : 0 <= n < 10 ^ 18 -> HttpWire.header_ok (length_header n) = true.
Proof.
  intros Hn. destruct (to_string_digits n ltac:(lia)) as (d & ds & Hd & Hd1 & _). pose proof (to_string_nums n) as Hnum.
  unfold HttpWire.header_ok, length_header. cbn [fst snd]. rewrite !andb_true_iff. split; [split; [by vm_compute|]|].
  - rewrite forallb_forall in *. intros ch Hin. specialize (Hnum ch Hin). unfold IS_NUM in Hnum.
    unfold value_char_ok, IS_HEADER_CHAR, is_crlf, CR, LF. lia.
  - rewrite Hd. unfold TAB. lia.
Qed.

Lemma length_header_effect n fl cl : 0 <= n < 10 ^ 18 -> has_flag fl F_CONTENTLENGTH = false ->
  headers_effect [length_header n] (fl, cl) = Some (Z.lor fl F_CONTENTLENGTH, n).
Proof.
  intros Hn Hfl. cbn [headers_effect header_effect length_header fst snd]. change (kind_of (bs "Content-Length")) with K_length. cbn iota.
  pose proof (to_string_loop_short 20 n 17 Hn) as Hl. fold (to_string n) in Hl.
  rewrite to_string_nums, Hfl, to_string_value by lia. by assert ((len (to_string n) <=? 18) = true) as -> by lia.
Qed.

Lemma headers_effect_app hs ks s : headers_effect (hs ++ ks) s = s' ← headers_effect hs s; headers_effect ks s'.
Proof. revert s. induction hs as [|h hs IH]; intros s; [done|]. cbn [app headers_effect]. by destruct (header_effect h s) as [s1|]; [apply IH|]. Qed.

Section Responses.
Context (order : strmap -> list (bytes * bytes)) {U : Type} (c : callbacks U) (max : Z) {Hmax : Header_limit max}.

(** The headers of a response as they are sent. *)
Definition sent_headers (r : httpResp) (n : Z) : list (bytes * bytes) := order (m_headers r) ++ [length_header n].

Lemma send_text r r' bufs n : body_of r = Some (bufs, n) -> send order r = Some r' ->
  m_head r' = status_line (status_of (m_status r)) ++ flat_map header_text (sent_headers r n) ++ crlf /\
  concat (m_buffers r') = m_head r' ++ concat bufs.
Proof.
  unfold send. intros -> [= <-]. split; [|done]. cbn [m_head]. rewrite status_of_line. unfold sent_headers. rewrite flat_map_app.
  cbn [flat_map]. rewrite app_nil_r, <- !app_assoc. do 3 f_equal. rewrite flat_map_concat_map. f_equal.
  unfold header_text, length_header. by rewrite <- !app_assoc.
Qed.

(** On the bytes of a response whose Content-Length is the number of its bytes, the parser runs the callbacks of the response. *)
Lemma response_run (r r' : httpResp) (bufs : list bytes) (n fl : Z) (rest : bytes) (u : U)
    (Hsend : send order r = Some r') (Hbody : body_of r = Some (bufs, n)) (Hn : n = len (concat bufs)) (Hsmall : n < 10 ^ 18)
    (Hok : forallb HttpWire.header_ok (order (m_headers r)) = true)
    (Heff : headers_effect (order (m_headers r)) (0, ULLONG_MAX) = Some (fl, ULLONG_MAX))
    (Hlen : has_flag fl F_CONTENTLENGTH = false) (Hch : has_flag fl F_CHUNKED = false) (Hhead : len (m_head r') <= max)
    (Hrest : reply_upgrade (httpStatus_code (m_status r)) fl = false -> rest = []) :
  let upgrade := reply_upgrade (httpStatus_code (m_status r)) fl in
  exists p', http_parser_execute (simple_settings c) max (http_parser_init HTTP_RESPONSE) (concat (m_buffers r') ++ rest) u =
      Done (len (concat (m_buffers r'))) p' (reply_user c (sent_headers r n) (concat bufs) upgrade u) /\
    reply_left (httpStatus_code (m_status r)) upgrade (alive 1 1 fl) p'.
Proof.
  intros upgrade. pose proof (len_nonneg (concat bufs)). rewrite <- Hn in *. destruct (send_text r r' bufs n Hbody Hsend) as [Ehead Ewire].
  set (st := status_of (m_status r)) in *. set (hs := sent_headers r n) in *.
  assert (headers_effect hs (0, ULLONG_MAX) = Some (Z.lor fl F_CONTENTLENGTH, len (concat bufs))) as Heff'.
  { unfold hs, sent_headers. rewrite headers_effect_app, Heff. cbn [mbind option_bind]. rewrite <- Hn. by apply length_header_effect. }
  assert (forallb HttpWire.header_ok hs = true) as Hok' by (unfold hs, sent_headers; rewrite forallb_app, Hok; cbn; by rewrite length_header_ok).
  assert (forall f, has_flag F_CONTENTLENGTH f = false -> has_flag (Z.lor fl F_CONTENTLENGTH) f = has_flag fl f) as Hsame
    by (intros f Hf; by rewrite has_flag_lor, Hf, orb_false_r).
  assert (reply_upgrade (httpStatus_code (m_status r)) (Z.lor fl F_CONTENTLENGTH) = upgrade) as Hup by (unfold upgrade, reply_upgrade, wants_upgrade; by rewrite !Hsame).
  assert (alive 1 1 (Z.lor fl F_CONTENTLENGTH) = alive 1 1 fl) as Hal by (unfold alive; by rewrite !Hsame).
  set (data := concat (m_buffers r') ++ rest).
  assert (here data 0 (status_line st ++ flat_map header_text hs ++ crlf ++ concat bufs ++ rest)) as Hb.
  { split; [done|]. exists []. unfold data. by rewrite Ewire, Ehead, drop_0, <- !app_assoc, app_nil_r. }
  assert (len (concat (m_buffers r')) = len (status_line st ++ flat_map header_text hs ++ crlf ++ concat bufs)) as Hlw
    by (by rewrite Ewire, Ehead, <- !app_assoc).
  destruct (reply_run c max false false data st hs (Z.lor fl F_CONTENTLENGTH) (concat bufs) rest (http_parser_init HTTP_RESPONSE) 0 0 u)
    as (p' & Hp' & Hrun); try done; [by rewrite <- Ehead|by apply status_of_ok|by rewrite Hsame|rewrite <- Hn; unfold ULLONG_MAX; lia| |].
  - change (st_code st) with (httpStatus_code (m_status r)). rewrite Hup. intros Hno. rewrite Z.add_0_l, <- Hlw. unfold data.
    by rewrite (Hrest Hno), app_nil_r.
  - change (st_code st) with (httpStatus_code (m_status r)) in *. rewrite Hup, Hal in *. exists p'. split; [|done].
    assert (0 < len data) as Hd.
    { unfold data. rewrite Ewire, Ehead, !len_app. unfold status_line. rewrite !len_app. change (len (bs "HTTP/1.1 ")) with 9.
      repeat match goal with |- context [len ?l] => lazymatch goal with _ : 0 <= len l |- _ => fail | _ => pose proof (len_nonneg l) end end. lia. }
    unfold http_parser_execute. fold data. destruct (Z.eqb_spec (len data) 0); [lia|]. rewrite Hlw. apply Hrun. unfold len. cbn. lia.
Qed.
(** *** The ways to send a body

    A text, a JSON text, the page of an error, and a file: [sendFile], the reads of its reader, and the callback of its close. *)
Inductive sending :=
  | By_str (text : bytes)
  | By_json (text : bytes)
  | By_err
  | By_file (path file : bytes) (fd fd0 : Z).

Definition send_by (w : sending) (r : httpResp) : option httpResp :=
  match w with
  | By_str text => sendStr order text r
  | By_json text => sendJson order text r
  | By_err => sendErr order r
  | By_file path file fd fd0 =>
      reader ← read_file path file fd (FileReader_init fd0 true true); sendFile_closed order reader (sendFile path fd0 r)
  end.

(** What is to be sent: the bytes of the body, the status and the headers. *)
Definition sent_body (w : sending) : bytes :=
  match w with By_str text | By_json text => text | By_err => bs "500 Internal Server Error" | By_file _ file _ _ => file end.
Definition sent_status (w : sending) (r : httpResp) : httpStatus :=
  match w with By_err => INTERNAL_SERVER_ERROR | _ => m_status r end.
Definition sent_map (w : sending) (r : httpResp) : strmap :=
  match w with
  | By_str _ => <[bs "Content-Type" := bs "text/plain"]> (m_headers r)
  | By_json _ => <[bs "Content-Type" := bs "application/json"]> (m_headers r)
  | By_err => <[bs "Content-Type" := bs "text/plain"]> ∅
  | By_file path _ _ _ => <[bs "Content-Type" := getMimeType path]> (m_headers r)
  end.
Definition opens_file (w : sending) : Prop := match w with By_file _ _ fd _ => 0 <= fd | _ => True end.

(** The response that [send] is called on, and the length that it announces. *)
Lemma send_by_response w r : opens_file w ->
  exists y bufs, send_by w r = send order y /\ body_of y = Some (bufs, len (sent_body w)) /\ concat bufs = sent_body w /\
    m_status y = sent_status w r /\ m_headers y = sent_map w r.
Proof.
  intros Hw. destruct w as [text|text| |path file fd fd0]; cbn [send_by sent_body sent_status sent_map opens_file] in *.
  - eexists _, [text]. split; [done|]. cbn. by rewrite app_nil_r.
  - eexists _, [text]. split; [done|]. cbn. by rewrite app_nil_r.
  - eexists _, [bs "500 Internal Server Error"]. by split.
  - destruct (file_read path file fd fd0 true Hw) as (reader & k & -> & Hc & Hn & _).
    eexists (set_reader path (Some reader) (sendFile path fd0 r)), (contents reader). split; [done|].
    split; [|by split]. cbn. by rewrite Hn, Hc.
Qed.

(** C7. What the server writes is what [http_parser] reads.  A response is sent as a text, as a JSON text, as the page of an error,
    or as a file that is read to its end: [send] makes its buffers, and on their bytes the parser, in its response mode, runs the
    callbacks of the headers, of a Content-Length that is the number of bytes of the body, and of the body, ends with the status code
    of the response and is ready for the next one, unless [Connection] closes it; after a response that upgrades it stops at the
    first byte that follows. *)
Theorem response_parsed (w : sending) (r : httpResp) (fl : Z) (rest : bytes) (u : U)
    (Hw : opens_file w) (Hsmall : len (sent_body w) < 10 ^ 18)
    (Hok : forallb HttpWire.header_ok (order (sent_map w r)) = true)
    (Heff : headers_effect (order (sent_map w r)) (0, ULLONG_MAX) = Some (fl, ULLONG_MAX))
    (Hlen : has_flag fl F_CONTENTLENGTH = false) (Hch : has_flag fl F_CHUNKED = false) :
  let hs := order (sent_map w r) ++ [(bs "Content-Length", to_string (len (sent_body w)))] in
  let code := httpStatus_code (sent_status w r) in
  let upgrade := reply_upgrade code fl in
  len (status_line (status_of (sent_status w r)) ++ flat_map header_text hs ++ crlf) <= max ->
  (upgrade = false -> rest = []) ->
  exists r' p', send_by w r = Some r' /\
    http_parser_execute (simple_settings c) max (http_parser_init HTTP_RESPONSE) (concat (m_buffers r') ++ rest) u =
      Done (len (concat (m_buffers r'))) p' (reply_user c hs (sent_body w) upgrade u) /\
    reply_left code upgrade (alive 1 1 fl) p'.
Proof.
  cbv zeta. intros Hhead Hrest. destruct (send_by_response w r Hw) as (y & bufs & Hs & Hb & Hc & Est & Ehd).
  destruct (send order y) as [r'|] eqn:Hsend; [|by unfold send in Hsend; rewrite Hb in Hsend]. exists r'.
  destruct (send_text y r' bufs _ Hb Hsend) as [Eh _]. unfold sent_headers in Eh. rewrite Est, Ehd in Eh.
  destruct (response_run y r' bufs (len (sent_body w)) fl rest u) as (p' & Hrun & Hleft); rewrite ?Est, ?Ehd, ?Eh, ?Hc; try done.
  exists p'. split; [done|]. unfold sent_headers in Hrun. rewrite Est, Ehd, Hc in *. done.
Qed.
End Responses.

(** A response of [sendStr] after [setHeader("Connection", "close")]: the callbacks, in a list, and the parser dead to what follows. *)
Definition reply_log : callbacks (list bytes) := {|
    cb_begin l := bs "begin" :: l;
    cb_url b l := b :: l;
    cb_field b l := b :: l;
    cb_value b l := b :: l;
    cb_headers _ major minor l := to_string major :: to_string minor :: l;
    cb_body b l := b :: l;
    cb_complete u l := bs "complete" :: l;
  |}.

Definition sample_reply : httpResp := setHeader (bs "Connection") (bs "close") (setStatus NOT_FOUND httpResp_init).
Definition sample_run (w : sending) : Prop :=
  exists r' p', send_by map_to_list w sample_reply = Some r' /\
    http_parser_execute (simple_settings reply_log) HTTP_MAX_HEADER_SIZE (http_parser_init HTTP_RESPONSE) (concat (m_buffers r') ++ []) [] =
      Done (len (concat (m_buffers r'))) p'
        (reply_user reply_log (map_to_list (sent_map w sample_reply) ++ [(bs "Content-Length", to_string (len (sent_body w)))])
           (sent_body w) false []) /\
    reply_left 404 false false p'.

(** A text, and a file longer than one buffer of its reader. *)
Lemma response_parsed_witness :
  sample_run (By_str (bs "no such page")) /\ sample_run (By_file (bs "/www/404.html") (replicate 1500 65) 3 0).
Proof.
  split.
  - apply (response_parsed map_to_list reply_log HTTP_MAX_HEADER_SIZE (By_str (bs "no such page")) sample_reply F_CONNECTION_CLOSE [] []);
      try by vm_compute.
  - apply (response_parsed map_to_list reply_log HTTP_MAX_HEADER_SIZE (By_file (bs "/www/404.html") (replicate 1500 65) 3 0) sample_reply F_CONNECTION_CLOSE [] []);
      try by vm_compute.
Defined.

Example sample_user : reply_user reply_log
  (map_to_list (sent_map (By_str (bs "no such page")) sample_reply) ++ [(bs "Content-Length", to_string 12)]) (bs "no such page") false [] =
  rev [bs "begin"; bs "Connection"; bs "close"; bs "Content-Type"; bs "text/plain"; bs "Content-Length"; bs "12"; bs "1"; bs "1"; bs "no such page"; bs "complete"].
Proof. vm_compute. reflexivity. Qed.
