(* ===== verification/HttpServer.v ===== *)
(** * HTTP sessions and the server (include/httpserver.h, src/core/httpserver.cpp)

    The handlers of a connection: reads feed http_parser_execute, whose callbacks
    build the request and dispatch it; a written response keeps the connection
    alive, closes it or hands it over to the WebSocket server.  OpenSSL's SHA1 and
    Base64 filter are the functions [sha1] and [base64]; the application's handlers
    answer with the calls they make on the response. *)

From S2P Require Import Prelude WsSession HttpTypes HttpExec HttpSafety HttpReq HttpRouter FileReader HttpResp.
From stdpp Require Import gmap.
#[local] Open Scope Z_scope.

(** ** Data *)

(** What a handler may call on its response. *)
Inductive resp_call :=
  | Call_setStatus (s : httpStatus)
  | Call_setHeader (k v : bytes)
  | Call_sendStr (str : bytes)
  | Call_sendJson (text : bytes)
  | Call_respFile (path : bytes).

(** The callback [m_onSent] of a response. *)
Inductive onSent := OnSent_session | OnSent_upgrade.

Inductive http_effect :=
  | H_read_start
  | H_read_stop
  | H_close
  | H_write (resp : nat) (bufs : list bytes)
  | H_timer_start (ms : Z)
  | H_timer_stop
  | H_file_read (resp : nat) (path : bytes)
  | H_upgrade         (* onUpgradeCb *)
  | H_assert_failed.  (* the process aborts *)

Record Session := mkHSession {
    m_tmpKey : bytes;
    m_req : httpReq;
    m_recvBuf_len : Z;
    m_isKeepAlive : bool;
    timer_data : bool;     (* m_keepAliveTimer.data is not null *)
    timer_active : bool;
  }.

(** A response, with the session its [m_onSent] holds weakly. *)
Record RespRec := mkRespRec { r_resp : httpResp; r_session : nat; r_onSent : onSent }.

Record HttpServer (RE : RegexEngine) (A : Type) := mkHttpServer {
    m_router : httpRouter (httpReq -> A -> A * list resp_call);
    m_sessions : list nat;
    m_keepAliveTimeout : Z;
    onUpgradeCb : bool;    (* is set *)
    sess : gmap nat Session;
    resps : gmap nat RespRec;
    next_resp : nat;
    h_app : A;
    h_log : list (nat * http_effect);
  }.
Arguments mkHttpServer {RE A}.
Arguments m_router {RE A}.
Arguments m_sessions {RE A}.
Arguments m_keepAliveTimeout {RE A}.
Arguments onUpgradeCb {RE A}.
Arguments sess {RE A}.
Arguments resps {RE A}.
Arguments next_resp {RE A}.
Arguments h_app {RE A}.
Arguments h_log {RE A}.

Definition HTTP_DEFAULT_KEEP_ALIVE_TIMEOUT : Z := 20.
Definition HTTP_DEFAULT_RECV_BUF_SIZE : Z := Z.shiftl 1 16.

(** The constructor of a session. *)
Definition Session_init (m : http_method) (port : Z) : Session :=
  mkHSession [] (httpReq_init m port) HTTP_DEFAULT_RECV_BUF_SIZE false true false.

Definition set_tmpKey (k : bytes) (s : Session) : Session :=
  mkHSession k (m_req s) (m_recvBuf_len s) (m_isKeepAlive s) (timer_data s) (timer_active s).
Definition on_req (f : httpReq -> httpReq) (s : Session) : Session :=
  mkHSession (m_tmpKey s) (f (m_req s)) (m_recvBuf_len s) (m_isKeepAlive s) (timer_data s) (timer_active s).
Definition set_recvBuf_len (n : Z) (s : Session) : Session :=
  mkHSession (m_tmpKey s) (m_req s) n (m_isKeepAlive s) (timer_data s) (timer_active s).
Definition set_isKeepAlive (b : bool) (s : Session) : Session :=
  mkHSession (m_tmpKey s) (m_req s) (m_recvBuf_len s) b (timer_data s) (timer_active s).
Definition set_timer (data active : bool) (s : Session) : Session :=
  mkHSession (m_tmpKey s) (m_req s) (m_recvBuf_len s) (m_isKeepAlive s) data active.

(** ** The accept key (src/util/ssl.cpp) *)

Definition WS_GUID : bytes := bs "258EAFA5-E914-47DA-95CA-C5AB0DC85B11".

Section Server.
Context {RE : RegexEngine} {A : Type}.
(** OpenSSL, the iteration order of the response's headers, [max_header_size]. *)
Context (sha1 base64 : bytes -> bytes) (order : strmap -> list (bytes * bytes)) (max_header_size : Z).
Implicit Types (w : HttpServer RE A) (self : nat).

Definition base64_encode (input : bytes) : bytes := match input with [] => [] | _ => base64 input end.
Definition calculate_accept_key (client_key : bytes) : bytes := base64_encode (sha1 (client_key ++ WS_GUID)).

(** ** Updates *)

Definition h_emit self (e : http_effect) w : HttpServer RE A :=
  mkHttpServer (m_router w) (m_sessions w) (m_keepAliveTimeout w) (onUpgradeCb w) (sess w) (resps w) (next_resp w) (h_app w)
    (h_log w ++ [(self, e)]).
Definition upd self (f : Session -> Session) w : HttpServer RE A :=
  mkHttpServer (m_router w) (m_sessions w) (m_keepAliveTimeout w) (onUpgradeCb w) (alter f self (sess w)) (resps w) (next_resp w)
    (h_app w) (h_log w).
Definition upd_resps (f : gmap nat RespRec -> gmap nat RespRec) w : HttpServer RE A :=
  mkHttpServer (m_router w) (m_sessions w) (m_keepAliveTimeout w) (onUpgradeCb w) (sess w) (f (resps w)) (next_resp w)
    (h_app w) (h_log w).
Definition set_sessions (l : list nat) w : HttpServer RE A :=
  mkHttpServer (m_router w) l (m_keepAliveTimeout w) (onUpgradeCb w) (sess w) (resps w) (next_resp w) (h_app w) (h_log w).
Definition set_h_app (a : A) w : HttpServer RE A :=
  mkHttpServer (m_router w) (m_sessions w) (m_keepAliveTimeout w) (onUpgradeCb w) (sess w) (resps w) (next_resp w) a (h_log w).
Definition set_router (r : httpRouter (httpReq -> A -> A * list resp_call)) w : HttpServer RE A :=
  mkHttpServer r (m_sessions w) (m_keepAliveTimeout w) (onUpgradeCb w) (sess w) (resps w) (next_resp w) (h_app w) (h_log w).

(** [HttpServer::get], [HttpServer::post] and [setKeepAliveTimeout]. *)
Definition get (u : bytes) (cb : httpReq -> A -> A * list resp_call) w : HttpServer RE A :=
  set_router (addRoute HTTP_GET u cb (m_router w)) w.
Definition post (u : bytes) (cb : httpReq -> A -> A * list resp_call) w : HttpServer RE A :=
  set_router (addRoute HTTP_POST u cb (m_router w)) w.
Definition setKeepAliveTimeout (timeout : Z) w : HttpServer RE A :=
  mkHttpServer (m_router w) (m_sessions w) timeout (onUpgradeCb w) (sess w) (resps w) (next_resp w) (h_app w) (h_log w).

(** [HttpServer::onUpgrade], which a WebSocket server calls. *)
Definition onUpgrade w : HttpServer RE A :=
  mkHttpServer (m_router w) (m_sessions w) (m_keepAliveTimeout w) true (sess w) (resps w) (next_resp w) (h_app w) (h_log w).

(** ** Responses *)

(** [initResp]: the response and its number. *)
Definition initResp self w : nat * HttpServer RE A :=
  let r := next_resp w in
  (r, mkHttpServer (m_router w) (m_sessions w) (m_keepAliveTimeout w) (onUpgradeCb w) (sess w)
        (<[r := mkRespRec httpResp_init self OnSent_session]> (resps w)) (S r) (h_app w) (h_log w)).

Definition on_resp (r : nat) (f : httpResp -> httpResp) w : HttpServer RE A :=
  upd_resps (alter (fun x => mkRespRec (f (r_resp x)) (r_session x) (r_onSent x)) r) w.
(** [httpResp::onSent] *)
Definition resp_onSent (r : nat) (cb : onSent) w : HttpServer RE A :=
  upd_resps (alter (fun x => mkRespRec (r_resp x) (r_session x) cb) r) w.
(** A sending method: the response it leaves is written to the client. *)
Definition send_resp (r : nat) (f : httpResp -> option httpResp) w : HttpServer RE A :=
  match resps w !! r with
  | None => w
  | Some x =>
      match f (r_resp x) with
      | None => w
      | Some y => h_emit (r_session x) (H_write r (m_buffers y)) (on_resp r (fun _ => y) w)
      end
  end.

Definition do_resp_call (r : nat) (c : resp_call) w : HttpServer RE A :=
  match c with
  | Call_setStatus s => on_resp r (setStatus s) w
  | Call_setHeader k v => on_resp r (setHeader k v) w
  | Call_sendStr s => send_resp r (sendStr order s) w
  | Call_sendJson t => send_resp r (sendJson order t) w
  | Call_respFile p =>
      match resps w !! r with
      | None => w
      | Some x => h_emit (r_session x) (H_file_read r p) (on_resp r (sendFile p 0) w)
      end
  end.

Definition handle_errReq (r : nat) w : HttpServer RE A :=
  send_resp r (sendStr order (bs "404 Not Found")) (on_resp r (setStatus NOT_FOUND) w).

(** [upgradeToWs] *)
Definition upgradeToWs self (r : nat) w : HttpServer RE A :=
  match sess w !! self with
  | None => w
  | Some s =>
      let w := on_resp r (setStatus SWITCHING_PROTOCOLS) w in
      let w := on_resp r (setHeader (bs "upgrade") (bs "websocket")) w in
      let w := on_resp r (setHeader (bs "connection") (bs "Upgrade")) w in
      let client_key := default [] (headers (m_req s) !! bs "sec-websocket-key") in
      let hs := <[bs "sec-websocket-key" := client_key]> (headers (m_req s)) in
      let w := upd self (on_req (set_headers hs)) w in
      let w := on_resp r (setHeader (bs "sec-websocket-accept") (calculate_accept_key client_key)) w in
      let w := resp_onSent r OnSent_upgrade w in
      send_resp r (sendStr order []) w
  end.

(** ** The session *)

Definition needKeepConnection (req : httpReq) : bool :=
  match headers req !! bs "connection" with
  | Some v => bool_decide (v = bs "keep-alive")
  | None => false
  end.

Definition startKeepAliveTimer self w : HttpServer RE A :=
  h_emit self (H_timer_start (m_keepAliveTimeout w * 1000))
    (upd self (fun s => set_isKeepAlive true (set_timer true true s)) w).
Definition stopKeepAliveTimer self w : HttpServer RE A :=
  h_emit self H_timer_stop (upd self (fun s => set_timer false false (set_isKeepAlive false s)) w).

Definition removeSession self w : HttpServer RE A := set_sessions (swap_remove self (m_sessions w)) w.
Definition closeSession self (isUpgrade : bool) w : HttpServer RE A :=
  let w := h_emit self H_read_stop w in
  let w := if isUpgrade then w else h_emit self H_close w in
  removeSession self w.
Definition upgradeSession self w : HttpServer RE A :=
  if onUpgradeCb w then h_emit self H_upgrade (closeSession self true w) else h_emit self H_assert_failed w.

(** [handle_request]; [upgrade] is [m_parser.upgrade]. *)
Definition handle_request self (upgrade : bool) w : HttpServer RE A :=
  let '(r, w) := initResp self w in
  match sess w !! self with
  | None => w
  | Some s =>
      let w := upd self (set_isKeepAlive (needKeepConnection (m_req s))) w in
      if upgrade then upgradeToWs self r w
      else
        let '(h, req) := dispatch (m_router w) (m_req s) in
        let w := upd self (on_req (fun _ => req)) w in
        match h with
        | Some h =>
            let '(a, cs) := h req (h_app w) in
            fold_left (fun w c => do_resp_call r c w) cs (set_h_app a w)
        | None => handle_errReq r w
        end
  end.

(** ** The callbacks of the parser *)

Definition tolower (c : Z) : Z := if ("A"%chr <=? c) && (c <=? "Z"%chr) then c + 32 else c.

Definition onReqMessageBegin self w : HttpServer RE A :=
  upd self (on_req (fun r => set_parsed false (set_url [] (set_body [] (set_headers ∅ r))))) w.
Definition onReqURL self (at_ : bytes) w : HttpServer RE A := upd self (on_req (set_url at_)) w.
Definition onReqHeaderField self (at_ : bytes) w : HttpServer RE A := upd self (set_tmpKey (map tolower at_)) w.
(** [insert] does not replace. *)
Definition insert_new (k v : bytes) (m : strmap) : strmap :=
  match m !! k with Some _ => m | None => <[k := v]> m end.
Definition onReqHeaderValue self (at_ : bytes) w : HttpServer RE A :=
  upd self (fun s => on_req (fun r => set_headers (insert_new (m_tmpKey s) at_ (headers r)) r) s) w.
Definition onReqHeaderComplete self (p : http_parser) w : HttpServer RE A :=
  upd self (on_req (fun r => set_version (to_string (hp_http_major p) ++ bs "." ++ to_string (hp_http_minor p))
    (set_method (hp_method p) r))) w.
Definition onReqBody self (at_ : bytes) w : HttpServer RE A :=
  upd self (on_req (fun r => set_body (body r ++ at_) r)) w.
Definition onReqMessageComplete self (p : http_parser) w : HttpServer RE A := handle_request self (hp_upgrade p) w.

Definition m_settings self : http_parser_settings (HttpServer RE A) := {|
  on_message_begin := Some (fun p w => (0, p, onReqMessageBegin self w));
  on_url := Some (fun p b w => (0, p, onReqURL self b w));
  on_status := None;
  on_header_field := Some (fun p b w => (0, p, onReqHeaderField self b w));
  on_header_value := Some (fun p b w => (0, p, onReqHeaderValue self b w));
  on_headers_complete := Some (fun p w => (0, p, onReqHeaderComplete self p w));
  on_body := Some (fun p b w => (0, p, onReqBody self b w));
  on_message_complete := Some (fun p w => (0, p, onReqMessageComplete self p w));
  on_chunk_header := None;
  on_chunk_complete := None;
  |}.

(** ** The events *)

(** [recv_cb] with the parser of the session: an error or the end ([None]), or bytes.
  The result of the parse is only compared, to print a message. *)
Definition recv_cb self (data : option bytes) (p : http_parser) w : option (http_parser * HttpServer RE A) :=
  match data with
  | None => Some (p, closeSession self false (stopKeepAliveTimer self w))
  | Some data =>
      let w := if default false (m_isKeepAlive <$> sess w !! self) then stopKeepAliveTimer self w else w in
      match http_parser_execute (m_settings self) max_header_size p data w with
      | Done _ p w => Some (p, w)
      | _ => None
      end
  end.

(** [recv_alloc_cb] is the same code as in WebSocket.cpp. *)
Definition recv_alloc_cb self (suggested_size : Z) w : option (HttpServer RE A) :=
  match sess w !! self with
  | None => None
  | Some s =>
      match alloc_loop 41 (m_recvBuf_len s) suggested_size with
      | Some n => Some (upd self (set_recvBuf_len n) w)
      | None => None
      end
  end.

(** [handle_connect] *)
Definition handle_connect self (m : http_method) (port0 : Z) (peer : option (bytes * Z)) w : HttpServer RE A :=
  let w := mkHttpServer (m_router w) (m_sessions w ++ [self]) (m_keepAliveTimeout w) (onUpgradeCb w)
    (<[self := on_req (set_ip peer) (Session_init m port0)]> (sess w)) (resps w) (next_resp w) (h_app w) (h_log w) in
  h_emit self H_read_start w.

(** The callback of the keep-alive timer, which libuv has stopped by then. *)
Definition keepAliveTimerCb self w : HttpServer RE A :=
  match sess w !! self with
  | Some s =>
      let w := upd self (fun s => set_timer (timer_data s) false s) w in
      if timer_data s then closeSession self false w else w
  | None => w
  end.

(** [onWriteEnd] and the [m_onSent] it calls; the weak pointer can be locked while the
  server holds the session. *)
Definition onWriteEnd (r : nat) w : HttpServer RE A :=
  match resps w !! r with
  | None => w
  | Some x =>
      let self := r_session x in
      if bool_decide (self ∈ m_sessions w) then
        match r_onSent x with
        | OnSent_session =>
            if default false (m_isKeepAlive <$> sess w !! self)
            then startKeepAliveTimer self w else closeSession self false w
        | OnSent_upgrade => upgradeSession self w
        end
      else w
  end.

(** The reader of [sendFile] is closed, or failed. *)
Definition file_closed (r : nat) (reader : FileReader) w : HttpServer RE A :=
  send_resp r (sendFile_closed order reader) w.
Definition file_failed (r : nat) w : HttpServer RE A := send_resp r (sendFile_failed order) w.

(** [transferBufferToWsSession] *)
Definition transferBufferToWsSession self w : Z * HttpServer RE A :=
  (default 0 (m_recvBuf_len <$> sess w !! self), upd self (set_recvBuf_len 0) w).
End Server.
