(* ===== verification/HttpService.v ===== *)
(** * What the HTTP server guarantees

    The server as a system: any interleaving of connections, reads, timers,
    completed writes, finished files and late calls on responses, over any number of
    sessions.  Sessions are closed at most once, none is closed while the server
    holds it, a read never fails an assertion; then the functional behaviour of the
    requests: the upgrade handshake, dispatch and 404, keep-alive. *)

From S2P Require Import Prelude WsSession HttpTypes HttpExec HttpSafety HttpReq HttpRouter FileReader HttpResp HttpServer.
From stdpp Require Import gmap.
#[local] Open Scope Z_scope.

#[export] Instance http_effect_eq_dec : EqDecision http_effect.
Proof. solve_decision. Defined.

(** ** What the callbacks of the parser may change *)

Section Quiet.
Context {RE : RegexEngine} {A : Type}.
Implicit Types (w : HttpServer RE A) (self i : nat).

(** The part of a session the timers and the buffer are about. *)
Definition timer_view w i : option (bool * bool * Z) :=
  (fun s => (timer_data s, timer_active s, HttpServer.m_recvBuf_len s)) <$> sess w !! i.
Definition keeps_alive w i : bool := default false (m_isKeepAlive <$> sess w !! i).
Definition timer_on w i : bool := default false (timer_active <$> sess w !! i).

Definition sends (e : nat * http_effect) : Prop :=
  match snd e with H_write _ _ | H_file_read _ _ => True | _ => False end.

(** The responses and the effects belong to sessions that were accepted. *)
Record owned w : Prop := {
  ow_resps : forall r x, resps w !! r = Some x -> is_Some (sess w !! r_session x);
  ow_log : forall i e, (i, e) ∈ h_log w -> is_Some (sess w !! i);
  }.

(** Between the two only the request and the keep-alive flag of [self] and the
  responses change, and bytes may be sent. *)
Record quiet self w0 w : Prop := {
  q_sessions : m_sessions w = m_sessions w0;
  q_timeout : m_keepAliveTimeout w = m_keepAliveTimeout w0;
  q_upgrade : onUpgradeCb w = onUpgradeCb w0;
  q_view : forall i, timer_view w i = timer_view w0 i;
  q_alive : forall i, i <> self -> keeps_alive w i = keeps_alive w0 i;
  q_log : exists l, h_log w = h_log w0 ++ l /\ Forall sends l;
  q_owned : is_Some (sess w0 !! self) -> owned w0 -> owned w;
  }.

Lemma timer_view_sess w i : is_Some (timer_view w i) <-> is_Some (sess w !! i).
Proof. unfold timer_view. by rewrite fmap_is_Some. Qed.

#[export] Instance quiet_preorder self : PreOrder (quiet self).
Proof.
  split.
  - intros w. split; try done. exists []. by rewrite app_nil_r.
  - intros w1 w2 w3 [A1 B1 E1 C1 D1 (l & L1 & F1) G1] [A2 B2 E2 C2 D2 (k & L2 & F2) G2]. split; try congruence.
    + intros i Hi. by rewrite D2, D1.
    + exists (l ++ k). split; [|by apply Forall_app]. rewrite L2, L1. by rewrite app_assoc.
    + intros Hs Ho. apply G2; [|by apply G1]. by rewrite <- timer_view_sess, C1, timer_view_sess.
Qed.

Lemma quiet_upd self f w :
  (forall s, timer_data (f s) = timer_data s /\ timer_active (f s) = timer_active s /\
    HttpServer.m_recvBuf_len (f s) = HttpServer.m_recvBuf_len s) ->
  quiet self w (upd self f w).
Proof.
  intros Hf. split; try done.
  - intros i. unfold timer_view. cbn. rewrite lookup_alter. case_decide as Hi; [subst i|done].
    destruct (sess w !! self) as [s|]; [|done]. cbn. by destruct (Hf s) as (-> & -> & ->).
  - intros i Hi. unfold keeps_alive. cbn. by rewrite lookup_alter_ne.
  - exists []. by rewrite app_nil_r.
  - intros _ [H1 H2]. split; cbn; intros; rewrite lookup_alter_is_Some; [by eapply H1|by eapply H2].
Qed.

Lemma quiet_on_req self f w : quiet self w (upd self (on_req f) w).
Proof. by apply quiet_upd. Qed.

(** A response keeps its session. *)
Lemma quiet_alter self f r w : (forall x, r_session (f x) = r_session x) -> quiet self w (upd_resps (alter f r) w).
Proof.
  intros Hf. split; try done; [exists []; by rewrite app_nil_r|]. intros _ [H1 H2]. split; [|done]. cbn.
  intros r' x. rewrite lookup_alter. case_decide; [|apply H1]. subst.
  destruct (resps w !! r') as [y|] eqn:E; [|done]. intros [= <-]. rewrite Hf. by eapply H1.
Qed.

Lemma quiet_app self a w : quiet self w (set_h_app a w).
Proof. split; try done; [exists []; by rewrite app_nil_r|]. intros _ [H1 H2]. by split. Qed.

Lemma quiet_emit self i e w : sends (i, e) -> (owned w -> is_Some (sess w !! i)) -> quiet self w (h_emit i e w).
Proof.
  intros He Hi. split; try done; [exists [(i, e)]; split; [done|by constructor]|]. intros _ Ho.
  split; [apply (ow_resps _ Ho)|]. cbn. intros j e'. rewrite elem_of_app, list_elem_of_singleton.
  intros [Hin|[= -> _]]; [by eapply (ow_log _ Ho)|by apply Hi].
Qed.

Lemma quiet_on_resp self r f w : quiet self w (on_resp r f w).
Proof. by apply quiet_alter. Qed.

Lemma quiet_send_resp self r f w : quiet self w (send_resp r f w).
Proof.
  unfold send_resp. destruct (resps w !! r) as [x|] eqn:Ex; [|done]. destruct (f (r_resp x)); [|done].
  etrans; [apply quiet_on_resp|apply quiet_emit; [done|]]. intros [H1 _]. apply (H1 r (mkRespRec h (r_session x) (r_onSent x))).
  cbn. by rewrite lookup_alter_eq, Ex.
Qed.

Context (sha1 base64 : bytes -> bytes) (order : strmap -> list (bytes * bytes)).

Lemma quiet_resp_call self r c w : quiet self w (do_resp_call order r c w).
Proof.
  destruct c; cbn [do_resp_call]; try apply quiet_on_resp; try apply quiet_send_resp.
  destruct (resps w !! r) as [x|] eqn:Ex; [|done]. etrans; [apply quiet_on_resp|apply quiet_emit; [done|]].
  intros [H1 _]. apply (H1 r (mkRespRec (sendFile path 0 (r_resp x)) (r_session x) (r_onSent x))). cbn. by rewrite lookup_alter_eq, Ex.
Qed.

Lemma quiet_resp_calls self r cs w : quiet self w (fold_left (fun w c => do_resp_call order r c w) cs w).
Proof.
  revert w. induction cs as [|c cs IH]; intros w; [done|]. cbn [fold_left].
  etrans; [apply quiet_resp_call|apply IH].
Qed.

Lemma quiet_initResp self w : quiet self w (initResp self w).2.
Proof.
  split; try done; [exists []; by rewrite app_nil_r|]. intros Hs [H1 H2]. split; [|done]. cbn. intros r x.
  rewrite lookup_insert. case_decide; [by intros [= <-]|apply H1].
Qed.

Lemma quiet_handle_request self b w : quiet self w (handle_request sha1 base64 order self b w).
Proof.
  unfold handle_request. pose proof (quiet_initResp self w) as Hi.
  destruct (initResp self w) as [r w1]. cbn [snd] in Hi. etrans; [exact Hi|]. clear Hi.
  destruct (sess w1 !! self) as [s|]; [|done].
  etrans; [by apply (quiet_upd self (set_isKeepAlive (needKeepConnection (m_req s))))|].
  destruct b.
  - unfold upgradeToWs. destruct (sess _ !! self); [|done].
    do 3 (etrans; [apply quiet_on_resp|]). etrans; [apply quiet_on_req|].
    etrans; [apply quiet_on_resp|]. etrans; [|apply quiet_send_resp]. by apply quiet_alter.
  - destruct (dispatch _ _) as [[h|] req].
    + etrans; [apply quiet_on_req|]. destruct (h req _) as [a cs].
      etrans; [apply quiet_app|apply quiet_resp_calls].
    + etrans; [apply quiet_on_req|]. unfold handle_errReq.
      etrans; [apply quiet_on_resp|apply quiet_send_resp].
Qed.

(** The callbacks of the session are good callbacks for the parser. *)
Lemma m_settings_ok self w0 : settings_ok (quiet self w0) (m_settings sha1 base64 order self).
Proof.
  constructor.
  - intros [] f; cbn; intros [= <-] ????? [= <- <- <-]; (split; [by left|]); intros Hq; (etrans; [exact Hq|]);
      [apply quiet_on_req|apply quiet_handle_request].
  - intros [] f; cbn; intros [= <-] ?????? [= <- <- <-]; (split; [by left|]); intros Hq; (etrans; [exact Hq|]);
      by apply quiet_upd.
  - intros f; cbn; intros [= <-] ????? [= <- <- <-]; (split; [by left|]); intros Hq; (etrans; [exact Hq|]);
      apply quiet_on_req.
Qed.
End Quiet.

(** ** The server as a system *)

Record System (RE : RegexEngine) (A : Type) := mkSystem {
    srv : HttpServer RE A;
    hparsers : gmap nat http_parser;
  }.
Arguments mkSystem {RE A}.
Arguments srv {RE A}.
Arguments hparsers {RE A}.

Section System.
Context {RE : RegexEngine} {A : Type}.
Context (sha1 base64 : bytes -> bytes) (order : strmap -> list (bytes * bytes)) (max_header_size : Z).
Implicit Types (w : HttpServer RE A) (s : System RE A) (self i : nat).

Abbreviation recv_cb := (HttpServer.recv_cb sha1 base64 order max_header_size).

Definition set_srv w s : System RE A := mkSystem w (hparsers s).

(** An accepted connection: the session, with its parser initialised by the constructor. *)
Definition connect self m port peer s : System RE A :=
  mkSystem (handle_connect self m port peer (srv s)) (<[self := http_parser_init HTTP_REQUEST]> (hparsers s)).

(** A read of a session the server holds. *)
Definition read self (data : option bytes) s : option (System RE A) :=
  match hparsers s !! self with
  | None => None
  | Some p =>
      match recv_cb self data p (srv s) with
      | Some (p', w) => Some (mkSystem w (<[self := p']> (hparsers s)))
      | None => None
      end
  end.

(** One event of the loop. *)
Inductive http_step : System RE A -> System RE A -> Prop :=
  | step_connect s self m port peer :
      sess (srv s) !! self = None -> (forall e, (self, e) ∉ h_log (srv s)) ->
      http_step s (connect self m port peer s)
  | step_read s s' self data : self ∈ m_sessions (srv s) -> read self data s = Some s' -> http_step s s'
  | step_alloc s self n w : self ∈ m_sessions (srv s) -> n <= 2 ^ 62 ->
      recv_alloc_cb self n (srv s) = Some w -> http_step s (set_srv w s)
  | step_timer s self : timer_on (srv s) self = true -> http_step s (set_srv (keepAliveTimerCb self (srv s)) s)
  | step_written s r : http_step s (set_srv (onWriteEnd r (srv s)) s)
  | step_closed s r reader : http_step s (set_srv (file_closed order r reader (srv s)) s)
  | step_failed s r : http_step s (set_srv (file_failed order r (srv s)) s)
  | step_call s r c : http_step s (set_srv (do_resp_call order r c (srv s)) s)
  | step_transfer s self : (self, H_upgrade) ∈ h_log (srv s) ->
      http_step s (set_srv (transferBufferToWsSession self (srv s)).2 s).

Definition System_init (r : httpRouter (httpReq -> A -> A * list resp_call)) (timeout : Z) (up : bool) (a : A) : System RE A :=
  mkSystem (mkHttpServer r [] timeout up ∅ ∅ 0 a []) ∅.

(** ** The invariant *)

(** How often the handle of [i] was closed. *)
Definition closes w i : nat := length (filter (fun e => e = (i, H_close)) (h_log w)).

Record http_inv w : Prop := {
  hi_nodup : NoDup (m_sessions w);
  hi_sess : forall i, i ∈ m_sessions w -> exists b n, timer_view w i = Some (b, n) /\ HTTP_DEFAULT_RECV_BUF_SIZE <= n;
  hi_timer : forall i, timer_on w i = true -> keeps_alive w i = true;
  hi_live : forall i, timer_on w i = true -> i ∈ m_sessions w \/ (i, H_upgrade) ∈ h_log w;
  hi_upgraded : forall i, (i, H_upgrade) ∈ h_log w -> i ∉ m_sessions w;
  hi_open : forall i, i ∈ m_sessions w \/ timer_on w i = true -> closes w i = 0%nat;
  hi_once : forall i, (closes w i <= 1)%nat;
  }.

Lemma timer_on_view w i : timer_on w i = default false ((fun v => v.1.2) <$> timer_view w i).
Proof. unfold timer_on, timer_view. by destruct (sess w !! i). Qed.

Lemma quiet_timer_on self w w' i : quiet self w w' -> timer_on w' i = timer_on w i.
Proof. intros Hq. by rewrite !timer_on_view, (q_view _ _ _ Hq). Qed.

Lemma sends_log l k e : Forall sends k -> ~ sends e -> e ∈ l ++ k -> e ∈ l.
Proof. rewrite elem_of_app, Forall_forall. intros Hk He [?|Hin]; [done|]. by destruct He; apply Hk. Qed.

Lemma closes_app (l k : list (nat * http_effect)) i : length (filter (fun e => e = (i, H_close)) (l ++ k)) =
  (length (filter (fun e => e = (i, H_close)) l) + length (filter (fun e => e = (i, H_close)) k))%nat.
Proof. by rewrite filter_app, length_app. Qed.

Lemma sends_closes l i : Forall sends l -> filter (fun e => e = (i, H_close)) l = [].
Proof.
  induction 1 as [|e l He Hl IH]; [done|]. rewrite filter_cons_False; [done|]. by intros ->.
Qed.

Lemma quiet_closes self w w' i : quiet self w w' -> closes w' i = closes w i.
Proof.
  intros Hq. destruct (q_log _ _ _ Hq) as (l & Hl & Hs). unfold closes.
  rewrite Hl, closes_app, (sends_closes l) by done. apply Nat.add_0_r.
Qed.

Lemma quiet_upgraded self w w' i : quiet self w w' -> (i, H_upgrade) ∈ h_log w' <-> (i, H_upgrade) ∈ h_log w.
Proof.
  intros Hq. destruct (q_log _ _ _ Hq) as (l & -> & Hs). split.
  - apply sends_log; [done|by intros []].
  - rewrite elem_of_app. by left.
Qed.

(** A quiet change keeps the invariant when it keeps the flag of a running timer. *)
Lemma quiet_inv self w w' :
  quiet self w w' -> (timer_on w self = true -> keeps_alive w' self = true) -> http_inv w -> http_inv w'.
Proof.
  intros Hq Ha [H1 H2 H3 H4 H5 H6 H7]. pose proof (q_sessions _ _ _ Hq) as Hs. split; rewrite ?Hs; try done.
  - intros i Hi. rewrite (q_view _ _ _ Hq). by apply H2.
  - intros i. rewrite (quiet_timer_on _ _ _ _ Hq). intros Hi. destruct (decide (i = self)) as [->|Hne]; [by apply Ha|].
    rewrite (q_alive _ _ _ Hq) by done. by apply H3.
  - intros i. rewrite (quiet_timer_on _ _ _ _ Hq), (quiet_upgraded _ _ _ _ Hq). apply H4.
  - intros i. rewrite (quiet_upgraded _ _ _ _ Hq). apply H5.
  - intros i. rewrite (quiet_timer_on _ _ _ _ Hq), (quiet_closes _ _ _ _ Hq). apply H6.
  - intros i. by rewrite (quiet_closes _ _ _ _ Hq).
Qed.

(** *** The steps that start and stop timers or close *)

Lemma timer_view_upd j f w i :
  timer_view (upd j f w) i = if decide (j = i)
    then (fun (s : Session) => (timer_data s, timer_active s, HttpServer.m_recvBuf_len s)) <$> (f <$> sess w !! i) else timer_view w i.
Proof. unfold timer_view. cbn. rewrite lookup_alter. case_decide; by subst. Qed.

Lemma keeps_alive_upd j f w i :
  keeps_alive (upd j f w) i = if decide (j = i)
    then default false (m_isKeepAlive <$> (f <$> sess w !! i)) else keeps_alive w i.
Proof. unfold keeps_alive. cbn. rewrite lookup_alter. case_decide; by subst. Qed.

Lemma closes_emit j e w i : closes (h_emit j e w) i = (closes w i + if decide ((j, e) = (i, H_close)) then 1 else 0)%nat.
Proof. unfold closes. cbn [h_emit h_log]. rewrite closes_app, filter_cons. by case_decide. Qed.

Lemma closes_emit_other j e w i : e <> H_close -> closes (h_emit j e w) i = closes w i.
Proof. intros He. rewrite closes_emit, decide_False; [apply Nat.add_0_r|]. by intros [=]. Qed.

Lemma upgraded_emit j e w i :
  (i, H_upgrade) ∈ h_log (h_emit j e w) <-> (i, H_upgrade) ∈ h_log w \/ (j = i /\ e = H_upgrade).
Proof. cbn. rewrite elem_of_app, list_elem_of_singleton. split; intros [?|H]; auto; right; [by injection H as -> ->|by destruct H as [-> ->]]. Qed.

Lemma stop_timer_on self w i : timer_on (stopKeepAliveTimer self w) i = if decide (self = i) then false else timer_on w i.
Proof.
  rewrite !timer_on_view. change (timer_view (stopKeepAliveTimer self w)) with
    (timer_view (upd self (fun (s : Session) => set_timer false false (set_isKeepAlive false s)) w)).
  rewrite timer_view_upd. case_decide; [|done]. by destruct (sess w !! i).
Qed.

Lemma stop_inv self w : http_inv w -> http_inv (stopKeepAliveTimer self w).
Proof.
  intros [H1 H2 H3 H4 H5 H6 H7]. split; try done.
  - intros i Hi. destruct (H2 i Hi) as (b & n & Hb & Hn). unfold timer_view in *. cbn. rewrite lookup_alter.
    case_decide; [|by eauto]. subst. destruct (sess w !! i) as [s|]; [|done]. injection Hb as _ <-. by eexists _, _.
  - intros i. rewrite stop_timer_on. case_decide as Hi; [done|]. intros Ht. rewrite <- (H3 i Ht).
    change (keeps_alive (stopKeepAliveTimer self w)) with (keeps_alive (upd self (fun (s : Session) => set_timer false false (set_isKeepAlive false s)) w)).
    rewrite keeps_alive_upd. by case_decide.
  - intros i. rewrite stop_timer_on. case_decide; [done|]. intros Ht. unfold stopKeepAliveTimer.
    rewrite upgraded_emit. destruct (H4 i Ht); auto.
  - intros i. unfold stopKeepAliveTimer. rewrite upgraded_emit. intros [Hu|[_ ?]]; [by apply (H5 i)|done].
  - intros i. rewrite stop_timer_on. unfold stopKeepAliveTimer. rewrite closes_emit_other by done.
    intros [Hi|Hi]; apply H6; [by left|]. case_decide; [done|by right].
  - intros i. unfold stopKeepAliveTimer. rewrite closes_emit_other by done. apply H7.
Qed.

Lemma start_inv self w : self ∈ m_sessions w -> http_inv w -> http_inv (startKeepAliveTimer self w).
Proof.
  intros Hself [H1 H2 H3 H4 H5 H6 H7]. set (w' := startKeepAliveTimer self w).
  assert (forall i, timer_on w' i = true -> i = self \/ timer_on w i = true) as Hon.
  { intros i. rewrite !timer_on_view. change (timer_view w') with
      (timer_view (upd self (fun (s : Session) => set_isKeepAlive true (set_timer true true s)) w)).
    rewrite timer_view_upd. case_decide; by auto. }
  split; try done.
  - intros i Hi. destruct (H2 i Hi) as (b & n & Hb & Hn). unfold timer_view in *. cbn. rewrite lookup_alter.
    case_decide; [|by eauto]. subst. destruct (sess w !! i) as [s|]; [|done]. injection Hb as _ <-. by eexists _, _.
  - intros i Hi. change (keeps_alive w') with (keeps_alive (upd self (fun (s : Session) => set_isKeepAlive true (set_timer true true s)) w)).
    rewrite keeps_alive_upd. case_decide.
    + subst. destruct (H2 i Hself) as (b & n & Hb & _). unfold timer_view in Hb. by destruct (sess w !! i).
    + destruct (Hon i Hi); [by subst|]. by apply H3.
  - intros i Hi. unfold w', startKeepAliveTimer. rewrite upgraded_emit. destruct (Hon i Hi) as [->|Hi']; [by left|].
    destruct (H4 i Hi'); auto.
  - intros i. unfold w', startKeepAliveTimer. rewrite upgraded_emit. intros [Hu|[_ ?]]; [by apply (H5 i)|done].
  - intros i Hi. unfold w', startKeepAliveTimer. rewrite closes_emit_other by done. apply H6.
    destruct Hi as [Hi|Hi]; [by left|]. destruct (Hon i Hi) as [->|?]; [by left|by right].
  - intros i. unfold w', startKeepAliveTimer. rewrite closes_emit_other by done. apply H7.
Qed.

(** Closing a session that is not closed and whose timer is off. *)
Lemma close_inv self w : http_inv w -> timer_on w self = false -> closes w self = 0%nat -> http_inv (closeSession self false w).
Proof.
  intros [H1 H2 H3 H4 H5 H6 H7] Hoff H0. destruct (swap_remove_NoDup self (m_sessions w) H1) as [Hnd Hni].
  assert (Hel : forall i, i ∈ swap_remove self (m_sessions w) <-> i ∈ m_sessions w /\ i <> self) by (intros; by apply swap_remove_elem_of).
  assert (Hcl : forall i, closes (closeSession self false w) i = (closes w i + if decide (self = i) then 1 else 0)%nat).
  { intros i. unfold closeSession, removeSession. change (closes (set_sessions ?l ?v) i) with (closes v i).
    rewrite !closes_emit. rewrite (decide_False (P := (_, H_read_stop) = _)) by done.
    rewrite Nat.add_0_r. f_equal. by repeat case_decide; simplify_eq. }
  assert (Hup : forall i, (i, H_upgrade) ∈ h_log (closeSession self false w) <-> (i, H_upgrade) ∈ h_log w).
  { intros i. unfold closeSession, removeSession. cbn [h_log set_sessions]. rewrite !upgraded_emit. split; [intros [[?|[_ ?]]|[_ ?]]; done|by auto]. }
  split.
  - done.
  - intros i Hi%Hel. apply H2. tauto.
  - exact H3.
  - intros i Hi. rewrite Hup. destruct (H4 i Hi) as [?|?]; [left|by right]. apply Hel. split; [done|]. intros ->.
    change (timer_on w self = true) in Hi. congruence.
  - intros i Hi%Hup. rewrite Hel. intros [? _]. by apply (H5 i).
  - intros i Hi. rewrite Hcl. assert (i <> self).
    { intros ->. destruct Hi as [[_ ?]%Hel|Hi]; [done|]. change (timer_on w self = true) in Hi. congruence. }
    rewrite decide_False, Nat.add_0_r by done. apply H6. destruct Hi as [[? _]%Hel|?]; auto.
  - intros i. rewrite Hcl. case_decide; [subst; lia|]. rewrite Nat.add_0_r. apply H7.
Qed.

(** An effect that is neither a close nor an upgrade. *)
Lemma emit_inv i e w : e <> H_close -> e <> H_upgrade -> http_inv w -> http_inv (h_emit i e w).
Proof.
  intros He He' [H1 H2 H3 H4 H5 H6 H7].
  assert (forall j, (j, H_upgrade) ∈ h_log (h_emit i e w) <-> (j, H_upgrade) ∈ h_log w) as Hup.
  { intros j. rewrite upgraded_emit. split; [intros [?|[_ ?]]; done|by auto]. }
  split; try done.
  - intros j Hj. rewrite Hup. by apply H4.
  - intros j Hj%Hup. by apply H5.
  - intros j Hj. rewrite closes_emit_other by done. by apply H6.
  - intros j. rewrite closes_emit_other by done. apply H7.
Qed.

Lemma upgrade_inv self w : self ∈ m_sessions w -> http_inv w -> http_inv (upgradeSession self w).
Proof.
  intros Hself Hw. unfold upgradeSession. destruct (onUpgradeCb w); [|by apply emit_inv].
  set (w' := h_emit self H_upgrade _). destruct Hw as [H1 H2 H3 H4 H5 H6 H7]. destruct (swap_remove_NoDup self (m_sessions w) H1) as [Hnd Hni].
  assert (Hel : forall i, i ∈ m_sessions w' <-> i ∈ m_sessions w /\ i <> self) by (intros; by apply swap_remove_elem_of).
  assert (Hcl : forall i, closes w' i = closes w i).
  { intros i. unfold w', closeSession, removeSession. cbv zeta. rewrite closes_emit_other by done.
    change (closes (set_sessions ?l ?v) i) with (closes v i). by apply closes_emit_other. }
  assert (Hup : forall i, (i, H_upgrade) ∈ h_log w' <-> (i, H_upgrade) ∈ h_log w \/ self = i).
  { intros i. unfold w'. rewrite upgraded_emit. unfold closeSession, removeSession.
    cbn [h_log set_sessions]. rewrite upgraded_emit. split; [intros [[?|[_ ?]]|[? _]]; auto; done|intros [?|?]; auto]. }
  split.
  - done.
  - intros i Hi%Hel. apply H2. tauto.
  - exact H3.
  - intros i Hi. rewrite Hup. destruct (H4 i Hi) as [?|?]; [|by auto].
    destruct (decide (self = i)); [by auto|left]. apply Hel. split; [done|congruence].
  - intros i Hi%Hup. rewrite Hel. intros [? ?]. destruct Hi as [Hi|?]; [by apply (H5 i)|congruence].
  - intros i Hi. rewrite Hcl. apply H6. destruct Hi as [[? _]%Hel|?]; auto.
  - intros i. by rewrite Hcl.
Qed.

(** A change of the timer or the buffer of one session. *)
Lemma upd_inv self f w :
  (forall x, m_isKeepAlive (f x) = m_isKeepAlive x) ->
  (forall x, timer_active (f x) = true -> timer_active x = true) ->
  (self ∈ m_sessions w -> forall x, sess w !! self = Some x -> HttpServer.m_recvBuf_len x <= HttpServer.m_recvBuf_len (f x)) ->
  http_inv w -> http_inv (upd self f w).
Proof.
  intros Ha Ht Hb [H1 H2 H3 H4 H5 H6 H7].
  assert (forall i, timer_on (upd self f w) i = true -> timer_on w i = true) as Hon.
  { intros i. rewrite !timer_on_view, timer_view_upd. unfold timer_view. case_decide; [|done].
    destruct (sess w !! i) as [x|]; [|done]. apply Ht. }
  split; try done.
  - intros i Hi. destruct (H2 i Hi) as (b & n & Hv & Hn). rewrite timer_view_upd. case_decide; [|by eauto]. subst i.
    unfold timer_view in Hv. destruct (sess w !! self) as [x|] eqn:Ex; [|done]. injection Hv as _ <-.
    specialize (Hb Hi x eq_refl). eexists _, _. split; [done|lia].
  - intros i Hi. rewrite <- (H3 i (Hon i Hi)), keeps_alive_upd. unfold keeps_alive. case_decide; [|done].
    destruct (sess w !! i) as [x|]; [|done]. apply Ha.
  - intros i Hi. apply H4, Hon, Hi.
  - intros i Hi. apply H6. destruct Hi as [?|Hi]; [by left|right; apply Hon, Hi].
Qed.

Lemma timer_inv self w : timer_on w self = true -> http_inv w -> http_inv (keepAliveTimerCb self w).
Proof.
  intros Hon Hw. unfold keepAliveTimerCb. destruct (sess w !! self) as [x|] eqn:Ex; [|done].
  set (f := fun x => _). assert (http_inv (upd self f w)) as Hw'.
  { apply upd_inv; try done; intros; lia. }
  destruct (timer_data x); [|done]. apply close_inv; [done| |].
  - rewrite timer_on_view, timer_view_upd, decide_True by done. by rewrite Ex.
  - apply (hi_open _ Hw). by right.
Qed.

Lemma connect_inv self m port peer w :
  sess w !! self = None -> (forall e, (self, e) ∉ h_log w) -> http_inv w -> http_inv (handle_connect self m port peer w).
Proof.
  intros Hfresh Hlog [H1 H2 H3 H4 H5 H6 H7].
  assert (self ∉ m_sessions w) as Hni.
  { intros Hin. destruct (H2 self Hin) as (b & n & Hv & _). unfold timer_view in Hv. by rewrite Hfresh in Hv. }
  set (w' := handle_connect _ _ _ _ _). assert (Hcl : forall i, closes w' i = closes w i)
    by (intros; unfold w', handle_connect; by rewrite closes_emit_other).
  assert (Hup : forall i, (i, H_upgrade) ∈ h_log w' <-> (i, H_upgrade) ∈ h_log w).
  { intros i. unfold w', handle_connect. rewrite upgraded_emit. cbn [h_log]. split; [intros [?|[_ ?]]; done|by auto]. }
  assert (H0 : closes w self = 0%nat).
  { unfold closes. destruct (filter _ _) as [|e l] eqn:E; [done|]. assert (e ∈ e :: l) as He by left.
    rewrite <- E in He. apply list_elem_of_filter in He as [-> He]. by apply Hlog in He. }
  assert (Hv : forall i, i <> self -> timer_view w' i = timer_view w i /\ keeps_alive w' i = keeps_alive w i).
  { intros i Hi. unfold timer_view, keeps_alive. cbn. by rewrite lookup_insert_ne. }
  assert (Hon : forall i, timer_on w' i = true -> i <> self /\ timer_on w i = true).
  { intros i Hi. destruct (decide (i = self)) as [->|Hne].
    - rewrite timer_on_view in Hi. unfold timer_view in Hi. cbn in Hi. by rewrite lookup_insert_eq in Hi.
    - rewrite timer_on_view, (proj1 (Hv i Hne)) in Hi. by rewrite timer_on_view. }
  assert (Hel : forall i, i ∈ m_sessions w' <-> i ∈ m_sessions w \/ i = self).
  { intros i. cbn. by rewrite elem_of_app, list_elem_of_singleton. }
  split.
  - cbn. apply NoDup_app. split_and!; [done| |apply NoDup_singleton]. intros i Hi. rewrite list_elem_of_singleton. by intros ->.
  - intros i Hi. destruct (decide (i = self)) as [->|Hne].
    + unfold timer_view. cbn. rewrite lookup_insert_eq. by eexists _, _.
    + rewrite (proj1 (Hv i Hne)). apply H2. apply Hel in Hi. by destruct Hi.
  - intros i [Hne Hi]%Hon. rewrite (proj2 (Hv i Hne)). by apply H3.
  - intros i [Hne Hi]%Hon. rewrite Hup, Hel. destruct (H4 i Hi); auto.
  - intros i Hi. rewrite Hel. apply Hup in Hi. intros [?| ->]; [by apply (H5 i)|by apply (Hlog H_upgrade)].
  - intros i Hi. rewrite Hcl. destruct Hi as [[Hi| ->]%Hel|[_ Hi]%Hon]; [by apply H6; left|done|by apply H6; right].
  - intros i. rewrite Hcl. apply H7.
Qed.

(** *** Events *)

Hypothesis Hmax : 0 <= max_header_size.

(** A read that returns: the session's timer is off, the parser can go on. *)
Lemma recv_cb_spec self data p w :
  self ∈ m_sessions w -> left_ok p -> http_inv w ->
  exists p' w', recv_cb self data p w = Some (p', w') /\ left_ok p' /\ http_inv w' /\
    (forall i, i ∈ m_sessions w' -> i ∈ m_sessions w).
Proof.
  intros Hself Hp Hw. destruct data as [data|]; cbn [HttpServer.recv_cb].
  - set (w1 := if default false (m_isKeepAlive <$> sess w !! self) then stopKeepAliveTimer self w else w).
    assert (http_inv w1 /\ timer_on w1 self = false /\ m_sessions w1 = m_sessions w) as (Hw1 & Hoff & Hs1).
    { unfold w1. change (default false (m_isKeepAlive <$> sess w !! self)) with (keeps_alive w self).
      destruct (keeps_alive w self) eqn:Ek.
      - split_and!; [by apply stop_inv| |done]. rewrite stop_timer_on. by rewrite decide_True.
      - split_and!; [done| |done]. destruct (timer_on w self) eqn:Et; [|done]. by rewrite (hi_timer _ Hw) in Ek. }
    pose proof (execute_final _ max_header_size _ (m_settings_ok sha1 base64 order self w1) Hmax p data w1 Hp ltac:(done)) as Hf.
    destruct (http_parser_execute _ _ _ _ _) as [r p' w'| | |]; try done. destruct Hf as (_ & Hp' & Hq).
    exists p', w'. split_and!; [done|done| |].
    + eapply quiet_inv; [exact Hq| |done]. congruence.
    + intros i. by rewrite (q_sessions _ _ _ Hq), Hs1.
  - exists p, (closeSession self false (stopKeepAliveTimer self w)). split_and!; [done|done| |].
    + apply close_inv; [by apply stop_inv|rewrite stop_timer_on; by rewrite decide_True|].
      unfold stopKeepAliveTimer. rewrite closes_emit_other by done. apply (hi_open _ Hw). by left.
    + intros i Hi. apply swap_remove_elem_of in Hi; [tauto|apply (hi_nodup _ Hw)].
Qed.

Lemma alloc_spec self n w :
  self ∈ m_sessions w -> n <= 2 ^ 62 -> http_inv w ->
  exists w', recv_alloc_cb self n w = Some w' /\ http_inv w' /\ m_sessions w' = m_sessions w.
Proof.
  intros Hin Hn Hw. destruct (hi_sess _ Hw self Hin) as (b & k & Hv & Hk). unfold timer_view in Hv. unfold recv_alloc_cb.
  destruct (sess w !! self) as [x|] eqn:Ex; [|done]. injection Hv as _ Hb.
  destruct (alloc_loop_spec 41 (HttpServer.m_recvBuf_len x) n) as (n' & -> & _ & Hn' & _).
  - rewrite Hb. change HTTP_DEFAULT_RECV_BUF_SIZE with 65536 in Hk. lia.
  - done.
  - change (3 ^ Z.of_nat 41) with 36472996377170786403. rewrite Hb.
    change HTTP_DEFAULT_RECV_BUF_SIZE with 65536 in Hk. change (2 ^ 62) with 4611686018427387904 in Hn. lia.
  - eexists. split; [done|]. split; [|done]. apply upd_inv; try done. intros _ y Hy. rewrite Ex in Hy. by injection Hy as <-.
Qed.

Lemma send_resp_sessions r f w : m_sessions (send_resp r f w) = m_sessions w.
Proof. apply (q_sessions 0 _ _ (quiet_send_resp 0 r f w)). Qed.

Definition system_ok s : Prop :=
  http_inv (srv s) /\ forall i, i ∈ m_sessions (srv s) -> exists p, hparsers s !! i = Some p /\ left_ok p.

Lemma system_init_ok r timeout up a : system_ok (System_init r timeout up a).
Proof.
  split; [split|]; cbn; try (intros i Hi; by apply elem_of_nil in Hi).
  - constructor.
  - intros i Hi. by rewrite timer_on_view in Hi.
  - intros i Hi. by rewrite timer_on_view in Hi.
  - done.
  - intros i. unfold closes. cbn. lia.
Qed.

Lemma file_inv r f w : http_inv w -> http_inv (send_resp r f w).
Proof.
  intros Hw. destruct (resps w !! r) as [x|] eqn:Ex; [|by unfold send_resp; rewrite Ex].
  eapply (quiet_inv 0); [apply quiet_send_resp| |done]. intros Ht. rewrite <- (hi_timer _ Hw 0%nat Ht).
  unfold send_resp. rewrite Ex. by destruct (f (r_resp x)).
Qed.

Lemma resp_call_alive r c w i : keeps_alive (do_resp_call order r c w) i = keeps_alive w i.
Proof.
  assert (forall f, keeps_alive (send_resp r f w) i = keeps_alive w i) as Hs.
  { intros f. unfold send_resp. destruct (resps w !! r) as [x|]; [|done]. by destruct (f (r_resp x)). }
  destruct c; cbn [do_resp_call]; try apply Hs; try done. by destruct (resps w !! r).
Qed.

Lemma written_inv r w : http_inv w -> http_inv (onWriteEnd r w) /\ forall i, i ∈ m_sessions (onWriteEnd r w) -> i ∈ m_sessions w.
Proof.
  intros Hw. unfold onWriteEnd. destruct (resps w !! r) as [x|]; [|done]. case_bool_decide as Hin; [|done].
  assert (forall i, i ∈ swap_remove (r_session x) (m_sessions w) -> i ∈ m_sessions w) as Hsub.
  { intros i Hi. apply swap_remove_elem_of in Hi; [tauto|apply (hi_nodup _ Hw)]. }
  destruct (r_onSent x).
  2: { split; [by apply upgrade_inv|]. unfold upgradeSession. by destruct (onUpgradeCb w). }
  fold (keeps_alive w (r_session x)). destruct (keeps_alive w (r_session x)) eqn:Ek; [by split; [apply start_inv|]|].
  split; [|done]. apply close_inv; [done| |by apply (hi_open _ Hw); left].
  destruct (timer_on w (r_session x)) eqn:Et; [|done]. by rewrite (hi_timer _ Hw) in Ek.
Qed.

Lemma system_step_ok s s' : http_step s s' -> system_ok s -> system_ok s'.
Proof.
  intros Hstep [Hw Hp]. destruct Hstep as [s self m port peer Hf Hl|s s' self data Hin Hr|s self n w Hin Hn Ha|s self Ht|s r|s r reader|s r|s r c|s self Hu];
    try (split; [|exact Hp]; cbn [srv set_srv]).
  - split; [by apply connect_inv|]. cbn. intros i. rewrite elem_of_app, list_elem_of_singleton. intros Hi.
    destruct (decide (self = i)) as [->|Hne].
    + rewrite lookup_insert_eq. eexists. split; [done|apply init_left_ok].
    + rewrite lookup_insert_ne by done. apply Hp. by destruct Hi.
  - unfold read in Hr. destruct (hparsers s !! self) as [p|] eqn:Ep; [|done].
    destruct (Hp self Hin) as (p0 & Hp0 & Hok). rewrite Ep in Hp0. injection Hp0 as <-.
    destruct (recv_cb_spec self data p (srv s) Hin Hok Hw) as (p' & w' & Hr' & Hp' & Hw' & Hsub).
    rewrite Hr' in Hr. injection Hr as <-. split; [done|]. cbn. intros i Hi%Hsub.
    destruct (decide (self = i)) as [->|Hne]; [rewrite lookup_insert_eq; eauto|rewrite lookup_insert_ne by done; by apply Hp].
  - destruct (alloc_spec self n (srv s) Hin Hn Hw) as (w' & Ha' & Hw' & Hs').
    rewrite Ha in Ha'. injection Ha' as ->. split; [done|]. cbn. rewrite Hs'. exact Hp.
  - split; [by apply timer_inv|]. cbn. intros i Hi. apply Hp. revert Hi. unfold keepAliveTimerCb.
    destruct (sess _ !! self) as [x|]; [|done]. destruct (timer_data x); [|done].
    intros [? _]%swap_remove_elem_of; [done|apply (hi_nodup _ Hw)].
  - destruct (written_inv r _ Hw) as [Hw' Hsub]. split; [done|]. intros i Hi. by apply Hp, Hsub.
  - split; [by apply file_inv|]. intros i. cbn. unfold file_closed, file_failed. rewrite send_resp_sessions. apply Hp.
  - split; [by apply file_inv|]. intros i. cbn. unfold file_closed, file_failed. rewrite send_resp_sessions. apply Hp.
  - pose proof (quiet_resp_call order 0 r c (srv s)) as Hq. split.
    + eapply (quiet_inv 0); [exact Hq| |done]. intros Ht. cbn [srv set_srv]. rewrite resp_call_alive. by apply (hi_timer _ Hw).
    + cbn. by rewrite (q_sessions _ _ _ Hq).
  - apply upd_inv; try done. intros Hin. by destruct (hi_upgraded _ Hw self).
Qed.

Lemma system_reachable_ok s s' : rtc http_step s s' -> system_ok s -> system_ok s'.
Proof. induction 1; [done|]. intros. by eapply IHrtc, system_step_ok. Qed.

(** C9. Whatever the interleaving of the events, the handle of a connection is closed at
  most once and never while the server still holds the session or its keep-alive timer
  runs; a session is held once, a running timer belongs to a session kept alive, which
  is still held unless it was handed over to the WebSocket server, and a session handed
  over is no longer held. *)
Theorem sessions_closed_once r timeout up a s i (Hreach : rtc http_step (System_init r timeout up a) s) :
  let w := srv s in
  (closes w i <= 1)%nat /\ NoDup (m_sessions w) /\
  (i ∈ m_sessions w \/ timer_on w i = true -> closes w i = 0%nat) /\
  (timer_on w i = true -> keeps_alive w i = true /\ (i ∈ m_sessions w \/ (i, H_upgrade) ∈ h_log w)) /\
  ((i, H_upgrade) ∈ h_log w -> i ∉ m_sessions w).
Proof.
  destruct (system_reachable_ok _ _ Hreach (system_init_ok r timeout up a)) as [[H1 H2 H3 H4 H5 H6 H7] _].
  cbv zeta. split_and!; auto.
Qed.

(** C18. A read of a session the server holds always returns, whatever the bytes: the
  parser fails no assertion in any of the callbacks' states, and so does the allocation
  of the buffer. *)
Theorem http_read_never_stuck r timeout up a s self data n (Hreach : rtc http_step (System_init r timeout up a) s)
    (Hself : self ∈ m_sessions (srv s)) (Hn : n <= 2 ^ 62) :
  (exists s', read self data s = Some s') /\ (exists w, recv_alloc_cb self n (srv s) = Some w).
Proof.
  destruct (system_reachable_ok _ _ Hreach (system_init_ok r timeout up a)) as [Hw Hp]. split.
  - destruct (Hp self Hself) as (p & Hl & Hok). unfold read. rewrite Hl.
    destruct (recv_cb_spec self data p (srv s) Hself Hok Hw) as (p' & w' & -> & _). by eexists.
  - destruct (alloc_spec self n (srv s) Hself Hn Hw) as (w & Ha & _). by exists w.
Qed.
End System.

(** ** One exchange *)

Section Exchange.
Context {RE : RegexEngine} {A : Type}.
Context (sha1 base64 : bytes -> bytes) (order : strmap -> list (bytes * bytes)).
Hypothesis Horder : forall m, order m ≡ₚ map_to_list m.
Implicit Types (w : HttpServer RE A) (self i r : nat).

(** The calls that only set up the response. *)
Definition apply_setter (x : httpResp) (c : resp_call) : httpResp :=
  match c with Call_setStatus st => setStatus st x | Call_setHeader k v => setHeader k v x | _ => x end.
Definition is_setter (c : resp_call) : Prop :=
  match c with Call_setStatus _ | Call_setHeader _ _ => True | _ => False end.

Lemma on_resp_compose r f g w : on_resp r f (on_resp r g w) = on_resp r (fun x => f (g x)) w.
Proof. unfold on_resp, upd_resps. cbn. f_equal. apply map_eq. intros i.
  destruct (decide (r = i)) as [->|]; [|by rewrite !lookup_alter_ne]. rewrite !lookup_alter_eq. by destruct (resps w !! i).
Qed.

Lemma on_resp_id r w : on_resp r (fun x => x) w = w.
Proof.
  unfold on_resp, upd_resps. destruct w as [? ? ? ? ? e ? ? ?]. cbn. f_equal. apply map_eq. intros i.
  destruct (decide (r = i)) as [->|]; [|by rewrite lookup_alter_ne]. rewrite lookup_alter_eq. by destruct (e !! i) as [[]|].
Qed.

Lemma setters_fold r cs w : Forall is_setter cs ->
  fold_left (fun w c => do_resp_call order r c w) cs w = on_resp r (fun x => fold_left apply_setter cs x) w.
Proof.
  intros Hcs. revert w. induction Hcs as [|c cs Hc Hcs IH]; intros w; cbn [fold_left]; [symmetry; apply on_resp_id|].
  rewrite IH. destruct c; try done; cbn [do_resp_call]; apply on_resp_compose.
Qed.

(** A response that is sent is written to the session it belongs to. *)
Lemma send_resp_eq r f w x y : resps w !! r = Some x -> f (r_resp x) = Some y ->
  h_log (send_resp r f w) = h_log w ++ [(r_session x, H_write r (m_buffers y))] /\
  m_sessions (send_resp r f w) = m_sessions w /\ sess (send_resp r f w) = sess w /\
  m_keepAliveTimeout (send_resp r f w) = m_keepAliveTimeout w /\ onUpgradeCb (send_resp r f w) = onUpgradeCb w /\
  resps (send_resp r f w) !! r = Some (mkRespRec y (r_session x) (r_onSent x)).
Proof. intros Hx Hy. unfold send_resp. rewrite Hx, Hy. cbn. split_and!; try done. by rewrite lookup_alter_eq, Hx. Qed.

(** What the client reads: status line, headers, body. *)
Definition client_reads (bufs : list bytes) (st : httpStatus) (hs : strmap) (body : bytes) : Prop :=
  exists ls digits, read_head (length ls + 3) (concat bufs) =
      Some ((bs "HTTP/1.1 " ++ httpStatus_str st) :: ls ++ [bs "Content-Length: " ++ digits], body) /\
    ls ≡ₚ map line_of (map_to_list hs) /\ digits_value digits = len body.

Lemma sendStr_reads x body : len body < 10 ^ 20 ->
  Forall header_ok (map_to_list (<[Content_Type := bs "text/plain"]> (m_headers x))) ->
  exists y, sendStr order body x = Some y /\
    client_reads (m_buffers y) (m_status x) (<[Content_Type := bs "text/plain"]> (m_headers x)) body.
Proof.
  intros Hl Hh. destruct (response_readable order Horder (set_content body SendType_STR (setHeader Content_Type (bs "text/plain") x))
    [body] (len body)) as (y & ls & digits & Hy & Hr & Hp & Hd); try done.
  { cbn. by rewrite app_nil_r. }
  cbn [concat] in *. rewrite app_nil_r in *. exists y. split; [done|]. by exists ls, digits.
Qed.

(** What the session answers to a request that is not an upgrade. *)
Definition answer w (req : httpReq) : list resp_call :=
  match dispatch (m_router w) req with
  | (Some h, req') => snd (h req' (h_app w))
  | (None, _) => [Call_setStatus NOT_FOUND; Call_sendStr (bs "404 Not Found")]
  end.

Lemma handle_request_answer self w x cs body :
  sess w !! self = Some x -> answer w (m_req x) = cs ++ [Call_sendStr body] -> Forall is_setter cs ->
  exists w1, handle_request sha1 base64 order self false w =
      send_resp (next_resp w) (sendStr order body) (on_resp (next_resp w) (fun y => fold_left apply_setter cs y) w1) /\
    resps w1 !! next_resp w = Some (mkRespRec httpResp_init self OnSent_session) /\
    h_log w1 = h_log w /\ m_sessions w1 = m_sessions w /\ m_keepAliveTimeout w1 = m_keepAliveTimeout w /\
    keeps_alive w1 self = needKeepConnection (m_req x).
Proof.
  intros Hx Ha Hcs. unfold handle_request, initResp. cbn [sess]. rewrite Hx. cbn [m_router upd].
  set (w1 := upd self _ _). set (r := next_resp w). unfold answer in Ha.
  destruct (dispatch (m_router w) (m_req x)) as [[h|] req].
  - cbn [h_app]. unfold w1. cbn [h_app upd]. destruct (h req (h_app w)) as [a cs']. cbn [snd] in Ha. subst cs'.
    eexists. rewrite fold_left_app, (setters_fold _ cs) by done. cbn [fold_left do_resp_call]. split; [reflexivity|].
    split_and!; try done; cbn.
    + by rewrite lookup_insert_eq.
    + unfold keeps_alive. cbn. by rewrite !lookup_alter_eq, Hx.
  - unfold handle_errReq. destruct cs as [|c cs]; [done|]. injection Ha as <- Ha.
    destruct cs as [|c cs]; [|injection Ha as _ Ha; by destruct cs]. injection Ha as <-.
    eexists. split; [reflexivity|]. split_and!; try done; cbn.
    + by rewrite lookup_insert_eq.
    + unfold keeps_alive. cbn. by rewrite !lookup_alter_eq, Hx.
Qed.

(** The answer [cs] and [body] is in the response [r], written for the session, whose request asked for [keep]. *)
Record answered self (r : nat) w (cs : list resp_call) (body : bytes) (keep : bool) w' : Prop := {
  an_written : exists bufs, h_log w' = h_log w ++ [(self, H_write r bufs)] /\
    let y := fold_left apply_setter cs httpResp_init in client_reads bufs (m_status y) (<[Content_Type := bs "text/plain"]> (m_headers y)) body;
  an_sessions : m_sessions w' = m_sessions w;
  an_timeout : m_keepAliveTimeout w' = m_keepAliveTimeout w;
  an_alive : keeps_alive w' self = keep;
  an_resp : exists y, resps w' !! r = Some (mkRespRec y self OnSent_session);
  }.

Definition answer_ok (cs : list resp_call) (body : bytes) : Prop :=
  Forall is_setter cs /\ len body < 10 ^ 20 /\
  Forall header_ok (map_to_list (<[Content_Type := bs "text/plain"]> (m_headers (fold_left apply_setter cs httpResp_init)))).

Lemma request_written self w x cs body :
  sess w !! self = Some x -> answer w (m_req x) = cs ++ [Call_sendStr body] -> answer_ok cs body ->
  answered self (next_resp w) w cs body (needKeepConnection (m_req x)) (handle_request sha1 base64 order self false w).
Proof.
  intros Hx Ha (Hcs & Hl & Hh). destruct (handle_request_answer self w x cs body Hx Ha Hcs) as (w1 & -> & Hr & Hlog & Hs & Hk & Hal).
  set (r := next_resp w) in *. set (y := fold_left apply_setter cs httpResp_init) in *.
  destruct (sendStr_reads y body Hl Hh) as (z & Hz & Hreads).
  destruct (send_resp_eq r (sendStr order body) (on_resp r (fun y => fold_left apply_setter cs y) w1)
    (mkRespRec y self OnSent_session) z) as (Hlog' & Hs' & Hse' & Hk' & Hu' & Hr'); [|done|].
  { cbn. by rewrite lookup_alter_eq, Hr. }
  cbn in Hlog', Hs', Hse', Hk', Hu', Hr'. split; [|by rewrite Hs', Hs|by rewrite Hk', Hk| |by exists z].
  - exists (m_buffers z). split; [by rewrite Hlog', Hlog|done].
  - unfold keeps_alive. by rewrite Hse', <- Hal.
Qed.

(** What the end of the write does: wait for the next request, or close. *)
Definition served self w (keep : bool) w' w2 : Prop :=
  if keep
  then h_log w2 = h_log w' ++ [(self, H_timer_start (m_keepAliveTimeout w * 1000))] /\ m_sessions w2 = m_sessions w
  else h_log w2 = h_log w' ++ [(self, H_read_stop); (self, H_close)] /\ m_sessions w2 = swap_remove self (m_sessions w).

Lemma answered_served self r w cs body keep w' : self ∈ m_sessions w -> answered self r w cs body keep w' ->
  served self w keep w' (onWriteEnd r w').
Proof.
  intros Hin [_ Hs Hk <- (y & Hr)]. unfold served, onWriteEnd. rewrite Hr. cbn [r_session r_onSent].
  rewrite bool_decide_true by (by rewrite Hs). fold (keeps_alive w' self). destruct (keeps_alive w' self).
  - split; [|by cbn; rewrite Hs]. cbn. by rewrite Hk.
  - cbn. split; [by rewrite <- app_assoc|]. by rewrite Hs.
Qed.

(** The keep-alive test, without the code's lookups: the [Connection] header is [keep-alive]. *)
Lemma need_keep_iff q :
  needKeepConnection q = bool_decide (headers q !! bs "connection" = Some (bs "keep-alive")).
Proof.
  unfold needKeepConnection. destruct (headers q !! _) as [v|]; [|by rewrite bool_decide_false].
  apply bool_decide_ext. split; [by intros ->|by intros [= ->]].
Qed.

(** C15. A request that is not an upgrade, whose handler (or the 404 page when no route
  matches) sets headers and a status and then sends one text before it returns, is answered
  once: the client reads that status, these headers and this text, and once it is written
  the connection waits for the next request with its timer started when the [Connection]
  header of the request is [keep-alive], and is closed and forgotten otherwise. *)
Theorem request_answered self w x cs body (Hx : sess w !! self = Some x) (Hin : self ∈ m_sessions w)
    (Ha : answer w (m_req x) = cs ++ [Call_sendStr body]) (Hcs : Forall is_setter cs) (Hl : len body < 10 ^ 20)
    (Hh : Forall header_ok (map_to_list (<[Content_Type := bs "text/plain"]> (m_headers (fold_left apply_setter cs httpResp_init))))) :
  let y := fold_left apply_setter cs httpResp_init in
  let w' := handle_request sha1 base64 order self false w in
  let w2 := onWriteEnd (next_resp w) w' in
  exists bufs, h_log w' = h_log w ++ [(self, H_write (next_resp w) bufs)] /\
    client_reads bufs (m_status y) (<[Content_Type := bs "text/plain"]> (m_headers y)) body /\
    if bool_decide (headers (m_req x) !! bs "connection" = Some (bs "keep-alive"))
    then h_log w2 = h_log w' ++ [(self, H_timer_start (m_keepAliveTimeout w * 1000))] /\ m_sessions w2 = m_sessions w
    else h_log w2 = h_log w' ++ [(self, H_read_stop); (self, H_close)] /\ m_sessions w2 = swap_remove self (m_sessions w).
Proof.
  cbv zeta. rewrite <- need_keep_iff. pose proof (request_written self w x cs body Hx Ha (conj Hcs (conj Hl Hh))) as Hw.
  destruct (an_written _ _ _ _ _ _ _ Hw) as (bufs & Hlog & Hreads). exists bufs. split; [done|]. split; [done|].
  by apply (answered_served self _ w cs body).
Qed.

(** The headers of the handshake (RFC 6455, 4.2.2): the accept value is the Base64 of the
    SHA-1 of the key of the request followed by the GUID of the RFC. *)
Definition handshake_headers (key : bytes) : strmap :=
  <[Content_Type := bs "text/plain"]>
  (<[bs "sec-websocket-accept" := base64 (sha1 (key ++ bs "258EAFA5-E914-47DA-95CA-C5AB0DC85B11"))]>
  (<[bs "connection" := bs "Upgrade"]> (<[bs "upgrade" := bs "websocket"]> ∅))).

(** Base64 has no carriage return, and nothing encodes nothing (RFC 4648). *)
Hypothesis Hbase64 : forall s, 13 ∉ base64 s.
Hypothesis Hbase64_nil : base64 [] = [].

Lemma accept_key_rfc key :
  calculate_accept_key sha1 base64 key = base64 (sha1 (key ++ bs "258EAFA5-E914-47DA-95CA-C5AB0DC85B11")).
Proof. unfold calculate_accept_key, base64_encode. fold WS_GUID. by destruct (sha1 _). Qed.

Lemma handshake_headers_ok key : Forall header_ok (map_to_list (handshake_headers key)).
Proof.
  cut (map_Forall (fun k v => header_ok (k, v)) (handshake_headers key)).
  { intros H%map_Forall_to_list. eapply Forall_impl; [exact H|by intros []]. }
  unfold handshake_headers.
  assert (forall c s, find_char c s = None -> c ∉ s) as Hf by (intros c s; apply find_char_None).
  assert (forall k v m, (13 ∉ k) -> (13 ∉ v) -> map_Forall (fun k v => header_ok (k, v)) m ->
    map_Forall (fun k v => header_ok (k, v)) (<[k := v]> m)) as Hi by (intros; by apply map_Forall_insert_2).
  repeat (apply Hi; [by apply Hf| |]); [by apply Hf|apply Hbase64|by apply Hf|by apply Hf|apply map_Forall_empty].
Qed.

(** What the server answers to an upgrade request. *)
Lemma handshake_written self w x (Hx : sess w !! self = Some x) (Hin : self ∈ m_sessions w)
    (Hup : onUpgradeCb w = true) :
  let key := default [] (headers (m_req x) !! bs "sec-websocket-key") in
  let w' := handle_request sha1 base64 order self true w in
  let w2 := onWriteEnd (next_resp w) w' in
  exists bufs, h_log w' = h_log w ++ [(self, H_write (next_resp w) bufs)] /\
    client_reads bufs SWITCHING_PROTOCOLS (handshake_headers key) [] /\
    h_log w2 = h_log w' ++ [(self, H_read_stop); (self, H_upgrade)] /\
    m_sessions w2 = swap_remove self (m_sessions w).
Proof.
  cbv zeta. unfold handle_request, initResp. cbn [sess]. rewrite Hx.
  set (key := default _ _). set (r := next_resp w). unfold upgradeToWs. cbn [sess upd].
  rewrite lookup_alter_eq, Hx. cbn [fmap option_fmap option_map]. cbv zeta.
  match goal with |- context [send_resp r ?f ?v] => set (w1 := v) end.
  set (y := setHeader (bs "sec-websocket-accept") (calculate_accept_key sha1 base64 key)
    (setHeader (bs "connection") (bs "Upgrade") (setHeader (bs "upgrade") (bs "websocket")
      (setStatus SWITCHING_PROTOCOLS httpResp_init)))).
  assert (resps w1 !! r = Some (mkRespRec y self OnSent_upgrade)) as Hr.
  { unfold w1. cbn. rewrite !lookup_alter_eq, lookup_insert_eq. done. }
  assert (<[Content_Type := bs "text/plain"]> (m_headers y) = handshake_headers key) as Hy
    by (unfold y, handshake_headers; by rewrite <- accept_key_rfc).
  destruct (sendStr_reads y []) as (z & Hz & Hreads); [done|rewrite Hy; apply handshake_headers_ok|]. rewrite Hy in Hreads.
  destruct (send_resp_eq r (sendStr order []) w1 _ z Hr Hz) as (Hlog' & Hs' & Hse' & Hk' & Hu' & Hr').
  exists (m_buffers z). split; [exact Hlog'|]. split; [exact Hreads|].
  unfold onWriteEnd. rewrite Hr'. cbn [r_session r_onSent]. rewrite bool_decide_true by (by rewrite Hs').
  unfold upgradeSession. rewrite Hu'. change (onUpgradeCb w1) with (onUpgradeCb w). rewrite Hup.
  cbn. rewrite Hs'. split; [by rewrite <- app_assoc|done].
Qed.

End Exchange.

(** ** Runs *)

Section Runs.

(** A stand-in for OpenSSL's filters: two letters for each byte. *)
Definition hex_encode (s : bytes) : bytes := flat_map (fun c => [97 + Z.modulo (c / 16) 16; 97 + Z.modulo c 16]) s.

Lemma hex_encode_no_cr s : 13 ∉ hex_encode s.
Proof.
  induction s as [|c s IH]; cbn [hex_encode flat_map]; [apply not_elem_of_nil|].
  rewrite elem_of_app, !elem_of_cons. intros [[Hc|[Hc|Hn]]|Hin]; [| |by apply elem_of_nil in Hn|by apply IH].
  - pose proof (Z.mod_pos_bound (c / 16) 16 ltac:(lia)). lia.
  - pose proof (Z.mod_pos_bound c 16 ltac:(lia)). lia.
Qed.

(** The sum of the routes' numbers that were called is the program's state. *)
Definition demo_router : httpRouter (httpReq -> Z -> Z * list resp_call) :=
  addRoute HTTP_POST (bs "/echo") (fun r a => (a + 2, [Call_sendStr (body r)]))
  (addRoute HTTP_GET (bs "/f") (fun _ a => (a, [Call_respFile (bs "/tmp/f.html")]))
  (addRoute HTTP_GET (bs "/hi") (fun r a => (a + 1, [Call_setHeader (bs "x") (bs "1"); Call_sendStr (bs "hello")])) httpRouter_init)).

Abbreviation demo_read := (read (fun s => s) hex_encode map_to_list HTTP_MAX_HEADER_SIZE).

Definition demo0 : System mini_regex Z := System_init demo_router HTTP_DEFAULT_KEEP_ALIVE_TIMEOUT true 0.
Definition demo1 : System mini_regex Z := connect 7 HTTP_GET 0 (Some (bs "10.0.0.1", 555)) demo0.
Definition demo_reads (l : list bytes) : option (System mini_regex Z) :=
  fold_left (fun o d => match o with Some s => demo_read 7 (Some d) s | None => None end) l (Some demo1).

Definition crlf : bytes := [13; 10].
Definition hi_request : bytes := bs "GET /hi?a=1 HTTP/1.1" ++ crlf ++ bs "Connection: keep-alive" ++ crlf ++ crlf.
Definition ws_request : bytes := bs "GET /ws HTTP/1.1" ++ crlf ++ bs "Connection: keep-alive" ++ crlf ++
  bs "Connection: Upgrade" ++ crlf ++ bs "Upgrade: websocket" ++ crlf ++
  bs "Sec-WebSocket-Key: ab" ++ crlf ++ crlf.

Definition log_of (o : option (System mini_regex Z)) : list (nat * http_effect) :=
  match o with Some s => h_log (srv s) | None => [] end.

Example run_hi : snd <$> log_of (demo_reads [hi_request]) =
  [H_read_start; H_write 0 [bs "HTTP/1.1 200 OK" ++ crlf ++ bs "x: 1" ++ crlf ++ bs "Content-Type: text/plain" ++ crlf ++
    bs "Content-Length: 5" ++ crlf ++ crlf; bs "hello"]].
Proof. vm_compute. reflexivity. Qed.

(** A request whose URL arrives in two reads is served for the end of the URL alone:
  [onReqURL] assigns what it should append. *)
Example url_in_two_reads :
  (s ← demo_reads [bs "GET /h"; bs "i HTTP/1.1" ++ crlf ++ crlf]; x ← sess (srv s) !! 7%nat; Some (url (m_req x), h_app (srv s)))
  = Some (bs "i", 0).
Proof. vm_compute. reflexivity. Qed.

(** An empty read, which libuv reports when nothing could be read, is an end of stream to
  the parser: the rest of the request is ignored. *)
Example empty_read_kills_parser :
  snd <$> log_of (demo_reads [bs "GET /hi HT"; []; bs "TP/1.1" ++ crlf ++ crlf]) = [H_read_start].
Proof. vm_compute. reflexivity. Qed.

(** After a parse error nothing is sent and the connection stays open. *)
Example parse_error_ignored : snd <$> log_of (demo_reads [bs "@@@"; hi_request]) = [H_read_start].
Proof. vm_compute. reflexivity. Qed.

(** A response that is ready after the peer has left is written to the closed handle. *)
Example late_response_after_close :
  let o := s ← demo_reads [bs "GET /f HTTP/1.1" ++ crlf ++ crlf]; s ← demo_read 7 None s;
    Some (set_srv (file_failed map_to_list 0 (srv s)) s) in
  match map snd (log_of o) with
  | [H_read_start; H_file_read 0 _; H_timer_stop; H_read_stop; H_close; H_write 0 _] => True
  | _ => False
  end.
Proof. vm_compute. exact I. Qed.

(** *** A keep-alive timer that survives the upgrade *)

Definition demo2 : System mini_regex Z := default demo1 (demo_read 7 (Some hi_request) demo1).
Definition demo3 : System mini_regex Z := default demo2 (demo_read 7 (Some ws_request) demo2).
Definition demo4 : System mini_regex Z := set_srv (onWriteEnd 0 (srv demo3)) demo3.
Definition demo5 : System mini_regex Z := set_srv (onWriteEnd 1 (srv demo4)) demo4.

Lemma demo_reachable : rtc (http_step (fun s => s) hex_encode map_to_list HTTP_MAX_HEADER_SIZE) demo0 demo5.
Proof.
  eapply rtc_l; [apply (step_connect _ _ _ _ demo0 7 HTTP_GET 0 (Some (bs "10.0.0.1", 555))); [done|intros e Hin; by apply elem_of_nil in Hin]|].
  change (connect _ _ _ _ demo0) with demo1.
  eapply rtc_l; [eapply (step_read _ _ _ _ demo1 demo2 7 (Some hi_request)); [cbn; by left|vm_compute; reflexivity]|].
  eapply rtc_l; [eapply (step_read _ _ _ _ demo2 demo3 7 (Some ws_request)); [vm_compute; by left|vm_compute; reflexivity]|].
  eapply rtc_l; [apply (step_written _ _ _ _ demo3 0)|]. change (set_srv _ demo3) with demo4.
  eapply rtc_l; [apply (step_written _ _ _ _ demo4 1)|]. change (set_srv _ demo4) with demo5. done.
Qed.

(** The session has been handed over, its timer still runs, and when it fires it closes the
  connection the WebSocket session uses. *)
Example timer_outlives_upgrade :
  timer_on (srv demo5) 7 = true /\ (7%nat ∉ m_sessions (srv demo5)) /\
  map snd (drop 4 (h_log (keepAliveTimerCb 7 (srv demo5)))) = [H_timer_start 20000; H_read_stop; H_upgrade; H_read_stop; H_close].
Proof. vm_compute. split_and!; [done| |done]. intros Hin. by apply elem_of_nil in Hin. Qed.

(** *** The theorems on this run *)

(** Without a WebSocket server attached, an upgrade request aborts the process. *)
Example upgrade_without_server :
  let w := set_router demo_router (mkHttpServer httpRouter_init [] 20 false ∅ ∅ 0 0 []) in
  let o := demo_read 7 (Some ws_request) (connect 7 HTTP_GET 0 None (mkSystem w ∅)) in
  last (map snd (log_of (s ← o; Some (set_srv (onWriteEnd 0 (srv s)) s)))) = Some H_assert_failed.
Proof. vm_compute. reflexivity. Qed.

Lemma sessions_closed_once_witness :
  let w := srv demo5 in
  (closes w 7 <= 1)%nat /\ NoDup (m_sessions w) /\
  (7%nat ∈ m_sessions w \/ timer_on w 7 = true -> closes w 7 = 0%nat) /\
  (timer_on w 7 = true -> keeps_alive w 7 = true /\ (7%nat ∈ m_sessions w \/ (7%nat, H_upgrade) ∈ h_log w)) /\
  ((7%nat, H_upgrade) ∈ h_log w -> 7%nat ∉ m_sessions w).
Proof.
  apply (sessions_closed_once (fun s => s) hex_encode map_to_list HTTP_MAX_HEADER_SIZE ltac:(done)
    demo_router HTTP_DEFAULT_KEEP_ALIVE_TIMEOUT true 0 demo5 7 demo_reachable).
Defined.

Lemma demo1_reachable : rtc (http_step (fun s => s) hex_encode map_to_list HTTP_MAX_HEADER_SIZE) demo0 demo1.
Proof.
  eapply rtc_l; [apply (step_connect _ _ _ _ demo0 7 HTTP_GET 0 (Some (bs "10.0.0.1", 555))); [done|intros e Hin; by apply elem_of_nil in Hin]|].
  done.
Qed.

Lemma http_read_never_stuck_witness :
  (exists s', demo_read 7 (Some ws_request) demo1 = Some s') /\ (exists w, recv_alloc_cb 7 65536 (srv demo1) = Some w).
Proof.
  apply (http_read_never_stuck (fun s => s) hex_encode map_to_list HTTP_MAX_HEADER_SIZE ltac:(done)
    demo_router HTTP_DEFAULT_KEEP_ALIVE_TIMEOUT true 0 demo1 7 (Some ws_request) 65536 demo1_reachable); [cbn; by left|lia].
Defined.

(** A request for [/hi] is in the session. *)
Definition hi_session : Session :=
  on_req (fun r => set_headers {[ bs "connection" := bs "keep-alive" ]} (set_url (bs "/hi") r)) (Session_init HTTP_GET 0).
Definition hi_server : HttpServer mini_regex Z :=
  mkHttpServer demo_router [7%nat] HTTP_DEFAULT_KEEP_ALIVE_TIMEOUT true {[ 7%nat := hi_session ]} ∅ 0 0 [].

Lemma request_answered_witness :
  let w' := handle_request (fun s => s) hex_encode map_to_list 7 false hi_server in
  exists bufs, h_log w' = [(7%nat, H_write 0 bufs)] /\
    client_reads bufs OK (<[Content_Type := bs "text/plain"]> (<[bs "x" := bs "1"]> ∅)) (bs "hello") /\
    h_log (onWriteEnd 0 w') = h_log w' ++ [(7%nat, H_timer_start 20000)] /\ m_sessions (onWriteEnd 0 w') = [7%nat].
Proof.
  apply (request_answered (fun s => s) hex_encode map_to_list ltac:(done) 7 hi_server hi_session
    [Call_setHeader (bs "x") (bs "1")] (bs "hello")).
  - reflexivity.
  - cbn. by left.
  - vm_compute. reflexivity.
  - by repeat constructor.
  - done.
  - replace (map_to_list _) with [(bs "x", bs "1"); (Content_Type, bs "text/plain")] by (vm_compute; reflexivity).
    repeat constructor; apply find_char_None; reflexivity.
Defined.

End Runs.
