(* ===== verification/HttpPipeline.v ===== *)
(** * From the bytes of a read to the handlers

    The server's callbacks on well-formed requests: a read that holds any number of
    pipelined requests runs [handle_request] once for each, on the request that its text
    says (src/core/httpserver.cpp, [recv_cb] and the callbacks of [m_settings]). *)

From S2P Require Import Prelude WsSession HttpTypes HttpExec HttpWire HttpRun HttpHead HttpBody HttpReq HttpRouter HttpResp HttpServer HttpService.
From stdpp Require Import gmap.
#[local] Open Scope Z_scope.

Section Pipeline.
Context {RE : RegexEngine} {A : Type}.
Context (sha1 base64 : bytes -> bytes) (order : strmap -> list (bytes * bytes)) (max : Z).
Context {Hmax : Header_limit max}.
Implicit Types (w : HttpServer RE A) (self : nat) (r : request).

(** The callbacks of [m_settings] are of the simple kind. *)
Definition session_callbacks self : callbacks (HttpServer RE A) := {|
  cb_begin := onReqMessageBegin self;
  cb_url := onReqURL self;
  cb_field := onReqHeaderField self;
  cb_value := onReqHeaderValue self;
  cb_headers m major minor := upd self (on_req (fun q => set_version (to_string major ++ bs "." ++ to_string minor) (set_method m q)));
  cb_body := onReqBody self;
  cb_complete := handle_request sha1 base64 order self;
  |}.

Lemma m_settings_simple self : m_settings sha1 base64 order self = simple_settings (session_callbacks self).
Proof. reflexivity. Qed.

(** The map of the headers: names in lower case, the first of equal names wins. *)
Definition headers_of (hs : list (bytes * bytes)) : strmap :=
  fold_left (fun m h => insert_new (map tolower h.1) h.2 m) hs ∅.

(** The request that the text of [r] makes of the session's request object. *)
Definition request_of r (q : httpReq) : httpReq :=
  mkReq (r_target r) (headers_of (r_headers r)) (r_body r) (r_method r)
    (to_string (r_major r) ++ bs "." ++ to_string (r_minor r)) (params q) false (ip q) (port q) (queryParams q).

Definition received r (s : Session) : Session :=
  set_tmpKey (match last (r_headers r) with Some h => map tolower h.1 | None => m_tmpKey s end) (on_req (request_of r) s).

Lemma upd_upd self f g w : upd self f (upd self g w) = upd self (fun s => f (g s)) w.
Proof. unfold upd. cbn. f_equal. by rewrite alter_alter_eq. Qed.

Lemma upd_ext self f g w : (forall s, f s = g s) -> upd self f w = upd self g w.
Proof. intros H. unfold upd. f_equal. apply alter_ext. auto. Qed.

Lemma headers_user self hs w : fold_left (header_user (session_callbacks self)) hs w =
  upd self (fun s => set_tmpKey (match last hs with Some h => map tolower h.1 | None => m_tmpKey s end)
    (on_req (fun q => set_headers (fold_left (fun m h => insert_new (map tolower h.1) h.2 m) hs (headers q)) q) s)) w.
Proof.
  induction hs as [|h hs IH] using rev_ind.
  - cbn. unfold upd. destruct w as [? ? ? ? e ? ? ? ?]. cbn. f_equal. symmetry. apply alter_id. by intros [? []].
  - rewrite !fold_left_app, IH. cbn [fold_left]. unfold header_user, session_callbacks, onReqHeaderValue, onReqHeaderField. cbn [cb_value cb_field].
    rewrite !upd_upd. apply upd_ext. intros s. rewrite last_snoc. unfold on_req, set_tmpKey, set_headers. cbn. by rewrite fold_left_app.
Qed.

(** The pieces of a body are joined. *)
Lemma body_user self l w : fold_left (fun w b => cb_body (session_callbacks self) b w) l w =
  upd self (on_req (fun q => set_body (body q ++ concat l) q)) w.
Proof.
  revert w. induction l as [|b l IH]; intros w.
  - cbn. unfold upd. destruct w. cbn. f_equal. symmetry. apply alter_id. intros [? []] _. cbn. unfold on_req, set_body. cbn. by rewrite app_nil_r.
  - cbn [fold_left concat]. rewrite IH. cbn [session_callbacks cb_body]. unfold onReqBody. rewrite upd_upd. apply upd_ext. intros [? []].
    unfold on_req, set_body. cbn. by rewrite app_assoc.
Qed.

Lemma body_joined r fl : request_ok r fl -> concat (body_pieces r) = r_body r.
Proof.
  intros (cl & _ & _ & _ & _ & _ & _ & Hb). unfold body_pieces. destruct (r_chunks r) as [[ks k]|]; [by destruct Hb as (_ & _ & _ & _ & _ & ->)|].
  case_bool_decide as E; [done|]. apply app_nil_r.
Qed.

(** The callbacks of one request. *)
Lemma session_request self r fl up w : request_ok r fl ->
  request_user (session_callbacks self) r up w = handle_request sha1 base64 order self up (upd self (received r) w).
Proof.
  intros Hr%body_joined. unfold request_user, head_user. rewrite body_user, headers_user, Hr. cbn [session_callbacks cb_begin cb_url cb_headers cb_complete].
  unfold onReqMessageBegin, onReqURL. f_equal. rewrite !upd_upd. apply upd_ext. intros [? [] ? ? ? ?]. done.
Qed.

(** One request of a read that goes on. *)
Definition handled self w r : HttpServer RE A := handle_request sha1 base64 order self false (upd self (received r) w).

Lemma requests_user self rs w : Forall (plain max) rs ->
  fold_left (fun u r => request_user (session_callbacks self) r false u) rs w = fold_left (handled self) rs w.
Proof.
  intros Hrs. revert w. induction Hrs as [|r rs (fl & Hr & _) Hrs IH]; intros w; [done|]. cbn [fold_left]. by rewrite (session_request _ r fl), IH.
Qed.

(** C3. A read that holds any number of complete well-formed requests, on a parser that
    expects one, runs [handle_request] exactly once for each, in order, on the request that
    its text says: its target, its method and version, its body, sent whole or in chunks, which
    are joined, its headers under their names in lower case; only the last one can ask for an upgrade, and then nothing
    that follows it is read; the parser is left ready for the next request when
    the last one keeps the connection. *)
Theorem requests_handled self p w rs r fl rest (Hp : left_in (hp_upgrade p) true p) (Hrs : Forall (plain max) rs)
    (Hr : request_ok r fl) (Hlen : within max r) (Hrest : wants_upgrade fl = false -> rest = []) :
  let w0 := if default false (m_isKeepAlive <$> sess w !! self) then stopKeepAliveTimer self w else w in
  exists p', recv_cb sha1 base64 order max self (Some (flat_map request_text rs ++ request_text r ++ rest)) p w =
      Some (p', handle_request sha1 base64 order self (wants_upgrade fl) (upd self (received r) (fold_left (handled self) rs w0))) /\
    left_in (wants_upgrade fl) (kept_alive r fl) p'.
Proof.
  intros w0. destruct (requests_parsed (session_callbacks self) max p rs r fl rest w0 Hp Hrs Hr Hlen Hrest) as (p' & Hx & Hp').
  exists p'. split; [|done]. unfold recv_cb. fold w0. rewrite m_settings_simple, app_assoc, Hx, (session_request _ r fl) by done.
  by rewrite (requests_user _ rs).
Qed.
End Pipeline.

(** ** A run *)

(** A request for [/hi], one with a body, one whose body comes in chunks, and the upgrade, with a frame right behind it. *)
Definition pipe_hi : request := mkRequest HTTP_GET (bs "/hi?a=1") 1 1 [(bs "Host", bs "a.b")] [] None.
Definition pipe_body : request :=
  mkRequest HTTP_POST (bs "/hi") 1 1 [(bs "Content-Length", bs "5"); (bs "Connection", bs "keep-alive")] (bs "hello") None.
Definition pipe_chunks : request :=
  mkRequest HTTP_POST (bs "/hi") 1 1 [(bs "Transfer-Encoding", bs "Chunked")] (bs "hello, world")
    (Some ([mkChunk (bs "7") (bs ";a=1") (bs "hello, "); mkChunk (bs "05") [] (bs "world")], mkChunk (bs "0") [] [])).
Definition pipe_ws : request :=
  mkRequest HTTP_GET (bs "/ws") 1 1 [(bs "Connection", bs "keep-alive, Upgrade"); (bs "Upgrade", bs "websocket")] [] None.

Definition pipe_ws_flags : Z := Z.lor (Z.lor F_CONNECTION_KEEP_ALIVE F_CONNECTION_UPGRADE) F_UPGRADE.

Ltac run := vm_compute; repeat split; congruence.

Lemma pipe_plain : Forall (plain HTTP_MAX_HEADER_SIZE) [pipe_hi; pipe_body; pipe_chunks].
Proof.
  repeat constructor; [exists 0|exists (Z.lor F_CONTENTLENGTH F_CONNECTION_KEEP_ALIVE)|exists F_CHUNKED]; (split_and!; [|run..]);
    [exists ULLONG_MAX|exists 5|exists ULLONG_MAX]; run.
Qed.

(** The empty line that ends a body in chunks stays in the count of the header bytes of the next request. *)
Example chunk_end_counted :
  let nread r := match recv_cb (fun s => s) hex_encode map_to_list HTTP_MAX_HEADER_SIZE 7 (Some (request_text r)) (http_parser_init HTTP_REQUEST) hi_server with
    | Some (p, _) => hp_nread p
    | None => 0
    end in
  nread pipe_body = 0 /\ nread pipe_chunks = 2.
Proof. vm_compute. done. Qed.

Lemma requests_handled_witness :
  exists p', recv_cb (fun s => s) hex_encode map_to_list HTTP_MAX_HEADER_SIZE 7
      (Some (flat_map request_text [pipe_hi; pipe_body; pipe_chunks] ++ request_text pipe_ws ++ [129; 0])) (http_parser_init HTTP_REQUEST) hi_server =
    Some (p', handle_request (fun s => s) hex_encode map_to_list 7 (wants_upgrade pipe_ws_flags) (upd 7 (received pipe_ws)
      (fold_left (handled (fun s => s) hex_encode map_to_list 7) [pipe_hi; pipe_body; pipe_chunks]
        (if default false (m_isKeepAlive <$> sess hi_server !! 7%nat) then stopKeepAliveTimer 7 hi_server else hi_server)))) /\
    left_in (wants_upgrade pipe_ws_flags) (kept_alive pipe_ws pipe_ws_flags) p'.
Proof.
  apply (requests_handled (fun s => s) hex_encode map_to_list HTTP_MAX_HEADER_SIZE 7 (http_parser_init HTTP_REQUEST) hi_server
    [pipe_hi; pipe_body; pipe_chunks] pipe_ws pipe_ws_flags [129; 0]).
  - run.
  - apply pipe_plain.
  - exists ULLONG_MAX. run.
  - run.
  - vm_compute. discriminate.
Defined.
