(* ===== verification/HttpReads.v ===== *)
(** * Requests that come in several reads

    The server does not see how the network cut the bytes of its requests: any number of reads runs
    [handle_request] as one read of all their bytes does, when no read ends inside a URL or the name or value of a
    header and no response is waiting for its connection to be kept (src/core/httpserver.cpp, [recv_cb]). *)

From S2P Require Import Prelude WsSession HttpTypes HttpExec HttpSafety HttpWire HttpRun HttpHead HttpBody HttpWindow HttpRound HttpCut HttpReq HttpRouter HttpResp HttpServer HttpService HttpPipeline.
From stdpp Require Import gmap.
#[local] Open Scope Z_scope.

Section Reads.
Context {RE : RegexEngine} {A : Type}.
Context (sha1 base64 : bytes -> bytes) (order : strmap -> list (bytes * bytes)) (max : Z).
Context {Hlimit : Header_limit max}.
Hypothesis Hmax : 0 < max.
Implicit Types (w : HttpServer RE A) (self : nat) (r : request) (p : http_parser).

Abbreviation calls self := (session_callbacks (RE := RE) (A := A) sha1 base64 order self).
Abbreviation recv := (recv_cb sha1 base64 order max).
Abbreviation execute self := (http_parser_execute (m_settings sha1 base64 order self) max).

(** What [recv_cb] does first. *)
Definition woken self w : HttpServer RE A := if keeps_alive w self then stopKeepAliveTimer self w else w.

(** The reads of a session, one after the other. *)
Fixpoint recv_all self (l : list bytes) p w : option (http_parser * HttpServer RE A) :=
  match l with
  | [] => Some (p, w)
  | d :: l => match recv self (Some d) p w with Some (p, w) => recv_all self l p w | None => None end
  end.

(** Where a read may end: between the parts of the head, or in the body. *)
Definition between (s : state) : bool :=
  match mark_of s with Some D_url | Some D_header_field | Some D_header_value => false | _ => true end.

Fixpoint whole self (l : list bytes) p w : Prop :=
  match l with
  | [] | [_] => True
  | d :: l =>
      match recv self (Some d) p w with
      | Some (p, w) => between (hp_state p) = true /\ keeps_alive w self = false /\ whole self l p w
      | None => False
      end
  end.

Lemma recv_execute self d p w : recv self (Some d) p w =
  match execute self p d (woken self w) with Done _ p w => Some (p, w) | _ => None end.
Proof. reflexivity. Qed.

Lemma body_additive self : additive (calls self) D_body.
Proof.
  intros s t w. unfold data_user. cbn [session_callbacks cb_body]. unfold onReqBody. rewrite upd_upd. apply upd_ext. intros [? [] ? ? ? ?].
  unfold on_req. cbn. by rewrite app_assoc.
Qed.

(** The reads run the parser as one read of their bytes does. *)
Lemma reads_joined self l d p w (r : Z) p' w' : left_ok p -> 0 <= hp_nread p < 2 ^ 32 -> Forall (fun s => 0 < len s) l ->
  execute self p (concat (l ++ [d])) (woken self w) = Done r p' w' -> hp_http_errno p' = HPE_OK -> len (concat l) < r ->
  whole self (l ++ [d]) p w -> recv_all self (l ++ [d]) p w = Some (p', w').
Proof.
  intros Hp Hn Hl. revert p w r Hp Hn. induction Hl as [|a l Ha Hl IH]; intros p w r Hp Hn Hrun He Hr Hw.
  - cbn [app concat recv_all] in *. rewrite app_nil_r in Hrun. by rewrite recv_execute, Hrun.
  - cbn [app concat recv_all] in *. rewrite len_app in Hr. pose proof (len_nonneg (concat l)).
    assert (whole self (a :: (l ++ [d])) p w) as Hc by exact Hw. clear Hw. rewrite m_settings_simple in Hrun.
    pose proof (execute_final (simple_settings (calls self)) max _ (callbacks_ok _) ltac:(lia) p a (woken self w) Hp I) as Hf.
    destruct (http_parser_execute _ _ p a (woken self w)) as [r1 p1 w1| | |] eqn:Hfirst; [|done..].
    assert (recv self (Some a) p w = Some (p1, w1)) as Hrecv by (rewrite recv_execute, m_settings_simple, Hfirst; done).
    assert (between (hp_state p1) = true /\ keeps_alive w1 self = false /\ whole self (l ++ [d]) p1 w1) as (Hb & Hk & Hc').
    { destruct (l ++ [d]) eqn:El; [by destruct l|]. cbn [whole] in Hc. by rewrite Hrecv in Hc. }
    rewrite Hrecv. unfold between in Hb.
    assert (header_state (hp_state p1) = false /\ forall d, mark_of (hp_state p1) = Some d -> additive (calls self) d) as [Hst Hadd].
    { destruct (hp_state p1); try done; (split; [done|]); intros d' [= <-]; try apply body_additive; done. }
    destruct (cut_run (calls self) max Hmax p a (concat (l ++ [d])) (woken self w) r p' w' r1 p1 w1)
      as (_ & (Hp1 & _ & Hn1) & Hrest); try done; [lia|].
    apply (IH p1 w1 (r - len a)); try done; [|lia].
    unfold woken. by rewrite Hk, m_settings_simple.
Qed.

(** The callbacks of requests that come in any number of reads. *)
Lemma reads_user self p w rs r fl l d : left_ok p -> left_in (hp_upgrade p) true p -> Forall (plain max) rs -> request_ok r fl -> within max r ->
  flat_map request_text rs ++ request_text r = concat (l ++ [d]) -> Forall (fun s => 0 < len s) (l ++ [d]) -> whole self (l ++ [d]) p w ->
  exists p', recv_all self (l ++ [d]) p w =
      Some (p', request_user (calls self) r (wants_upgrade fl) (fold_left (fun u r => request_user (calls self) r false u) rs (woken self w))) /\
    left_in (wants_upgrade fl) (kept_alive r fl) p'.
Proof.
  intros Hok Hp Hrs Hr Hlen Hbytes Hl Hwhole.
  destruct (requests_parsed (calls self) max p rs r fl [] (woken self w) Hp Hrs Hr Hlen ltac:(done)) as (p' & Hx & Hp').
  exists p'. split; [|done]. apply Forall_app in Hl as [Hl Hd]. apply Forall_cons in Hd as [Hd _]. rewrite app_nil_r, Hbytes in Hx.
  eapply reads_joined; [done| |done|by rewrite m_settings_simple|apply Hp'| |done].
  - destruct Hp as (_ & _ & _ & Hn). lia.
  - rewrite concat_app, len_app. cbn [concat]. rewrite app_nil_r. lia.
Qed.

(** C4. Requests that come in any number of reads are handled as if they had come in one: [handle_request] runs once for each
    of the pipelined well-formed requests whose bytes the reads make up, in order, on the request that its
    text says, its body whole or in chunks, and the parser is left ready for the next one, wherever the reads are cut, if none but the
    last one ends inside a URL or the name or value of a header, or leaves a connection that is to be kept alive. *)
Theorem requests_in_reads self p w rs r fl l d (Hok : left_ok p) (Hp : left_in (hp_upgrade p) true p)
    (Hrs : Forall (plain max) rs) (Hr : request_ok r fl) (Hlen : within max r)
    (Hbytes : flat_map request_text rs ++ request_text r = concat (l ++ [d]))
    (Hl : Forall (fun s => 0 < len s) (l ++ [d])) (Hwhole : whole self (l ++ [d]) p w) :
  exists p', recv_all self (l ++ [d]) p w =
      Some (p', handle_request sha1 base64 order self (wants_upgrade fl) (upd self (received r) (fold_left (handled sha1 base64 order self) rs (woken self w)))) /\
    left_in (wants_upgrade fl) (kept_alive r fl) p'.
Proof.
  destruct (reads_user self p w rs r fl l d) as (p' & Hx & Hp'); try done. exists p'. split; [|done].
  by rewrite Hx, (session_request _ _ _ _ r fl), (requests_user _ _ _ max _ rs).
Qed.
End Reads.

(** ** A run *)

(** A request and the next one up to the data of its first chunk, the rest of that one and the beginning of a third, the rest
    of its head and the beginning of its body, the rest. *)
Definition first_reads : list bytes :=
  [request_text pipe_hi ++ take 60 (request_text pipe_chunks); drop 60 (request_text pipe_chunks) ++ take 19 (request_text pipe_body);
   take 47 (drop 19 (request_text pipe_body))].
Definition last_read : bytes := drop 66 (request_text pipe_body).

Lemma requests_in_reads_witness :
  exists p', recv_all (fun s => s) hex_encode map_to_list HTTP_MAX_HEADER_SIZE 7 (first_reads ++ [last_read]) (http_parser_init HTTP_REQUEST) hi_server =
      Some (p', handle_request (fun s => s) hex_encode map_to_list 7 (wants_upgrade (Z.lor F_CONTENTLENGTH F_CONNECTION_KEEP_ALIVE)) (upd 7 (received pipe_body)
        (fold_left (handled (fun s => s) hex_encode map_to_list 7) [pipe_hi; pipe_chunks] (woken 7 hi_server)))) /\
    left_in (wants_upgrade (Z.lor F_CONTENTLENGTH F_CONNECTION_KEEP_ALIVE)) (kept_alive pipe_body (Z.lor F_CONTENTLENGTH F_CONNECTION_KEEP_ALIVE)) p'.
Proof.
  apply (requests_in_reads (fun s => s) hex_encode map_to_list HTTP_MAX_HEADER_SIZE ltac:(done) 7 (http_parser_init HTTP_REQUEST) hi_server
    [pipe_hi; pipe_chunks] pipe_body (Z.lor F_CONTENTLENGTH F_CONNECTION_KEEP_ALIVE) first_reads last_read).
  - apply init_left_ok.
  - run.
  - pose proof pipe_plain as Hp. apply Forall_cons in Hp as [Hh Hp]. apply Forall_cons in Hp as [_ Hp]. by constructor.
  - exists 5. run.
  - run.
  - vm_compute. reflexivity.
  - apply Forall_app. split; [unfold first_reads|].
    all: repeat (apply Forall_cons; split; [vm_compute; reflexivity|]); constructor.
  - vm_compute. done.
Defined.

(** *** An early read loses the connection

    The first byte of the next request comes before the response to a keep-alive request is written: [recv_cb] takes it that
    the timer runs, and [stopKeepAliveTimer] clears [m_isKeepAlive], so [onWriteEnd] closes the session that it would have kept. *)
Definition written_after (l : list bytes) : list (nat * http_effect) :=
  match recv_all (fun s => s) hex_encode map_to_list HTTP_MAX_HEADER_SIZE 7 l (http_parser_init HTTP_REQUEST) hi_server with
  | Some (_, w) => drop (length (h_log w)) (h_log (onWriteEnd 0 w))
  | None => []
  end.

Example early_read_closes :
  written_after [request_text pipe_body] = [(7%nat, H_timer_start 20000)] /\
  written_after [request_text pipe_body; bs "G"] = [(7%nat, H_read_stop); (7%nat, H_close)].
Proof. vm_compute. done. Qed.
