(* ===== verification/HttpRefuse.v ===== *)
(** * Requests whose length is ambiguous

    A request that says its length twice, by [Content-Length] and [Transfer-Encoding: chunked] or by two
    [Content-Length]s, ends where its reader chooses: what a proxy takes for its body a server may take for the next
    request.  [http_parser] refuses it, and the server never answers it nor anything after it. *)

From S2P Require Import Prelude WsSession HttpTypes HttpExec HttpSafety HttpWire HttpRun HttpHead HttpBody HttpReq HttpRouter HttpResp HttpServer HttpService HttpPipeline HttpReads.
From stdpp Require Import gmap.
#[local] Open Scope Z_scope.

(** ** The parser *)

(** The bytes up to the one that makes the length ambiguous, and the headers before: the whole head when a chunked body has a
    length too, or up to the first digit of a second length. *)
Inductive ambiguous : bytes -> request -> option bytes -> Prop :=
  | Both_lengths r fl cl : fields_ok r fl cl -> has_flag fl F_CHUNKED = true -> has_flag fl F_CONTENTLENGTH = true ->
      ambiguous (head_text r) r None
  | Second_length r fl cl name d : fields_ok r fl cl -> has_flag fl F_CONTENTLENGTH = true -> forallb token_ok name = true ->
      lower name = CONTENT_LENGTH -> IS_NUM d = true -> ambiguous (fields_text r ++ name ++ bs ": " ++ [d]) r (Some name).

Definition refused (p : http_parser) : Prop := hp_http_errno p = HPE_UNEXPECTED_CONTENT_LENGTH.

(** The callbacks of what was read: no [on_headers_complete]. *)
Definition refused_user {U} (c : callbacks U) (r : request) (name : option bytes) (u : U) : U :=
  let u := fold_left (header_user c) (r_headers r) (cb_url c (r_target r) (cb_begin c u)) in
  match name with Some name => cb_field c name u | None => u end.

Section Refusal.
Context {U : Type} (c : callbacks U) (max : Z) {Hmax : Header_limit max} (lenient : bool) (data : bytes).
Implicit Types (p : http_parser) (u : U).

Abbreviation stops := (HttpBody.stops c max lenient false data).
Abbreviation switch := (reexecute (simple_settings c) max lenient false data 4).

(** A byte that is refused. *)
Lemma refused_byte p i ch s n u b l x : here data i (b :: l) -> PARSING_HEADER s = true -> 0 <= n < max ->
  switch (mkExec p i b s (n + 1) no_marks u) = Goto_error (SET_ERRNO HPE_UNEXPECTED_CONTENT_LENGTH x) -> ex_p x = i -> ex_user x = u ->
  stops (mkExec p i ch s n no_marks u) refused i u.
Proof.
  intros Hb Hs Hn Hr Hx Hu. destruct (here_cons _ _ _ _ Hb) as (_ & Hi & _). destruct x as [q j b' s' n' m' u']. cbn in Hx, Hu. subst j u'.
  exists (hp_set_state s' (hp_set_nread n' (hp_set_http_errno HPE_UNEXPECTED_CONTENT_LENGTH (hp_set_nread n' q)))).
  split; [by destruct q|]. intros k Hk. destruct k as [|k]; [cbn in *; lia|]. cbn [main_loop]. unfold data_len. cbn [ex_p].
  destruct (Z.eqb_spec i (len data)); [lia|]. rewrite (round_header _ _ _ _ _ _ _ _ _ _ _ _ b l) by first [done|lia]. by rewrite Hr.
Qed.

Lemma both_refused v ma mi fl cl p i ch n u rest : stage (Request v) ma mi true fl cl p -> flags_ok fl -> has_flag fl F_CHUNKED = true ->
  has_flag fl F_CONTENTLENGTH = true -> here data i (LF :: rest) -> 0 <= n < max ->
  stops (mkExec p i ch s_headers_almost_done n no_marks u) refused i u.
Proof.
  intros [[_ _ Hte Hf _] _] Hfl Hch Hcl Hb Hn. eapply refused_byte with (x := mkExec p i LF s_headers_almost_done (n + 1) no_marks u);
    [exact Hb|done|done| |done|done].
  cbn [reexecute]. unfold HttpExec.step. exec_cbn. unfold do_headers_almost_done, STRICT_CHECK. exec_cbn. cbn [Z.eqb Pos.eqb LF negb].
  rewrite Hf, (flags_ok_has fl F_TRAILING) by done. unfold length_conflict. by rewrite Hte, Hf, Hch, Hcl.
Qed.

Lemma second_refused v ma mi te fl cl p i ch n u d rest : stage (Request v) ma mi te fl cl p -> hp_header_state p = h_content_length ->
  has_flag fl F_CONTENTLENGTH = true -> IS_NUM d = true -> here data i (d :: rest) -> 0 <= n < max ->
  stops (mkExec p i ch s_header_value_discard_ws n no_marks u) refused i u.
Proof.
  intros [[_ _ _ Hf _] _] Hh Hcl Hd Hb Hn. assert (48 <= d <= 57) by (unfold IS_NUM in Hd; lia).
  assert (value_char_ok d = true) as Hok by (unfold value_char_ok, IS_HEADER_CHAR, is_crlf, CR, LF; lia).
  eapply refused_byte with (x := mkExec (hp_set_index 0 p) i d s_header_value (n + 1) (set_mark D_header_value (Some i) no_marks) u);
    [exact Hb|done|done| |done|done].
  cbn [reexecute]. rewrite value_started by first [done|unfold TAB; lia]. unfold do_header_value_start, MARK. exec_cbn.
  assert (hp_header_state (hp_set_index 0 p) = h_content_length /\ hp_flags (hp_set_index 0 p) = fl) as [-> ->] by (by destruct p).
  by rewrite Hd, Hcl.
Qed.

(** The run over an ambiguous request. *)
Lemma ambiguous_stops text r name p i ch n0 u rest : ambiguous text r name -> hp_type p = HTTP_REQUEST -> hp_http_errno p = HPE_OK ->
  here data i (text ++ rest) -> 0 <= n0 -> n0 + len text <= max ->
  stops (mkExec p i ch s_start_req n0 no_marks u) refused (i + len text - 1) (refused_user c r name u).
Proof.
  intros [r0 fl cl Hf Hch Hcl|r0 fl cl nm d Hf Hcl Hnm Hlow Hd] Ht He Hb Hn Hm; pose proof (headers_effect_flags _ _ _ _ _ (proj1 Hf) eq_refl) as Hfl.
  - destruct (gets_head c max lenient false data p i ch n0 u r0 fl cl rest Ht He Hf Hb Hn Hm) as (n & Hn' & Hg).
    eapply gets_stops; [exact Hg|]. intros p1 ch1 Hp1. unfold staged in Hp1. rewrite Hch in Hp1.
    rewrite head_fields, len_app, <- app_assoc in *. change (len HttpExec.crlf) with 2 in *. apply here_app in Hb as [_ Hb].
    change (HttpExec.crlf ++ rest) with (CR :: LF :: rest) in Hb. apply here_cons in Hb as (_ & _ & Hb).
    replace (i + (len (fields_text r0) + 2) - 1) with (i + len (fields_text r0) + 1) by lia. by eapply both_refused.
  - rewrite !len_app in *. change (len (bs ": ")) with 2 in *. change (len [d]) with 1 in *. rewrite <- !app_assoc in Hb.
    pose proof (len_nonneg (fields_text r0)). pose proof (len_nonneg nm).
    destruct (gets_fields c max lenient false data p i ch n0 u r0 fl cl _ Ht He Hf Hb Hn) as [s Hg]; [lia|].
    eapply gets_stops; [exact Hg|]. intros p1 ch1 Hp1. apply here_app in Hb as [_ Hb].
    assert (nm <> []) as Hne by (by intros ->).
    eapply gets_stops; [eapply (gets_name c max lenient false data); [exact Hp1|exact Hb|lia|lia|done|done|by rewrite Hlow]|]. intros p2 ch2 [Hp2 Hh2].
    rewrite Hlow in Hh2. rewrite app_assoc in Hb. apply here_app in Hb as [_ Hb]. rewrite len_app, Z.add_assoc in Hb.
    change (len (bs ": ")) with 2 in Hb.
    replace (i + (len (fields_text r0) + (len nm + (2 + 1))) - 1) with (i + len (fields_text r0) + len nm + 2) by lia.
    eapply second_refused; [exact Hp2|exact Hh2|done|exact Hd|exact Hb|lia].
Qed.
End Refusal.

Section Calls.
Context {U : Type} (c : callbacks U) (max : Z) {Hmax : Header_limit max}.

Lemma ambiguous_some text r name : ambiguous text r name -> text <> [].
Proof.
  intros [r0 fl cl _ _ _|r0 fl cl nm d _ _ _ _ _] E%(f_equal len); revert E; rewrite ?head_fields, !len_app;
    [change (len HttpExec.crlf) with 2|change (len [d]) with 1; pose proof (len_nonneg nm); change (len (bs ": ")) with 2];
    pose proof (len_nonneg (fields_text r0)); change (len (@nil Z)) with 0; lia.
Qed.

(** Requests, then one that is refused. *)
Lemma ambiguous_parsed p rs text r name rest u : left_in (hp_upgrade p) true p -> hp_allow_chunked_length p = false ->
  Forall (plain max) rs -> ambiguous text r name -> len text + 2 <= max ->
  exists p', http_parser_execute (simple_settings c) max p (flat_map request_text rs ++ text ++ rest) u =
      Done (len (flat_map request_text rs) + len text - 1) p'
        (refused_user c r name (fold_left (fun u r => request_user c r false u) rs u)) /\ refused p'.
Proof.
  intros (Hp & _ & Hs & Hn) Hallow Hrs Ha Hm. unfold http_parser_execute. rewrite bool_decide_true, Hallow by apply Hp. cbn [negb].
  set (data := flat_map request_text rs ++ text ++ rest).
  assert (here data 0 (flat_map request_text rs ++ text ++ rest)) as Hb by (split; [done|]; exists []; by rewrite drop_0, app_nil_r).
  destruct (requests_run c max (hp_lenient_http_headers p) false data rs p 0 0 (hp_nread p) u _ Hp Hrs Hb Hn) as (n0 & Hn' & Hg).
  apply here_app in Hb as [_ Hb].
  assert (stops c max (hp_lenient_http_headers p) false data (entry p u) refused (len (flat_map request_text rs) + len text - 1)
    (refused_user c r name (fold_left (fun u r => request_user c r false u) rs u))) as (p' & Hp' & Hr).
  { unfold entry. rewrite Hs. cbn [entry_marks]. eapply gets_stops; [exact Hg|]. intros p1 ch1 Hp1. rewrite Z.add_0_l in *.
    eapply (ambiguous_stops c max); [exact Ha|apply Hp1|apply Hp1|exact Hb|lia|lia]. }
  assert (0 < len data) as Hd.
  { assert (text <> []) as Hne by (by eapply ambiguous_some).
    pose proof (here_app _ _ _ _ Hb) as [Ht _]. pose proof (here_bound _ _ _ Ht Hne). pose proof (len_nonneg (flat_map request_text rs)).
    destruct text; [done|]. rewrite len_cons in *. pose proof (len_nonneg text). lia. }
  exists p'. split; [|done]. destruct (Z.eqb_spec (len data) 0); [lia|]. apply Hr. unfold len. cbn. lia.
Qed.
End Calls.

(** ** The server *)

Section Server.
Context {RE : RegexEngine} {A : Type}.
Context (sha1 base64 : bytes -> bytes) (order : strmap -> list (bytes * bytes)) (max : Z).
Context {Hlimit : Header_limit max}.
Implicit Types (w : HttpServer RE A) (self : nat) (r : request) (p : http_parser).

(** The callbacks of a head touch the request object of the session and the name of its last header. *)
Definition touched self (k : Session -> bytes) (q : httpReq -> httpReq) w : HttpServer RE A := upd self (fun s => set_tmpKey (k s) (on_req q s)) w.

Lemma refused_session self r name w :
  exists k q, refused_user (session_callbacks (RE := RE) (A := A) sha1 base64 order self) r name w = touched self k q w.
Proof.
  unfold refused_user. rewrite headers_user. cbn [session_callbacks cb_begin cb_url cb_field]. unfold onReqMessageBegin, onReqURL, onReqHeaderField.
  exists (fun s => match name with Some name => map tolower name | None => match last (r_headers r) with Some h => map tolower h.1 | None => m_tmpKey s end end).
  exists (fun q => set_headers (headers_of (r_headers r)) (set_url (r_target r) (set_parsed false (set_url [] (set_body [] (set_headers ∅ q)))))).
  destruct name; rewrite !upd_upd; apply upd_ext; intros [? [] ? ? ? ?]; reflexivity.
Qed.

(** A parser in an error state takes nothing. *)
Lemma refused_reads self later : forall p w, refused p ->
  recv_all sha1 base64 order max self later p w = Some (p, fold_left (fun w _ => woken self w) later w).
Proof.
  induction later as [|d later IH]; intros p w Hp; [done|]. cbn [recv_all fold_left]. rewrite recv_execute. unfold http_parser_execute.
  rewrite bool_decide_false by (by rewrite Hp). cbn [negb]. by apply IH.
Qed.

(** C8. A request whose length is ambiguous (by [Content-Length] and a chunked body, or by two [Content-Length]s) is not handled:
    the requests before it in the read are, but neither it nor anything after it, in this read or a later one, is given to a
    handler, answered, or makes the server write, close or forget the connection; of the server only the request object of
    the session has changed. *)
Theorem ambiguous_refused self p w rs text r name rest (Hp : left_in (hp_upgrade p) true p) (Hallow : hp_allow_chunked_length p = false)
    (Hrs : Forall (plain max) rs) (Ha : ambiguous text r name) (Hlen : len text + 2 <= max) :
  exists p' k q, let w' := touched self k q (fold_left (handled sha1 base64 order self) rs (woken self w)) in
    recv_cb sha1 base64 order max self (Some (flat_map request_text rs ++ text ++ rest)) p w = Some (p', w') /\
    hp_http_errno p' = HPE_UNEXPECTED_CONTENT_LENGTH /\
    forall later w2, recv_all sha1 base64 order max self later p' w2 = Some (p', fold_left (fun w _ => woken self w) later w2).
Proof.
  destruct (ambiguous_parsed (session_callbacks sha1 base64 order self) max p rs text r name rest (woken self w)) as (p' & Hx & Hp'); try done.
  destruct (refused_session self r name (fold_left (handled sha1 base64 order self) rs (woken self w))) as (k & q & Hf).
  exists p', k, q. cbn zeta. split_and!; [|done|intros later w2; by apply refused_reads].
  rewrite recv_execute, m_settings_simple, Hx. f_equal. f_equal. rewrite (requests_user _ _ _ max); [exact Hf|done].
Qed.
End Server.

(** ** A smuggled request *)

(** A proxy that goes by the length takes the second request for the body of the first. *)
Definition smuggler : request :=
  mkRequest HTTP_POST (bs "/hi") 1 1 [(bs "Content-Length", bs "37"); (bs "Transfer-Encoding", bs "chunked")] [] None.
Definition smuggled : bytes := bs "0" ++ HttpExec.crlf ++ HttpExec.crlf ++ bs "GET /admin HTTP/1.1" ++ HttpExec.crlf ++ HttpExec.crlf.

Lemma smuggler_ambiguous : ambiguous (head_text smuggler) smuggler None.
Proof. apply (Both_lengths _ (Z.lor F_CONTENTLENGTH F_CHUNKED) 37); [vm_compute; repeat split; congruence|reflexivity|reflexivity]. Qed.

(** Two lengths that are the same are refused too. *)
Lemma second_length_ambiguous : ambiguous (bs "GET / HTTP/1.1" ++ HttpExec.crlf ++ bs "Content-Length: 5" ++ HttpExec.crlf ++ bs "content-length: 5")
  (mkRequest HTTP_GET (bs "/") 1 1 [(bs "Content-Length", bs "5")] [] None) (Some (bs "content-length")).
Proof.
  apply (Second_length (mkRequest HTTP_GET (bs "/") 1 1 [(bs "Content-Length", bs "5")] [] None) F_CONTENTLENGTH 5 (bs "content-length") "5"%chr);
    [vm_compute; repeat split; congruence|reflexivity|reflexivity|reflexivity|reflexivity].
Qed.

Lemma ambiguous_refused_witness : exists p' k q,
  let w' := touched 7 k q (fold_left (handled (fun s => s) hex_encode map_to_list 7) [pipe_hi] (woken 7 hi_server)) in
  recv_cb (fun s => s) hex_encode map_to_list HTTP_MAX_HEADER_SIZE 7 (Some (flat_map request_text [pipe_hi] ++ head_text smuggler ++ smuggled))
    (http_parser_init HTTP_REQUEST) hi_server = Some (p', w') /\
  hp_http_errno p' = HPE_UNEXPECTED_CONTENT_LENGTH /\
  forall later (w2 : HttpServer mini_regex Z), recv_all (fun s => s) hex_encode map_to_list HTTP_MAX_HEADER_SIZE 7 later p' w2 =
    Some (p', fold_left (fun w _ => woken 7 w) later w2).
Proof.
  apply (ambiguous_refused (fun s => s) hex_encode map_to_list HTTP_MAX_HEADER_SIZE 7 (http_parser_init HTTP_REQUEST) hi_server [pipe_hi]
    (head_text smuggler) smuggler None smuggled).
  - vm_compute. repeat split; congruence.
  - reflexivity.
  - constructor; [apply (Forall_inv pipe_plain)|constructor].
  - apply smuggler_ambiguous.
  - vm_compute. congruence.
Defined.
