(* ===== verification/HttpExchange.v ===== *)
(** * One exchange: from the bytes of a request to the bytes of its answer

    A request that comes in one read or in several, cut outside its URL and its headers, is answered by what its
    handler says, and the connection is kept or closed as the request asked; whether the parser then takes the next request
    (src/core/httpserver.cpp, [recv_cb], [handle_request], [needKeepConnection], [onWriteEnd]). *)

From S2P Require Import Prelude WsSession HttpTypes HttpExec HttpSafety HttpWire HttpRun HttpHead HttpBody HttpWindow HttpRound HttpCut HttpReq HttpRouter HttpResp HttpServer HttpService HttpPipeline HttpReads.
From stdpp Require Import gmap.
#[local] Open Scope Z_scope.

(** ** Keeping the connection, for the server and for the parser *)

(** What [needKeepConnection] looks for. *)
Definition asks_keep (r : request) : bool := bool_decide (headers_of (r_headers r) !! bs "connection" = Some (bs "keep-alive")).

Lemma asks_keep_need r q : needKeepConnection (request_of r q) = asks_keep r.
Proof. by rewrite need_keep_iff. Qed.

(** The parser and the server write a name in lower case in the same way. *)
Lemma tokens_lower : forallb (fun ch => (TOKEN ch =? 0) || (TOKEN ch =? tolower ch)) (seqZ 0 128) = true.
Proof. vm_compute. reflexivity. Qed.

Lemma token_lower ch : TOKEN ch <> 0 -> TOKEN ch = tolower ch.
Proof.
  intros Ht. pose proof tokens_lower as H. rewrite forallb_forall in H.
  destruct (decide (0 <= ch < 128)) as [Hr|Hr].
  - specialize (H ch). destruct (Z.eqb_spec (TOKEN ch) 0); [done|]. apply Z.eqb_eq, H, list_elem_of_In, elem_of_seqZ. lia.
  - destruct Ht. unfold TOKEN, STRICT_TOKEN, table. case_match; [done|].
    destruct (decide (ch < 0)); [by replace (Z.to_nat ch) with 0%nat by lia|]. apply nth_overflow. cbn. lia.
Qed.

Lemma name_lower (name : bytes) : forallb (fun ch => negb (TOKEN ch =? 0)) name = true -> map tolower name = lower name.
Proof.
  induction name as [|ch name IH]; [done|]. cbn [forallb map lower]. intros [Hc%negb_true_iff%Z.eqb_neq Hn]%andb_true_iff.
  rewrite IH, token_lower by done. done.
Qed.

(** A header of the map is one of the request. *)
Lemma headers_of_in hs m k v : fold_left (fun m h => insert_new (map tolower h.1) h.2 m) hs m !! k = Some v ->
  m !! k = Some v \/ exists h, In h hs /\ map tolower h.1 = k /\ h.2 = v.
Proof.
  revert m. induction hs as [|h hs IH]; intros m; [by left|]. cbn [fold_left]. intros [Hm|(h' & Hin & Hh)]%IH; [|right; exists h'; cbn; auto].
  unfold insert_new in Hm. destruct (m !! map tolower h.1) eqn:E; [by left|].
  destruct (decide (map tolower h.1 = k)) as [<-|Hne]; [rewrite lookup_insert_eq in Hm|rewrite lookup_insert_ne in Hm by done; by left].
  injection Hm as <-. right. exists h. cbn. auto.
Qed.

(** Headers only add flags. *)
Lemma effect_keeps h f fl cl fl' cl' : header_effect h (fl, cl) = Some (fl', cl') -> has_flag fl f = true -> has_flag fl' f = true.
Proof.
  unfold header_effect. intros He Hf. destruct (kind_of h.1).
  2: destruct (connection_flags h.2); [|done].
  3: destruct (_ && _); [|done].
  4: case_bool_decide; [|done].
  all: injection He as <- <-; by rewrite ?has_flag_lor, ?Hf.
Qed.

Lemma effects_keep hs f : forall fl cl fl' cl', headers_effect hs (fl, cl) = Some (fl', cl') -> has_flag fl f = true -> has_flag fl' f = true.
Proof.
  induction hs as [|h hs IH]; intros fl cl fl' cl' He Hf; [by injection He as <- <-|]. cbn [headers_effect] in He.
  destruct (header_effect h (fl, cl)) as [[fl1 cl1]|] eqn:He1; [|done]. by eapply IH; [exact He|eapply effect_keeps].
Qed.

Lemma keep_flag hs h : In h hs -> lower h.1 = CONNECTION -> h.2 = bs "keep-alive" ->
  forall fl cl fl' cl', headers_effect hs (fl, cl) = Some (fl', cl') -> has_flag fl' F_CONNECTION_KEEP_ALIVE = true.
Proof.
  intros Hin Hn Hv. induction hs as [|h' hs IH]; [done|]. intros fl cl fl' cl' He. cbn [headers_effect] in He.
  destruct (header_effect h' (fl, cl)) as [[fl1 cl1]|] eqn:He1; [|done]. destruct Hin as [->|Hin]; [|by eapply IH].
  eapply effects_keep; [exact He|]. unfold header_effect, kind_of in He1. rewrite Hn, Hv, bool_decide_true in He1 by (by left).
  injection He1 as <- <-. rewrite has_flag_lor. apply orb_true_r.
Qed.

(** A connection that the server keeps is one that the parser keeps, unless a header says [close]. *)
Lemma kept_by_both r fl : request_ok r fl -> asks_keep r = true -> has_flag fl F_CONNECTION_CLOSE = false -> kept_alive r fl = true.
Proof.
  intros (cl & He & _ & _ & _ & _ & Hok & _) Hk%bool_decide_eq_true Hc. unfold kept_alive, alive. rewrite Hc. destruct (_ && _); [done|].
  apply headers_of_in in Hk as [Hk|(h & Hin & Hn & Hv)]; [by rewrite lookup_empty in Hk|].
  eapply keep_flag; [exact Hin| |exact Hv|exact He]. rewrite <- name_lower; [exact Hn|].
  rewrite forallb_forall in Hok. specialize (Hok h Hin). unfold HttpWire.header_ok in Hok. by apply andb_true_iff in Hok as [[[Hok _]%andb_true_iff _]%andb_true_iff _].
Qed.

(** ** The exchange *)

Section Exchange.
Context {RE : RegexEngine} {A : Type}.
Context (sha1 base64 : bytes -> bytes) (order : strmap -> list (bytes * bytes)) (max : Z).
Context {Hlimit : Header_limit max}.
Hypothesis Horder : forall m, order m ≡ₚ map_to_list m.
Hypothesis Hmax : 0 < max.
Implicit Types (w : HttpServer RE A) (self : nat) (r : request) (p : http_parser).

Abbreviation recv_all := (HttpReads.recv_all (RE := RE) (A := A) sha1 base64 order max).
Abbreviation whole := (HttpReads.whole (RE := RE) (A := A) sha1 base64 order max).

(** The timer of a connection that was kept is stopped when bytes come. *)
Definition woken_log self w : list (nat * http_effect) := if keeps_alive w self then [(self, H_timer_stop)] else [].

Lemma woken_frame self w : h_log (woken self w) = h_log w ++ woken_log self w /\ m_sessions (woken self w) = m_sessions w /\
  next_resp (woken self w) = next_resp w /\ m_keepAliveTimeout (woken self w) = m_keepAliveTimeout w /\
  m_router (woken self w) = m_router w /\ h_app (woken self w) = h_app w.
Proof. unfold woken, woken_log. destruct (keeps_alive w self); split_and!; try done. by rewrite app_nil_r. Qed.

Lemma woken_request self w x : sess w !! self = Some x -> exists x', sess (woken self w) !! self = Some x' /\ m_req x' = m_req x.
Proof.
  intros Hx. unfold woken. destruct (keeps_alive w self); [|by exists x]. eexists. split; [|].
  { cbn. by rewrite lookup_alter_eq, Hx. }
  done.
Qed.

(** C5. From bytes to bytes: a well-formed request that is not an upgrade and whose handler (or the 404 page) sets headers and a status
    and sends one text before it returns makes the server write one response, which a client reads as this status, these headers and
    this text, given for the request that its bytes say.  The request comes in one read or in several, none but the last of which ends
    inside the URL or the name or value of a header.  Once the response is written the connection waits for the next request
    with its timer started if the request says [Connection: keep-alive], and then the parser takes the next request unless a
    header says [close]; otherwise the connection is closed and forgotten. *)
Theorem request_exchanged self p w x r fl cs text l d (Hok : left_ok p) (Hp : left_in (hp_upgrade p) true p)
    (Hr : request_ok r fl) (Hup : wants_upgrade fl = false) (Hlen : within max r) (Hbytes : request_text r = concat (l ++ [d]))
    (Hl : Forall (fun s => 0 < len s) (l ++ [d])) (Hwhole : whole self (l ++ [d]) p w)
    (Hx : sess w !! self = Some x) (Hin : self ∈ m_sessions w)
    (Ha : answer w (request_of r (m_req x)) = cs ++ [Call_sendStr text]) (Hcs : answer_ok cs text) :
  let y := fold_left apply_setter cs httpResp_init in
  exists p' w' bufs, recv_all self (l ++ [d]) p w = Some (p', w') /\
    h_log w' = h_log w ++ woken_log self w ++ [(self, H_write (next_resp w) bufs)] /\
    client_reads bufs (m_status y) (<[Content_Type := bs "text/plain"]> (m_headers y)) text /\
    let w2 := onWriteEnd (next_resp w) w' in
    if asks_keep r
    then h_log w2 = h_log w' ++ [(self, H_timer_start (m_keepAliveTimeout w * 1000))] /\ m_sessions w2 = m_sessions w /\
      (has_flag fl F_CONNECTION_CLOSE = false -> left_in false true p')
    else h_log w2 = h_log w' ++ [(self, H_read_stop); (self, H_close)] /\ m_sessions w2 = swap_remove self (m_sessions w).
Proof.
  destruct (reads_user sha1 base64 order max Hmax self p w [] r fl l d) as (p' & Hrecv & Hp'); try done.
  cbn [fold_left] in Hrecv. rewrite (session_request _ _ _ _ r fl), Hup in Hrecv by done. rewrite Hup in Hp'.
  destruct (woken_frame self w) as (Hlog & Hs & Hn & Hk & Hro & Hap), (woken_request self w x Hx) as (x' & Hx' & Hreq).
  set (w1 := upd self (received r) (woken self w)) in *.
  assert (sess w1 !! self = Some (received r x')) as Hx1 by (unfold w1; cbn; by rewrite lookup_alter_eq, Hx').
  assert (answer w1 (m_req (received r x')) = cs ++ [Call_sendStr text]) as Ha1.
  { rewrite <- Ha. unfold answer. cbn [w1 m_router upd h_app]. rewrite Hro, Hap. cbn [received m_req set_tmpKey on_req]. by rewrite Hreq. }
  pose proof (request_written sha1 base64 order Horder self w1 _ cs text Hx1 Ha1 Hcs) as Hw.
  cbn [received m_req set_tmpKey on_req] in Hw. rewrite asks_keep_need in Hw. change (next_resp w1) with (next_resp (woken self w)) in Hw. rewrite Hn in Hw.
  destruct (an_written _ _ _ _ _ _ _ Hw) as (bufs & Hlog' & Hreads). cbn [w1 upd h_log] in Hlog'. rewrite Hlog, <- app_assoc in Hlog'.
  pose proof (answered_served self _ w1 cs text _ _ ltac:(cbn; by rewrite Hs) Hw) as Hserved. unfold served in Hserved.
  cbn [w1 upd m_sessions m_keepAliveTimeout] in Hserved. rewrite Hs, Hk in Hserved.
  exists p', (handle_request sha1 base64 order self false w1), bufs. split_and!; try done. cbv zeta. destruct (asks_keep r) eqn:Hkeep; [|done].
  destruct Hserved as [H1 H2]. split_and!; try done. intros Hc. by rewrite (kept_by_both r fl) in Hp'.
Qed.
End Exchange.

(** ** Runs *)

(** A request for the echo, its body in two chunks, the first of which is cut. *)
Definition echo_request : request :=
  mkRequest HTTP_POST (bs "/echo") 1 1 [(bs "Transfer-Encoding", bs "chunked"); (bs "Connection", bs "keep-alive")] (bs "hello, world")
    (Some ([mkChunk (bs "7") [] (bs "hello, "); mkChunk (bs "5") [] (bs "world")], mkChunk (bs "0") [] [])).

Lemma request_exchanged_witness :
  exists p' w' bufs, HttpReads.recv_all (fun s => s) hex_encode map_to_list HTTP_MAX_HEADER_SIZE 7
      ([take 82 (request_text echo_request)] ++ [drop 82 (request_text echo_request)]) (http_parser_init HTTP_REQUEST) hi_server = Some (p', w') /\
    h_log w' = h_log hi_server ++ woken_log 7 hi_server ++ [(7%nat, H_write (next_resp hi_server) bufs)] /\
    client_reads bufs OK (<[Content_Type := bs "text/plain"]> ∅) (bs "hello, world") /\
    let w2 := onWriteEnd (next_resp hi_server) w' in
    if asks_keep echo_request
    then h_log w2 = h_log w' ++ [(7%nat, H_timer_start (m_keepAliveTimeout hi_server * 1000))] /\ m_sessions w2 = m_sessions hi_server /\
      (has_flag (Z.lor F_CHUNKED F_CONNECTION_KEEP_ALIVE) F_CONNECTION_CLOSE = false -> left_in false true p')
    else h_log w2 = h_log w' ++ [(7%nat, H_read_stop); (7%nat, H_close)] /\ m_sessions w2 = swap_remove 7%nat (m_sessions hi_server).
Proof.
  apply (request_exchanged (fun s => s) hex_encode map_to_list HTTP_MAX_HEADER_SIZE ltac:(done) ltac:(done) 7 (http_parser_init HTTP_REQUEST) hi_server
    hi_session echo_request (Z.lor F_CHUNKED F_CONNECTION_KEEP_ALIVE) [] (bs "hello, world")
    [take 82 (request_text echo_request)] (drop 82 (request_text echo_request))).
  - apply init_left_ok.
  - run.
  - exists ULLONG_MAX. run.
  - reflexivity.
  - run.
  - vm_compute. reflexivity.
  - apply Forall_app. split; repeat (apply Forall_cons; split; [vm_compute; reflexivity|]); constructor.
  - vm_compute. done.
  - reflexivity.
  - cbn. by left.
  - vm_compute. reflexivity.
  - split; [constructor|]. split; [vm_compute; reflexivity|]. replace (map_to_list _) with [(Content_Type, bs "text/plain")] by (vm_compute; reflexivity).
    repeat constructor; apply find_char_None; reflexivity.
Defined.

(** What the server does with the reads once the response of the first one is written. *)
Definition exchanged (r : request) (l : list bytes) : list (nat * http_effect) :=
  let recv := HttpReads.recv_all (fun s => s) hex_encode map_to_list HTTP_MAX_HEADER_SIZE 7 in
  match recv [request_text r] (http_parser_init HTTP_REQUEST) hi_server with
  | Some (p, w) => let w := onWriteEnd 0 w in match recv l p w with Some (_, w2) => drop (length (h_log w) - 1) (h_log w2) | None => [] end
  | None => []
  end.

Definition get_hi (hs : list (bytes * bytes)) : request := mkRequest HTTP_GET (bs "/hi") 1 1 hs [] None.

(** The value is compared with its case, and a request of HTTP/1.1 that says nothing is not kept. *)
Example keep_alive_case :
  exchanged (get_hi [(bs "Connection", bs "Keep-Alive")]) [] = [(7%nat, H_close)] /\
  exchanged (get_hi []) [] = [(7%nat, H_close)] /\
  exchanged (get_hi [(bs "Connection", bs "keep-alive")]) [] = [(7%nat, H_timer_start 20000)].
Proof. vm_compute. done. Qed.

(** The server looks at the first [Connection] header, the parser at all of them and at [Proxy-Connection]: a connection that only the
    server keeps answers nothing more, although bytes stop its timer. *)
Example kept_but_deaf :
  exchanged (get_hi [(bs "Connection", bs "keep-alive"); (bs "Proxy-Connection", bs "close")]) [request_text pipe_hi] =
  [(7%nat, H_timer_start 20000); (7%nat, H_timer_stop)].
Proof. vm_compute. done. Qed.
