(* ===== verification/HttpConn.v ===== *)
(** * The life of a connection

    The abstract specification of what the HTTP server does to one connection, as an
    automaton on its effects, and the refinement: whatever the interleaving of the
    events, the effects on every connection follow the automaton, and the state of the
    server says in which phase it is. *)

From S2P Require Import Prelude WsSession HttpTypes HttpExec HttpSafety HttpReq HttpRouter FileReader HttpResp HttpServer HttpService.
From stdpp Require Import gmap.
#[local] Open Scope Z_scope.

(** ** The specification *)

(** [timer] tells whether the keep-alive timer runs.  A connection handed over to the
    WebSocket server with its timer running expires when it fires. *)
Inductive phase :=
  | Fresh
  | Held (timer : bool)
  | Stopping (timer : bool)
  | Upgraded (timer : bool)
  | Expiring
  | Closed.

Definition conn_step (p : phase) (e : http_effect) : option phase :=
  match p, e with
  | Fresh, H_read_start => Some (Held false)
  | Held t, (H_write _ _ | H_file_read _ _ | H_assert_failed) => Some (Held t)
  | Held _, H_timer_start _ => Some (Held true)
  | Held _, H_timer_stop => Some (Held false)
  | Held t, H_read_stop => Some (Stopping t)
  | Stopping _, H_close => Some Closed
  | Stopping t, H_upgrade => Some (Upgraded t)
  | Upgraded t, (H_write _ _ | H_file_read _ _) => Some (Upgraded t)
  | Upgraded true, H_read_stop => Some Expiring
  | Expiring, H_close => Some Closed
  | Closed, (H_write _ _ | H_file_read _ _) => Some Closed
  | _, _ => None
  end.

Fixpoint conn_run (p : phase) (l : list http_effect) : option phase :=
  match l with
  | [] => Some p
  | e :: l' => match conn_step p e with Some p' => conn_run p' l' | None => None end
  end.

Lemma conn_run_app p l k : conn_run p (l ++ k) = match conn_run p l with Some q => conn_run q k | None => None end.
Proof. revert p. induction l as [|e l IH]; intros p; [done|]. cbn. destruct (conn_step p e); [apply IH|done]. Qed.

(** ** The abstraction *)

Section Refinement.
Context {RE : RegexEngine} {A : Type}.
Context (sha1 base64 : bytes -> bytes) (order : strmap -> list (bytes * bytes)) (max_header_size : Z).
Implicit Types (w : HttpServer RE A) (s : System RE A) (self i : nat).

Definition phase_of w i : phase :=
  match sess w !! i with
  | None => Fresh
  | Some x =>
      if bool_decide (i ∈ m_sessions w) then Held (timer_active x)
      else if bool_decide (closes w i = 0%nat) then Upgraded (timer_active x) else Closed
  end.

(** The effects on one connection, in order. *)
Definition trace (l : list (nat * http_effect)) i : list http_effect := map snd (filter (fun e => fst e = i) l).

Lemma trace_app l k i : trace (l ++ k) i = trace l i ++ trace k i.
Proof. unfold trace. by rewrite filter_app, map_app. Qed.

Lemma trace_one j e i : trace [(j, e)] i = if decide (j = i) then [e] else [].
Proof. unfold trace. rewrite filter_cons. cbn. by case_decide. Qed.

(** From one state to the next: the new effects lead from phase to phase. *)
Definition follows w w' : Prop := exists l, h_log w' = h_log w ++ l /\
  forall i, conn_run (phase_of w i) (trace l i) = Some (phase_of w' i).

#[export] Instance follows_preorder : PreOrder follows.
Proof.
  split.
  - intros w. exists []. by rewrite app_nil_r.
  - intros w1 w2 w3 (l & Hl & Hp) (k & Hk & Hq). exists (l ++ k). split; [by rewrite Hk, Hl, app_assoc|].
    intros i. by rewrite trace_app, conn_run_app, Hp.
Qed.

Record conn_inv w : Prop := {
  ci_http : http_inv w;
  ci_owned : owned w;
  ci_data : forall i, timer_on w i = true -> exists x, sess w !! i = Some x /\ timer_data x = true;
  }.

Lemma phase_held w i x : sess w !! i = Some x -> i ∈ m_sessions w -> phase_of w i = Held (timer_active x).
Proof. unfold phase_of. intros -> Hi. by rewrite bool_decide_true. Qed.

Lemma held_sess w i : http_inv w -> i ∈ m_sessions w -> exists x, sess w !! i = Some x.
Proof.
  intros Hw Hi. destruct (hi_sess _ Hw i Hi) as (b & n & Hv & _). apply timer_view_sess. by rewrite Hv.
Qed.

(** The phase depends on little. *)
Lemma phase_of_eq w w' i :
  timer_view w' i = timer_view w i -> (i ∈ m_sessions w' <-> i ∈ m_sessions w) -> closes w' i = closes w i ->
  phase_of w' i = phase_of w i.
Proof.
  unfold phase_of, timer_view. intros Hv Hm ->. rewrite (bool_decide_ext _ _ Hm).
  destruct (sess w !! i) as [x|], (sess w' !! i) as [x'|]; try done. cbn in Hv. by injection Hv as _ -> _.
Qed.

(** Bytes may be sent in every phase but before the connection. *)
Lemma sends_run w i l : Forall (fun e => sends (i, e)) l -> (sess w !! i = None -> l = []) ->
  conn_run (phase_of w i) l = Some (phase_of w i).
Proof.
  intros Hl Hf. unfold phase_of. destruct (sess w !! i) as [x|]; [|by rewrite Hf].
  clear Hf. induction Hl as [|e l He Hl IH]; [done|]. cbn [conn_run].
  destruct (bool_decide (i ∈ m_sessions w)); [|destruct (bool_decide _)]; destruct e; try done;
    destruct (timer_active x); exact IH.
Qed.

Lemma trace_sends l i : Forall sends l -> Forall (fun e => sends (i, e)) (trace l i).
Proof.
  unfold trace. induction 1 as [|[j e] l He Hl IH]; [constructor|]. rewrite filter_cons. cbn [fst].
  case_decide; [|done]. cbn [map snd]. subst. by constructor.
Qed.

Lemma trace_in l i e : e ∈ trace l i -> (i, e) ∈ l.
Proof.
  unfold trace. rewrite list_elem_of_fmap. intros ([j e'] & -> & [Hj Hin]%list_elem_of_filter). cbn in *. by subst.
Qed.

Lemma quiet_follows self w w' : quiet self w w' -> is_Some (sess w !! self) -> owned w -> follows w w'.
Proof.
  intros Hq Hs Ho. destruct (q_log _ _ _ Hq) as (l & Hl & Hsend). exists l. split; [done|]. intros i.
  pose proof (q_owned _ _ _ Hq Hs Ho) as Ho'.
  rewrite sends_run.
  - f_equal. symmetry. apply phase_of_eq; [apply (q_view _ _ _ Hq)|by rewrite (q_sessions _ _ _ Hq)|by eapply quiet_closes].
  - by apply trace_sends.
  - intros Hi. destruct (trace l i) as [|e k] eqn:Et; [done|].
    assert (is_Some (sess w' !! i)) as Hi'.
    { apply (ow_log _ Ho' i e). rewrite Hl, elem_of_app. right. apply trace_in. rewrite Et. by left. }
    rewrite <- timer_view_sess, (q_view _ _ _ Hq), timer_view_sess, Hi in Hi'. by destruct Hi'.
Qed.

(** An effect of one connection, the others being left alone. *)
Lemma follows_one w w' self l :
  h_log w' = h_log w ++ map (pair self) l ->
  (forall i, i <> self -> phase_of w' i = phase_of w i) ->
  conn_run (phase_of w self) l = Some (phase_of w' self) -> follows w w'.
Proof.
  intros Hl Ho Hs. eexists. split; [exact Hl|]. intros i.
  assert (trace (map (pair self) l) i = if decide (self = i) then l else []) as ->.
  { unfold trace. clear. induction l as [|e l IH]; cbn [map]; [by case_decide|].
    rewrite filter_cons. cbn [fst]. destruct (decide (self = i)); [cbn; by rewrite IH|exact IH]. }
  case_decide; [by subst|]. cbn. by rewrite Ho.
Qed.

Lemma owned_keep w w' l self :
  owned w -> is_Some (sess w !! self) -> h_log w' = h_log w ++ map (pair self) l -> resps w' = resps w ->
  (forall i, is_Some (sess w !! i) -> is_Some (sess w' !! i)) -> owned w'.
Proof.
  intros [H1 H2] Hs Hl Hr Hd. split; rewrite ?Hl, ?Hr.
  - intros r x Hx. by apply Hd, (H1 r).
  - intros i e. rewrite elem_of_app, list_elem_of_fmap. intros [Hin|(e' & [= -> ->] & _)]; apply Hd; [by eapply H2|done].
Qed.

(** *** The steps *)

(** An effect that starts or stops the timer of a held session. *)
Lemma timer_follows self e f w :
  conn_inv w -> self ∈ m_sessions w -> e <> H_close -> http_inv (h_emit self e (upd self f w)) ->
  (forall x, conn_step (Held (timer_active x)) e = Some (Held (timer_active (f x)))) ->
  (forall x, timer_active (f x) = true -> timer_data (f x) = true) ->
  follows w (h_emit self e (upd self f w)) /\ conn_inv (h_emit self e (upd self f w)).
Proof.
  intros [Hw Ho Hd] Hin He Hw' Hstep Hdata. destruct (held_sess w self Hw Hin) as [x Hx].
  assert (is_Some (sess w !! self)) as Hs by by eexists.
  split; [|split; [done|..]].
  - apply (follows_one _ _ self [e]); [done| |].
    + intros i Hi. apply phase_of_eq; [|done|by rewrite closes_emit_other].
      unfold timer_view. cbn. by rewrite lookup_alter_ne.
    + rewrite (phase_held _ _ x) by done. cbn [conn_run]. rewrite Hstep.
      by rewrite (phase_held _ _ (f x)) by (done || by cbn; rewrite lookup_alter_eq, Hx).
  - apply (owned_keep w _ [e] self); [done..|]. intros i. cbn. by rewrite lookup_alter_is_Some.
  - intros i. unfold timer_on. cbn. destruct (decide (i = self)) as [->|Hi].
    + rewrite lookup_alter_eq, Hx. cbn. intros Ht. eexists. split; [done|by apply Hdata].
    + rewrite lookup_alter_ne by done. apply Hd.
Qed.

Lemma stop_follows self w :
  conn_inv w -> self ∈ m_sessions w -> follows w (stopKeepAliveTimer self w) /\ conn_inv (stopKeepAliveTimer self w).
Proof. intros Hc Hin. apply timer_follows; try done. by apply stop_inv, ci_http. Qed.

Lemma start_follows self w :
  conn_inv w -> self ∈ m_sessions w -> follows w (startKeepAliveTimer self w) /\ conn_inv (startKeepAliveTimer self w).
Proof. intros Hc Hin. apply timer_follows; try done. by apply start_inv, ci_http. Qed.

(** Closing a session whose timer has stopped or just fired: [t] is what the effects say. *)
Lemma close_follows self w x :
  conn_inv w -> sess w !! self = Some x -> timer_active x = false -> closes w self = 0%nat ->
  exists l, h_log (closeSession self false w) = h_log w ++ map (pair self) l /\
    (forall t, conn_run (if bool_decide (self ∈ m_sessions w) then Held t else Upgraded true) l = Some Closed) /\
    phase_of (closeSession self false w) self = Closed /\
    (forall i, i <> self -> phase_of (closeSession self false w) i = phase_of w i) /\
    conn_inv (closeSession self false w).
Proof.
  intros [Hw Ho Hd] Hx Hoff H0. exists [H_read_stop; H_close].
  assert (Hmem : forall i, i ∈ m_sessions (closeSession self false w) <-> i ∈ m_sessions w /\ i <> self).
  { intros i. apply swap_remove_elem_of, hi_nodup, Hw. }
  assert (Hcl : forall i, closes (closeSession self false w) i = (closes w i + if decide (self = i) then 1 else 0)%nat).
  { intros i. unfold closeSession, removeSession. change (closes (set_sessions ?l ?v) i) with (closes v i).
    rewrite !closes_emit. rewrite (decide_False (P := (_, H_read_stop) = _)) by done.
    rewrite Nat.add_0_r. f_equal. by repeat case_decide; simplify_eq. }
  split_and!.
  - cbn. by rewrite <- app_assoc.
  - intros t. by case_bool_decide.
  - unfold phase_of. change (sess (closeSession self false w)) with (sess w). rewrite Hx, Hcl, H0, decide_True by done.
    rewrite bool_decide_false; [done|]. rewrite Hmem. tauto.
  - intros i Hi. apply phase_of_eq; [done|rewrite Hmem; tauto|rewrite Hcl, decide_False by done; apply Nat.add_0_r].
  - split; [|..|exact Hd].
    + apply close_inv; [done| |done]. unfold timer_on. by rewrite Hx.
    + apply (owned_keep w _ [H_read_stop; H_close] self); [done|by eexists| |done..]. cbn. by rewrite <- app_assoc.
Qed.

Lemma quiet_conn self w w' :
  quiet self w w' -> is_Some (sess w !! self) -> http_inv w' -> conn_inv w -> follows w w' /\ conn_inv w'.
Proof.
  intros Hq Hs Hw' [Hw Ho Hd]. split; [by eapply quiet_follows|]. split; [done|by apply (q_owned _ _ _ Hq)|].
  intros i. rewrite (quiet_timer_on _ _ _ _ Hq). intros Ht. destruct (Hd i Ht) as (y & Hy & Hty).
  pose proof (q_view _ _ _ Hq i) as Hv. unfold timer_view in Hv. rewrite Hy in Hv.
  destruct (sess w' !! i) as [z|]; [|done]. exists z. split; [done|]. cbn in Hv. by injection Hv as -> _ _.
Qed.

(** A change of one session that leaves its timer alone. *)
Lemma upd_conn self f w :
  (forall x, timer_active (f x) = timer_active x /\ timer_data (f x) = timer_data x) ->
  http_inv (upd self f w) -> conn_inv w -> follows w (upd self f w) /\ conn_inv (upd self f w).
Proof.
  intros Hf Hw' [Hw Ho Hd]. split; [|split; [done| |]].
  - exists []. split; [by rewrite app_nil_r|]. intros i. cbn. f_equal. unfold phase_of. cbn.
    rewrite lookup_alter. case_decide; [subst|done]. destruct (sess w !! i) as [x|]; [|done]. cbn.
    by destruct (Hf x) as [-> _].
  - destruct Ho as [H1 H2]. split; cbn; intros; rewrite lookup_alter_is_Some; [by eapply H1|by eapply H2].
  - intros i. unfold timer_on. cbn. rewrite lookup_alter. case_decide; [subst|apply Hd]. intros Ht.
    destruct (sess w !! i) as [x|] eqn:Ex; [|done]. cbn in Ht. destruct (Hf x) as [Ha Hdx]. rewrite Ha in Ht.
    destruct (Hd i) as (y & Hy & Hty); [unfold timer_on; by rewrite Ex|]. rewrite Ex in Hy. injection Hy as ->.
    eexists. split; [done|]. by rewrite Hdx.
Qed.

Lemma recv_follows self data p w p' w' : 0 <= max_header_size ->
  conn_inv w -> self ∈ m_sessions w -> left_ok p ->
  HttpServer.recv_cb sha1 base64 order max_header_size self data p w = Some (p', w') ->
  follows w w' /\ conn_inv w'.
Proof.
  intros Hmax Hc Hin Hp Hr. destruct data as [data|]; cbn [HttpServer.recv_cb] in Hr.
  - match type of Hr with context [http_parser_execute _ _ _ _ ?v] => set (w1 := v) in Hr end.
    assert (follows w w1 /\ conn_inv w1 /\ m_sessions w1 = m_sessions w /\ timer_on w1 self = false) as (Hf1 & Hc1 & Hm1 & Ht1).
    { unfold w1. change (default false (m_isKeepAlive <$> sess w !! self)) with (keeps_alive w self).
      destruct (keeps_alive w self) eqn:Ek.
      - destruct (stop_follows self w Hc Hin). split_and!; [done..|]. by rewrite stop_timer_on, decide_True.
      - split_and!; [done..|]. destruct (timer_on w self) eqn:Et; [|done]. by rewrite (hi_timer _ (ci_http _ Hc)) in Ek. }
    pose proof (execute_final _ max_header_size _ (m_settings_ok sha1 base64 order self w1) Hmax p data w1 Hp ltac:(done)) as Hex.
    destruct (http_parser_execute _ _ _ _ _) as [r p2 w2| | |]; try done. injection Hr as -> ->. destruct Hex as (_ & _ & Hq).
    destruct (held_sess w1 self (ci_http _ Hc1)) as [x Hx]; [by rewrite Hm1|]. assert (is_Some (sess w1 !! self)) as Hs by by eexists.
    destruct (quiet_conn self w1 w' Hq Hs) as [Hf2 Hc2]; [|done|split; [by etrans|done]].
    eapply quiet_inv; [exact Hq|congruence|apply (ci_http _ Hc1)].
  - injection Hr as <- <-. destruct (stop_follows self w Hc Hin) as [Hf1 Hc1]. set (w1 := stopKeepAliveTimer self w) in *.
    destruct (held_sess w1 self (ci_http _ Hc1)) as [x Hx]; [done|].
    assert (timer_active x = false) as Hoff.
    { assert (timer_on w1 self = false) as Ht by (unfold w1; by rewrite stop_timer_on, decide_True).
      unfold timer_on in Ht. by rewrite Hx in Ht. }
    destruct (close_follows self w1 x Hc1 Hx Hoff) as (l & Hl & Hrun & Hph & Hoth & Hc2).
    { apply (hi_open _ (ci_http _ Hc1)). by left. }
    split; [|done]. etrans; [exact Hf1|]. apply (follows_one _ _ self l); [done..|].
    rewrite (phase_held _ _ x) by done. rewrite Hph. specialize (Hrun (timer_active x)).
    by rewrite bool_decide_true in Hrun.
Qed.

Lemma timer_cb_follows self w :
  conn_inv w -> timer_on w self = true -> follows w (keepAliveTimerCb self w) /\ conn_inv (keepAliveTimerCb self w).
Proof.
  intros Hc Ht. destruct (ci_data _ Hc self Ht) as (x & Hx & Hdx). unfold keepAliveTimerCb. rewrite Hx, Hdx.
  set (w1 := upd self _ w). pose proof Ht as Hon. unfold timer_on in Hon. rewrite Hx in Hon. cbn in Hon.
  assert (Hx1 : sess w1 !! self = Some (set_timer true false x)) by (cbn; by rewrite lookup_alter_eq, Hx, <- Hdx).
  assert (conn_inv w1) as Hc1.
  { destruct Hc as [Hw Ho Hd]. split.
    - apply upd_inv; try done; intros; lia.
    - apply (owned_keep w _ [] self); [done|by eexists|by rewrite app_nil_r|done|]. intros i. cbn. by rewrite lookup_alter_is_Some.
    - intros i. unfold timer_on. cbn. destruct (decide (i = self)) as [->|Hi]; [by rewrite lookup_alter_eq, Hx|].
      rewrite lookup_alter_ne by done. apply Hd. }
  destruct (close_follows self w1 _ Hc1 Hx1) as (l & Hl & Hrun & Hph & Hoth & Hc2); [done| |].
  { apply (hi_open _ (ci_http _ Hc)). by right. }
  split; [|done]. apply (follows_one _ _ self l); [done| |].
  - intros i Hi. rewrite Hoth by done. apply phase_of_eq; [|done..]. unfold timer_view. cbn. by rewrite lookup_alter_ne.
  - rewrite Hph. rewrite <- (Hrun true). change (m_sessions w1) with (m_sessions w). unfold phase_of. rewrite Hx, Hon.
    assert (closes w self = 0%nat) as H0 by (apply (hi_open _ (ci_http _ Hc)); by right).
    rewrite (bool_decide_true (closes w self = 0%nat)) by done. by destruct (bool_decide (self ∈ m_sessions w)).
Qed.

Lemma upgrade_follows self w :
  conn_inv w -> self ∈ m_sessions w -> follows w (upgradeSession self w) /\ conn_inv (upgradeSession self w).
Proof.
  intros Hc Hin. pose proof (upgrade_inv self w Hin (ci_http _ Hc)) as Hw'. destruct Hc as [Hw Ho Hd].
  destruct (held_sess w self Hw Hin) as [x Hx]. assert (is_Some (sess w !! self)) as Hs by by eexists.
  unfold upgradeSession in *. destruct (onUpgradeCb w).
  - set (w' := h_emit self H_upgrade _) in *.
    assert (Hmem : forall i, i ∈ m_sessions w' <-> i ∈ m_sessions w /\ i <> self) by (intros; by apply swap_remove_elem_of, hi_nodup).
    assert (Hcl : forall i, closes w' i = closes w i).
    { intros i. unfold w', closeSession, removeSession. cbv zeta. rewrite closes_emit_other by done.
      change (closes (set_sessions ?l ?v) i) with (closes v i). by apply closes_emit_other. }
    assert (Hlog : h_log w' = h_log w ++ map (pair self) [H_read_stop; H_upgrade]) by (cbn; by rewrite <- app_assoc).
    split; [|split; [done| |done]].
    + apply (follows_one _ _ self _ Hlog).
      * intros i Hi. apply phase_of_eq; [done|rewrite Hmem; tauto|apply Hcl].
      * rewrite (phase_held _ _ x) by done. unfold phase_of. change (sess w') with (sess w). rewrite Hx, Hcl.
        rewrite bool_decide_false by (rewrite Hmem; tauto). rewrite bool_decide_true; [done|].
        apply (hi_open _ Hw). by left.
    + by apply (owned_keep w _ _ self Ho Hs Hlog).
  - split; [|split; [done| |done]].
    + apply (follows_one _ _ self [H_assert_failed]); [done| |].
      * intros i Hi. by apply phase_of_eq; [..|rewrite closes_emit_other].
      * by rewrite !(phase_held _ _ x).
    + by apply (owned_keep w _ [H_assert_failed] self).
Qed.

Lemma written_follows r w : conn_inv w -> follows w (onWriteEnd r w) /\ conn_inv (onWriteEnd r w).
Proof.
  intros Hc. unfold onWriteEnd. destruct (resps w !! r) as [x|] eqn:Ex; [|done].
  case_bool_decide as Hin; [|done]. set (self := r_session x) in *.
  destruct (r_onSent x); [|by apply upgrade_follows].
  fold (keeps_alive w self). destruct (keeps_alive w self) eqn:Ek; [by apply start_follows|].
  destruct (held_sess w self (ci_http _ Hc) Hin) as [y Hy].
  assert (timer_active y = false) as Hoff.
  { destruct (timer_on w self) eqn:Et; [by rewrite (hi_timer _ (ci_http _ Hc)) in Ek|]. unfold timer_on in Et. by rewrite Hy in Et. }
  destruct (close_follows self w y Hc Hy Hoff) as (l & Hl & Hrun & Hph & Hoth & Hc2).
  { apply (hi_open _ (ci_http _ Hc)). by left. }
  split; [|done]. apply (follows_one _ _ self l); [done..|].
  rewrite (phase_held _ _ y), Hph by done. specialize (Hrun (timer_active y)). by rewrite bool_decide_true in Hrun.
Qed.

Lemma connect_follows self m port peer w :
  sess w !! self = None -> (forall e, (self, e) ∉ h_log w) -> conn_inv w ->
  follows w (handle_connect self m port peer w) /\ conn_inv (handle_connect self m port peer w).
Proof.
  intros Hfresh Hlog [Hw Ho Hd]. pose proof (connect_inv self m port peer w Hfresh Hlog Hw) as Hw'.
  set (w' := handle_connect _ _ _ _ _) in *.
  assert (Hse : forall i, i <> self -> sess w' !! i = sess w !! i) by (intros; cbn; by rewrite lookup_insert_ne).
  assert (Hs' : exists x, sess w' !! self = Some x /\ timer_active x = false /\ timer_data x = true).
  { cbn. rewrite lookup_insert_eq. by eexists. }
  destruct Hs' as (x & Hx & Hoff & Hdx). split; [|split; [done|..]].
  - apply (follows_one _ _ self [H_read_start]); [done| |].
    + intros i Hi. apply phase_of_eq; [unfold timer_view; by rewrite Hse| |unfold w', handle_connect; by rewrite closes_emit_other].
      cbn. rewrite elem_of_app, list_elem_of_singleton. split; [intros [?|?]; done|by left].
    + rewrite (phase_held w' _ x), Hoff; [|done|cbn; rewrite elem_of_app, list_elem_of_singleton; by right].
      unfold phase_of. by rewrite Hfresh.
  - destruct Ho as [H1 H2]. assert (Hmono : forall i, is_Some (sess w !! i) -> is_Some (sess w' !! i)).
    { intros i Hi. destruct (decide (i = self)) as [->|Hne]; [by eexists|by rewrite Hse]. }
    split; cbn [resps h_log].
    + intros r y Hy. by apply Hmono, (H1 r).
    + intros i e. change (h_log w') with (h_log w ++ [(self, H_read_start)]). rewrite elem_of_app, list_elem_of_singleton.
      intros [Hin|[= -> _]]; [by eapply Hmono, H2|by eexists].
  - intros i Ht. destruct (decide (i = self)) as [->|Hne]; [by exists x|]. unfold timer_on in Ht. rewrite Hse in * by done. by apply Hd.
Qed.


(** A response completed or called upon at any time. *)
Lemma resp_follows r (f : HttpServer RE A -> HttpServer RE A) w :
  (resps w !! r = None -> f w = w) -> (forall self, quiet self w (f w)) -> http_inv (f w) ->
  conn_inv w -> follows w (f w) /\ conn_inv (f w).
Proof.
  intros Hnone Hq Hw' Hc. destruct (resps w !! r) as [x|] eqn:Ex; [|by rewrite Hnone].
  apply (quiet_conn (r_session x)); [done| |done..]. by apply (ow_resps _ (ci_owned _ Hc) r).
Qed.

Lemma send_resp_none r f w : resps w !! r = None -> send_resp r f w = w.
Proof. unfold send_resp. by intros ->. Qed.

Lemma resp_call_inv r c w : http_inv w -> http_inv (do_resp_call order r c w).
Proof.
  intros Hw. eapply (quiet_inv 0); [apply quiet_resp_call| |done]. intros Ht. rewrite resp_call_alive. by apply (hi_timer _ Hw).
Qed.

Lemma on_resp_none r f w : resps w !! r = None -> on_resp r f w = w.
Proof.
  intros Hr. unfold on_resp, upd_resps. rewrite alter_id' by done. by destruct w.
Qed.

Lemma resp_call_none r c w : resps w !! r = None -> do_resp_call order r c w = w.
Proof.
  intros Hr. destruct c; cbn [do_resp_call]; try by apply on_resp_none. 1-2: by apply send_resp_none. by rewrite Hr.
Qed.

Hypothesis Hmax : 0 <= max_header_size.

Lemma step_follows s s' :
  http_step sha1 base64 order max_header_size s s' -> system_ok s -> conn_inv (srv s) ->
  follows (srv s) (srv s') /\ conn_inv (srv s').
Proof.
  intros Hstep Hok Hc. pose proof (system_step_ok _ _ _ _ Hmax _ _ Hstep Hok) as [Hw' _].
  destruct Hstep as [s self m port peer Hf Hl|s s' self data Hin Hr|s self n w Hin Hn Ha|s self Ht|s r|s r reader|s r|s r c|s self Hu];
    cbn [srv set_srv] in *.
  - by apply connect_follows.
  - unfold read in Hr. destruct Hok as [_ Hp]. destruct (Hp self Hin) as (p & Hl & Hlok). rewrite Hl in Hr.
    destruct (HttpServer.recv_cb _ _ _ _ _ _ _ _) as [[p' w']|] eqn:E; [|done]. injection Hr as <-. by eapply recv_follows.
  - unfold recv_alloc_cb in Ha. destruct (sess (srv s) !! self); [|done]. destruct (alloc_loop _ _ _); [|done].
    injection Ha as <-. by apply upd_conn.
  - by apply timer_cb_follows.
  - by apply written_follows.
  - apply (resp_follows r); [by apply send_resp_none|intros; apply quiet_send_resp|done..].
  - apply (resp_follows r); [by apply send_resp_none|intros; apply quiet_send_resp|done..].
  - apply (resp_follows r); [by apply resp_call_none|intros; apply quiet_resp_call|done..].
  - by apply upd_conn.
Qed.

Lemma init_conn r timeout up a : conn_inv (srv (System_init (RE := RE) (A := A) r timeout up a)).
Proof. split; [apply (system_init_ok r timeout up a)|by split; cbn; intros * ?%elem_of_nil || done|done]. Qed.

(** C11. Whatever the interleaving of the events, the effects of the server on each of its
  connections follow the automaton [conn_step], and its state tells the phase they have
  reached: a connection the server does not hold was never accepted, is closed, or was
  handed over to the WebSocket server. *)
Theorem http_refines_connection r timeout up a s i (Hreach : rtc (http_step sha1 base64 order max_header_size) (System_init r timeout up a) s) :
  conn_run Fresh (trace (h_log (srv s)) i) = Some (phase_of (srv s) i).
Proof.
  assert (follows (srv (System_init r timeout up a)) (srv s)) as (l & Hl & Hp).
  { pose proof (system_init_ok (RE := RE) r timeout up a) as Hok. pose proof (init_conn r timeout up a) as Hc.
    induction Hreach as [s|s1 s2 s3 H12 H23 IH]; [done|].
    destruct (step_follows _ _ H12 Hok Hc) as [Hf Hc']. etrans; [exact Hf|]. apply IH; [|done].
    by eapply system_step_ok. }
  cbn in Hl. rewrite Hl. apply (Hp i).
Qed.
End Refinement.

Section Witness.

(** The connection whose timer outlives the upgrade. *)
Lemma http_refines_connection_witness :
  conn_run Fresh (trace (h_log (srv demo5)) 7) = Some (Upgraded true) /\
  conn_run Fresh (trace (h_log (keepAliveTimerCb 7 (srv demo5))) 7) = Some Closed.
Proof.
  split.
  - transitivity (Some (phase_of (srv demo5) 7)); [|vm_compute; reflexivity].
    exact (http_refines_connection (fun s => s) hex_encode map_to_list HTTP_MAX_HEADER_SIZE ltac:(done)
      demo_router HTTP_DEFAULT_KEEP_ALIVE_TIMEOUT true 0 demo5 7 demo_reachable).
  - vm_compute. reflexivity.
Defined.
End Witness.
