(* ===== verification/Framework.v ===== *)
(** * The two servers together

    A connection starts as a session of the HTTP server and, upgraded, goes on as a
    session of the WebSocket server: the callback the constructor of [WsServer] gives to
    [HttpServer::onUpgrade] (WsServer.cpp:21) runs inside [upgradeSession]
    (httpserver.cpp:457).  Both servers as one transition system, which is a run of each
    of the two systems of HttpService.v and WsServer.v, and the path of one client from
    its upgrade request to its first message. *)

From S2P Require Import Prelude WsParser WsCodec WsMember WsSession WsService WsServer WsKnown.
From S2P Require Import HttpTypes HttpExec HttpSafety HttpReq HttpRouter FileReader HttpResp HttpServer HttpService HttpConn.
From stdpp Require Import gmap.
#[local] Open Scope Z_scope.

Record Node (RE : RegexEngine) (A B : Type) := mkNode { http : System RE A; ws : WsServer B }.
Arguments mkNode {RE A B}.
Arguments http {RE A B}.
Arguments ws {RE A B}.

Section Node.
Context {RE : RegexEngine} {A B : Type}.
Context (sha1 base64 : bytes -> bytes) (order : strmap -> list (bytes * bytes)) (max_header_size : Z).
Context (cbs : Callbacks B) (onConnectCb : WsSession.handler B unit).
Implicit Types (n : Node RE A B) (w : HttpServer RE A) (self i : nat).

Abbreviation http_step := (http_step sha1 base64 order max_header_size).
Abbreviation ws_step := (ws_step cbs onConnectCb).

Definition set_http s n : Node RE A B := mkNode s (ws n).

(** The callback of [onUpgrade]: [WsServer::onUpgrade], whose constructor of [WsSession]
  takes the buffer of the HTTP session; [fin0] is the uninitialised bit of its frame. *)
Definition ws_onUpgrade self (fin0 : bool) n : Node RE A B :=
  let '(recvBuf_len, w) := transferBufferToWsSession self (srv (http n)) in
  mkNode (set_srv w (http n)) (WsServer.onUpgrade cbs onConnectCb self recvBuf_len fin0 (ws n)).

(** The session that the completion of the write of [r] hands over, if it does. *)
Definition handed_over (r : nat) w : option nat :=
  match resps w !! r with
  | Some x =>
      match r_onSent x with
      | OnSent_upgrade => if bool_decide (r_session x ∈ m_sessions w) && onUpgradeCb w then Some (r_session x) else None
      | OnSent_session => None
      end
  | None => None
  end.
Definition response_written (r : nat) (fin0 : bool) n : Node RE A B :=
  let n' := set_http (set_srv (onWriteEnd r (srv (http n))) (http n)) n in
  match handed_over r (srv (http n)) with
  | Some self => ws_onUpgrade self fin0 n'
  | None => n'
  end.

(** One event of the loop: of the HTTP server, or of the WebSocket server, which makes no
  session by itself. *)
Inductive node_step : Node RE A B -> Node RE A B -> Prop :=
  | node_connect n self m port peer :
      sess (srv (http n)) !! self = None -> (forall e, (self, e) ∉ h_log (srv (http n))) ->
      node_step n (set_http (HttpService.connect self m port peer (http n)) n)
  | node_read n s' self data : self ∈ m_sessions (srv (http n)) ->
      HttpService.read sha1 base64 order max_header_size self data (http n) = Some s' -> node_step n (set_http s' n)
  | node_alloc n self k w : self ∈ m_sessions (srv (http n)) -> k <= 2 ^ 62 ->
      HttpServer.recv_alloc_cb self k (srv (http n)) = Some w -> node_step n (set_http (set_srv w (http n)) n)
  | node_timer n self : timer_on (srv (http n)) self = true ->
      node_step n (set_http (set_srv (keepAliveTimerCb self (srv (http n))) (http n)) n)
  | node_written n r fin0 : node_step n (response_written r fin0 n)
  | node_closed n r reader : node_step n (set_http (set_srv (file_closed order r reader (srv (http n))) (http n)) n)
  | node_failed n r : node_step n (set_http (set_srv (file_failed order r (srv (http n))) (http n)) n)
  | node_call n r c : node_step n (set_http (set_srv (do_resp_call order r c (srv (http n))) (http n)) n)
  | node_ws n s' : ws_step (ws n) s' ->
      (forall i, has_session (world s') i <-> has_session (world (ws n)) i) -> node_step n (mkNode (http n) s').

Definition Node_init r timeout up (a : A) (b : B) : Node RE A B := mkNode (System_init r timeout up a) (WsServer_init b).

(** ** What is handed over *)

Definition upgraded w i : Prop := (i, H_upgrade) ∈ h_log w.

Lemma upgraded_close self w i : upgraded (closeSession self false w) i <-> upgraded w i.
Proof.
  unfold upgraded, closeSession, removeSession. cbn [h_log set_sessions]. rewrite !upgraded_emit.
  split; [intros [[?|[_ ?]]|[_ ?]]; done|by auto].
Qed.

Lemma upgraded_emit_other self e w i : e <> H_upgrade -> upgraded (h_emit self e w) i <-> upgraded w i.
Proof. intros He. unfold upgraded. rewrite upgraded_emit. split; [intros [?|[_ ?]]; done|by auto]. Qed.

Lemma upgraded_stop self w i : upgraded (stopKeepAliveTimer self w) i <-> upgraded w i.
Proof. unfold stopKeepAliveTimer. by rewrite upgraded_emit_other. Qed.

Lemma upgraded_recv self data p w p' w' i : 0 <= max_header_size -> left_ok p ->
  HttpServer.recv_cb sha1 base64 order max_header_size self data p w = Some (p', w') -> upgraded w' i <-> upgraded w i.
Proof.
  intros Hmax Hp Hr. destruct data as [data|]; cbn [HttpServer.recv_cb] in Hr.
  2: { injection Hr as <- <-. by rewrite upgraded_close, upgraded_stop. }
  match type of Hr with context [http_parser_execute _ _ _ _ ?v] => set (w1 := v) in Hr end.
  assert (upgraded w1 i <-> upgraded w i) as <- by (unfold w1; destruct (default false _); [apply upgraded_stop|done]).
  pose proof (execute_final _ max_header_size _ (m_settings_ok sha1 base64 order self w1) Hmax p data w1 Hp ltac:(done)) as Hex.
  destruct (http_parser_execute _ _ _ _ _) as [r p2 w2| | |]; try done. injection Hr as -> ->. destruct Hex as (_ & _ & Hq).
  by apply (quiet_upgraded self).
Qed.

Lemma upgraded_timer self w i : upgraded (keepAliveTimerCb self w) i <-> upgraded w i.
Proof.
  unfold keepAliveTimerCb. destruct (sess w !! self) as [x|]; [|done]. destruct (timer_data x); [|done].
  by rewrite upgraded_close.
Qed.

Lemma upgraded_written r w i : upgraded (onWriteEnd r w) i <-> handed_over r w = Some i \/ upgraded w i.
Proof.
  unfold onWriteEnd, handed_over. destruct (resps w !! r) as [x|]; [|by split; [right|intros [?|?]]].
  destruct (r_onSent x).
  - case_bool_decide; [|by split; [right|intros [?|?]]].
    assert (forall P : Prop, (P <-> upgraded w i) -> P <-> None = Some i \/ upgraded w i) as Hp by (intros P ->; split; [by right|by intros [?|?]]).
    apply Hp. case_match; [|apply upgraded_close]. unfold startKeepAliveTimer. by rewrite upgraded_emit_other.
  - case_bool_decide; cbn [andb]; [|by split; [right|intros [?|?]]]. unfold upgradeSession. destruct (onUpgradeCb w).
    + unfold upgraded at 1. rewrite upgraded_emit. unfold closeSession, removeSession. cbn [h_log set_sessions].
      rewrite upgraded_emit. split.
      * intros [[?|[_ ?]]|[-> _]]; [by right|done|by left].
      * intros [[= ->]|?]; [by right|by left; left].
    + rewrite upgraded_emit_other by done. split; [by right|by intros [?|?]].
Qed.

(** ** The composition is a run of both servers *)

Hypothesis Hmax : 0 <= max_header_size.

Record node_ok n0 n : Prop := {
  no_http : rtc http_step (http n0) (http n);
  no_ws : rtc ws_step (ws n0) (ws n);
  no_start : server_ok (ws n0);
  no_system : system_ok (http n);
  no_known : log_known (ws n);
  no_handed : forall i, upgraded (srv (http n)) i <-> has_session (world (ws n)) i;
  }.

(** A step of the HTTP server that hands nothing over. *)
Lemma node_ok_http n0 n s : node_ok n0 n -> http_step (http n) s ->
  (forall i, upgraded (srv s) i <-> upgraded (srv (http n)) i) -> node_ok n0 (set_http s n).
Proof.
  intros [H1 H2 Hst H3 H4 H5] Hs Hu. split; try done.
  - by eapply rtc_r.
  - by eapply system_step_ok.
  - intros i. cbn [http set_http ws]. by rewrite Hu.
Qed.

Lemma node_ok_written n0 n r fin0 : node_ok n0 n -> node_ok n0 (response_written r fin0 n).
Proof.
  intros Hok. unfold response_written. pose proof (fun i => upgraded_written r (srv (http n)) i) as Hu.
  pose proof (step_written sha1 base64 order max_header_size (http n) r) as Hs.
  set (s := set_srv _ _) in *. destruct (handed_over r (srv (http n))) as [self|] eqn:Eh.
  2: { apply node_ok_http; [done..|]. intros i. cbn [s srv set_srv]. rewrite Hu. by split; [intros [?|?]|right]. }
  assert (self ∈ m_sessions (srv (http n))) as Hin.
  { unfold handed_over in Eh. destruct (resps _ !! r) as [x|]; [|done]. destruct (r_onSent x); [done|].
    case_bool_decide; [|done]. destruct (onUpgradeCb _); [|done]. by injection Eh as <-. }
  destruct Hok as [H1 H2 Hst H3 H4 H5]. assert (~ has_session (world (ws n)) self) as Hnew.
  { rewrite <- H5. intros Hup. by apply (hi_upgraded _ (proj1 H3) self). }
  assert (upgraded (srv s) self) as Hup by (apply Hu; by left).
  unfold ws_onUpgrade. cbn [transferBufferToWsSession http ws set_http].
  pose proof (step_transfer sha1 base64 order max_header_size s self Hup) as Ht.
  split; cbn [http ws].
  - eapply rtc_r; [by eapply rtc_r|exact Ht].
  - eapply rtc_r; [exact H2|].
    assert (server_ok (ws n)) as (Hreg & _ & Hf) by (by eapply server_ok_reachable).
    assert (sessions (world (ws n)) !! self = None) as Hnone by (by apply eq_None_not_Some).
    assert (forall e, (self, e) ∉ log (world (ws n))) as Hlog by (intros e He; by apply Hnew, (H4 self e)).
    split; [by apply step_upgrade|]. by apply registry_upgrade.
  - exact Hst.
  - eapply system_step_ok; [done|exact Ht|]. by eapply system_step_ok.
  - by apply known_upgrade.
  - intros i. change (upgraded (srv (set_srv _ s)) i) with (upgraded (srv s) i). rewrite upgrade_sessions, <- H5.
    cbn [s srv set_srv]. rewrite Hu. split; (intros [H|?]; [left|by right]); congruence.
Qed.

Lemma node_step_ok n0 n n' : node_step n n' -> node_ok n0 n -> node_ok n0 n'.
Proof.
  intros Hstep Hok. pose proof (no_system _ _ Hok) as Hsys.
  destruct Hstep as [n self m port peer Hf Hl|n s' self data Hin Hr|n self k w Hin Hk Ha|n self Ht|n r fin0|n r reader|n r|n r c|n s' Hw Hd].
  - apply node_ok_http; [done|by apply step_connect|]. intros i. cbn [srv HttpService.connect]. unfold handle_connect.
    by rewrite upgraded_emit_other.
  - apply node_ok_http; [done|by eapply step_read|]. intros i. unfold HttpService.read in Hr.
    destruct Hsys as [_ Hp]. destruct (Hp self Hin) as (p & Hlk & Hlok). rewrite Hlk in Hr.
    destruct (HttpServer.recv_cb _ _ _ _ _ _ _ _) as [[p' w']|] eqn:E; [|done]. injection Hr as <-.
    by eapply upgraded_recv.
  - apply node_ok_http; [done|by eapply step_alloc|]. intros i. unfold HttpServer.recv_alloc_cb in Ha.
    destruct (sess _ !! self); [|done]. destruct (alloc_loop _ _ _); [|done]. by injection Ha as <-.
  - apply node_ok_http; [done|by apply step_timer|]. intros i. apply upgraded_timer.
  - by apply node_ok_written.
  - apply node_ok_http; [done|by apply step_closed|]. intros i. apply (quiet_upgraded 0), quiet_send_resp.
  - apply node_ok_http; [done|by apply step_failed|]. intros i. apply (quiet_upgraded 0), quiet_send_resp.
  - apply node_ok_http; [done|by apply step_call|]. intros i. apply (quiet_upgraded 0), quiet_resp_call.
  - destruct Hok as [H1 H2 Hst H3 H4 H5]. split; try done; cbn [ws http].
    + by eapply rtc_r.
    + by eapply known_step.
    + intros i. by rewrite H5.
Qed.

Lemma node_init_ok r timeout up a b : let n := Node_init r timeout up a b in node_ok n n.
Proof.
  split; try done; [apply WsServer_init_ok|apply system_init_ok| |].
  - intros i e Hin. by apply elem_of_nil in Hin.
  - intros i. unfold upgraded, has_session. cbn. rewrite elem_of_nil. split; [done|]. by intros [x Hx].
Qed.

Lemma node_reach_ok n0 n n' : rtc node_step n n' -> node_ok n0 n -> node_ok n0 n'.
Proof. induction 1 as [|n1 n2 n3 H12 _ IH]; [done|]. intros Hok. by apply IH, (node_step_ok n0 n1). Qed.

(** C12. However the events of the two servers interleave, the program behaves as a run of
  the HTTP server and a run of the WebSocket server, so that what holds of either holds of
  it; the WebSocket sessions are exactly the connections the HTTP server handed over, the
  registry of the WebSocket server has those of them that are open, and no connection is
  held by both servers. *)
Theorem program_refines_servers r timeout up a b n (Hreach : rtc node_step (Node_init r timeout up a b) n) :
  rtc http_step (System_init r timeout up a) (http n) /\ rtc ws_step (WsServer_init b) (ws n) /\
  (forall i, (i, H_upgrade) ∈ h_log (srv (http n)) <-> is_Some (sessions (world (ws n)) !! i)) /\
  (forall i, i ∈ m_owner (world (ws n)) -> readyState <$> sessions (world (ws n)) !! i = Some OPEN /\ i ∉ m_sessions (srv (http n))).
Proof.
  assert (node_ok (Node_init r timeout up a b) n) as [H1 H2 Hst H3 H4 H5].
  { eapply node_reach_ok; [exact Hreach|apply node_init_ok]. }
  split_and!; [done..|]. intros i Hi.
  assert (server_ok (ws n)) as ([R1 _ R3 R4 _ R6] & _) by (eapply server_ok_reachable; [exact H2|apply WsServer_init_ok]).
  assert (readyState <$> sessions (world (ws n)) !! i = Some OPEN) as Ho.
  { destruct (R4 i Hi) as [Hc|Hc]; [|by apply elem_of_nil in Hc]. unfold is_closed in Hc.
    destruct (sessions _ !! i) as [x|] eqn:Ex; [|done]. cbn. by destruct (R6 i x Ex) as [Hx|Hx]; rewrite Hx in *. }
  split; [done|]. apply (hi_upgraded _ (proj1 H3)), H5. unfold has_session. by destruct (sessions _ !! i).
Qed.
End Node.

(** ** From the handshake to the first message *)

Section FirstMessage.
Context {RE : RegexEngine} {A B : Type}.
Context (sha1 base64 : bytes -> bytes) (order : strmap -> list (bytes * bytes)).
Context (cbs : Callbacks B) (onConnectCb : WsSession.handler B unit).
Hypothesis Horder : forall m, order m ≡ₚ map_to_list m.
Hypothesis Hbase64 : forall s, 13 ∉ base64 s.
Hypothesis Hbase64_nil : base64 [] = [].

(** The first read of a new session finds the parser at the start of a frame. *)
Lemma first_read self fin0 k (s : WsServer B) data :
  let s' := WsServer.onUpgrade cbs onConnectCb self k fin0 s in
  WsServer.read cbs self data s' =
  match WsSession.recv_cb cbs self data (idle_st (m_byteNeed websocket_parser_init) false (WsFrame_init fin0) (world s')) with
  | Some st => Some (mkWsServer (ps st) (<[self := (pp st, pf st)]> (parsers s')))
  | None => None
  end.
Proof. cbv zeta. unfold WsServer.read. cbn [parsers WsServer.onUpgrade]. by rewrite lookup_insert_eq. Qed.

(** C13. A client whose upgrade request has been read is answered by the handshake; once it
  is written the connection is a session of the WebSocket server and not of the HTTP
  server, and if the connect callbacks leave it open and there, the first message the
  client sends, in one read and in any number of fragments of at most 1 MiB, the last of
  them masked and not empty, calls [onMessage] once, with the whole message unmasked. *)
Theorem first_message (n : Node RE A B) self x fin0 (op : Z) (parts : list (option bytes * bytes))
    (Hx : sess (srv (http n)) !! self = Some x) (Hin : self ∈ m_sessions (srv (http n)))
    (Hinv : http_inv (srv (http n))) (Hup : onUpgradeCb (srv (http n)) = true)
    (Hop : op = WS_TEXT \/ op = WS_BINARY)
    (Hparts : Forall part_ok parts) (Hmask : exists k, fst <$> last parts = Some (Some k))
    (Hlast : exists k d, last parts = Some (k, d) /\ d <> []) :
  let key := default [] (headers (m_req x) !! bs "sec-websocket-key") in
  let r := next_resp (srv (http n)) in
  let n1 := set_http (set_srv (handle_request sha1 base64 order self true (srv (http n))) (http n)) n in
  let n2 := response_written cbs onConnectCb r fin0 n1 in
  let m := concat (snd <$> parts) in
  (exists bufs, h_log (srv (http n1)) = h_log (srv (http n)) ++ [(self, H_write r bufs)] /\
    client_reads bufs SWITCHING_PROTOCOLS (handshake_headers sha1 base64 key) []) /\
  (self ∉ m_sessions (srv (http n2))) /\ closes (srv (http n2)) self = closes (srv (http n)) self /\
  (is_open self (world (ws n2)) -> gone cbs self (world (ws n2)) = false ->
   exists s', WsServer.read cbs self (Some (encode_all (fragments op parts))) (ws n2) = Some s' /\
     world s' = callback cbs (m_onMessageCb cbs) (On_message m) self m (world (ws n2))).
Proof.
  cbv zeta. set (w := srv (http n)) in *. set (w' := handle_request _ _ _ _ _ w).
  destruct (handshake_written sha1 base64 order Horder Hbase64 Hbase64_nil self w x Hx Hin Hup) as (bufs & Hlog & Hreads & Hlog2 & Hs2).
  fold w' in Hlog, Hlog2, Hs2.
  assert (handed_over (next_resp w) w' = Some self) as Hh.
  { destruct (proj1 (upgraded_written (next_resp w) w' self)) as [?|Hold]; [|done|].
    - unfold upgraded. rewrite Hlog2, elem_of_app. right. apply elem_of_cons. right. by left.
    - unfold upgraded in Hold. rewrite Hlog, elem_of_app, list_elem_of_singleton in Hold.
      destruct Hold as [Hold|?]; [|done]. by destruct (hi_upgraded _ Hinv self). }
  unfold response_written. cbn [http srv set_srv set_http]. rewrite Hh. unfold ws_onUpgrade.
  cbn [transferBufferToWsSession http ws srv set_srv set_http]. split_and!.
  - by exists bufs.
  - change (m_sessions (upd ?i ?f ?v)) with (m_sessions v). rewrite Hs2. apply swap_remove_NoDup, (hi_nodup _ Hinv).
  - unfold closes. change (h_log (upd ?i ?f ?v)) with (h_log v). rewrite Hlog2, Hlog, !filter_app.
    by rewrite !filter_cons_False, !app_nil_r.
  - intros Hopen Hthere. rewrite first_read. cbn [m_byteNeed websocket_parser_init].
    destruct (message_served cbs self op parts 1 (WsFrame_init fin0) _ Hopen) as (F & ->); try done.
    eexists. by split.
Qed.
End FirstMessage.

(** ** A run, from the bytes of the upgrade request to the echo of a message *)

Section Run.
Abbreviation demo_step := (node_step (RE := mini_regex) (A := Z) (fun s => s) hex_encode map_to_list HTTP_MAX_HEADER_SIZE echo_callbacks None).

Definition node0 : Node mini_regex Z unit := Node_init demo_router HTTP_DEFAULT_KEEP_ALIVE_TIMEOUT true 0 tt.
Definition node1 : Node mini_regex Z unit := set_http demo1 node0.
Definition node2 : Node mini_regex Z unit :=
  set_http (default demo1 (HttpService.read (fun s => s) hex_encode map_to_list HTTP_MAX_HEADER_SIZE 7 (Some ws_request) demo1)) node1.
Definition node3 : Node mini_regex Z unit := response_written echo_callbacks None 0 false node2.
Definition node4 : Node mini_regex Z unit :=
  mkNode (http node3) (default (ws node3) (WsServer.read echo_callbacks 7 (Some hello_frame) (ws node3))).

Example echo_over_upgrade :
  map snd (log (world (ws node4))) = [Uv_read_start; On_message (bs "Hello"); Uv_write 0 [[0x81; 5]; bs "Hello"]] /\
  m_sessions (srv (http node4)) = [] /\ m_owner (world (ws node4)) = [7%nat].
Proof. vm_compute. by split_and!. Qed.

Lemma node4_reachable : rtc demo_step node0 node4.
Proof.
  eapply rtc_l; [apply (node_connect _ _ _ _ _ _ node0 7 HTTP_GET 0 (Some (bs "10.0.0.1", 555))); [done|intros e Hin; by apply elem_of_nil in Hin]|].
  change (set_http _ node0) with node1.
  eapply rtc_l; [eapply (node_read _ _ _ _ _ _ node1 (http node2) 7 (Some ws_request)); [cbn; by left|vm_compute; reflexivity]|].
  change (set_http _ node1) with node2.
  eapply rtc_l; [apply (node_written _ _ _ _ _ _ node2 0 false)|]. change (response_written _ _ _ _ node2) with node3.
  apply rtc_once, node_ws.
  - split; [apply (WsServer.step_read _ _ _ _ 7 (Some hello_frame))|]; vm_compute; reflexivity.
  - intros i. assert (dom (sessions (world (ws node4))) = dom (sessions (world (ws node3)))) as Hd by (vm_compute; reflexivity).
    unfold has_session. by rewrite <- !elem_of_dom, <- Hd.
Qed.

Lemma program_refines_servers_witness :
  let n := node4 in
  rtc (HttpService.http_step (fun s => s) hex_encode map_to_list HTTP_MAX_HEADER_SIZE) demo0 (http n) /\
  rtc (ws_step echo_callbacks None) (WsServer_init tt) (ws n) /\
  (forall i, (i, H_upgrade) ∈ h_log (srv (http n)) <-> is_Some (sessions (world (ws n)) !! i)) /\
  (forall i, i ∈ m_owner (world (ws n)) -> readyState <$> sessions (world (ws n)) !! i = Some OPEN /\ i ∉ m_sessions (srv (http n))).
Proof.
  apply (program_refines_servers (fun s => s) hex_encode map_to_list HTTP_MAX_HEADER_SIZE echo_callbacks None ltac:(done)
    demo_router HTTP_DEFAULT_KEEP_ALIVE_TIMEOUT true 0 tt node4 node4_reachable).
Defined.

Lemma demo1_inv : http_inv (srv (http node1)).
Proof.
  apply (system_reachable_ok (fun s => s) hex_encode map_to_list HTTP_MAX_HEADER_SIZE ltac:(done) demo0 demo1);
    [exact demo1_reachable|apply system_init_ok].
Qed.

Lemma first_message_witness :
  let n1 := set_http (set_srv (handle_request (fun s => s) hex_encode map_to_list 7 true (srv (http node1))) (http node1)) node1 in
  let n2 := response_written echo_callbacks None 0 false n1 in
  exists s', WsServer.read echo_callbacks 7 (Some (encode_all (fragments WS_TEXT two_parts))) (ws n2) = Some s' /\
    world s' = callback echo_callbacks (m_onMessageCb echo_callbacks) (On_message (bs "Hello")) 7 (bs "Hello") (world (ws n2)).
Proof.
  destruct (first_message (fun s => s) hex_encode map_to_list echo_callbacks None ltac:(done) hex_encode_no_cr eq_refl
    node1 7 (on_req (set_ip (Some (bs "10.0.0.1", 555))) (Session_init HTTP_GET 0)) false WS_TEXT two_parts)
    as (_ & _ & _ & Hm).
  - vm_compute. reflexivity.
  - cbn. by left.
  - exact demo1_inv.
  - reflexivity.
  - by left.
  - exact two_parts_ok.
  - by exists key1.
  - by exists (Some key1), (bs "lo").
  - apply Hm; vm_compute; reflexivity.
Defined.
End Run.
