(* ===== verification/HttpListen.v ===== *)
(** * Listening and accepting (HttpServer in src/core/httpserver.cpp, include/httpserver.h)

    The constructor, which binds and listens, the event loop [start] enters, the accept
    callback, and the setters of the program's own callbacks, around the sessions of
    HttpServer.v.  What libuv answers is an argument; how it reads an IPv4 address
    (libuv/src/inet.c) is written out. *)

From S2P Require Import Prelude HttpTypes HttpExec HttpSafety HttpReq HttpRouter FileReader HttpResp HttpServer HttpService.
From stdpp Require Import gmap.
#[local] Open Scope Z_scope.

(** ** Addresses *)

(** The loop of [inet_pton4]: [tmp] up to [tp] is [before], [*tp] is [cur]. *)
Record pton4 := mkPton { saw_digit : bool; octets : Z; before : list Z; cur : Z }.
Definition pton4_step (st : pton4) (ch : Z) : option pton4 :=
  if ("0"%chr <=? ch) && (ch <=? "9"%chr) then
    let nw := cur st * 10 + (ch - "0"%chr) in
    if saw_digit st && (cur st =? 0) then None
    else if 255 <? nw then None
    else if negb (saw_digit st) then
      if 4 <? octets st + 1 then None else Some (mkPton true (octets st + 1) (before st) nw)
    else Some (mkPton true (octets st) (before st) nw)
  else if (ch =? "."%chr) && saw_digit st then
    if octets st =? 4 then None else Some (mkPton false (octets st) (before st ++ [cur st]) 0)
  else None.
Definition pton4_init : pton4 := mkPton false 0 [] 0.
Definition pton4_end (st : pton4) : option (list Z) :=
  if octets st <? 4 then None else Some (take 4 (before st ++ [cur st])).
Fixpoint pton4_loop (st : pton4) (src : bytes) : option (list Z) :=
  match src with
  | [] => pton4_end st
  | ch :: src' => if ch =? 0 then pton4_end st else match pton4_step st ch with Some st => pton4_loop st src' | None => None end
  end.
Definition inet_pton4 (src : bytes) : option (list Z) := pton4_loop pton4_init src.

(** [sockaddr_in]: the address and the port. *)
Record sockaddr_in := mkAddr { sin_addr : list Z; sin_port : Z }.
(** [uv_ip4_addr] clears the address first and leaves it so when the text is invalid. *)
Definition uv_ip4_addr (ip : bytes) (port : Z) : bool * sockaddr_in :=
  match inet_pton4 ip with
  | Some a => (true, mkAddr a (u16 port))
  | None => (false, mkAddr [0; 0; 0; 0] (u16 port))
  end.

(** ** The server *)

Definition HTTP_DEFAULT_PORT : Z := 8081.

(** What the server asks of libuv besides its sessions. *)
Inductive listen_effect :=
  | L_bind (addr : sockaddr_in)
  | L_listen (backlog : Z)
  | L_run                      (* uv_run *)
  | L_on_connect (client : nat)
  | L_close (client : nat)     (* a client that could not be accepted *)
  | L_free_handle              (* delete m_tcp_svr, a handle that was not closed *)
  | L_loop_close.

Record Server (RE : RegexEngine) (A : Type) := mkServer {
    m_ip : bytes;
    m_port : Z;
    m_running : bool;
    onConnectCb : option (nat -> A -> A);
    onRequestCb : option (httpReq -> A -> A * list resp_call);
    sys : System RE A;
    l_log : list listen_effect;
  }.
Arguments mkServer {RE A}.
Arguments m_ip {RE A}.
Arguments m_port {RE A}.
Arguments m_running {RE A}.
Arguments onConnectCb {RE A}.
Arguments onRequestCb {RE A}.
Arguments sys {RE A}.
Arguments l_log {RE A}.

Section Server.
Context {RE : RegexEngine} {A : Type}.
Implicit Types (v : Server RE A) (client : nat).

Definition l_emit (e : listen_effect) v : Server RE A :=
  mkServer (m_ip v) (m_port v) (m_running v) (onConnectCb v) (onRequestCb v) (sys v) (l_log v ++ [e]).
Definition set_sys (s : System RE A) v : Server RE A :=
  mkServer (m_ip v) (m_port v) (m_running v) (onConnectCb v) (onRequestCb v) s (l_log v).
Definition set_running (b : bool) v : Server RE A :=
  mkServer (m_ip v) (m_port v) b (onConnectCb v) (onRequestCb v) (sys v) (l_log v).
Definition on_server (f : HttpServer RE A -> HttpServer RE A) v : Server RE A :=
  set_sys (set_srv (f (srv (sys v))) (sys v)) v.

(** The results of [uv_tcp_init], [uv_tcp_bind] and [uv_listen]. *)
Context (tcp_init : Z) (tcp_bind : sockaddr_in -> Z) (listen : Z -> Z) (SOMAXCONN : Z).

(** The constructor, or a failed assertion.  The result of [uv_ip4_addr] is not looked at. *)
Definition HttpServer_new (ip : bytes) (port : Z) (a : A) : option (Server RE A) :=
  if negb (tcp_init =? 0) then None
  else
    let addr := snd (uv_ip4_addr ip port) in
    if negb (tcp_bind addr =? 0) then None
    else if negb (listen SOMAXCONN =? 0) then None
    else
      Some (mkServer ip port false None None (System_init httpRouter_init HTTP_DEFAULT_KEEP_ALIVE_TIMEOUT false a)
        [L_bind addr; L_listen SOMAXCONN]).
(** [create], whose port has a default. *)
Definition create (ip : bytes) (port : option Z) (a : A) : option (Server RE A) :=
  HttpServer_new ip (default HTTP_DEFAULT_PORT port) a.

(** The setters of the program's callbacks. *)
Definition onConnect (callback : nat -> A -> A) v : Server RE A :=
  mkServer (m_ip v) (m_port v) (m_running v) (Some callback) (onRequestCb v) (sys v) (l_log v).
Definition onRequest (callback : httpReq -> A -> A * list resp_call) v : Server RE A :=
  mkServer (m_ip v) (m_port v) (m_running v) (onConnectCb v) (Some callback) (sys v) (l_log v).

(** [start]: the exchange of [m_running] and, the first time, the event loop. *)
Definition start v : Server RE A :=
  if m_running v then set_running true v else l_emit L_run (set_running true v).

(** The destructor: the loop cannot be closed while handles are open. *)
Definition HttpServer_delete v : Server RE A := l_emit L_loop_close (l_emit L_free_handle v).

(** [inter_on_connect]; [m], [port0] are the uninitialised fields of the new session's
  request and [peer] its peer's address. *)
Definition inter_on_connect (status accept : Z) client m port0 peer v : Server RE A :=
  if status <? 0 then v
  else if accept =? 0 then
    let v := match onConnectCb v with
      | Some cb => on_server (fun w => set_h_app (cb client (h_app w)) w) (l_emit (L_on_connect client) v)
      | None => v
      end in
    set_sys (connect client m port0 peer (sys v)) v
  else l_emit (L_close client) v.

Definition getSessionCount v : nat := length (m_sessions (srv (sys v))).
End Server.

(** ** The address a server listens on *)

Fixpoint dotted (l : list Z) : bytes :=
  match l with
  | [] => []
  | [b] => to_string b
  | b :: l' => to_string b ++ bs "." ++ dotted l'
  end.

(** The text read so far, and that it determines the state. *)
Definition dotted_prefix (l : list Z) : bytes := flat_map (fun b => to_string b ++ bs ".") l.
Record pton4_ok (st : pton4) (read : bytes) : Prop := {
  po_read : read = dotted_prefix (before st) ++ if saw_digit st then to_string (cur st) else [];
  po_octets : octets st = len (before st) + if saw_digit st then 1 else 0;
  po_before : bytes_ok (before st);
  po_cur : is_byte (cur st);
  po_fresh : saw_digit st = false -> cur st = 0 /\ octets st <= 3;
  po_max : octets st <= 4;
  }.

Lemma to_string_digit d : 0 <= d < 10 -> to_string d = [48 + d].
Proof.
  intros Hd. unfold to_string. rewrite to_string_loop_S, Z.mod_small by done.
  by rewrite (Z.div_small d 10) by done.
Qed.

Lemma to_string_short n : 0 <= n < 256 -> to_string_loop 19 n [] = to_string n.
Proof.
  intros Hn. assert (Forall (fun n => to_string_loop 19 n [] = to_string n) (seqZ 0 256)) as H.
  { repeat (apply Forall_cons; split; [reflexivity|]). apply Forall_nil_2. }
  rewrite Forall_forall in H. apply H, elem_of_seqZ. lia.
Qed.

Lemma to_string_snoc n d : 0 < n < 256 -> 0 <= d < 10 -> to_string (n * 10 + d) = to_string n ++ [48 + d].
Proof.
  intros Hn Hd. unfold to_string at 1. rewrite to_string_loop_S.
  rewrite Z.add_comm, Z.div_add, Z.mod_add, Z.div_small, Z.mod_small, Z.add_0_l by lia.
  rewrite (proj2 (Z.eqb_neq n 0)) by lia. by rewrite to_string_short by lia.
Qed.

Lemma pton4_step_ok st read ch st' :
  pton4_ok st read -> pton4_step st ch = Some st' -> pton4_ok st' (read ++ [ch]).
Proof.
  intros [Hr Ho Hb Hc Hf Hm]. unfold pton4_step, is_byte in *. destruct st as [saw o bf c]. cbn [saw_digit octets before cur] in *.
  destruct (_ && (ch <=? "9"%chr)) eqn:Ed; bool_to_prop.
  - destruct saw; cbn [andb negb].
    + destruct (Z.eqb_spec c 0) as [|Hc0]; [done|]. destruct (Z.ltb_spec 255 (c * 10 + (ch - 48))); [done|].
      intros [= <-]. split; cbn [saw_digit octets before cur]; unfold is_byte; try done; try lia.
      rewrite Hr, <- app_assoc, to_string_snoc by lia. by rewrite Zplus_minus.
    + destruct Hf as [-> Ho3]; [done|]. destruct (Z.ltb_spec 255 (0 * 10 + (ch - 48))); [done|].
      destruct (Z.ltb_spec 4 (o + 1)); [done|]. intros [= <-]. split; cbn [saw_digit octets before cur]; unfold is_byte; try done; try lia.
      rewrite Hr, app_nil_r, to_string_digit by lia. do 2 f_equal. lia.
  - destruct (Z.eqb_spec ch "."%chr) as [->|]; [|done]. destruct saw; [|done]. cbn [andb].
    destruct (Z.eqb_spec o 4); [done|]. intros [= <-]. split; cbn [saw_digit octets before cur]; unfold is_byte; try done; try lia.
    + rewrite Hr, app_nil_r. unfold dotted_prefix. rewrite flat_map_app. cbn [flat_map]. by rewrite app_nil_r, <- !app_assoc.
    + rewrite len_snoc. lia.
    + apply Forall_app. split; [done|]. by apply Forall_singleton.
Qed.

Lemma dotted_snoc l b : dotted (l ++ [b]) = dotted_prefix l ++ to_string b.
Proof.
  induction l as [|x l IH]; [done|]. unfold dotted_prefix in *. cbn [app flat_map].
  rewrite <- app_assoc, <- IH, <- app_assoc. by destruct l.
Qed.

Lemma pton4_end_ok st read l :
  pton4_ok st read -> pton4_end st = Some l -> length l = 4%nat /\ bytes_ok l /\ read = dotted l.
Proof.
  intros [Hr Ho Hb Hc Hf Hm]. unfold pton4_end. destruct (Z.ltb_spec (octets st) 4); [done|].
  destruct (saw_digit st); [|destruct Hf; [done|lia]].
  assert (length (before st ++ [cur st]) = 4%nat) as Hl by (rewrite length_app; cbn; unfold len in Ho; lia).
  intros [= <-]. rewrite take_ge by lia. split_and!; [done| |by rewrite dotted_snoc].
  apply Forall_app. split; [done|]. by apply Forall_singleton.
Qed.

Lemma pton4_loop_ok st read src l :
  pton4_ok st read -> pton4_loop st src = Some l -> length l = 4%nat /\ bytes_ok l /\ read ++ c_str src = dotted l.
Proof.
  revert st read. induction src as [|ch src IH]; intros st read Hst; cbn [pton4_loop c_str].
  - rewrite app_nil_r. by apply pton4_end_ok.
  - destruct (ch =? 0); [rewrite app_nil_r; by apply pton4_end_ok|].
    destruct (pton4_step st ch) as [st'|] eqn:E; [|done]. intros Hl.
    destruct (IH _ _ (pton4_step_ok _ _ _ _ Hst E) Hl) as (? & ? & Hd). by rewrite <- app_assoc in Hd.
Qed.

(** The digits of one octet. *)
Lemma pton4_octet b o bf src : 0 <= b < 256 -> 0 <= o < 4 ->
  pton4_loop (mkPton false o bf 0) (to_string b ++ src) = pton4_loop (mkPton true (o + 1) bf b) src.
Proof.
  intros Hb Ho. assert (Forall (fun b => forall bf src,
    pton4_loop (mkPton false 0 bf 0) (to_string b ++ src) = pton4_loop (mkPton true 1 bf b) src /\
    pton4_loop (mkPton false 1 bf 0) (to_string b ++ src) = pton4_loop (mkPton true 2 bf b) src /\
    pton4_loop (mkPton false 2 bf 0) (to_string b ++ src) = pton4_loop (mkPton true 3 bf b) src /\
    pton4_loop (mkPton false 3 bf 0) (to_string b ++ src) = pton4_loop (mkPton true 4 bf b) src) (seqZ 0 256)) as H.
  { repeat (apply Forall_cons; split; [intros; repeat split|]). apply Forall_nil_2. }
  rewrite Forall_forall in H. destruct (H b ltac:(apply elem_of_seqZ; lia) bf src) as (H0 & H1 & H2 & H3).
  assert (o = 0 \/ o = 1 \/ o = 2 \/ o = 3) as [->|[->|[->| ->]]] by lia; done.
Qed.

Lemma pton4_dot b o bf src : o <> 4 ->
  pton4_loop (mkPton true o bf b) (bs "." ++ src) = pton4_loop (mkPton false o (bf ++ [b]) 0) src.
Proof.
  intros Ho. change (pton4_loop (mkPton true o bf b) (bs "." ++ src)) with
    (match (if o =? 4 then None else Some (mkPton false o (bf ++ [b]) 0)) with Some st => pton4_loop st src | None => None end).
  by rewrite (proj2 (Z.eqb_neq o 4)).
Qed.

Lemma inet_pton4_dotted a b c d src : bytes_ok [a; b; c; d] -> hd 0 src = 0 ->
  inet_pton4 (dotted [a; b; c; d] ++ src) = Some [a; b; c; d].
Proof.
  intros Hl Hs. repeat (apply Forall_cons in Hl as [? Hl]). unfold is_byte in *. unfold inet_pton4, pton4_init. cbn [dotted].
  rewrite <- !app_assoc. do 3 (rewrite pton4_octet, pton4_dot by lia). rewrite pton4_octet by lia. destruct src as [|ch src]; [done|]. cbn in Hs. by subst.
Qed.

(** An address is read exactly from its four decimal numbers. *)
Lemma inet_pton4_spec src l :
  inet_pton4 src = Some l <-> length l = 4%nat /\ bytes_ok l /\ c_str src = dotted l.
Proof.
  split.
  - intros H. apply (pton4_loop_ok pton4_init [] src l); [|done]. by split.
  - intros (Hlen & Hl & Hsrc). destruct l as [|a [|b [|c [|d [|? ?]]]]]; try done.
    assert (exists z, src = dotted [a; b; c; d] ++ z /\ hd 0 z = 0) as (z & -> & Hz); [|by apply inet_pton4_dotted].
    rewrite <- Hsrc. clear. induction src as [|ch src (z & Hz & H0)]; cbn; [by exists []|].
    destruct (Z.eqb_spec ch 0) as [->|]; [by exists (0 :: src)|]. exists z. cbn. by rewrite <- Hz.
Qed.

Section Listening.
Context {RE : RegexEngine} {A : Type}.
Context (tcp_init : Z) (tcp_bind : sockaddr_in -> Z) (listen : Z -> Z) (SOMAXCONN : Z).

(** A server is made exactly when libuv initialises, binds and listens.  It listens on
  the port, cut to 16 bits, of the address whose four decimal numbers its [ip] writes; an
  [ip] that writes no address, such as a host name, is not refused: the server then listens
  on every address of the machine.  It has no sessions, no routes and is not running. *)
Theorem listen_address ip port a :
  let addr := mkAddr (default [0; 0; 0; 0] (inet_pton4 ip)) (u16 port) in
  (forall l, inet_pton4 ip = Some l <-> length l = 4%nat /\ bytes_ok l /\ c_str ip = dotted l) /\
  HttpServer_new (RE := RE) (A := A) tcp_init tcp_bind listen SOMAXCONN ip port a =
    (if (tcp_init =? 0) && (tcp_bind addr =? 0) && (listen SOMAXCONN =? 0)
     then Some (mkServer ip port false None None
       (mkSystem (mkHttpServer httpRouter_init [] 20 false ∅ ∅ 0 a []) ∅) [L_bind addr; L_listen SOMAXCONN])
     else None) /\
  (forall v, HttpServer_new (RE := RE) (A := A) tcp_init tcp_bind listen SOMAXCONN ip port a = Some v ->
    getSessionCount v = 0%nat).
Proof.
  cbv zeta. split; [intros l; apply inet_pton4_spec|].
  assert (snd (uv_ip4_addr ip port) = mkAddr (default [0; 0; 0; 0] (inet_pton4 ip)) (u16 port)) as Haddr.
  { unfold uv_ip4_addr. by destruct (inet_pton4 ip). }
  unfold HttpServer_new. rewrite Haddr. split.
  - by destruct (tcp_init =? 0), (tcp_bind _ =? 0), (listen SOMAXCONN =? 0).
  - intros v. repeat (case_match; [done|]). by intros [= <-].
Qed.
End Listening.

(** A host name is taken for the address 0.0.0.0. *)
Example localhost_listens_everywhere : uv_ip4_addr (bs "localhost") 8081 = (false, mkAddr [0; 0; 0; 0] 8081).
Proof. reflexivity. Qed.
Example address_read : uv_ip4_addr (bs "127.0.0.1") 8081 = (true, mkAddr [127; 0; 0; 1] 8081).
Proof. reflexivity. Qed.
