(* ===== verification/LeptJson.v ===== *)
(** * JSON values (third-party/leptjson/leptjson.cpp)

    The recursive-descent parser and the printer the program uses for messages,
    responses and tokens.  The text is given as the bytes still to be read, the
    last of which is the [NUL] that [parse] appends; an empty list stands for the
    terminator of the [std::string] itself, which reads as [NUL] too, and no branch
    goes past it.  Doubles are their 64 bits; double-conversion, which reads them,
    is the function [StringToDouble].  The calls of [parse_value] nest as deep as the
    brackets of the text; the stack is not bounded here. *)

From S2P Require Import Prelude.

(** ** Values *)

(** [lept_value], a [double] being its 64 bits: the tag [lept_type] and the member of the union it selects.  An
    object is a [std::map]: its keys are in increasing order. *)
Inductive lept_value :=
  | L_null
  | L_boolean (b : bool)
  | L_number (n : Z)
  | L_integer (i : Z)
  | L_string (s : bytes)
  | L_array (arr : list lept_value)
  | L_object (obj : list (bytes * lept_value)).

Section Induction.
Context (P : lept_value -> Prop).
Hypothesis Hnull : P L_null.
Hypothesis Hboolean : forall b, P (L_boolean b).
Hypothesis Hnumber : forall n, P (L_number n).
Hypothesis Hinteger : forall i, P (L_integer i).
Hypothesis Hstring : forall s, P (L_string s).
Hypothesis Harray : forall arr, Forall P arr -> P (L_array arr).
Hypothesis Hobject : forall obj, Forall (fun kv => P (snd kv)) obj -> P (L_object obj).

Fixpoint lept_value_nested (v : lept_value) : P v :=
  match v with
  | L_null => Hnull
  | L_boolean b => Hboolean b
  | L_number n => Hnumber n
  | L_integer i => Hinteger i
  | L_string s => Hstring s
  | L_array arr => Harray arr ((fix go l : Forall P l :=
      match l with [] => Forall_nil_2 _ | x :: l' => Forall_cons_2 _ _ _ (lept_value_nested x) (go l') end) arr)
  | L_object obj => Hobject obj ((fix go l : Forall (fun kv => P (snd kv)) l :=
      match l with [] => Forall_nil_2 _ | x :: l' => Forall_cons_2 _ _ _ (lept_value_nested (snd x)) (go l') end) obj)
  end.
End Induction.

(** *** [std::map<std::string, ...>] *)

(** [operator<] of strings: bytes compare as unsigned characters. *)
Fixpoint key_ltb (a b : bytes) : bool :=
  match a, b with
  | _, [] => false
  | [], _ => true
  | x :: a', y :: b' => if x <? y then true else if y <? x then false else key_ltb a' b'
  end.

(** [insert] and [emplace], which do not replace, and [operator[]] with an assignment. *)
Fixpoint map_insert {V} (k : bytes) (v : V) (m : list (bytes * V)) : list (bytes * V) :=
  match m with
  | [] => [(k, v)]
  | (k', v') :: m' =>
      if key_ltb k k' then (k, v) :: m else if key_ltb k' k then (k', v') :: map_insert k v m' else m
  end.
Fixpoint map_assign {V} (k : bytes) (v : V) (m : list (bytes * V)) : list (bytes * V) :=
  match m with
  | [] => [(k, v)]
  | (k', v') :: m' =>
      if key_ltb k k' then (k, v) :: m else if key_ltb k' k then (k', v') :: map_assign k v m' else (k, v) :: m'
  end.
Fixpoint map_find {V} (k : bytes) (m : list (bytes * V)) : option V :=
  match m with
  | [] => None
  | (k', v') :: m' => if bool_decide (k = k') then Some v' else map_find k m'
  end.

(** The constructor from an initializer list: pairs whose first part is a string make an
    object, the first of two equal keys being kept, anything else an array. *)
Definition as_pair (v : lept_value) : option (bytes * lept_value) :=
  match v with L_array [L_string k; x] => Some (k, x) | _ => None end.
Definition lept_value_init (initList : list lept_value) : lept_value :=
  match mapM as_pair initList with
  | Some kvs => L_object (fold_left (fun m kv => map_insert (fst kv) (snd kv) m) kvs [])
  | None => L_array initList
  end.

(** ** The parser *)

Inductive lept_err :=
  | LEPT_PARSE_OK
  | LEPT_PARSE_EXPECT_VALUE
  | LEPT_PARSE_INVALID_VALUE
  | LEPT_PARSE_ROOT_NOT_SINGULAR
  | LEPT_PARSE_NUMBER_TOO_BIG
  | LEPT_PARSE_MISS_QUOTATION_MARK
  | LEPT_PARSE_INVALID_STRING_ESCAPE
  | LEPT_PARSE_INVALID_STRING_CHAR
  | LEPT_PARSE_INVALID_UNICODE_HEX
  | LEPT_PARSE_INVALID_UNICODE_SURROGATE
  | LEPT_PARSE_MISS_COMMA_OR_SQUARE_BRACKET
  | LEPT_PARSE_MISS_KEY
  | LEPT_PARSE_MISS_COLON
  | LEPT_PARSE_MISS_COMMA_OR_CURLY_BRACKET.
#[export] Instance lept_err_eq_dec : EqDecision lept_err.
Proof. solve_decision. Defined.

(** [lept_context]: [rest] is [json] from [ptr] on. *)
Record lept_context := mkCtx { rest : bytes; str_top : Z; stk_str : bytes }.

(** How a method ends: a value, an error code, a failed assertion; [J_fuel] is not reached. *)
Inductive jres (A : Type) :=
  | J_ok (a : A) (c : lept_context)
  | J_err (e : lept_err) (c : lept_context)
  | J_assert
  | J_fuel.
Arguments J_ok {A}.
Arguments J_err {A}.
Arguments J_assert {A}.
Arguments J_fuel {A}.

Definition bind {A B} (x : jres A) (f : A -> lept_context -> jres B) : jres B :=
  match x with J_ok a c => f a c | J_err e c => J_err e c | J_assert => J_assert | J_fuel => J_fuel end.

(** [json[ptr]] *)
Definition peek (l : bytes) : Z := match l with [] => 0 | ch :: _ => ch end.
Definition set_rest (l : bytes) (c : lept_context) : lept_context := mkCtx l (str_top c) (stk_str c).
Definition push_char (ch : Z) (c : lept_context) : lept_context := mkCtx (rest c) (u64 (str_top c + 1)) (stk_str c ++ [u8 ch]).

Definition is_ws (ch : Z) : bool := (ch =? " "%chr) || (ch =? 9) || (ch =? 10) || (ch =? 13).
Fixpoint skip_ws (l : bytes) : bytes :=
  match l with
  | ch :: l' => if is_ws ch then skip_ws l' else l
  | [] => []
  end.
Definition parse_whitespace (c : lept_context) : lept_context := set_rest (skip_ws (rest c)) c.

Fixpoint match_literal (literal l : bytes) : option bytes :=
  match literal with
  | [] => Some l
  | x :: literal' => if peek l =? x then match_literal literal' (tail l) else None
  end.
Definition parse_literal (literal : bytes) (v : lept_value) (c : lept_context) : jres lept_value :=
  match match_literal literal (rest c) with
  | Some l => J_ok v (set_rest l c)
  | None => J_err LEPT_PARSE_INVALID_VALUE c
  end.

(** *** Numbers *)

Definition ISDIGIT (ch : Z) : bool := ("0"%chr <=? ch) && (ch <=? "9"%chr).
Definition ISDIGIT1TO9 (ch : Z) : bool := ("1"%chr <=? ch) && (ch <=? "9"%chr).
(** Digits and what follows them. *)
Fixpoint digits (l : bytes) : bytes * bytes :=
  match l with
  | ch :: l' => if ISDIGIT ch then let '(d, r) := digits l' in (ch :: d, r) else ([], l)
  | [] => ([], [])
  end.

(** The parts of a number: sign, digits, fraction and exponent, with what follows, or
    nothing where the grammar is violated. *)
Definition number_sign (l : bytes) : bytes * bytes :=
  match l with ch :: l' => if ch =? "-"%chr then ([ch], l') else ([], l) | [] => ([], []) end.
Definition number_int (l : bytes) : option (bytes * bytes) :=
  match l with
  | ch :: l' =>
      if ch =? "0"%chr then Some ([ch], l')
      else if ISDIGIT1TO9 ch then let '(d, r) := digits l' in Some (ch :: d, r) else None
  | [] => None
  end.
Definition digits1 (l : bytes) : option (bytes * bytes) :=
  match digits l with ([], _) => None | p => Some p end.
Definition number_frac (l : bytes) : option (bytes * bytes) :=
  match l with
  | ch :: l' => if ch =? "."%chr then '(d, r) ← digits1 l'; Some (ch :: d, r) else Some ([], l)
  | [] => Some ([], [])
  end.
Definition exp_sign (l : bytes) : bytes * bytes :=
  match l with
  | x :: l' => if (x =? "+"%chr) || (x =? "-"%chr) then ([x], l') else ([], l)
  | [] => ([], [])
  end.
Definition number_exp (l : bytes) : option (bytes * bytes) :=
  match l with
  | ch :: l' =>
      if (ch =? "e"%chr) || (ch =? "E"%chr) then
        let '(s, l'') := exp_sign l' in
        '(d, r) ← digits1 l''; Some (ch :: s ++ d, r)
      else Some ([], l)
  | [] => Some ([], [])
  end.

(** [std::stoll] on a sign and digits. *)
Definition stoll (sign d : bytes) : option Z :=
  let n := digits_value d in
  let n := match sign with [] => n | _ => - n end in
  if (- 2 ^ 63 <=? n) && (n <? 2 ^ 63) then Some n else None.
(** An exponent of all ones: [isinf] or [isnan]. *)
Definition not_finite (d : Z) : bool := Z.land (Z.shiftr d 52) 0x7FF =? 0x7FF.

(** *** Strings *)

Definition hex_digit (ch : Z) : option Z :=
  if ("0"%chr <=? ch) && (ch <=? "9"%chr) then Some (ch - "0"%chr)
  else if ("A"%chr <=? ch) && (ch <=? "Z"%chr) then Some (ch - ("A"%chr - 10))
  else if ("a"%chr <=? ch) && (ch <=? "z"%chr) then Some (ch - ("a"%chr - 10))
  else None.
Fixpoint hex_loop (n : nat) (u : Z) (l : bytes) : option (Z * bytes) :=
  match n with
  | O => Some (u, l)
  | S n' => match hex_digit (peek l) with Some d => hex_loop n' (Z.lor (Z.shiftl u 4) d) (tail l) | None => None end
  end.
Definition parse_hex4 (l : bytes) : option (Z * bytes) := hex_loop 4 0 l.

Definition encode_utf8 (u : Z) (c : lept_context) : option lept_context :=
  if u <=? 0x7F then Some (push_char u c)
  else if u <=? 0x7FF then
    Some (push_char (Z.lor 0x80 (Z.land u 0x3F)) (push_char (Z.lor 0xC0 (Z.land (Z.shiftr u 6) 0xFF)) c))
  else if u <=? 0xFFFF then
    Some (push_char (Z.lor 0x80 (Z.land u 0x3F))
      (push_char (Z.lor 0x80 (Z.land (Z.shiftr u 6) 0x3F))
        (push_char (Z.lor 0xE0 (Z.land (Z.shiftr u 12) 0xFF)) c)))
  else if u <=? 0x10FFFF then
    Some (push_char (Z.lor 0x80 (Z.land u 0x3F))
      (push_char (Z.lor 0x80 (Z.land (Z.shiftr u 6) 0x3F))
        (push_char (Z.lor 0x80 (Z.land (Z.shiftr u 12) 0x3F))
          (push_char (Z.lor 0xF0 (Z.land (Z.shiftr u 18) 0xFF)) c))))
  else None.

(** The double quote. *)
Definition QUOTE : Z := 34.

(** The character an escape of one letter stands for. *)
Definition simple_escape (ch : Z) : option Z :=
  if ch =? QUOTE then Some QUOTE
  else if ch =? "\"%chr then Some 92
  else if ch =? "/"%chr then Some 47
  else if ch =? "b"%chr then Some 8
  else if ch =? "t"%chr then Some 9
  else if ch =? "n"%chr then Some 10
  else if ch =? "r"%chr then Some 13
  else if ch =? "f"%chr then Some 12
  else None.

(** After [\u]: the code point, with its second half when it is a high surrogate. *)
Definition unicode_escape (l : bytes) : Z * bytes + lept_err :=
  match parse_hex4 l with
  | None => inr LEPT_PARSE_INVALID_UNICODE_HEX
  | Some (u, l1) =>
      if (0xD800 <=? u) && (u <=? 0xDBFF) then
        if negb (peek l1 =? "\"%chr) then inr LEPT_PARSE_INVALID_UNICODE_SURROGATE
        else if negb (peek (tail l1) =? "u"%chr) then inr LEPT_PARSE_INVALID_UNICODE_SURROGATE
        else
          match parse_hex4 (tail (tail l1)) with
          | None => inr LEPT_PARSE_INVALID_UNICODE_HEX
          | Some (u2, l2) =>
              if (u2 <? 0xDC00) || (0xDFFF <? u2) then inr LEPT_PARSE_INVALID_UNICODE_SURROGATE
              else inl (Z.lor (Z.shiftl (u - 0xD800) 10) (u2 - 0xDC00) + 0x10000, l2)
          end
      else inl (u, l1)
  end.

(** The loop of [parse_string]: [l] is what follows [tmp].  [ptr] is only moved at the
    closing quote, and two of the errors alone reset [str_top]. *)
Fixpoint string_loop (fuel : nat) (head : Z) (l : bytes) (c : lept_context) : jres bytes :=
  match fuel with
  | O => J_fuel
  | S fuel' =>
      let ch := peek l in
      if ch =? QUOTE then
        if str_top c <? wrap 64 (str_top c - head) then J_assert
        else J_ok (stk_str c) (mkCtx (tail l) head [])
      else if ch =? "\"%chr then
        let esc := peek (tail l) in
        let l' := tail (tail l) in
        match simple_escape esc with
        | Some x => string_loop fuel' head l' (push_char x c)
        | None =>
            if esc =? "u"%chr then
              match unicode_escape l' with
              | inr e => J_err e c
              | inl (u, l'') =>
                  match encode_utf8 u c with Some c => string_loop fuel' head l'' c | None => J_assert end
              end
            else J_err LEPT_PARSE_INVALID_STRING_CHAR c
        end
      else if ch =? 0 then J_err LEPT_PARSE_MISS_QUOTATION_MARK (mkCtx (rest c) 0 [])
      else if ch <? 0x20 then J_err LEPT_PARSE_INVALID_STRING_CHAR (mkCtx (rest c) 0 [])
      else string_loop fuel' head (tail l) (push_char ch c)
  end.
Definition parse_string (c : lept_context) : jres bytes :=
  match rest c with
  | ch :: l => if ch =? QUOTE then string_loop (S (length l)) (str_top c) l c else J_assert
  | [] => J_assert
  end.

(** *** Values *)

Section Parser.
Context (StringToDouble : bytes -> Z).

Definition parse_number (c : lept_context) : jres lept_value :=
  let '(sign, l1) := number_sign (rest c) in
  match number_int l1 with
  | None => J_err LEPT_PARSE_INVALID_VALUE c
  | Some (int, l2) =>
      match number_frac l2 with
      | None => J_err LEPT_PARSE_INVALID_VALUE c
      | Some (frac, l3) =>
          match number_exp l3 with
          | None => J_err LEPT_PARSE_INVALID_VALUE c
          | Some (exp, l4) =>
              match frac ++ exp with
              | [] =>
                  match stoll sign int with
                  | Some int_val => J_ok (L_integer (i32 int_val)) (set_rest l4 c)
                  | None => J_err LEPT_PARSE_NUMBER_TOO_BIG c
                  end
              | _ =>
                  let num := StringToDouble (sign ++ int ++ frac ++ exp) in
                  if not_finite num then J_err LEPT_PARSE_NUMBER_TOO_BIG c
                  else J_ok (L_number num) (set_rest l4 c)
              end
          end
      end
  end.

(** [parse_value], and the loops of [parse_array] and [parse_object] after the opening
    bracket; the values nest as the calls of the code do. *)
Fixpoint parse_value (fuel : nat) (c : lept_context) : jres lept_value :=
  match fuel with
  | O => J_fuel
  | S fuel' =>
      let ch := peek (rest c) in
      if ch =? "t"%chr then parse_literal (bs "true") (L_boolean true) c
      else if ch =? "f"%chr then parse_literal (bs "false") (L_boolean false) c
      else if ch =? "n"%chr then parse_literal (bs "null") L_null c
      else if ch =? 0 then J_err LEPT_PARSE_EXPECT_VALUE c
      else if ch =? QUOTE then bind (parse_string c) (fun s c => J_ok (L_string s) c)
      else if ch =? "["%chr then
        let c := parse_whitespace (set_rest (tail (rest c)) c) in
        if peek (rest c) =? "]"%chr then J_ok (L_array []) (set_rest (tail (rest c)) c)
        else array_loop fuel' [] c
      else if ch =? "{"%chr then
        let c := parse_whitespace (set_rest (tail (rest c)) c) in
        if peek (rest c) =? "}"%chr then J_ok (L_object []) (set_rest (tail (rest c)) c)
        else object_loop fuel' [] c
      else parse_number c
  end
with array_loop (fuel : nat) (arr : list lept_value) (c : lept_context) : jres lept_value :=
  match fuel with
  | O => J_fuel
  | S fuel' =>
      bind (parse_value fuel' c) (fun e c =>
        let arr := arr ++ [e] in
        let c := parse_whitespace c in
        if peek (rest c) =? ","%chr then array_loop fuel' arr (parse_whitespace (set_rest (tail (rest c)) c))
        else if peek (rest c) =? "]"%chr then J_ok (L_array arr) (set_rest (tail (rest c)) c)
        else J_err LEPT_PARSE_MISS_COMMA_OR_SQUARE_BRACKET c)
  end
with object_loop (fuel : nat) (mp : list (bytes * lept_value)) (c : lept_context) : jres lept_value :=
  match fuel with
  | O => J_fuel
  | S fuel' =>
      if negb (peek (rest c) =? QUOTE) then J_err LEPT_PARSE_MISS_KEY c
      else bind (parse_string c) (fun str c =>
        let c := parse_whitespace c in
        if negb (peek (rest c) =? ":"%chr) then J_err LEPT_PARSE_MISS_COLON c
        else
          bind (parse_value fuel' (parse_whitespace (set_rest (tail (rest c)) c))) (fun e c =>
            let mp := map_insert str e mp in
            let c := parse_whitespace c in
            if peek (rest c) =? "}"%chr then J_ok (L_object mp) (set_rest (tail (rest c)) c)
            else if peek (rest c) =? ","%chr then object_loop fuel' mp (parse_whitespace (set_rest (tail (rest c)) c))
            else J_err LEPT_PARSE_MISS_COMMA_OR_CURLY_BRACKET c))
  end.

(** Two calls for each byte. *)
Definition value_fuel (l : bytes) : nat := S (2 * length l).

(** How [lept_value::parse] ends: with a code and the value left, or in a failed assertion;
    [Out_of_fuel] stands for a parse that does not end. *)
Inductive parse_result :=
  | Returned (ret : lept_err) (v : lept_value)
  | Assertion_failed
  | Out_of_fuel.

(** [lept_value::parse].  What follows the value is looked at only after an error. *)
Definition parse (json : bytes) : parse_result :=
  let c := parse_whitespace (mkCtx (json ++ [0]) 0 []) in
  match parse_value (value_fuel (rest c)) c with
  | J_ok v c => if str_top c =? 0 then Returned LEPT_PARSE_OK v else Assertion_failed
  | J_err e c =>
      if str_top c =? 0 then
        Returned (if len (skip_ws (rest c)) =? 1 then e else LEPT_PARSE_ROOT_NOT_SINGULAR) L_null
      else Assertion_failed
  | J_assert => Assertion_failed
  | J_fuel => Out_of_fuel
  end.
End Parser.

(** ** The printer *)

Definition hex_upper (d : Z) : Z := if d <? 10 then 48 + d else 55 + d.
(** [%04X] of an [int]: its 32 bits, four digits at least. *)
Definition printf_04X (z : Z) : bytes :=
  let u := u32 z in
  let n := if u <? 2 ^ 16 then 4%nat else if u <? 2 ^ 20 then 5%nat else if u <? 2 ^ 24 then 6%nat
           else if u <? 2 ^ 28 then 7%nat else 8%nat in
  map (fun i => hex_upper (Z.land (Z.shiftr u (4 * Z.of_nat i)) 15)) (rev (seq 0 n)).
(** [%d] *)
Definition printf_d (i : Z) : bytes := if i <? 0 then "-"%chr :: to_string (- i) else to_string i.

(** [snprintf] into [buff[7]] keeps six characters. *)
Definition escape_char (ch : Z) : bytes :=
  if ch =? QUOTE then [92; QUOTE]
  else if ch =? "/"%chr then bs "\/"
  else if ch =? "\"%chr then bs "\\"
  else if ch =? 8 then bs "\b"
  else if ch =? 9 then bs "\t"
  else if ch =? 13 then bs "\r"
  else if ch =? 12 then bs "\f"
  else if ch =? 10 then bs "\n"
  else if i8 ch <? 0x20 then take 6 (bs "\u" ++ printf_04X (i8 ch))
  else [ch].
Definition stringify_string (s : bytes) : bytes := [QUOTE] ++ flat_map escape_char s ++ [QUOTE].

(** Pieces separated by commas. *)
Fixpoint comma_sep (l : list bytes) : bytes :=
  match l with
  | [] => []
  | [x] => x
  | x :: l' => x ++ [","%chr] ++ comma_sep l'
  end.

(** *** [%.17g]: seventeen significant digits, rounded to the nearest, without trailing zeros *)

Definition round_div (n d : Z) : Z :=
  let q := n / d in
  let r := n mod d in
  if (2 * r <? d) || ((2 * r =? d) && Z.even q) then q else q + 1.
(** [n / d * 10 ^ p] as a fraction. *)
Definition scale10 (p n d : Z) : Z * Z := if 0 <=? p then (n * 10 ^ p, d) else (n, d * 10 ^ (- p)).
(** The greatest [x] with [10 ^ x <= n / d], from a lower estimate. *)
Fixpoint decimal_exponent (fuel : nat) (x n d : Z) : Z :=
  match fuel with
  | O => x
  | S fuel' =>
      let '(n', d') := scale10 (- (x + 1)) n d in
      if d' <=? n' then decimal_exponent fuel' (x + 1) n d else x
  end.
Fixpoint strip_zeros (l : bytes) : bytes :=
  match l with
  | [] => []
  | c :: l' => match strip_zeros l' with [] => if c =? 48 then [] else [c] | r => c :: r end
  end.
Definition fraction (l : bytes) : bytes := match strip_zeros l with [] => [] | r => "."%chr :: r end.
Definition printf_17g (v : Z) : bytes :=
  let sign := if Z.testbit v 63 then bs "-" else [] in
  let e := Z.land (Z.shiftr v 52) 0x7FF in
  let m := v mod 2 ^ 52 in
  if e =? 0x7FF then sign ++ (if m =? 0 then bs "inf" else bs "nan")
  else if (e =? 0) && (m =? 0) then sign ++ bs "0"
  else
    let '(m, e) := if e =? 0 then (m, -1074) else (m + 2 ^ 52, e - 1075) in
    let '(n, d) := if 0 <=? e then (m * 2 ^ e, 1) else (m, 2 ^ (- e)) in
    let x := decimal_exponent 5 ((Z.log2 n - Z.log2 d) * 30103 / 100000 - 2) n d in
    let '(n', d') := scale10 (16 - x) n d in
    let q := round_div n' d' in
    let '(q, x) := if q =? 10 ^ 17 then (10 ^ 16, x + 1) else (q, x) in
    let ds := to_string q in
    sign ++
    if (x <? -4) || (17 <=? x) then
      take 1 ds ++ fraction (drop 1 ds) ++ bs "e" ++ (if x <? 0 then bs "-" else bs "+") ++
      (if Z.abs x <? 10 then bs "0" else []) ++ to_string (Z.abs x)
    else if 0 <=? x then take (Z.to_nat (x + 1)) ds ++ fraction (drop (Z.to_nat (x + 1)) ds)
    else bs "0" ++ fraction (repeat 48 (Z.to_nat (- x - 1)) ++ ds).

(** [snprintf] into [s[32]]. *)
Fixpoint stringify_value (v : lept_value) : bytes :=
  match v with
  | L_null => bs "null"
  | L_boolean b => if b then bs "true" else bs "false"
  | L_number n => take 31 (printf_17g n)
  | L_integer i => printf_d i
  | L_string s => stringify_string s
  | L_array arr => bs "[" ++ comma_sep (map stringify_value arr) ++ bs "]"
  | L_object obj =>
      bs "{" ++ comma_sep (map (fun kv => [QUOTE] ++ fst kv ++ [QUOTE] ++ bs ":" ++ stringify_value (snd kv)) obj) ++ bs "}"
  end.
Definition stringify (v : lept_value) : bytes := stringify_value v.
