(* ===== verification/LeptCodec.v ===== *)
(** * What the JSON library guarantees

    Parsing any text ends, with a well-formed value, an error code or the failed
    assertion of [parse]; printing a value and parsing it again gives the value back. *)

From S2P Require Import Prelude LeptJson.

(** ** Well-formed values *)

Definition is_byteb (z : Z) : bool := (0 <=? z) && (z <? 256).

(** Strictly increasing keys. *)
Fixpoint keys_sorted (ks : list bytes) : bool :=
  match ks with
  | k :: (k' :: _) as ks' => key_ltb k k' && keys_sorted ks'
  | _ => true
  end.

(** What every [lept_value] of the program satisfies: an [int] has 32 bits, a number read
    is finite, strings hold bytes and the keys of an object are in order. *)
Fixpoint well_formed (v : lept_value) : bool :=
  match v with
  | L_null | L_boolean _ => true
  | L_number n => negb (not_finite n)
  | L_integer i => (- 2 ^ 31 <=? i) && (i <? 2 ^ 31)
  | L_string s => forallb is_byteb s
  | L_array arr => forallb well_formed arr
  | L_object obj =>
      forallb (fun kv => forallb is_byteb (fst kv) && well_formed (snd kv)) obj && keys_sorted (map fst obj)
  end.

(** What is printed so that it can be read back: no doubles, strings of ASCII characters,
    keys without quotes, backslashes or control characters. *)
Definition key_char (ch : Z) : bool := (0x20 <=? ch) && negb (ch =? QUOTE) && negb (ch =? "\"%chr).
Fixpoint printable (v : lept_value) : bool :=
  match v with
  | L_null | L_boolean _ | L_integer _ => true
  | L_number _ => false
  | L_string s => forallb (fun ch => ch <? 128) s
  | L_array arr => forallb printable arr
  | L_object obj => forallb (fun kv => forallb key_char (fst kv) && printable (snd kv)) obj
  end.

(** ** Keys *)

Lemma key_ltb_irrefl a : key_ltb a a = false.
Proof. induction a as [|x a IH]; [done|]. cbn. by rewrite Z.ltb_irrefl. Qed.

Lemma key_ltb_total a b : key_ltb a b = false -> key_ltb b a = false -> a = b.
Proof.
  revert b. induction a as [|x a IH]; intros [|y b]; cbn; try done.
  destruct (Z.ltb_spec x y), (Z.ltb_spec y x); try done. intros Hab Hba. f_equal; [lia|by apply IH].
Qed.

Lemma key_ltb_trans a b c : key_ltb a b = true -> key_ltb b c = true -> key_ltb a c = true.
Proof.
  revert b c. induction a as [|x a IH]; intros [|y b] [|z c]; cbn; try done.
  destruct (Z.ltb_spec x y), (Z.ltb_spec y x), (Z.ltb_spec y z), (Z.ltb_spec z y), (Z.ltb_spec x z), (Z.ltb_spec z x);
    try done; try lia. apply IH.
Qed.

Lemma key_ltb_asym a b : key_ltb a b = true -> key_ltb b a = false.
Proof. intros Hab. destruct (key_ltb b a) eqn:Hba; [|done]. by rewrite <- (key_ltb_trans _ _ _ Hab Hba), key_ltb_irrefl. Qed.

Lemma keys_sorted_cons k ks :
  keys_sorted (k :: ks) = true <-> Forall (fun k' => key_ltb k k' = true) ks /\ keys_sorted ks = true.
Proof.
  revert k. induction ks as [|k1 ks IH]; intros k; [by split; [split|]|].
  change (keys_sorted (k :: k1 :: ks)) with (key_ltb k k1 && keys_sorted (k1 :: ks)).
  rewrite andb_true_iff, Forall_cons. split; [|tauto]. intros [Hk Hs]. split_and!; [done| |done].
  apply IH in Hs as [Hs _]. eapply Forall_impl; [exact Hs|]. intros k' Hk'. by eapply key_ltb_trans.
Qed.

Lemma keys_sorted_snoc ks k : keys_sorted (ks ++ [k]) = true -> Forall (fun k' => key_ltb k' k = true) ks.
Proof.
  induction ks as [|k1 ks IH]; [done|]. cbn [app]. rewrite keys_sorted_cons. intros [Hk Hs].
  apply Forall_cons. split; [|by apply IH]. apply Forall_app in Hk as [_ Hk]. by apply Forall_cons in Hk as [? _].
Qed.

Lemma keys_sorted_prefix ks k : keys_sorted (ks ++ k) = true -> keys_sorted ks = true.
Proof.
  induction ks as [|k1 ks IH]; [done|]. cbn [app]. rewrite !keys_sorted_cons, Forall_app. intros [[Hk _] Hs]. auto.
Qed.

(** Inserting keeps the order and adds at most the new key. *)
Lemma map_insert_keys {V} k (v : V) m k0 :
  Forall (fun k' => key_ltb k0 k' = true) (map fst m) -> key_ltb k0 k = true ->
  Forall (fun k' => key_ltb k0 k' = true) (map fst (map_insert k v m)).
Proof.
  intros Hm Hk. induction m as [|[k1 v1] m IH]; cbn [map_insert]; [by repeat constructor|].
  cbn in Hm. apply Forall_cons in Hm as [H1 Hm]. repeat case_match; cbn; auto using Forall_cons.
Qed.

Lemma map_insert_sorted {V} k (v : V) m : keys_sorted (map fst m) = true -> keys_sorted (map fst (map_insert k v m)) = true.
Proof.
  induction m as [|[k1 v1] m IH]; [done|]. intros Hs. cbn [map_insert].
  destruct (key_ltb k k1) eqn:E1; [|destruct (key_ltb k1 k) eqn:E2; [|done]].
  - cbn [map]. apply keys_sorted_cons. split; [|done]. cbn in Hs. apply keys_sorted_cons in Hs as [Hs _].
    constructor; [done|]. eapply Forall_impl; [exact Hs|]. intros k' Hk'. by eapply key_ltb_trans.
  - cbn [map fst] in *. apply keys_sorted_cons in Hs as [Hk Hs]. apply keys_sorted_cons. split; [|by apply IH].
    by apply map_insert_keys.
Qed.

Lemma map_insert_forallb {V} (f : bytes * V -> bool) k v m :
  f (k, v) = true -> forallb f m = true -> forallb f (map_insert k v m) = true.
Proof.
  intros Hf. induction m as [|[k1 v1] m IH]; cbn; [by rewrite Hf|]. intros [H1 Hm]%andb_true_iff.
  repeat case_match; cbn; rewrite ?Hf, ?H1, ?Hm, ?IH by done; done.
Qed.

(** A key above all others goes last. *)
Lemma map_insert_last {V} k (v : V) m :
  Forall (fun k' => key_ltb k' k = true) (map fst m) -> map_insert k v m = m ++ [(k, v)].
Proof.
  induction m as [|[k1 v1] m IH]; [done|]. cbn [map fst]. intros [H1 Hm]%Forall_cons. cbn [map_insert].
  by rewrite (key_ltb_asym _ _ H1), H1, IH.
Qed.

(** ** Small facts of the parser *)

Lemma peek_cons l ch : peek l = ch -> ch <> 0 -> exists l', l = ch :: l'.
Proof. destruct l as [|x l]; cbn; intros <- H; [done|by exists l]. Qed.

Lemma skip_ws_suffix l : skip_ws l `suffix_of` l.
Proof. induction l as [|ch l IH]; cbn; [done|]. case_match; [by apply suffix_cons_r|done]. Qed.

Lemma digits_suffix l : (digits l).2 `suffix_of` l.
Proof.
  induction l as [|ch l IH]; cbn; [done|]. case_match; [|done]. destruct (digits l). cbn in *. by apply suffix_cons_r.
Qed.

Lemma suffix_bytes l k : l `suffix_of` k -> bytes_ok k -> bytes_ok l.
Proof. intros [h ->] [_ ?]%Forall_app. done. Qed.

Lemma tail_suffix (l : bytes) : tail l `suffix_of` l.
Proof. destruct l; [done|]. by apply suffix_cons_r. Qed.

Lemma suffix_lt {A} (l k m : list A) : l `suffix_of` k -> (length k < length m)%nat -> (length l < length m)%nat.
Proof. intros H%suffix_length. lia. Qed.

#[export] Hint Resolve skip_ws_suffix digits_suffix tail_suffix : ws.

Lemma match_literal_suffix x l r : match_literal x l = Some r -> r `suffix_of` l.
Proof.
  revert l. induction x as [|a x IH]; intros l; cbn; [by intros [= ->]|]. case_match; [|done].
  intros Hr%IH. etrans; [exact Hr|apply tail_suffix].
Qed.

Lemma lor_bound n a b : 0 <= n -> 0 <= a < 2 ^ n -> 0 <= b < 2 ^ n -> 0 <= Z.lor a b < 2 ^ n.
Proof.
  intros Hn [Ha Ha'] [Hb Hb']. assert (0 <= Z.lor a b) as H0 by (by apply Z.lor_nonneg). split; [done|].
  apply pow2_bound_bits; [done..|]. rewrite Z.shiftr_lor. apply (pow2_bound_bits n) in Ha', Hb'; [|done..].
  by rewrite Ha', Hb'.
Qed.

Lemma hex_digit_bound ch d : hex_digit ch = Some d -> 0 <= d < 2 ^ 6.
Proof. unfold hex_digit. repeat case_match; intros [= <-]; bool_to_prop; lia. Qed.

Lemma hex_loop_spec n u l u' r k :
  hex_loop n u l = Some (u', r) -> 2 <= k -> 0 <= u < 2 ^ k ->
  0 <= u' < 2 ^ (k + 4 * Z.of_nat n) /\ r `suffix_of` l /\ (n <= length l)%nat.
Proof.
  revert u l k. induction n as [|n IH]; intros u l k; cbn [hex_loop].
  { intros [= -> ->] ? ?. rewrite Z.add_0_r. split_and!; [lia..|done|lia]. }
  destruct (hex_digit (peek l)) as [d|] eqn:Ed; [|done]. intros Hr Hk Hu.
  apply hex_digit_bound in Ed as Hd. assert (2 ^ 6 <= 2 ^ (k + 4)) by (apply Z.pow_le_mono_r; lia).
  apply (IH _ _ (k + 4)) in Hr as (Hu' & Hsuf & Hlen); [|lia|].
  - replace (k + 4 + 4 * Z.of_nat n) with (k + 4 * Z.of_nat (S n)) in Hu' by lia. destruct l as [|ch l].
    { by vm_compute in Ed. }
    cbn [tail length] in *. split_and!; [lia..|by apply suffix_cons_r|lia].
  - apply lor_bound; [lia| |lia]. rewrite Z.shiftl_mul_pow2, Z.pow_add_r by lia. nia.
Qed.

Lemma parse_hex4_spec l u r :
  parse_hex4 l = Some (u, r) -> 0 <= u < 2 ^ 18 /\ r `suffix_of` l.
Proof.
  intros H. apply (hex_loop_spec 4 0 l u r 2) in H as (Hu & Hr & _); [|lia..]. done.
Qed.

Lemma unicode_escape_spec l u r : unicode_escape l = inl (u, r) -> 0 <= u <= 0x10FFFF /\ r `suffix_of` l.
Proof.
  unfold unicode_escape. destruct (parse_hex4 l) as [[u1 l1]|] eqn:E1; [|done].
  apply parse_hex4_spec in E1 as [Hu1 Hl1]. destruct ((0xD800 <=? u1) && _) eqn:Es.
  2: { intros [= <- <-]. split; [lia|done]. }
  do 2 (case_match; [done|]). destruct (parse_hex4 _) as [[u2 l2]|] eqn:E2; [|done].
  apply parse_hex4_spec in E2 as [Hu2 Hl2]. case_match eqn:Er; [done|]. intros [= <- <-]. bool_to_prop. split.
  - assert (0 <= Z.lor (Z.shiftl (u1 - 0xD800) 10) (u2 - 0xDC00) < 2 ^ 20); [|lia].
    apply lor_bound; [lia| |lia]. rewrite Z.shiftl_mul_pow2 by lia. lia.
  - etrans; [exact Hl2|]. etrans; [apply tail_suffix|]. etrans; [apply tail_suffix|done].
Qed.

(** The accumulated string between two characters. *)
Record stack_ok (c : lept_context) : Prop := { so_top : 0 <= str_top c < 2 ^ 64; so_stk : bytes_ok (stk_str c) }.

Lemma push_char_ok ch c : stack_ok c -> stack_ok (push_char ch c).
Proof.
  intros [H1 H2]. split; [apply u64_range|]. cbn. apply Forall_app. split; [done|].
  repeat constructor; apply (wrap_range 8); lia.
Qed.

Lemma encode_utf8_ok u c :
  0 <= u <= 0x10FFFF -> stack_ok c -> exists c', encode_utf8 u c = Some c' /\ stack_ok c' /\ rest c' = rest c.
Proof.
  intros Hu Hc. unfold encode_utf8. repeat (case_match; [eexists; split_and!; [done|repeat apply push_char_ok; done|done]|]).
  bool_to_prop. lia.
Qed.

(** ** Every parse ends *)

(** The errors that leave characters behind: those of an escape. *)
Definition escape_error (e : lept_err) : Prop :=
  e = LEPT_PARSE_INVALID_STRING_CHAR \/ e = LEPT_PARSE_INVALID_UNICODE_HEX \/ e = LEPT_PARSE_INVALID_UNICODE_SURROGATE.

(** How a method that starts with nothing accumulated at [l] ends: with a value that
    satisfies [P] and nothing accumulated, further on; or with an error. *)
Definition ends {A} (P : A -> Prop) (l : bytes) (x : jres A) : Prop :=
  match x with
  | J_ok a c => P a /\ str_top c = 0 /\ stk_str c = [] /\ rest c `suffix_of` l /\ (length (rest c) < length l)%nat
  | J_err e c => str_top c = 0 \/ (escape_error e /\ "\"%chr ∈ l)
  | J_assert | J_fuel => False
  end.

Lemma ends_suffix {A} (P : A -> Prop) l k x : l `suffix_of` k -> ends P l x -> ends P k x.
Proof.
  intros Hs. destruct x as [a c|e c| |]; cbn; [|intros [?|[? Hin]]; [by left|right]|done..].
  - intros (? & ? & ? & ? & ?). apply suffix_length in Hs as Hlen. split_and!; [done..|by etrans|lia].
  - split; [done|]. destruct Hs as [h ->]. rewrite elem_of_app. by right.
Qed.

Lemma ends_bind {A B} (P : A -> Prop) (Q : B -> Prop) l x (f : A -> lept_context -> jres B) :
  ends P l x ->
  (forall a r, P a -> r `suffix_of` l -> (length r < length l)%nat -> ends Q l (f a (mkCtx r 0 []))) ->
  ends Q l (bind x f).
Proof. destruct x as [a [r n s]|e c| |]; cbn; [intros (? & -> & -> & ? & ?); auto|done..]. Qed.

Lemma string_loop_ends fuel l c :
  (length l < fuel)%nat -> bytes_ok l -> stack_ok c ->
  match string_loop fuel 0 l c with
  | J_ok s c' => bytes_ok s /\ str_top c' = 0 /\ stk_str c' = [] /\ rest c' `suffix_of` l
  | J_err e c' => str_top c' = 0 \/ (escape_error e /\ "\"%chr ∈ l)
  | J_assert | J_fuel => False
  end.
Proof.
  revert l c. induction fuel as [|fuel IH]; intros l c Hf Hl Hc; [lia|]. cbn [string_loop].
  assert (Hgo : forall r c', stack_ok c' -> r `suffix_of` l -> (length r < length l)%nat ->
    match string_loop fuel 0 r c' with
    | J_ok s c' => bytes_ok s /\ str_top c' = 0 /\ stk_str c' = [] /\ rest c' `suffix_of` l
    | J_err e c' => str_top c' = 0 \/ (escape_error e /\ "\"%chr ∈ l)
    | J_assert | J_fuel => False
    end).
  { intros r c' Hc' Hr Hlt. specialize (IH r c' ltac:(lia) (suffix_bytes _ _ Hr Hl) Hc').
    destruct (string_loop fuel 0 r c'); [|destruct IH as [?|[? Hin]]; [by left|right]|done..].
    - destruct IH as (? & ? & ? & ?). split_and!; [done..|by etrans].
    - split; [done|]. destruct Hr as [h ->]. rewrite elem_of_app. by right. }
  destruct (Z.eqb_spec (peek l) QUOTE) as [Hq|Hq].
  { destruct Hc as [Ht Hs]. rewrite Z.sub_0_r, wrap_small, Z.ltb_irrefl by done.
    split_and!; [done..|]. apply tail_suffix. }
  destruct (Z.eqb_spec (peek l) "\"%chr) as [Hb|Hb].
  { destruct (peek_cons l _ Hb) as [l1 ->]; [done|]. cbn [tail]. assert (Hin : "\"%chr ∈ "\"%chr :: l1) by left.
    assert (Hs1 : tail l1 `suffix_of` "\"%chr :: l1) by (apply suffix_cons_r, tail_suffix).
    assert (Hl1 : (length (tail l1) < length ("\"%chr :: l1))%nat)
      by (cbn; pose proof (suffix_length _ _ (tail_suffix l1)); lia).
    destruct (simple_escape (peek l1)); [apply Hgo; [by apply push_char_ok|done..]|].
    destruct (peek l1 =? "u"%chr); [|right; split; [left|]; done].
    destruct (unicode_escape (tail l1)) as [[u r]|e] eqn:Eu.
    - apply unicode_escape_spec in Eu as [Hu Hr]. destruct (encode_utf8_ok u c Hu Hc) as (c' & -> & Hc' & _).
      apply Hgo; [done|by etrans|by eapply suffix_lt].
    - right. split; [|done]. unfold unicode_escape in Eu. unfold escape_error.
      repeat case_match; simplify_eq; auto. }
  destruct (Z.eqb_spec (peek l) 0) as [H0|H0]; [by left|].
  destruct (peek l <? 0x20); [by left|]. destruct l as [|ch l1]; [done|]. cbn [tail peek].
  apply Hgo; [by apply push_char_ok|by apply suffix_cons_r|cbn; lia].
Qed.

Lemma parse_string_ends l :
  peek l = QUOTE -> bytes_ok l -> ends (fun s => bytes_ok s) l (parse_string (mkCtx l 0 [])).
Proof.
  intros Hq Hl. destruct (peek_cons l _ Hq) as [l1 ->]; [done|]. unfold parse_string. cbn [rest str_top].
  rewrite Z.eqb_refl. apply Forall_cons in Hl as [_ Hl].
  pose proof (string_loop_ends (S (length l1)) l1 (mkCtx (QUOTE :: l1) 0 []) ltac:(lia) Hl) as H.
  destruct (string_loop _ 0 l1 _) as [s c|e c| |]; cbn in *.
  - destruct H as (? & ? & ? & Hsuf); [by split|]. pose proof (suffix_length _ _ Hsuf).
    split_and!; [done..|by apply suffix_cons_r|lia].
  - destruct H as [?|[? ?]]; [by split|by left|right]. split; [done|]. by right.
  - apply H. by split.
  - apply H. by split.
Qed.

Lemma i32_range z : - 2 ^ 31 <= i32 z < 2 ^ 31.
Proof. unfold i32. pose proof (Z.mod_pos_bound (z + 2 ^ 31) (2 ^ 32) ltac:(lia)). lia. Qed.

Section Parsing.
Context (StringToDouble : bytes -> Z).

Lemma number_sign_suffix l : (number_sign l).2 `suffix_of` l.
Proof. destruct l as [|ch l]; cbn; [done|]. case_match; [by apply suffix_cons_r|done]. Qed.
Lemma digits1_suffix l d r : digits1 l = Some (d, r) -> r `suffix_of` l.
Proof.
  unfold digits1. pose proof (digits_suffix l) as H. destruct (digits l) as [[|x d'] r'] eqn:E; [done|]. by intros [= <- <-].
Qed.
Lemma number_int_suffix l d r : number_int l = Some (d, r) -> r `suffix_of` l /\ (length r < length l)%nat.
Proof.
  destruct l as [|ch l]; cbn; [done|]. pose proof (digits_suffix l) as Hd. destruct (digits l) as [d' r'].
  repeat case_match; intros [= <- <-].
  - split; [by apply suffix_cons_r|lia].
  - cbn in Hd. pose proof (suffix_length _ _ Hd). split; [by apply suffix_cons_r|lia].
Qed.
Lemma number_frac_suffix l d r : number_frac l = Some (d, r) -> r `suffix_of` l.
Proof.
  destruct l as [|ch l]; cbn; [by intros [= <- <-]|]. case_match; [|by intros [= <- <-]].
  destruct (digits1 l) as [[d' r']|] eqn:E; [|done]. intros [= <- <-]. by apply suffix_cons_r, (digits1_suffix _ _ _ E).
Qed.
Lemma number_exp_suffix l d r : number_exp l = Some (d, r) -> r `suffix_of` l.
Proof.
  destruct l as [|ch l]; cbn; [by intros [= <- <-]|]. case_match; [|by intros [= <- <-]].
  assert ((exp_sign l).2 `suffix_of` l) as Hp.
  { destruct l; cbn; [done|]. case_match; [by apply suffix_cons_r|done]. }
  destruct (exp_sign l) as [s l'']. destruct (digits1 l'') as [[d' r']|] eqn:E; [|done]. cbn. intros [= <- <-].
  apply digits1_suffix in E. apply suffix_cons_r. by etrans.
Qed.

Lemma parse_number_ends l : ends (fun v => well_formed v = true) l (parse_number StringToDouble (mkCtx l 0 [])).
Proof.
  unfold parse_number. cbn [rest]. pose proof (number_sign_suffix l) as H0. destruct (number_sign l) as [sign l1]. cbn in H0.
  destruct (number_int l1) as [[int l2]|] eqn:E1; [|by left]. apply number_int_suffix in E1 as [H1 H1'].
  destruct (number_frac l2) as [[frac l3]|] eqn:E2; [|by left]. apply number_frac_suffix in E2.
  destruct (number_exp l3) as [[exp l4]|] eqn:E3; [|by left]. apply number_exp_suffix in E3.
  assert (l4 `suffix_of` l /\ (length l4 < length l)%nat) as [Hs Hl].
  { split; [etrans; [exact E3|]; etrans; [exact E2|]; by etrans|].
    apply suffix_length in H0, E2, E3. lia. }
  destruct (frac ++ exp).
  - destruct (stoll sign int); [|by left]. cbn. split_and!; try done. pose proof (i32_range z).
    apply andb_true_iff. split; lia.
  - case_match eqn:E; [by left|]. cbn. by rewrite E.
Qed.

Lemma parse_literal_ends x v l :
  x <> [] -> well_formed v = true -> (forall r, match_literal x l = Some r -> (length r < length l)%nat) ->
  ends (fun v => well_formed v = true) l (parse_literal x v (mkCtx l 0 [])).
Proof.
  intros Hx Hv Hlt. unfold parse_literal. cbn [rest]. destruct (match_literal x l) as [r|] eqn:E; [|by left].
  apply match_literal_suffix in E as Hs. cbn. split_and!; auto.
Qed.

Lemma match_literal_lt x xs l r : x <> 0 -> match_literal (x :: xs) l = Some r -> (length r < length l)%nat.
Proof.
  intros Hx. cbn [match_literal]. case_match eqn:E; [|done]. apply Z.eqb_eq in E.
  destruct (peek_cons l _ E Hx) as [l1 ->]. intros Hr%match_literal_suffix%suffix_length. cbn in *. lia.
Qed.

(** A step past the current character, over white space. *)
Lemma step_ws l : peek l <> 0 -> skip_ws (tail l) `suffix_of` l /\ (length (skip_ws (tail l)) < length l)%nat.
Proof.
  intros Hl. destruct l as [|ch l1]; [done|]. cbn. pose proof (suffix_length _ _ (skip_ws_suffix l1)).
  split; [apply suffix_cons_r, skip_ws_suffix|lia].
Qed.

Abbreviation wf := (fun v => well_formed v = true).
Definition wf_members (mp : list (bytes * lept_value)) : Prop := well_formed (L_object mp) = true.

Lemma bytes_okb s : bytes_ok s -> forallb is_byteb s = true.
Proof.
  rewrite Forall_forall. intros Hs. apply forallb_forall. intros x Hx%list_elem_of_In. specialize (Hs x Hx).
  unfold is_byte in Hs. apply andb_true_iff. lia.
Qed.

Lemma wf_insert k v mp : bytes_ok k -> wf v -> wf_members mp -> wf_members (map_insert k v mp).
Proof.
  unfold wf_members. cbn [well_formed]. rewrite !andb_true_iff. intros Hk Hv [Hm Hs]. split; [|by apply map_insert_sorted].
  apply map_insert_forallb; [|done]. cbn. by rewrite Hv, bytes_okb.
Qed.

(** What follows a character that was read, and the end at a closing bracket. *)
Lemma step_suffix l k : k `suffix_of` l -> (length k <= length l)%nat -> peek k <> 0 ->
  skip_ws (tail k) `suffix_of` l /\ (length (skip_ws (tail k)) < length l)%nat.
Proof. intros Hs Hl Hk. destruct (step_ws k Hk). split; [by etrans|lia]. Qed.

Lemma ends_close v l k : wf v -> k `suffix_of` l -> peek k <> 0 -> ends wf l (J_ok v (mkCtx (tail k) 0 [])).
Proof.
  intros Hv Hs Hk. pose proof (suffix_length _ _ Hs). destruct k as [|ch k]; [done|]. cbn [length] in *. cbn.
  split_and!; [done..|etrans; [|exact Hs]; by apply suffix_cons_r|lia].
Qed.

Definition value_ends (fuel : nat) : Prop := forall l, bytes_ok l -> (2 * length l < fuel)%nat ->
  ends wf l (parse_value StringToDouble fuel (mkCtx l 0 [])).
Definition array_ends (fuel : nat) : Prop := forall l arr, forallb well_formed arr = true -> bytes_ok l ->
  (2 * length l + 1 < fuel)%nat -> ends wf l (array_loop StringToDouble fuel arr (mkCtx l 0 [])).
Definition object_ends (fuel : nat) : Prop := forall l mp, wf_members mp -> bytes_ok l ->
  (2 * length l + 1 < fuel)%nat -> ends wf l (object_loop StringToDouble fuel mp (mkCtx l 0 [])).

Lemma value_step fuel : array_ends fuel -> object_ends fuel -> value_ends (S fuel).
Proof.
  intros IHa IHo l Hl Hf. cbn [parse_value rest].
  do 3 (destruct (peek l =? _); [apply parse_literal_ends; [done..|intros r; by apply match_literal_lt]|]).
  destruct (peek l =? 0); [by left|].
  assert (Hopen : forall ch, peek l = ch -> ch <> 0 -> let r := skip_ws (tail l) in
    r `suffix_of` l /\ (length r < length l)%nat /\ bytes_ok r).
  { intros ch <- Hch. destruct (step_ws l Hch) as [Hs Hlt]. split_and!; [done..|by eapply suffix_bytes]. }
  cbn [parse_whitespace set_rest rest str_top stk_str].
  destruct (Z.eqb_spec (peek l) QUOTE) as [E|_]; [|destruct (Z.eqb_spec (peek l) "["%chr) as [E|_];
    [|destruct (Z.eqb_spec (peek l) "{"%chr) as [E|_]; [|apply parse_number_ends]]].
  - eapply ends_bind; [by apply parse_string_ends|]. intros s r Hs%bytes_okb Hr Hlt. by cbn.
  - destruct (Hopen _ E) as (Hs & Hlt & Hb); [done|]. destruct (Z.eqb_spec (peek (skip_ws (tail l))) "]"%chr) as [E'|_].
    + apply ends_close; [done..|by rewrite E'].
    + apply (ends_suffix _ (skip_ws (tail l))); [done|]. apply IHa; [done..|lia].
  - destruct (Hopen _ E) as (Hs & Hlt & Hb); [done|]. destruct (Z.eqb_spec (peek (skip_ws (tail l))) "}"%chr) as [E'|_].
    + apply ends_close; [done..|by rewrite E'].
    + apply (ends_suffix _ (skip_ws (tail l))); [done|]. apply IHo; [done..|lia].
Qed.

Lemma array_step fuel : value_ends fuel -> array_ends fuel -> array_ends (S fuel).
Proof.
  intros IHv IHa l arr Harr Hl Hf. cbn [array_loop]. eapply ends_bind; [apply IHv; [done|lia]|].
  intros e r He Hr Hlt. cbn [parse_whitespace set_rest rest str_top stk_str].
  assert (forallb well_formed (arr ++ [e]) = true) as Harr'.
  { rewrite forallb_app. cbn. by rewrite Harr, He. }
  pose proof (suffix_length _ _ (skip_ws_suffix r)).
  assert (skip_ws r `suffix_of` l) as Hw by (etrans; [apply skip_ws_suffix|done]).
  destruct (Z.eqb_spec (peek (skip_ws r)) ","%chr) as [E|_].
  - destruct (step_suffix l (skip_ws r)) as [Hs' Hlt']; [done|lia|by rewrite E|].
    apply (ends_suffix _ _ _ _ Hs'). apply IHa; [done|by eapply suffix_bytes|lia].
  - destruct (Z.eqb_spec (peek (skip_ws r)) "]"%chr) as [E'|_]; [|by left].
    apply ends_close; [done..|by rewrite E'].
Qed.

Lemma object_step fuel : value_ends fuel -> object_ends fuel -> object_ends (S fuel).
Proof.
  intros IHv IHo l mp Hmp Hl Hf. cbn [object_loop rest]. destruct (Z.eqb_spec (peek l) QUOTE) as [Eq|_]; [|by left].
  cbn [negb]. eapply ends_bind; [by apply parse_string_ends|]. intros k r Hk Hr Hlt.
  cbn [parse_whitespace set_rest rest str_top stk_str].
  pose proof (suffix_length _ _ (skip_ws_suffix r)).
  assert (skip_ws r `suffix_of` l) as Hw by (etrans; [apply skip_ws_suffix|done]).
  destruct (Z.eqb_spec (peek (skip_ws r)) ":"%chr) as [E|_]; [|by left]. cbn [negb].
  destruct (step_suffix l (skip_ws r)) as [Hs' Hlt']; [done|lia|by rewrite E|].
  set (r' := skip_ws (tail (skip_ws r))) in *. apply (ends_suffix _ _ _ _ Hs').
  assert (bytes_ok r') as Hb' by (by eapply suffix_bytes).
  eapply ends_bind; [apply IHv; [done|lia]|]. intros e q He Hq Hlt2.
  cbn [parse_whitespace set_rest rest str_top stk_str].
  pose proof (suffix_length _ _ (skip_ws_suffix q)).
  assert (skip_ws q `suffix_of` r') as Hw2 by (etrans; [apply skip_ws_suffix|done]).
  pose proof (wf_insert k e mp Hk He Hmp) as Hmp'.
  destruct (Z.eqb_spec (peek (skip_ws q)) "}"%chr) as [E2|_]; [by apply ends_close; [..|by rewrite E2]|].
  destruct (Z.eqb_spec (peek (skip_ws q)) ","%chr) as [E2|_]; [|by left].
  destruct (step_suffix r' (skip_ws q)) as [Hs2 Hlt3]; [done|lia|by rewrite E2|].
  apply (ends_suffix _ _ _ _ Hs2). apply IHo; [done|by eapply suffix_bytes|lia].
Qed.

Lemma parse_value_ends fuel : value_ends fuel /\ array_ends fuel /\ object_ends fuel.
Proof.
  induction fuel as [|fuel (IHv & IHa & IHo)]; [split_and!; intros l *; lia|].
  split_and!; [by apply value_step|by apply array_step|by apply object_step].
Qed.

Lemma skip_ws_bytes l : bytes_ok l -> bytes_ok (skip_ws l).
Proof. apply suffix_bytes, skip_ws_suffix. Qed.

(** How [parse] ends. *)
Definition ended_well (json : bytes) (r : parse_result) : Prop :=
  match r with
  | Returned LEPT_PARSE_OK v => well_formed v = true
  | Returned _ v => v = L_null
  | Assertion_failed =>
      let l := skip_ws (json ++ [0]) in
      "\"%chr ∈ json /\ exists e c, parse_value StringToDouble (value_fuel l) (mkCtx l 0 []) = J_err e c /\
        escape_error e /\ str_top c <> 0
  | Out_of_fuel => False
  end.

Lemma parse_ends json (Hjson : bytes_ok json) : ended_well json (parse StringToDouble json).
Proof.
  unfold ended_well, parse. set (l := skip_ws (json ++ [0])).
  assert (bytes_ok l) as Hl.
  { apply skip_ws_bytes, Forall_app. split; [done|]. repeat constructor; done. }
  change (parse_whitespace _) with (mkCtx l 0 []). cbn [rest].
  destruct (parse_value_ends (value_fuel l)) as [Hv _]. specialize (Hv l Hl ltac:(unfold value_fuel; lia)).
  destruct (parse_value _ _ _) as [v c|e c| |]; cbn in Hv; [|..|done|done].
  - destruct Hv as (Hv & -> & _). by rewrite Z.eqb_refl.
  - destruct (Z.eqb_spec (str_top c) 0) as [|Hne]; [repeat case_match; done|].
    destruct Hv as [?|[He Hin]]; [done|]. split; [|by exists e, c].
    assert ("\"%chr ∈ json ++ [0]) as [?|H0]%elem_of_app.
    { destruct (skip_ws_suffix (json ++ [0])) as [h ->]. rewrite elem_of_app. by right. }
    + done.
    + apply list_elem_of_singleton in H0. done.
Qed.

(** C21. Parsing any text ends, however long it is and whatever it holds: with a well-formed
  value and [LEPT_PARSE_OK], with an error code and [null], or with the failed assertion of
  [parse], and then only because the text has a backslash and an invalid escape sequence
  stopped the parser after some character of its string. *)
Theorem parse_total json (Hjson : bytes_ok json) :
  match parse StringToDouble json with
  | Returned LEPT_PARSE_OK v => well_formed v = true
  | Returned _ v => v = L_null
  | Assertion_failed =>
      let l := skip_ws (json ++ [0]) in
      "\"%chr ∈ json /\ exists e c, parse_value StringToDouble (value_fuel l) (mkCtx l 0 []) = J_err e c /\
        escape_error e /\ str_top c <> 0
  | Out_of_fuel => False
  end.
Proof. exact (parse_ends json Hjson). Qed.
End Parsing.

(** ** Printing and parsing back *)

(** *** Strings *)

Definition char_printed (ch : Z) : Prop := forall fuel l c,
  string_loop (S fuel) 0 (escape_char ch ++ l) c = string_loop fuel 0 l (push_char ch c).

Lemma escape_char_parsed ch : 0 <= ch < 128 -> char_printed ch.
Proof.
  intros Hch. assert (Forall char_printed (seqZ 0 128)) as Hall.
  { unfold char_printed. repeat (apply Forall_cons; split; [intros fuel l c; reflexivity|]). apply Forall_nil_2. }
  rewrite Forall_forall in Hall. apply Hall, elem_of_seqZ. lia.
Qed.

(** A key is printed as it is. *)
Lemma key_char_parsed ch : key_char ch = true -> forall fuel l c,
  string_loop (S fuel) 0 (ch :: l) c = string_loop fuel 0 l (push_char ch c).
Proof.
  unfold key_char. intros Hch fuel l c. bool_to_prop. cbn [string_loop peek tail].
  do 3 (rewrite (proj2 (Z.eqb_neq ch _)) by lia). by rewrite (proj2 (Z.ltb_ge ch _)) by lia.
Qed.

(** Text that stands for one character: it is read in one round of the loop. *)
Definition reads_as (ch : Z) (e : bytes) : Prop :=
  is_byte ch /\ e <> [] /\ forall fuel l c, string_loop (S fuel) 0 (e ++ l) c = string_loop fuel 0 l (push_char ch c).

(** A run of characters and the closing quote. *)
Lemma string_loop_run s es : Forall2 reads_as s es ->
  forall fuel r c, (length s < fuel)%nat -> 0 <= str_top c < 2 ^ 64 ->
  string_loop fuel 0 (concat es ++ QUOTE :: r) c = J_ok (stk_str c ++ s) (mkCtx r 0 []).
Proof.
  induction 1 as [|ch e s es (Hb & _ & Hch) Hs IH]; intros fuel r c Hf Ht; (destruct fuel as [|fuel]; [cbn in Hf; lia|]).
  - cbn [concat app string_loop peek tail]. rewrite Z.eqb_refl, Z.sub_0_r, wrap_small, Z.ltb_irrefl by done.
    by rewrite app_nil_r.
  - cbn [concat]. rewrite <- app_assoc, Hch, IH; [|cbn in Hf; lia|apply u64_range].
    cbn. unfold u8. rewrite Z.mod_small by done. by rewrite <- app_assoc.
Qed.

Lemma escape_char_cons ch : escape_char ch <> [].
Proof. unfold escape_char. by repeat (case_match; [done|]). Qed.

Lemma parse_string_run s es r : Forall2 reads_as s es ->
  parse_string (mkCtx (QUOTE :: concat es ++ QUOTE :: r) 0 []) = J_ok s (mkCtx r 0 []).
Proof.
  intros Hs. unfold parse_string. cbn [rest str_top]. rewrite Z.eqb_refl.
  rewrite (string_loop_run s es Hs); [done| |done].
  enough (length s <= length (concat es))%nat by (rewrite length_app; lia).
  induction Hs as [|ch e s es (_ & He & _) Hs IH]; [done|]. cbn. rewrite length_app. destruct e; [done|]. cbn. lia.
Qed.

Lemma forallb_Forall {A} (f : A -> bool) l : forallb f l = true <-> Forall (fun x => f x = true) l.
Proof. rewrite forallb_forall, Forall_forall. split; intros H x Hx; apply H; by apply list_elem_of_In. Qed.

Lemma is_byteb_ok ch : is_byteb ch = true <-> is_byte ch.
Proof. unfold is_byteb, is_byte. rewrite andb_true_iff. lia. Qed.

Lemma parse_printed_string s r :
  forallb is_byteb s = true -> forallb (fun ch => ch <? 128) s = true ->
  parse_string (mkCtx (stringify_string s ++ r) 0 []) = J_ok s (mkCtx r 0 []).
Proof.
  rewrite !forallb_Forall. intros Hb Ha. unfold stringify_string. cbn [app]. rewrite <- app_assoc, flat_map_concat_map.
  apply parse_string_run, Forall2_fmap_r, Forall_Forall2_diag, Forall_forall. intros ch Hch.
  rewrite Forall_forall in Hb, Ha. specialize (Hb ch Hch). specialize (Ha ch Hch). apply is_byteb_ok in Hb.
  apply Z.ltb_lt in Ha. split_and!; [done|apply escape_char_cons|]. apply escape_char_parsed. unfold is_byte in Hb. lia.
Qed.

Lemma parse_printed_key k r :
  forallb is_byteb k = true -> forallb key_char k = true ->
  parse_string (mkCtx (QUOTE :: k ++ QUOTE :: r) 0 []) = J_ok k (mkCtx r 0 []).
Proof.
  rewrite !forallb_Forall. intros Hb Ha.
  replace k with (concat (map (fun ch => [ch]) k)) at 1 by (clear; induction k; cbn; congruence).
  apply parse_string_run, Forall2_fmap_r, Forall_Forall2_diag, Forall_forall. intros ch Hch.
  rewrite Forall_forall in Hb, Ha. split_and!; [by apply is_byteb_ok, Hb|done|]. by apply key_char_parsed, Ha.
Qed.

(** *** Integers *)

(** What may follow a value: a separator, a bracket that closes, white space or the end. *)
Definition stops (ch : Z) : bool := (ch =? ","%chr) || (ch =? "]"%chr) || (ch =? "}"%chr) || (ch =? 0) || is_ws ch.
Definition delim (l : bytes) : Prop := stops (peek l) = true.

Lemma delim_not ch l : delim l -> stops ch = false -> peek l <> ch.
Proof. unfold delim. intros Hl Hch <-. congruence. Qed.

Lemma digits_run ds r : forallb ISDIGIT ds = true -> ISDIGIT (peek r) = false -> digits (ds ++ r) = (ds, r).
Proof.
  intros Hds Hr. induction ds as [|d ds IH]; cbn [app digits].
  - destruct r as [|x r]; [done|]. cbn in *. by rewrite Hr.
  - cbn in Hds. apply andb_true_iff in Hds as [-> Hds]. by rewrite IH.
Qed.

Lemma delim_digit r : delim r -> ISDIGIT (peek r) = false.
Proof.
  unfold delim, stops, is_ws, ISDIGIT. destruct (Z.leb_spec "0"%chr (peek r)); [|done].
  destruct (Z.leb_spec (peek r) "9"%chr); [|done]. by rewrite !(proj2 (Z.eqb_neq (peek r) _)) by lia.
Qed.

Section RoundTrip.
Context (StringToDouble : bytes -> Z).

Lemma parse_number_int sign ds r :
  (sign = [] /\ peek ds <> "-"%chr) \/ sign = bs "-" -> number_int (ds ++ r) = Some (ds, r) -> ds <> [] -> delim r ->
  parse_number StringToDouble (mkCtx (sign ++ ds ++ r) 0 []) =
  match stoll sign ds with Some z => J_ok (L_integer (i32 z)) (mkCtx r 0 []) | None => J_err LEPT_PARSE_NUMBER_TOO_BIG (mkCtx (sign ++ ds ++ r) 0 []) end.
Proof.
  intros Hsign Hint Hne Hr. unfold parse_number. cbn [rest].
  assert (number_sign (sign ++ ds ++ r) = (sign, ds ++ r)) as ->.
  { destruct Hsign as [[-> Hd]| ->]; [|done]. destruct ds as [|d ds]; [done|]. cbn in *. by rewrite (proj2 (Z.eqb_neq d _)). }
  rewrite Hint.
  assert (number_frac r = Some ([], r)) as ->.
  { pose proof (delim_not "."%chr r Hr eq_refl). destruct r as [|x r]; [done|]. cbn in *. by rewrite (proj2 (Z.eqb_neq x _)). }
  assert (number_exp r = Some ([], r)) as ->; [|done].
  pose proof (delim_not "e"%chr r Hr eq_refl). pose proof (delim_not "E"%chr r Hr eq_refl).
  destruct r as [|x r]; [done|]. cbn in *. by rewrite !(proj2 (Z.eqb_neq x _)).
Qed.

(** The digits of a number that is not zero start with one that is not zero. *)
Lemma number_int_to_string n r : 0 <= n < 10 ^ 20 -> delim r ->
  number_int (to_string n ++ r) = Some (to_string n, r) /\ (exists d ds, to_string n = d :: ds /\ ISDIGIT d = true).
Proof.
  intros Hn Hr. destruct (to_string_digits n Hn) as (d & ds & -> & Hd & Hds & Hnz).
  assert (forallb ISDIGIT ds = true) as Hds'.
  { apply forallb_Forall. eapply Forall_impl; [exact Hds|]. intros x Hx. unfold ISDIGIT. apply andb_true_iff. cbn in Hx. lia. }
  split; [|exists d, ds; split; [done|]; unfold ISDIGIT; apply andb_true_iff; lia].
  cbn [app number_int]. destruct (Z.eqb_spec d "0"%chr) as [->|Hd0].
  - destruct Hnz as [?| ->]; [done|]. done.
  - assert (ISDIGIT1TO9 d = true) as -> by (unfold ISDIGIT1TO9; apply andb_true_iff; lia).
    by rewrite digits_run by (done || by apply delim_digit).
Qed.

(** *** Values *)

Definition parsed (v : lept_value) : Prop := forall fuel r, delim r -> (2 * length (stringify_value v ++ r) < fuel)%nat ->
  parse_value StringToDouble fuel (mkCtx (stringify_value v ++ r) 0 []) = J_ok v (mkCtx r 0 []).

(** The first character of a printed value: not white space, nor a bracket that closes. *)
Definition value_head (ch : Z) : bool := negb (is_ws ch || (ch =? "]"%chr) || (ch =? "}"%chr)).

Lemma to_string_head n : 0 <= n < 10 ^ 20 -> exists ch l, to_string n = ch :: l /\ value_head ch = true.
Proof.
  intros Hn. destruct (to_string_digits n Hn) as (d & ds & Hd & Hb & _). exists d, ds. split; [done|].
  unfold value_head, is_ws. rewrite !(proj2 (Z.eqb_neq d _)) by lia. done.
Qed.

Lemma stringify_head v : well_formed v = true -> printable v = true ->
  exists ch l, stringify_value v = ch :: l /\ value_head ch = true.
Proof.
  destruct v as [|[]| |i| | |]; cbn [well_formed printable stringify_value]; try done; try (intros; by eexists _, _).
  intros Hi _. bool_to_prop. unfold printf_d. destruct (Z.ltb_spec i 0); [by eexists _, _|]. apply to_string_head. lia.
Qed.

Lemma head_skip_ws ch l r : value_head ch = true -> skip_ws ((ch :: l) ++ r) = (ch :: l) ++ r.
Proof. unfold value_head. intros Hch. cbn. destruct (is_ws ch); done. Qed.

Lemma integer_parsed i : - 2 ^ 31 <= i < 2 ^ 31 -> parsed (L_integer i).
Proof.
  intros Hi fuel r Hr Hf. destruct fuel as [|fuel]; [lia|]. cbn [stringify_value] in *.
  assert (i32 i = i) as Hi32 by (unfold i32; rewrite Z.mod_small; lia).
  set (sign := if i <? 0 then bs "-" else []). set (ds := to_string (Z.abs i)).
  assert (printf_d i = sign ++ ds) as ->.
  { unfold printf_d, sign, ds. destruct (Z.ltb_spec i 0); [by rewrite Z.abs_neq by lia|by rewrite Z.abs_eq by lia]. }
  destruct (number_int_to_string (Z.abs i) r) as (Hint & d & ds' & Hds & Hd); [lia|done|]. fold ds in Hint, Hds.
  assert (parse_value StringToDouble (S fuel) (mkCtx ((sign ++ ds) ++ r) 0 []) =
    parse_number StringToDouble (mkCtx (sign ++ ds ++ r) 0 [])) as ->.
  { rewrite <- app_assoc. cbn [parse_value rest]. unfold ISDIGIT in Hd. bool_to_prop.
    assert (peek (sign ++ ds ++ r) = "-"%chr \/ 48 <= peek (sign ++ ds ++ r) <= 57) as Hp.
    { unfold sign. destruct (i <? 0); [by left|right]. rewrite Hds. cbn. lia. }
    unfold QUOTE. rewrite !(proj2 (Z.eqb_neq (peek _) _)) by (intros Hpk; rewrite Hpk in Hp; lia). done. }
  rewrite parse_number_int; [|..|done].
  - assert (stoll sign ds = Some i) as ->; [|by rewrite Hi32].
    unfold stoll, sign, ds. rewrite to_string_value by lia. destruct (Z.ltb_spec i 0); cbn [bs].
    + rewrite Z.abs_neq, Z.opp_involutive by lia.
      rewrite (proj2 (Z.leb_le _ i)), (proj2 (Z.ltb_lt i _)) by lia. done.
    + rewrite Z.abs_eq by lia. rewrite (proj2 (Z.leb_le _ i)), (proj2 (Z.ltb_lt i _)) by lia. done.
  - unfold sign. destruct (i <? 0); [by right|left]. split; [done|]. rewrite Hds. cbn. unfold ISDIGIT in Hd. bool_to_prop. lia.
  - done.
  - by rewrite Hds.
Qed.

(** White space is skipped nowhere in a printed text. *)
Definition solid (l : bytes) : Prop := skip_ws l = l.

Lemma comma_sep_solid {A} (f : A -> bytes) l r :
  Forall (fun x => exists ch t, f x = ch :: t /\ value_head ch = true) l -> l <> [] -> solid (comma_sep (map f l) ++ r).
Proof.
  intros Hl Hne. destruct l as [|x l]; [done|]. apply Forall_cons in Hl as [(ch & t & Hx & Hch) _].
  unfold solid. cbn [map]. rewrite Hx. destruct l; cbn [map comma_sep]; [by apply head_skip_ws|].
  rewrite <- app_assoc. by apply head_skip_ws.
Qed.

Lemma comma_sep_cons x l : comma_sep (x :: l) = x ++ match l with [] => [] | _ => ","%chr :: comma_sep l end.
Proof. destruct l; [by rewrite app_nil_r|done]. Qed.

(** The elements of an array from one on, each but the last followed by a comma. *)
Lemma array_parsed arr :
  Forall (fun v => parsed v /\ exists ch l, stringify_value v = ch :: l /\ value_head ch = true) arr ->
  arr <> [] -> forall acc fuel r,
  (2 * length (comma_sep (map stringify_value arr) ++ "]"%chr :: r) + 1 < fuel)%nat ->
  array_loop StringToDouble fuel acc (mkCtx (comma_sep (map stringify_value arr) ++ "]"%chr :: r) 0 []) =
  J_ok (L_array (acc ++ arr)) (mkCtx r 0 []).
Proof.
  induction 1 as [|v arr [Hv _] Harr IH]; [done|]. intros _ acc fuel r Hf. destruct fuel as [|fuel]; [lia|].
  cbn [map] in *. rewrite comma_sep_cons, <- app_assoc in *. cbn [array_loop].
  destruct arr as [|v2 arr]; [cbn [map app] in *; rewrite Hv; [done|done|lia]|].
  cbn [map app] in *. change (stringify_value v2 :: map stringify_value arr) with (map stringify_value (v2 :: arr)) in *.
  assert (solid (comma_sep (map stringify_value (v2 :: arr)) ++ "]"%chr :: r)) as Hk.
  { apply comma_sep_solid; [|done]. eapply Forall_impl; [exact Harr|]. by intros x [_ ?]. }
  set (k := comma_sep _ ++ _) in *. rewrite Hv; [|done|lia]. cbn [bind]. unfold parse_whitespace, set_rest.
  cbn [rest str_top stk_str]. change (skip_ws (","%chr :: k)) with (","%chr :: k). cbn [peek tail].
  rewrite Z.eqb_refl, Hk. unfold k. rewrite length_app in Hf. cbn [length] in Hf.
  rewrite IH; [by rewrite <- app_assoc|done|]. fold k. lia.
Qed.

(** The members of an object, the keys of those before being smaller. *)
Abbreviation member_text := (fun kv => [QUOTE] ++ fst kv ++ [QUOTE] ++ bs ":" ++ stringify_value (snd kv)).

Lemma object_parsed obj :
  Forall (fun kv => parsed (snd kv) /\ (exists ch l, stringify_value (snd kv) = ch :: l /\ value_head ch = true) /\
    forallb is_byteb (fst kv) = true /\ forallb key_char (fst kv) = true) obj ->
  obj <> [] -> forall acc fuel r, keys_sorted (map fst (acc ++ obj)) = true ->
  (2 * length (comma_sep (map member_text obj) ++ "}"%chr :: r) + 1 < fuel)%nat ->
  object_loop StringToDouble fuel acc (mkCtx (comma_sep (map member_text obj) ++ "}"%chr :: r) 0 []) =
  J_ok (L_object (acc ++ obj)) (mkCtx r 0 []).
Proof.
  induction 1 as [|[k v] obj (Hv & (ch & l & Hl & Hch) & Hkb & Hkc) Hobj IH]; [done|].
  cbn [fst snd] in *. intros _ acc fuel r Hs Hf. destruct fuel as [|fuel]; [lia|].
  assert (map_insert k v acc = acc ++ [(k, v)]) as Hins.
  { apply map_insert_last. apply keys_sorted_snoc. rewrite map_app in Hs. cbn [map fst] in Hs.
    apply (keys_sorted_prefix _ (map fst obj)). by rewrite <- app_assoc. }
  set (more := match obj with [] => [] | _ => ","%chr :: comma_sep (map member_text obj) end ++ "}"%chr :: r).
  assert (comma_sep (map member_text ((k, v) :: obj)) ++ "}"%chr :: r =
    QUOTE :: k ++ QUOTE :: ":"%chr :: stringify_value v ++ more) as Htext.
  { unfold more. cbn [map]. rewrite comma_sep_cons. cbn [bs fst snd]. rewrite <- !app_assoc. cbn [app].
    rewrite <- ?app_assoc. cbn [app]. by destruct obj. }
  rewrite Htext in *. cbn [object_loop rest peek]. rewrite Z.eqb_refl. cbn [negb]. rewrite parse_printed_key by done.
  cbn [bind]. unfold parse_whitespace, set_rest. cbn [rest str_top stk_str].
  set (vm := stringify_value v ++ more) in *. change (skip_ws (":"%chr :: vm)) with (":"%chr :: vm).
  cbn [peek tail]. rewrite Z.eqb_refl. cbn [negb].
  assert (skip_ws vm = vm) as -> by (unfold vm; rewrite Hl; by apply head_skip_ws).
  cbn [length] in Hf. rewrite length_app in Hf. cbn [length] in Hf. unfold vm in *.
  destruct obj as [|kv obj].
  { unfold more in *. cbn [app] in *. rewrite Hv; [|done|lia]. cbn [bind rest].
    change (skip_ws ("}"%chr :: r)) with ("}"%chr :: r). cbn [peek tail]. by rewrite Z.eqb_refl, Hins. }
  unfold more in *. cbn [app] in *. set (m := comma_sep _ ++ _) in *. rewrite Hv; [|done|lia]. cbn [bind rest].
  assert (solid m) as Hm by (apply comma_sep_solid; [|done]; apply Forall_forall; by intros; eexists _, _).
  change (skip_ws (","%chr :: m)) with (","%chr :: m). cbn [peek tail]. change (","%chr =? "}"%chr) with false.
  rewrite Z.eqb_refl, Hm, Hins. rewrite length_app in Hf. cbn [length] in Hf. unfold m. rewrite IH.
  - by rewrite <- app_assoc.
  - done.
  - by rewrite <- app_assoc.
  - fold m. lia.
Qed.

(** An opening bracket before elements. *)
Lemma open_array fuel k : solid k -> peek k <> "]"%chr ->
  parse_value StringToDouble (S fuel) (mkCtx ("["%chr :: k) 0 []) = array_loop StringToDouble fuel [] (mkCtx k 0 []).
Proof.
  intros Hk Hne. change (parse_value _ _ _) with
    (let c := mkCtx (skip_ws k) 0 [] in
     if peek (rest c) =? "]"%chr then J_ok (L_array []) (set_rest (tail (rest c)) c) else array_loop StringToDouble fuel [] c).
  cbv zeta. rewrite Hk. cbn [rest]. by rewrite (proj2 (Z.eqb_neq _ _)).
Qed.

Lemma open_object fuel k : solid k -> peek k <> "}"%chr ->
  parse_value StringToDouble (S fuel) (mkCtx ("{"%chr :: k) 0 []) = object_loop StringToDouble fuel [] (mkCtx k 0 []).
Proof.
  intros Hk Hne. change (parse_value _ _ _) with
    (let c := mkCtx (skip_ws k) 0 [] in
     if peek (rest c) =? "}"%chr then J_ok (L_object []) (set_rest (tail (rest c)) c) else object_loop StringToDouble fuel [] c).
  cbv zeta. rewrite Hk. cbn [rest]. by rewrite (proj2 (Z.eqb_neq _ _)).
Qed.

Lemma value_head_not ch c : value_head ch = true -> (c =? "]"%chr) || (c =? "}"%chr) = true -> ch <> c.
Proof. unfold value_head. intros Hch Hc ->. by rewrite <- orb_assoc, Hc, orb_true_r in Hch. Qed.

Lemma printed_parsed v : well_formed v = true -> printable v = true -> parsed v.
Proof.
  induction v as [|b|n|i|s|arr IH|obj IH] using lept_value_nested; intros Hwf Hp.
  - intros [|fuel] r Hr Hf; [lia|done].
  - intros [|fuel] r Hr Hf; [lia|]. by destruct b.
  - done.
  - cbn in Hwf. bool_to_prop. apply integer_parsed. lia.
  - intros [|fuel] r Hr Hf; [lia|]. cbn [stringify_value well_formed printable] in *.
    change (bind (parse_string (mkCtx (stringify_string s ++ r) 0 [])) (fun s c => J_ok (L_string s) c) = J_ok (L_string s) (mkCtx r 0 [])).
    by rewrite parse_printed_string.
  - intros [|fuel] r Hr Hf; [lia|]. cbn [stringify_value well_formed printable] in *. apply forallb_Forall in Hwf, Hp.
    assert (Forall (fun v => parsed v /\ exists ch l, stringify_value v = ch :: l /\ value_head ch = true) arr) as Hall.
    { rewrite Forall_forall in *. intros x Hx. split; [by apply IH; [|apply Hwf|apply Hp]|].
      apply stringify_head; [by apply Hwf|by apply Hp]. }
    destruct arr as [|v arr]; [done|].
    pose proof (array_parsed (v :: arr) Hall ltac:(done) [] fuel r) as Ha.
    change (bs "[") with ["["%chr] in *. change (bs "]") with ["]"%chr] in *. cbn [app] in *. rewrite <- !app_assoc in *.
    cbn [app] in *. rewrite open_array.
    + apply Ha. cbn [length] in Hf. lia.
    + apply comma_sep_solid; [|done]. eapply Forall_impl; [exact Hall|]. by intros x [_ ?].
    + apply Forall_cons in Hall as [[_ (ch & l & Hl & Hch)] _]. cbn [map]. rewrite comma_sep_cons, Hl. by apply value_head_not.
  - intros [|fuel] r Hr Hf; [lia|]. cbn [stringify_value well_formed printable] in *.
    apply andb_true_iff in Hwf as [Hwf Hs]. apply forallb_Forall in Hwf, Hp. destruct obj as [|kv obj]; [done|].
    pose proof (object_parsed (kv :: obj)) as Ho.
    change (bs "{") with ["{"%chr] in *. change (bs "}") with ["}"%chr] in *. cbn [app] in *. rewrite <- !app_assoc in *.
    cbn [app] in *. rewrite open_object.
    + rewrite Ho with (acc := []); [done| |done|done|].
      * rewrite Forall_forall in *. intros x Hx. destruct (proj1 (andb_true_iff _ _) (Hwf x Hx)) as [Hk Hv].
        destruct (proj1 (andb_true_iff _ _) (Hp x Hx)) as [Hk' Hv'].
        split_and!; [by apply IH|by apply stringify_head|done..].
      * cbn [length] in Hf. lia.
    + apply comma_sep_solid; [|done]. apply Forall_forall. by intros; eexists _, _.
    + cbn [map]. rewrite comma_sep_cons. done.
Qed.

(** The text is made of bytes. *)
Lemma comma_sep_bytes l : Forall (fun x => bytes_ok x) l -> bytes_ok (comma_sep l).
Proof.
  induction 1 as [|x l Hx Hl IH]; [constructor|]. rewrite comma_sep_cons. apply Forall_app. split; [done|].
  destruct l; [constructor|]. by constructor.
Qed.

Lemma printf_d_bytes i : - 2 ^ 31 <= i < 2 ^ 31 -> bytes_ok (printf_d i).
Proof.
  intros Hi. assert (forall n, 0 <= n < 10 ^ 20 -> bytes_ok (to_string n)) as Hs.
  { intros n Hn. destruct (to_string_digits n Hn) as (d & ds & -> & Hd & Hds & _). constructor; [unfold is_byte; lia|].
    eapply Forall_impl; [exact Hds|]. cbn. unfold is_byte. lia. }
  unfold printf_d. destruct (Z.ltb_spec i 0); [constructor; [done|]|]; apply Hs; lia.
Qed.

Lemma stringify_string_bytes s : forallb is_byteb s = true -> forallb (fun ch => ch <? 128) s = true -> bytes_ok (stringify_string s).
Proof.
  rewrite !forallb_Forall. intros Hb Ha. unfold stringify_string. apply Forall_app. split; [by repeat constructor|].
  apply Forall_app. split; [|by repeat constructor]. induction Hb as [|ch s Hch Hb IH]; [constructor|].
  apply Forall_cons in Ha as [Hlt Ha]. cbn [flat_map]. apply Forall_app. split; [|by apply IH].
  apply is_byteb_ok in Hch. apply Z.ltb_lt in Hlt. unfold is_byte in Hch.
  assert (Forall (fun ch => forallb is_byteb (escape_char ch) = true) (seqZ 0 128)) as Hall.
  { repeat (apply Forall_cons; split; [reflexivity|]). apply Forall_nil_2. }
  rewrite Forall_forall in Hall. specialize (Hall ch ltac:(apply elem_of_seqZ; lia)).
  apply forallb_Forall in Hall. eapply Forall_impl; [exact Hall|]. intros x. apply is_byteb_ok.
Qed.

Lemma stringify_bytes v : well_formed v = true -> printable v = true -> bytes_ok (stringify_value v).
Proof.
  induction v as [|[]|n|i|s|arr IH|obj IH] using lept_value_nested; cbn [well_formed printable stringify_value];
    intros Hwf Hp; try done; try by repeat constructor.
  - bool_to_prop. apply printf_d_bytes. lia.
  - by apply stringify_string_bytes.
  - apply forallb_Forall in Hwf, Hp. apply Forall_app. split; [by repeat constructor|]. apply Forall_app.
    split; [|by repeat constructor]. apply comma_sep_bytes, Forall_fmap. rewrite Forall_forall in *. intros x Hx.
    by apply IH; [|apply Hwf|apply Hp].
  - apply andb_true_iff in Hwf as [Hwf _]. apply forallb_Forall in Hwf, Hp.
    apply Forall_app. split; [by repeat constructor|]. apply Forall_app.
    split; [|by repeat constructor]. apply comma_sep_bytes, Forall_fmap. rewrite Forall_forall in *. intros x Hx.
    destruct (proj1 (andb_true_iff _ _) (Hwf x Hx)) as [Hk Hv]. destruct (proj1 (andb_true_iff _ _) (Hp x Hx)) as [_ Hv'].
    apply Forall_app. split; [by repeat constructor|]. apply Forall_app. split.
    + apply forallb_Forall in Hk. eapply Forall_impl; [exact Hk|]. intros y. apply is_byteb_ok.
    + apply Forall_app. split; [by repeat constructor|]. apply Forall_app. split; [by repeat constructor|]. by apply IH.
Qed.

(** Printing and parsing. *)
Lemma print_parse v (Hwf : well_formed v = true) (Hp : printable v = true) :
  parse StringToDouble (stringify v) = Returned LEPT_PARSE_OK v.
Proof.
  unfold parse, stringify. destruct (stringify_head v Hwf Hp) as (ch & l & Hl & Hch).
  unfold parse_whitespace, set_rest. cbn [rest str_top stk_str].
  assert (skip_ws (stringify_value v ++ [0]) = stringify_value v ++ [0]) as -> by (rewrite Hl; by apply head_skip_ws).
  rewrite (printed_parsed v Hwf Hp); [done|done|unfold value_fuel; lia].
Qed.

(** C22. Printing a well-formed value without doubles, whose strings are ASCII and whose keys
  need no escaping, and parsing the text gives the value back. *)
Theorem stringify_parse v (Hwf : well_formed v = true) (Hp : printable v = true) :
  parse StringToDouble (stringify v) = Returned LEPT_PARSE_OK v.
Proof. by eapply print_parse. Qed.
End RoundTrip.

(** ** Witnesses and deviations *)

Definition demo_value : lept_value :=
  L_object [(bs "age", L_integer (-18)); (bs "name", L_string [34; 92; 7; 10; 97]);
    (bs "ok", L_array [L_boolean true; L_null; L_object []; L_array []; L_integer 2147483647])].

Lemma stringify_parse_witness :
  well_formed demo_value = true /\ printable demo_value = true /\
  parse (fun _ => 0) (stringify demo_value) = Returned LEPT_PARSE_OK demo_value.
Proof. split_and!; [reflexivity..|]. apply stringify_parse; reflexivity. Defined.

Lemma parse_total_witness :
  bytes_ok (bs "[1, 2") /\ match parse (fun _ => 0) (bs "[1, 2") with
  | Returned LEPT_PARSE_OK v => well_formed v = true
  | Returned _ v => v = L_null
  | Assertion_failed =>
      let l := skip_ws (bs "[1, 2" ++ [0]) in
      "\"%chr ∈ bs "[1, 2" /\ exists e c, parse_value (fun _ => 0) (value_fuel l) (mkCtx l 0 []) = J_err e c /\
        escape_error e /\ str_top c <> 0
  | Out_of_fuel => False
  end.
Proof.
  assert (bytes_ok (bs "[1, 2")) as H by (by repeat constructor).
  split; [exact H|]. exact (parse_total (fun _ => 0) (bs "[1, 2") H).
Defined.

(** What follows the value is not looked at unless the parse failed. *)
Example trailing_text_accepted : parse (fun _ => 0) (bs "null x") = Returned LEPT_PARSE_OK L_null.
Proof. reflexivity. Qed.

(** An error then hides behind [LEPT_PARSE_ROOT_NOT_SINGULAR] unless it is at the end. *)
Example error_code_replaced :
  parse (fun _ => 0) (bs "[1 2]") = Returned LEPT_PARSE_ROOT_NOT_SINGULAR L_null /\
  parse (fun _ => 0) (bs "[1") = Returned LEPT_PARSE_MISS_COMMA_OR_SQUARE_BRACKET L_null.
Proof. split; reflexivity. Qed.

(** An invalid escape after a character aborts the process. *)
Example bad_escape_aborts : parse (fun _ => 0) ([QUOTE] ++ bs "a\x" ++ [QUOTE]) = Assertion_failed.
Proof. reflexivity. Qed.

(** Integers are cut to 32 bits. *)
Example integer_truncated : parse (fun _ => 0) (bs "4294967297") = Returned LEPT_PARSE_OK (L_integer 1).
Proof. reflexivity. Qed.

(** The letters after F are hexadecimal digits. *)
Example hex_digit_G : parse (fun _ => 0) ([QUOTE] ++ bs "\u004G" ++ [QUOTE]) = Returned LEPT_PARSE_OK (L_string [80]).
Proof. reflexivity. Qed.

(** Every byte of a character outside ASCII is printed as [\uFFFF]. *)
Example non_ascii_lost : stringify (L_string [195; 169]) = [QUOTE] ++ bs "\uFFFF\uFFFF" ++ [QUOTE].
Proof. reflexivity. Qed.

(** Keys are not escaped: what is printed cannot be read back. *)
Example key_not_escaped :
  parse (fun _ => 0) (stringify (L_object [([97; QUOTE], L_null)])) = Returned LEPT_PARSE_ROOT_NOT_SINGULAR L_null.
Proof. reflexivity. Qed.

(** The double 1.0 is printed as an integer. *)
Example double_becomes_integer : stringify (L_number 0x3FF0000000000000) = bs "1".
Proof. vm_compute. reflexivity. Qed.
