(* ===== verification/JsonText.v ===== *)
(** * The grammar of JSON, and that [lept_value::parse] reads it

    A relation between values and texts, written from RFC 8259, and the theorem that the
    parser of leptjson.cpp reads every text of a value as that value: whatever white space
    stands between the tokens and whichever of its forms a character has. *)

From S2P Require Import Prelude LeptJson LeptCodec.

(** ** The grammar *)

(** Values; numbers are integers. *)
Inductive json :=
  | JNull
  | JBool (b : bool)
  | JInt (z : Z)
  | JString (s : bytes)
  | JArray (js : list json)
  | JObject (ms : list (bytes * json)).

Definition blank (w : bytes) : Prop := Forall (fun ch => ch = 32 \/ ch = 9 \/ ch = 10 \/ ch = 13) w.

(** A hexadecimal digit of [d], in either case. *)
Inductive hex_text (d : Z) : Z -> Prop :=
  | H_digit : 0 <= d < 10 -> hex_text d (48 + d)
  | H_upper : 10 <= d < 16 -> hex_text d (55 + d)
  | H_lower : 10 <= d < 16 -> hex_text d (87 + d).

(** A character as itself, as an escape of one letter, or by its number; the bytes of a
    character outside ASCII stand for themselves. *)
Inductive char_text (ch : Z) : bytes -> Prop :=
  | C_self : 32 <= ch < 256 -> ch <> 34 -> ch <> 92 -> char_text ch [ch]
  | C_escape e : (ch, e) ∈ [(34, 34); (92, 92); (47, 47); (8, 98); (12, 102); (10, 110); (13, 114); (9, 116)] ->
      char_text ch [92; e]
  | C_number h3 h4 : 0 <= ch < 128 -> hex_text (ch / 16) h3 -> hex_text (ch mod 16) h4 ->
      char_text ch [92; 117; 48; 48; h3; h4].

Definition string_text (s l : bytes) : Prop := exists es, Forall2 char_text s es /\ l = [34] ++ concat es ++ [34].

(** Decimal digits without leading zeros, after a minus sign when it is negative. *)
Definition int_text (z : Z) : bytes := if z <? 0 then 45 :: to_string (- z) else to_string z.

Inductive json_text : json -> bytes -> Prop :=
  | T_null : json_text JNull (bs "null")
  | T_true : json_text (JBool true) (bs "true")
  | T_false : json_text (JBool false) (bs "false")
  | T_int z : json_text (JInt z) (int_text z)
  | T_string s l : string_text s l -> json_text (JString s) l
  | T_empty_array w : blank w -> json_text (JArray []) (bs "[" ++ w ++ bs "]")
  | T_array js l : elements_text js l -> json_text (JArray js) (bs "[" ++ l ++ bs "]")
  | T_empty_object w : blank w -> json_text (JObject []) (bs "{" ++ w ++ bs "}")
  | T_object ms l : members_text ms l -> json_text (JObject ms) (bs "{" ++ l ++ bs "}")
with elements_text : list json -> bytes -> Prop :=
  | E_last j l w1 w2 : json_text j l -> blank w1 -> blank w2 -> elements_text [j] (w1 ++ l ++ w2)
  | E_more j l w1 w2 js k : json_text j l -> blank w1 -> blank w2 -> elements_text js k ->
      elements_text (j :: js) (w1 ++ l ++ w2 ++ bs "," ++ k)
with members_text : list (bytes * json) -> bytes -> Prop :=
  | M_last key t j l w1 w2 w3 w4 : string_text key t -> json_text j l -> blank w1 -> blank w2 -> blank w3 -> blank w4 ->
      members_text [(key, j)] (w1 ++ t ++ w2 ++ bs ":" ++ w3 ++ l ++ w4)
  | M_more key t j l w1 w2 w3 w4 ms k : string_text key t -> json_text j l -> blank w1 -> blank w2 -> blank w3 -> blank w4 ->
      members_text ms k -> members_text ((key, j) :: ms) (w1 ++ t ++ w2 ++ bs ":" ++ w3 ++ l ++ w4 ++ bs "," ++ k).

Scheme json_text_mut := Minimality for json_text Sort Prop
  with elements_text_mut := Minimality for elements_text Sort Prop
  with members_text_mut := Minimality for members_text Sort Prop.
Combined Scheme json_texts_ind from json_text_mut, elements_text_mut, members_text_mut.

(** ** The value that is read

    An object keeps the first of the members of the same key; an [int] has 32 bits. *)
Definition object_of (ms : list (bytes * lept_value)) (m : list (bytes * lept_value)) : list (bytes * lept_value) :=
  fold_left (fun m kv => map_insert (fst kv) (snd kv) m) ms m.
Fixpoint lept_of (j : json) : lept_value :=
  match j with
  | JNull => L_null
  | JBool b => L_boolean b
  | JInt z => L_integer z
  | JString s => L_string s
  | JArray js => L_array (map lept_of js)
  | JObject ms => L_object (object_of (map (fun kv => (fst kv, lept_of (snd kv))) ms) [])
  end.
Fixpoint fits (j : json) : bool :=
  match j with
  | JInt z => (- 2 ^ 31 <=? z) && (z <? 2 ^ 31)
  | JArray js => forallb fits js
  | JObject ms => forallb (fun kv => fits (snd kv)) ms
  | _ => true
  end.

(** ** Strings *)

Lemma hex_text_read d h : hex_text d h -> hex_digit h = Some d /\ h <> 0 /\ 0 <= d < 16.
Proof.
  intros [?|?|?]; unfold hex_digit;
    repeat match goal with |- context [?a <=? ?b] => destruct (Z.leb_spec a b) end; try lia;
    cbn [andb]; (split; [f_equal; lia|lia]).
Qed.

Lemma number_value : forallb (fun ch =>
  Z.lor (Z.shiftl (Z.lor (Z.shiftl (Z.lor (Z.shiftl (Z.lor (Z.shiftl 0 4) 0) 4) 0) 4) (ch / 16)) 4) (ch mod 16) =? ch)
  (seqZ 0 128) = true.
Proof. vm_compute. reflexivity. Qed.

Lemma number_escape ch h3 h4 l : 0 <= ch < 128 -> hex_text (ch / 16) h3 -> hex_text (ch mod 16) h4 ->
  unicode_escape (48 :: 48 :: h3 :: h4 :: l) = inl (ch, l).
Proof.
  intros Hch (H3 & _ & _)%hex_text_read (H4 & _ & _)%hex_text_read. unfold unicode_escape, parse_hex4.
  assert (hex_loop 4 0 (48 :: 48 :: h3 :: h4 :: l) = Some (ch, l)) as ->.
  { cbn [hex_loop peek tail]. change (hex_digit 48) with (Some 0). cbn [hex_loop peek tail]. rewrite H3, H4. do 2 f_equal.
    pose proof number_value as Hn. rewrite forallb_forall in Hn. specialize (Hn ch).
    apply Z.eqb_eq, Hn, list_elem_of_In, elem_of_seqZ. lia. }
  by rewrite (proj2 (Z.leb_gt _ ch)) by lia.
Qed.

Lemma char_text_read ch e : char_text ch e -> reads_as ch e.
Proof.
  intros [Hr Hq Hb|x Hin|h3 h4 Hr H3 H4].
  - split_and!; [unfold is_byte; lia|done|]. intros fuel l c. apply key_char_parsed. unfold key_char, QUOTE.
    rewrite (proj2 (Z.leb_le _ ch)), !(proj2 (Z.eqb_neq ch _)) by (done || lia). done.
  - repeat (apply elem_of_cons in Hin as [[= -> ->]|Hin]; [by repeat split|]). by apply elem_of_nil in Hin.
  - split_and!; [unfold is_byte; lia|done|]. intros fuel l c.
    change ([92; 117; 48; 48; h3; h4] ++ l) with (92 :: 117 :: 48 :: 48 :: h3 :: h4 :: l). cbn [string_loop peek tail].
    change (92 =? QUOTE) with false. change (92 =? "\"%chr) with true. change (simple_escape 117) with (@None Z).
    change (117 =? "u"%chr) with true. cbv iota. rewrite (number_escape ch h3 h4 l Hr H3 H4). unfold encode_utf8.
    by rewrite (proj2 (Z.leb_le ch _)) by lia.
Qed.

Lemma string_text_read s l r : string_text s l -> parse_string (mkCtx (l ++ r) 0 []) = J_ok s (mkCtx r 0 []).
Proof.
  intros (es & Hes & ->). cbn [app]. rewrite <- app_assoc. apply parse_string_run.
  eapply Forall2_impl; [exact Hes|apply char_text_read].
Qed.

(** ** White space *)

Lemma blank_skip w l : blank w -> skip_ws (w ++ l) = skip_ws l.
Proof. induction 1 as [|ch w Hch Hw IH]; [done|]. cbn [app skip_ws]. by destruct Hch as [->|[->|[->| ->]]]. Qed.

Lemma blank_delim w l : blank w -> delim l -> delim (w ++ l).
Proof. intros Hw Hl. destruct Hw as [|ch w Hch Hw]; [done|]. by destruct Hch as [->|[->|[->| ->]]]. Qed.

(** The first character of a text stops the skipping of white space. *)
Definition headed (l : bytes) : Prop := exists ch t, l = ch :: t /\ value_head ch = true.

Lemma headed_skip l r : headed l -> skip_ws (l ++ r) = l ++ r.
Proof. intros (ch & t & -> & Hch). by apply head_skip_ws. Qed.
Lemma headed_peek l r c : headed l -> (c =? "]"%chr) || (c =? "}"%chr) = true -> peek (l ++ r) <> c.
Proof. intros (ch & t & -> & Hch) Hc. by apply value_head_not. Qed.

Lemma string_headed s l : string_text s l -> headed l.
Proof. intros (es & _ & ->). by eexists _, _. Qed.

Lemma json_headed j l : json_text j l -> fits j = true -> headed l.
Proof.
  intros Hj Hf. destruct Hj; try by eexists _, _.
  - cbn in Hf. bool_to_prop. unfold int_text. destruct (Z.ltb_spec z 0); [by eexists _, _|]. apply to_string_head. lia.
  - by eapply string_headed.
Qed.

(** ** Values *)

Section Reading.
Context (StringToDouble : bytes -> Z).

Definition reads (j : json) (l : bytes) : Prop := forall fuel r, delim r -> (2 * length (l ++ r) < fuel)%nat ->
  parse_value StringToDouble fuel (mkCtx (l ++ r) 0 []) = J_ok (lept_of j) (mkCtx r 0 []).
Definition reads_elements (js : list json) (l : bytes) : Prop := forall acc fuel r,
  (2 * length (l ++ bs "]" ++ r) + 1 < fuel)%nat ->
  array_loop StringToDouble fuel acc (mkCtx (skip_ws (l ++ bs "]" ++ r)) 0 []) =
  J_ok (L_array (acc ++ map lept_of js)) (mkCtx r 0 []).
Definition reads_members (ms : list (bytes * json)) (l : bytes) : Prop := forall acc fuel r,
  (2 * length (l ++ bs "}" ++ r) + 1 < fuel)%nat ->
  object_loop StringToDouble fuel acc (mkCtx (skip_ws (l ++ bs "}" ++ r)) 0 []) =
  J_ok (L_object (object_of (map (fun kv => (fst kv, lept_of (snd kv))) ms) acc)) (mkCtx r 0 []).

Lemma int_read z : fits (JInt z) = true -> reads (JInt z) (int_text z).
Proof.
  intros Hz fuel r Hr Hf. cbn in Hz. bool_to_prop.
  by apply (integer_parsed StringToDouble z ltac:(lia) fuel r Hr).
Qed.

(** A round of the array loop, up to what follows the element. *)
Lemma element_round acc fuel j l w1 w2 k : reads j l -> headed l -> blank w1 -> blank w2 -> delim k ->
  (2 * length (w1 ++ l ++ w2 ++ k) + 1 < S fuel)%nat ->
  array_loop StringToDouble (S fuel) acc (mkCtx (skip_ws (w1 ++ l ++ w2 ++ k)) 0 []) =
  let arr := acc ++ [lept_of j] in
  let c := mkCtx (skip_ws k) 0 [] in
  if peek (rest c) =? ","%chr then array_loop StringToDouble fuel arr (parse_whitespace (set_rest (tail (rest c)) c))
  else if peek (rest c) =? "]"%chr then J_ok (L_array arr) (set_rest (tail (rest c)) c)
  else J_err LEPT_PARSE_MISS_COMMA_OR_SQUARE_BRACKET c.
Proof.
  intros Hj Hl H1 H2 Hk Hf. rewrite blank_skip, headed_skip by done. cbn [array_loop].
  rewrite !length_app in Hf. rewrite Hj; [|by apply blank_delim|rewrite !length_app; lia].
  cbn [bind]. unfold parse_whitespace, set_rest. cbn [rest str_top stk_str]. by rewrite blank_skip.
Qed.

Lemma last_element j l w1 w2 : reads j l -> headed l -> blank w1 -> blank w2 -> reads_elements [j] (w1 ++ l ++ w2).
Proof.
  intros Hj Hl H1 H2 acc fuel r Hf. destruct fuel as [|fuel]; [lia|]. rewrite <- !app_assoc in *.
  by rewrite (element_round acc fuel j l w1 w2 (bs "]" ++ r)).
Qed.

Lemma more_elements j l w1 w2 js k : reads j l -> headed l -> blank w1 -> blank w2 -> reads_elements js k ->
  reads_elements (j :: js) (w1 ++ l ++ w2 ++ bs "," ++ k).
Proof.
  intros Hj Hl H1 H2 Hk acc fuel r Hf. destruct fuel as [|fuel]; [lia|]. rewrite <- !app_assoc in *.
  rewrite (element_round acc fuel j l w1 w2 (bs "," ++ k ++ bs "]" ++ r)); [|done..|lia].
  change (skip_ws (bs "," ++ ?x)) with (bs "," ++ x). cbv zeta. unfold parse_whitespace, set_rest.
  cbn [rest str_top stk_str]. change (peek (bs "," ++ ?x)) with ","%chr. rewrite Z.eqb_refl.
  change (tail (bs "," ++ ?x)) with x. rewrite Hk; [cbn [map]; by rewrite <- app_assoc|].
  rewrite !length_app in Hf. rewrite !length_app. change (length (bs ",")) with 1%nat in Hf. lia.
Qed.

(** A round of the object loop. *)
Lemma member_round acc fuel key t j l w1 w2 w3 w4 k : string_text key t -> reads j l -> headed l ->
  blank w1 -> blank w2 -> blank w3 -> blank w4 -> delim k ->
  (2 * length (w1 ++ t ++ w2 ++ bs ":" ++ w3 ++ l ++ w4 ++ k) + 1 < S fuel)%nat ->
  object_loop StringToDouble (S fuel) acc (mkCtx (skip_ws (w1 ++ t ++ w2 ++ bs ":" ++ w3 ++ l ++ w4 ++ k)) 0 []) =
  let mp := map_insert key (lept_of j) acc in
  let c := mkCtx (skip_ws k) 0 [] in
  if peek (rest c) =? "}"%chr then J_ok (L_object mp) (set_rest (tail (rest c)) c)
  else if peek (rest c) =? ","%chr then object_loop StringToDouble fuel mp (parse_whitespace (set_rest (tail (rest c)) c))
  else J_err LEPT_PARSE_MISS_COMMA_OR_CURLY_BRACKET c.
Proof.
  intros Ht Hj Hl H1 H2 H3 H4 Hk Hf. pose proof (string_headed _ _ Ht) as Hth.
  rewrite blank_skip, headed_skip by done. rewrite !length_app in Hf. cbn [object_loop rest].
  assert (forall x, peek (t ++ x) = QUOTE) as -> by (intros x; by destruct Ht as (es & _ & ->)).
  rewrite Z.eqb_refl. cbn [negb]. rewrite (string_text_read _ _ _ Ht). cbn [bind].
  unfold parse_whitespace, set_rest. cbn [rest str_top stk_str]. rewrite blank_skip by done.
  change (skip_ws (bs ":" ++ ?x)) with (":"%chr :: x). cbn [peek tail]. rewrite Z.eqb_refl. cbn [negb].
  rewrite blank_skip, headed_skip by done. rewrite Hj; [|by apply blank_delim|rewrite !length_app; lia].
  cbn [bind rest str_top stk_str]. by rewrite blank_skip.
Qed.

Lemma last_member key t j l w1 w2 w3 w4 : string_text key t -> reads j l -> headed l ->
  blank w1 -> blank w2 -> blank w3 -> blank w4 -> reads_members [(key, j)] (w1 ++ t ++ w2 ++ bs ":" ++ w3 ++ l ++ w4).
Proof.
  intros Ht Hj Hl H1 H2 H3 H4 acc fuel r Hf. destruct fuel as [|fuel]; [lia|]. rewrite <- !app_assoc in *.
  by rewrite (member_round acc fuel key t j l w1 w2 w3 w4 (bs "}" ++ r)).
Qed.

Lemma more_members key t j l w1 w2 w3 w4 ms k : string_text key t -> reads j l -> headed l ->
  blank w1 -> blank w2 -> blank w3 -> blank w4 -> reads_members ms k ->
  reads_members ((key, j) :: ms) (w1 ++ t ++ w2 ++ bs ":" ++ w3 ++ l ++ w4 ++ bs "," ++ k).
Proof.
  intros Ht Hj Hl H1 H2 H3 H4 Hk acc fuel r Hf. destruct fuel as [|fuel]; [lia|]. rewrite <- !app_assoc in *.
  rewrite (member_round acc fuel key t j l w1 w2 w3 w4 (bs "," ++ k ++ bs "}" ++ r)); [|done..|lia].
  change (skip_ws (bs "," ++ ?x)) with (bs "," ++ x). cbv zeta. unfold parse_whitespace, set_rest.
  cbn [rest str_top stk_str peek tail]. change (peek (bs "," ++ ?x)) with ","%chr. change (","%chr =? "}"%chr) with false.
  rewrite Z.eqb_refl. change (tail (bs "," ++ ?x)) with x. apply Hk.
  rewrite !length_app in Hf. rewrite !length_app. change (length (bs ",")) with 1%nat in Hf. lia.
Qed.

(** ** Every text *)

Lemma open_bracket fuel l r j js : elements_text (j :: js) l -> fits j = true ->
  parse_value StringToDouble (S fuel) (mkCtx (bs "[" ++ l ++ bs "]" ++ r) 0 []) =
  array_loop StringToDouble fuel [] (mkCtx (skip_ws (l ++ bs "]" ++ r)) 0 []).
Proof.
  intros Hl Hf. change (parse_value _ _ _) with
    (let c := mkCtx (skip_ws (l ++ bs "]" ++ r)) 0 [] in
     if peek (rest c) =? "]"%chr then J_ok (L_array []) (set_rest (tail (rest c)) c) else array_loop StringToDouble fuel [] c).
  cbv zeta. cbn [rest]. rewrite (proj2 (Z.eqb_neq _ _)); [done|].
  inversion Hl; subst; rewrite <- !app_assoc, blank_skip, headed_skip by (done || by eapply json_headed);
    (apply headed_peek; [by eapply json_headed|done]).
Qed.

Lemma open_brace fuel l r ms : members_text ms l ->
  parse_value StringToDouble (S fuel) (mkCtx (bs "{" ++ l ++ bs "}" ++ r) 0 []) =
  object_loop StringToDouble fuel [] (mkCtx (skip_ws (l ++ bs "}" ++ r)) 0 []).
Proof.
  intros Hl. change (parse_value _ _ _) with
    (let c := mkCtx (skip_ws (l ++ bs "}" ++ r)) 0 [] in
     if peek (rest c) =? "}"%chr then J_ok (L_object []) (set_rest (tail (rest c)) c) else object_loop StringToDouble fuel [] c).
  cbv zeta. cbn [rest]. rewrite (proj2 (Z.eqb_neq _ _)); [done|].
  inversion Hl; subst; rewrite <- !app_assoc, blank_skip, headed_skip by (done || by eapply string_headed);
    (apply headed_peek; [by eapply string_headed|done]).
Qed.

Lemma fits_cons {A} (f : A -> json) x l : forallb (fun y => fits (f y)) (x :: l) = true ->
  fits (f x) = true /\ forallb (fun y => fits (f y)) l = true.
Proof. apply andb_true_iff. Qed.

Lemma texts_read :
  (forall j l, json_text j l -> fits j = true -> reads j l) /\
  (forall js l, elements_text js l -> forallb fits js = true -> reads_elements js l) /\
  (forall ms l, members_text ms l -> forallb (fun kv => fits (snd kv)) ms = true -> reads_members ms l).
Proof.
  apply json_texts_ind.
  1-3: intros _ fuel r Hr Hf; by destruct fuel as [|fuel]; [lia|].
  - intros z. apply int_read.
  - intros s l Hs _ fuel r Hr Hf. destruct fuel as [|fuel]; [lia|].
    assert (parse_value StringToDouble (S fuel) (mkCtx (l ++ r) 0 []) =
      bind (parse_string (mkCtx (l ++ r) 0 [])) (fun s c => J_ok (L_string s) c)) as -> by (by destruct Hs as (es & _ & ->)).
    by rewrite (string_text_read s l r Hs).
  - intros w Hw _ fuel r Hr Hf. destruct fuel as [|fuel]; [lia|]. rewrite <- !app_assoc.
    change (parse_value _ _ _) with
      (let c := mkCtx (skip_ws (w ++ bs "]" ++ r)) 0 [] in
       if peek (rest c) =? "]"%chr then J_ok (L_array []) (set_rest (tail (rest c)) c) else array_loop StringToDouble fuel [] c).
    cbv zeta. by rewrite blank_skip.
  - intros js l Hl IH Hfit fuel r Hr Hf. destruct fuel as [|fuel]; [lia|]. rewrite <- !app_assoc in *. cbn [fits] in Hfit.
    destruct js as [|j js]; [by inversion Hl|]. pose proof (fits_cons id j js Hfit) as [Hj _].
    rewrite (open_bracket fuel l r j js Hl Hj), IH; [done|done|]. rewrite length_app in Hf. change (length (bs "[")) with 1%nat in Hf. lia.
  - intros w Hw _ fuel r Hr Hf. destruct fuel as [|fuel]; [lia|]. rewrite <- !app_assoc.
    change (parse_value _ _ _) with
      (let c := mkCtx (skip_ws (w ++ bs "}" ++ r)) 0 [] in
       if peek (rest c) =? "}"%chr then J_ok (L_object []) (set_rest (tail (rest c)) c) else object_loop StringToDouble fuel [] c).
    cbv zeta. by rewrite blank_skip.
  - intros ms l Hl IH Hfit fuel r Hr Hf. destruct fuel as [|fuel]; [lia|]. rewrite <- !app_assoc in *. cbn [fits] in Hfit.
    rewrite (open_brace fuel l r ms Hl), IH; [done|done|]. rewrite length_app in Hf. change (length (bs "{")) with 1%nat in Hf. lia.
  - intros j l w1 w2 Hj IH H1 H2 Hfit. pose proof (fits_cons id j [] Hfit) as [Hf _].
    apply last_element; eauto using json_headed.
  - intros j l w1 w2 js k Hj IH H1 H2 Hjs IHk Hfit. pose proof (fits_cons id j js Hfit) as [Hf Hfs].
    apply more_elements; eauto using json_headed.
  - intros key t j l w1 w2 w3 w4 Ht Hj IH H1 H2 H3 H4 Hfit. pose proof (fits_cons snd (key, j) [] Hfit) as [Hf _].
    apply last_member; eauto using json_headed.
  - intros key t j l w1 w2 w3 w4 ms k Ht Hj IH H1 H2 H3 H4 Hms IHk Hfit. pose proof (fits_cons snd (key, j) ms Hfit) as [Hf Hfs].
    apply more_members; eauto using json_headed.
Qed.

(** Every text of a value whose integers have 32 bits, with white space around it, is read as this value. *)
Lemma text_parsed j l w1 w2 : json_text j l -> fits j = true -> blank w1 -> blank w2 ->
  parse StringToDouble (w1 ++ l ++ w2) = Returned LEPT_PARSE_OK (lept_of j).
Proof.
  intros Hj Hf H1 H2. unfold parse, parse_whitespace, set_rest. cbn [rest str_top stk_str].
  rewrite <- !app_assoc, blank_skip, headed_skip by (done || by eapply json_headed).
  rewrite (proj1 texts_read j l Hj Hf); [done|by apply blank_delim|]. unfold value_fuel. lia.
Qed.

(** The parser is complete for the JSON it can represent: every text that RFC 8259 gives to
    a value made of [null], booleans, integers of 32 bits, strings, arrays and objects, with
    any white space around its tokens and any form of its characters (a character outside
    ASCII in UTF-8), is accepted and read as this value; of the members of an object that have
    the same key the first is kept, and the keys are put in order. *)
Theorem json_read j l w1 w2 (Hj : json_text j l) (Hfit : fits j = true) (H1 : blank w1) (H2 : blank w2) :
  parse StringToDouble (w1 ++ l ++ w2) = Returned LEPT_PARSE_OK (lept_of j).
Proof. by apply text_parsed. Qed.
End Reading.

(** ** Every value has a text *)

Definition char_print (ch : Z) : bytes :=
  if (32 <=? ch) && negb (ch =? 34) && negb (ch =? 92) then [ch] else [92; 117; 48; 48; 48 + ch / 16; hex_upper (ch mod 16)].
Definition string_print (s : bytes) : bytes := [34] ++ concat (map char_print s) ++ [34].
Fixpoint text_of (j : json) : bytes :=
  match j with
  | JNull => bs "null"
  | JBool b => if b then bs "true" else bs "false"
  | JInt z => int_text z
  | JString s => string_print s
  | JArray js => bs "[" ++ comma_sep (map text_of js) ++ bs "]"
  | JObject ms => bs "{" ++ comma_sep (map (fun kv => string_print (fst kv) ++ bs ":" ++ text_of (snd kv)) ms) ++ bs "}"
  end.

Definition ascii (s : bytes) : bool := forallb (fun ch => (0 <=? ch) && (ch <? 128)) s.
Fixpoint ascii_json (j : json) : bool :=
  match j with
  | JString s => ascii s
  | JArray js => forallb ascii_json js
  | JObject ms => forallb (fun kv => ascii (fst kv) && ascii_json (snd kv)) ms
  | _ => true
  end.

Lemma hex_upper_text d : 0 <= d < 16 -> hex_text d (hex_upper d).
Proof. intros Hd. unfold hex_upper. destruct (Z.ltb_spec d 10); constructor; lia. Qed.

Lemma string_print_text s : ascii s = true -> string_text s (string_print s).
Proof.
  unfold ascii. rewrite forallb_Forall. intros Hs. exists (map char_print s). split; [|done].
  apply Forall2_fmap_r, Forall_Forall2_diag. eapply Forall_impl; [exact Hs|]. intros ch Hch. cbv beta in Hch.
  apply andb_true_iff in Hch as [H0 H1]. apply Z.leb_le in H0. apply Z.ltb_lt in H1. unfold char_print.
  change (char_text ch (char_print ch)). unfold char_print. case_match eqn:E; [bool_to_prop; constructor; lia|]. clear E.
  assert (0 <= ch / 16 < 8) by (split; [apply Z.div_pos; lia|apply Z.div_lt_upper_bound; lia]).
  apply C_number; [lia|by apply H_digit; lia|apply hex_upper_text, Z.mod_pos_bound; lia].
Qed.

Lemma elements_print js : js <> [] -> Forall (fun j => json_text j (text_of j)) js -> elements_text js (comma_sep (map text_of js)).
Proof.
  intros Hne Hjs. induction Hjs as [|j js Hj Hjs IH]; [done|]. cbn [map]. rewrite comma_sep_cons. destruct js as [|j2 js].
  - apply (E_last j (text_of j) [] []); by try constructor.
  - apply (E_more j (text_of j) [] [] (j2 :: js) (comma_sep (map text_of (j2 :: js)))); [done|constructor|constructor|by apply IH].
Qed.

Lemma members_print ms : ms <> [] -> Forall (fun kv => ascii (fst kv) = true /\ json_text (snd kv) (text_of (snd kv))) ms ->
  members_text ms (comma_sep (map (fun kv => string_print (fst kv) ++ bs ":" ++ text_of (snd kv)) ms)).
Proof.
  intros Hne Hms. induction Hms as [|[k j] ms [Hk Hj] Hms IH]; [done|]. cbn [map fst snd] in *. rewrite comma_sep_cons.
  rewrite <- !app_assoc. destruct ms as [|m2 ms].
  - apply (M_last k (string_print k) j (text_of j) [] [] [] []); [by apply string_print_text|done|constructor..].
  - apply (M_more k (string_print k) j (text_of j) [] [] [] [] (m2 :: ms)); [by apply string_print_text|done|constructor..|by apply IH].
Qed.

Fixpoint text_of_ok j : ascii_json j = true -> json_text j (text_of j).
Proof.
  destruct j as [|[]|z|s|js|ms]; intros Hj; cbn in Hj; [constructor..|by apply T_string, string_print_text| |].
  - assert (Forall (fun j => json_text j (text_of j)) js) as Hjs.
    { clear -text_of_ok Hj. induction js as [|j js IH]; [constructor|]. cbn in Hj. apply andb_true_iff in Hj as [H1 H2].
      constructor; [by apply text_of_ok|by apply IH]. }
    destruct js as [|j js]; [by apply (T_empty_array []); constructor|]. by apply T_array, elements_print.
  - assert (Forall (fun kv => ascii (fst kv) = true /\ json_text (snd kv) (text_of (snd kv))) ms) as Hms.
    { clear -text_of_ok Hj. induction ms as [|kv ms IH]; [constructor|]. cbn in Hj. apply andb_true_iff in Hj as [[H0 H1]%andb_true_iff H2].
      constructor; [by split; [|apply text_of_ok]|by apply IH]. }
    destruct ms as [|m ms]; [by apply (T_empty_object []); constructor|]. by apply T_object, members_print.
Qed.

(** ** A text *)

Definition sample_text : bytes :=
  bs "{ " ++ [34] ++ bs "b" ++ [34] ++ bs " : [ true ,-12]," ++ [34; 97; 92; 117; 48; 48; 48; 65; 34] ++ bs ":null }".
Definition sample_json : json := JObject [([98], JArray [JBool true; JInt (-12)]); ([97; 10], JNull)].

Lemma sample_is_text : json_text sample_json sample_text.
Proof.
  apply (T_object _ (bs " " ++ ([34] ++ bs "b" ++ [34]) ++ bs " " ++ bs ":" ++ bs " " ++ bs "[ true ,-12]" ++ [] ++ bs "," ++
    ([] ++ [34; 97; 92; 117; 48; 48; 48; 65; 34] ++ [] ++ bs ":" ++ [] ++ bs "null" ++ bs " "))).
  apply M_more; try (by repeat constructor).
  - exists [[98]]. split; [|done]. repeat constructor; lia.
  - apply (T_array _ (bs " " ++ bs "true" ++ bs " " ++ bs "," ++ ([] ++ bs "-12" ++ []))).
    apply E_more; try by repeat constructor.
  - apply M_last; try by repeat constructor. exists [[97]; [92; 117; 48; 48; 48; 65]]. split; [|done].
    constructor; [constructor; lia|]. constructor; [|constructor]. apply C_number; [lia|apply (H_digit 0); lia|apply (H_upper 10); lia].
Qed.

Lemma json_read_witness :
  parse (fun _ => 0) (bs " " ++ sample_text ++ []) =
    Returned LEPT_PARSE_OK (L_object [([97; 10], L_null); ([98], L_array [L_boolean true; L_integer (-12)])]).
Proof.
  apply (json_read (fun _ => 0) sample_json sample_text (bs " ") [] sample_is_text); by repeat constructor.
Defined.
