(* ===== verification/LeptValue.v ===== *)
(** * The object [lept_value] (third-party/leptjson/leptjson.h, leptjson.cpp)

    A tag and a union, one member of which is alive: constructors, destructor, setters and
    accessors, as they handle the memory.  [LeptJson.lept_value] is the abstract value such an
    object stands for; the elements of an array and the members of an object are given as
    values.  A read through a member that is not alive is [Undefined]. *)

From S2P Require Import Prelude LeptJson LeptCodec.

(** ** The object *)

(** The enumeration [lept_type]. *)
Inductive lept_type := lept_null | lept_boolean | lept_number | lept_integer | lept_string | lept_array | lept_object.

(** The union [u]: its member that is alive, if any. *)
Inductive u :=
  | u_none
  | u_n (n : Z)
  | u_s (s : bytes)
  | u_arr (arr : list lept_value)
  | u_obj (obj : list (bytes * lept_value))
  | u_i (i : Z)
  | u_b (b : bool).

(** The members that have a constructor and a destructor. *)
Definition owns (m : u) : bool := match m with u_s _ | u_arr _ | u_obj _ => true | _ => false end.

(** An object; a tag that is none of the enumerators is [None].  [made] and [gone] count the members with a destructor that
    were constructed and destroyed in it. *)
Record lept_obj := mkObj { type : option lept_type; v : u; made : nat; gone : nat }.

(** How an operation ends; [Out_of_range] is the exception of [std::map::at], [Not_ended] a
    parse that does not end. *)
Inductive res (A : Type) := Val (a : A) | Assert_failed | Undefined | Out_of_range | Not_ended.
Arguments Val {A}.
Arguments Assert_failed {A}.
Arguments Undefined {A}.
Arguments Out_of_range {A}.
Arguments Not_ended {A}.

#[export] Instance res_ret : MRet res := fun A => Val.
#[export] Instance res_fmap : FMap res := fun A B f x =>
  match x with
  | Val a => Val (f a) | Assert_failed => Assert_failed | Undefined => Undefined | Out_of_range => Out_of_range | Not_ended => Not_ended
  end.
#[export] Instance res_bind : MBind res := fun A B f x =>
  match x with
  | Val a => f a | Assert_failed => Assert_failed | Undefined => Undefined | Out_of_range => Out_of_range | Not_ended => Not_ended
  end.

Definition assert_type (t : lept_type) (o : lept_obj) : res unit :=
  match type o, t with
  | Some lept_null, lept_null | Some lept_boolean, lept_boolean | Some lept_number, lept_number | Some lept_integer, lept_integer
  | Some lept_string, lept_string | Some lept_array, lept_array | Some lept_object, lept_object => Val tt
  | _, _ => Assert_failed
  end.

(** Reads of the members. *)
Definition read_b o := match v o with u_b b => Val b | _ => Undefined end.
Definition read_n o := match v o with u_n n => Val n | _ => Undefined end.
Definition read_i o := match v o with u_i i => Val i | _ => Undefined end.
Definition read_s o := match v o with u_s s => Val s | _ => Undefined end.
Definition read_arr o := match v o with u_arr arr => Val arr | _ => Undefined end.
Definition read_obj o := match v o with u_obj obj => Val obj | _ => Undefined end.

Definition set_type (t : option lept_type) o := mkObj t (v o) (made o) (gone o).
(** An assignment to a member, a placement [new], an explicit destructor. *)
Definition store (m : u) o := mkObj (type o) m (made o) (gone o).
Definition construct (m : u) o := mkObj (type o) m (S (made o)) (gone o).
Definition destroy o := mkObj (type o) u_none (made o) (S (gone o)).

(** ** Operations *)

Definition free o : res lept_obj :=
  o ← match type o with
      | Some lept_string => _ ← read_s o; Val (destroy o)
      | Some lept_array => _ ← read_arr o; Val (destroy o)
      | Some lept_object => _ ← read_obj o; Val (destroy o)
      | _ => Val o
      end;
  Val (set_type (Some lept_null) o).

Definition set_null o := free o.
Definition set_boolean_int (b : Z) o := o ← free o; Val (store (u_b (negb (b =? 0))) (set_type (Some lept_boolean) o)).
Definition set_boolean (b : bool) o := set_boolean_int (if b then 1 else 0) o.
Definition set_number (num : Z) o := o ← free o; Val (store (u_n num) (set_type (Some lept_number) o)).
Definition set_integer (i : Z) o := o ← free o; Val (store (u_i i) (set_type (Some lept_integer) o)).
Definition set_string (str : bytes) o := o ← free o; Val (set_type (Some lept_string) (construct (u_s str) o)).

(** A reference parameter: to something else, or to the member of the object itself. *)
Inductive ref (A : Type) := Elsewhere (a : A) | Own.
Arguments Elsewhere {A}.
Arguments Own {A}.
Definition deref {A} (own : lept_obj -> res A) (r : ref A) o : res A := match r with Elsewhere a => Val a | Own => own o end.

Definition set_array (arr : ref (list lept_value)) o :=
  o ← free o; let o := set_type (Some lept_array) o in arr ← deref read_arr arr o; Val (construct (u_arr arr) o).
Definition set_object (mp : ref (list (bytes * lept_value))) o :=
  o ← free o; let o := set_type (Some lept_object) o in mp ← deref read_obj mp o; Val (construct (u_obj mp) o).

(** The accessors. *)
Definition get_boolean o := _ ← assert_type lept_boolean o; read_b o.
Definition get_number o := _ ← assert_type lept_number o; read_n o.
Definition get_integer o := _ ← assert_type lept_integer o; read_i o.
Definition get_string o := _ ← assert_type lept_string o; read_s o.
Definition get_array_size o := _ ← assert_type lept_array o; arr ← read_arr o; Val (len arr).
Definition get_array_element (index : Z) o :=
  _ ← assert_type lept_array o; arr ← read_arr o;
  if index <? len arr then match arr !! Z.to_nat index with Some x => Val x | None => Undefined end else Assert_failed.
(** The index of [operator[]] is an [int], converted to [size_t]. *)
Definition operator_index (index : Z) o := get_array_element (u64 index) o.

(** [v.obj.count(key)], [v.obj[key]] and [v.obj.at(key)]. *)
Definition count (key : bytes) (obj : list (bytes * lept_value)) : bool := match map_find key obj with Some _ => true | None => false end.
Definition contains_key (key : bytes) o := _ ← assert_type lept_object o; obj ← read_obj o; Val (count key obj).
Definition get_object_value (key : bytes) o := obj ← read_obj o; match map_find key obj with Some x => Val x | None => Assert_failed end.
Definition get_object_size o := _ ← assert_type lept_object o; obj ← read_obj o; Val (len obj).
Definition get_object o := _ ← assert_type lept_object o; read_obj o.
Definition operator_at (key : bytes) o :=
  _ ← assert_type lept_object o; obj ← read_obj o; match map_find key obj with Some x => Val x | None => Out_of_range end.
(** The reference of the other [operator[]] is to a member it adds when there is none. *)
Definition operator_key (key : bytes) o : res lept_obj :=
  _ ← assert_type lept_object o; obj ← read_obj o; Val (store (u_obj (map_insert key L_null obj)) o).

(** What is assigned through the references to elements. *)
Definition assign_key (key : bytes) (x : lept_value) o :=
  o ← operator_key key o; obj ← read_obj o; Val (store (u_obj (map_assign key x obj)) o).
Definition assign_index (index : Z) (x : lept_value) o :=
  _ ← operator_index index o; arr ← read_arr o; Val (store (u_arr (<[Z.to_nat (u64 index) := x]> arr)) o).

(** [is<T>] for the types it is specialised for. *)
Definition is_type (t : lept_type) o : bool := match assert_type t o with Val _ => true | _ => false end.
Definition typeStr (t : option lept_type) : bytes :=
  match t with
  | Some lept_null => bs "null" | Some lept_boolean => bs "boolean" | Some lept_integer => bs "integer" | Some lept_number => bs "number"
  | Some lept_string => bs "string" | Some lept_array => bs "array" | Some lept_object => bs "object" | None => bs "unknown"
  end.

(** ** Constructors, assignment, destructor *)

Section Constructors.
(** What the memory of a new object holds in the place of the tag. *)
Context (garbage : option lept_type).

Definition uninit : lept_obj := mkObj garbage u_none 0 0.

Definition lept_value_default : lept_obj := set_type (Some lept_null) uninit.
Definition lept_value_nullptr : lept_obj := set_type (Some lept_null) uninit.
Definition lept_value_string (s : bytes) : lept_obj := construct (u_s s) (set_type (Some lept_string) uninit).
Definition lept_value_double (d : Z) : lept_obj := store (u_n d) (set_type (Some lept_number) uninit).
Definition lept_value_int (i : Z) : lept_obj := store (u_i i) (set_type (Some lept_integer) uninit).
Definition lept_value_array_move (arr : list lept_value) : lept_obj := construct (u_arr arr) (set_type (Some lept_array) uninit).
Definition lept_value_object_move (obj : list (bytes * lept_value)) : lept_obj := construct (u_obj obj) (set_type (Some lept_object) uninit).

(** These call a setter on an object whose tag is not set. *)
Definition lept_value_bool (b : bool) : res lept_obj := set_boolean b uninit.
Definition lept_value_array (arr : list lept_value) : res lept_obj := set_array (Elsewhere arr) uninit.
Definition lept_value_object (obj : list (bytes * lept_value)) : res lept_obj := set_object (Elsewhere obj) uninit.
Definition lept_value_list (initList : list lept_value) : res lept_obj :=
  match mapM as_pair initList with
  | Some kvs => set_object (Elsewhere (fold_left (fun m kv => map_insert (fst kv) (snd kv) m) kvs [])) uninit
  | None => set_array (Elsewhere initList) uninit
  end.

(** The member of [val], copied or moved. *)
Definition take_member (val : lept_obj) o : res lept_obj :=
  match type val with
  | Some lept_number => n ← read_n val; Val (store (u_n n) o)
  | Some lept_integer => i ← read_i val; Val (store (u_i i) o)
  | Some lept_boolean => b ← read_b val; Val (store (u_b b) o)
  | Some lept_string => s ← read_s val; Val (construct (u_s s) o)
  | Some lept_array => arr ← read_arr val; Val (construct (u_arr arr) o)
  | Some lept_object => obj ← read_obj val; Val (construct (u_obj obj) o)
  | _ => Val o
  end.
Definition lept_value_copy (val : lept_obj) : res lept_obj := o ← take_member val uninit; Val (set_type (type val) o).
End Constructors.

(** The destructor. *)
Definition lept_value_destroy o := free o.

(** [operator=] with its parameter, which is destroyed when it returns. *)
Definition operator_assign (val : lept_obj) o : res (lept_obj * lept_obj) :=
  o ← free o; o ← take_member val o; let o := set_type (type val) o in val ← lept_value_destroy val; Val (o, val).

(** ** What an object stands for *)

Definition tag (a : lept_value) : lept_type :=
  match a with
  | L_null => lept_null | L_boolean _ => lept_boolean | L_number _ => lept_number | L_integer _ => lept_integer
  | L_string _ => lept_string | L_array _ => lept_array | L_object _ => lept_object
  end.
Definition member (a : lept_value) : u :=
  match a with
  | L_null => u_none | L_boolean b => u_b b | L_number n => u_n n | L_integer i => u_i i
  | L_string s => u_s s | L_array arr => u_arr arr | L_object obj => u_obj obj
  end.

(** The tag names the member that is alive, and the members constructed before were destroyed.  Next to the tag of [null]
    the last scalar may remain. *)
Record represents (o : lept_obj) (a : lept_value) : Prop := {
  re_type : type o = Some (tag a);
  re_member : match a with L_null => owns (v o) = false | _ => v o = member a end;
  re_alive : made o = (gone o + if owns (v o) then 1 else 0)%nat;
  }.

(** A new object with a given value. *)
Definition fresh (a : lept_value) : lept_obj := mkObj (Some (tag a)) (member a) (if owns (member a) then 1 else 0) 0.
Lemma fresh_represents a : represents (fresh a) a.
Proof. by destruct a. Qed.

(** Two outcomes agree: the same failure, or related values. *)
Definition agree {A B} (R : A -> B -> Prop) (x : res A) (y : res B) : Prop :=
  match x, y with
  | Val a, Val b => R a b
  | Assert_failed, Assert_failed | Undefined, Undefined | Out_of_range, Out_of_range | Not_ended, Not_ended => True
  | _, _ => False
  end.

Lemma agree_bind {A B C D} (R : A -> B -> Prop) (S : C -> D -> Prop) x y f g :
  agree R x y -> (forall a b, R a b -> agree S (f a) (g b)) -> agree S (x ≫= f) (y ≫= g).
Proof. destruct x, y; cbn; try done. auto. Qed.

(** ** Programs on an object *)

(** What a program can do with an object it holds, and what it means for its value. *)
Inductive op :=
  | Set_ (a : lept_value)
  | Assign (a : lept_value)
  | Parse (json : bytes)
  | Index_key (key : bytes)
  | Assign_key (key : bytes) (x : lept_value)
  | Assign_index (index : Z) (x : lept_value).

Section Programs.
Context (StringToDouble : bytes -> Z) (garbage : option lept_type).

(** The setter of a value of a given kind. *)
Definition set_value (a : lept_value) o : res lept_obj :=
  match a with
  | L_null => set_null o
  | L_boolean b => set_boolean b o
  | L_number n => set_number n o
  | L_integer i => set_integer i o
  | L_string s => set_string s o
  | L_array arr => set_array (Elsewhere arr) o
  | L_object obj => set_object (Elsewhere obj) o
  end.
(** [parse] frees the object first and calls the setter of the value it reads; a text that is refused leaves the object null. *)
Definition parse_into (json : bytes) o : res lept_obj :=
  o ← free o;
  match LeptJson.parse StringToDouble json with
  | Returned LEPT_PARSE_OK a => set_value a o
  | Returned _ _ => Val (set_type (Some lept_null) o)
  | Assertion_failed => Assert_failed
  | Out_of_fuel => Not_ended
  end.

Definition run_op (p : op) o : res lept_obj :=
  match p with
  | Set_ a => set_value a o
  | Assign a => val ← lept_value_copy garbage (fresh a); r ← operator_assign val o; Val r.1
  | Parse json => parse_into json o
  | Index_key key => operator_key key o
  | Assign_key key x => assign_key key x o
  | Assign_index index x => assign_index index x o
  end.

Definition as_array (a : lept_value) : res (list lept_value) := match a with L_array arr => Val arr | _ => Assert_failed end.
Definition as_object (a : lept_value) : res (list (bytes * lept_value)) := match a with L_object obj => Val obj | _ => Assert_failed end.

Definition parsed_value (json : bytes) : res lept_value :=
  match LeptJson.parse StringToDouble json with
  | Returned _ b => Val b
  | Assertion_failed => Assert_failed
  | Out_of_fuel => Not_ended
  end.

Definition spec_op (p : op) (a : lept_value) : res lept_value :=
  match p with
  | Set_ b | Assign b => Val b
  | Parse json => parsed_value json
  | Index_key key => obj ← as_object a; Val (L_object (map_insert key L_null obj))
  | Assign_key key x => obj ← as_object a; Val (L_object (map_assign key x obj))
  | Assign_index index x =>
      arr ← as_array a; if u64 index <? len arr then Val (L_array (<[Z.to_nat (u64 index) := x]> arr)) else Assert_failed
  end.

(** What it can ask. *)
Inductive question :=
  | Q_is (t : lept_type)
  | Q_typeStr
  | Q_boolean
  | Q_number
  | Q_integer
  | Q_string
  | Q_array_size
  | Q_index (index : Z)
  | Q_contains (key : bytes)
  | Q_object_value (key : bytes)
  | Q_object_size
  | Q_object
  | Q_at (key : bytes).
Inductive response := A_bool (b : bool) | A_number (n : Z) | A_string (s : bytes) | A_value (a : lept_value) | A_object (obj : list (bytes * lept_value)).

Definition ask (q : question) o : res response :=
  match q with
  | Q_is t => Val (A_bool (is_type t o))
  | Q_typeStr => Val (A_string (typeStr (type o)))
  | Q_boolean => A_bool <$> get_boolean o
  | Q_number => A_number <$> get_number o
  | Q_integer => A_number <$> get_integer o
  | Q_string => A_string <$> get_string o
  | Q_array_size => A_number <$> get_array_size o
  | Q_index index => A_value <$> operator_index index o
  | Q_contains key => A_bool <$> contains_key key o
  | Q_object_value key => A_value <$> get_object_value key o
  | Q_object_size => A_number <$> get_object_size o
  | Q_object => A_object <$> get_object o
  | Q_at key => A_value <$> operator_at key o
  end.

Definition response_of (q : question) (a : lept_value) : res response :=
  match q, a with
  | Q_is t, _ => Val (A_bool (match tag a, t with
      | lept_null, lept_null | lept_boolean, lept_boolean | lept_number, lept_number | lept_integer, lept_integer
      | lept_string, lept_string | lept_array, lept_array | lept_object, lept_object => true | _, _ => false end))
  | Q_typeStr, _ => Val (A_string (typeStr (Some (tag a))))
  | Q_boolean, L_boolean b => Val (A_bool b)
  | Q_number, L_number n => Val (A_number n)
  | Q_integer, L_integer i => Val (A_number i)
  | Q_string, L_string s => Val (A_string s)
  | Q_array_size, L_array arr => Val (A_number (len arr))
  | Q_index index, L_array arr => match arr !! Z.to_nat (u64 index) with Some x => Val (A_value x) | None => Assert_failed end
  | Q_contains key, L_object obj => Val (A_bool (match map_find key obj with Some _ => true | None => false end))
  | Q_object_value key, L_object obj => match map_find key obj with Some x => Val (A_value x) | None => Assert_failed end
  | Q_object_value _, _ => Undefined
  | Q_object_size, L_object obj => Val (A_number (len obj))
  | Q_object, L_object obj => Val (A_object obj)
  | Q_at key, L_object obj => match map_find key obj with Some x => Val (A_value x) | None => Out_of_range end
  | _, _ => Assert_failed
  end.

Fixpoint run_ops (ops : list op) o : res lept_obj :=
  match ops with [] => Val o | p :: ops' => o ← run_op p o; run_ops ops' o end.
Fixpoint spec_ops (ops : list op) (a : lept_value) : res lept_value :=
  match ops with [] => Val a | p :: ops' => a ← spec_op p a; spec_ops ops' a end.

(** ** The representation is kept *)

(** Open an object that represents a value of a known constructor. *)
Ltac open_rep H := destruct H as [Htype Hmember Halive]; match type of Htype with type ?o = _ => destruct o end; cbn in *; subst.

Lemma free_represents o a : represents o a ->
  exists o', free o = Val o' /\ type o' = Some lept_null /\ owns (v o') = false /\ made o' = gone o'.
Proof.
  intros H. destruct a; open_rep H; unfold free; cbn in *; (eexists; split; [done|]); cbn; split_and!; try done; rewrite ?Hmember in *; cbn in *; lia.
Qed.

Lemma destroyed o a : represents o a -> exists o', lept_value_destroy o = Val o' /\ made o' = gone o'.
Proof. intros (o' & Ho & _ & _ & Hl)%free_represents. by exists o'. Qed.

(** The setters, once the old member is gone. *)
Lemma set_represents o a (f : lept_obj -> res lept_obj) b : represents o a ->
  (forall o, type o = Some lept_null -> owns (v o) = false -> made o = gone o -> exists o', f o = Val o' /\ represents o' b) ->
  exists o', (o ← free o; f o) = Val o' /\ represents o' b.
Proof. intros (o1 & -> & Ht & Hm & Ha)%free_represents Hf. cbn. by apply Hf. Qed.

Lemma store_represents o a : owns (member a) = false -> made o = gone o -> represents (store (member a) (set_type (Some (tag a)) o)) a.
Proof. intros Hm Ha. split; [done|by destruct a|]. cbn. rewrite Hm. lia. Qed.
Lemma construct_represents o a : owns (member a) = true -> made o = gone o -> represents (construct (member a) (set_type (Some (tag a)) o)) a.
Proof. intros Hm Ha. split; [done|by destruct a|]. cbn. rewrite Hm. lia. Qed.

Lemma set_value_represents o a b : represents o a -> exists o', set_value b o = Val o' /\ represents o' b.
Proof.
  intros H. destruct b; cbn [set_value].
  1: destruct (free_represents _ _ H) as (o' & Ho & Ht & Hm & Ha); exists o'; split; [done|split; rewrite ?Hm; try done; lia].
  all: apply (set_represents o a _ _ H); intros o1 Ht Hm Ha; eexists; (split; [done|]).
  - destruct b; by apply (store_represents o1 (L_boolean _)).
  - by apply (store_represents o1 (L_number n)).
  - by apply (store_represents o1 (L_integer i)).
  - by apply (construct_represents o1 (L_string s)).
  - by apply (construct_represents o1 (L_array arr)).
  - by apply (construct_represents o1 (L_object obj)).
Qed.

Lemma parse_refused json e a : LeptJson.parse StringToDouble json = Returned e a -> e <> LEPT_PARSE_OK -> a = L_null.
Proof. unfold LeptJson.parse. intros Hp He. repeat case_match; by simplify_eq. Qed.

Lemma parse_agrees json o a : represents o a ->
  agree represents (parse_into json o) (parsed_value json).
Proof.
  intros (o1 & Ho & Ht & Hm & Ha)%free_represents. unfold parse_into, parsed_value. rewrite Ho. cbn.
  destruct (LeptJson.parse _ json) as [e b| |] eqn:Ep; [|done..].
  assert (represents o1 L_null) as Hr by (split; rewrite ?Hm; try done; lia).
  destruct (decide (e = LEPT_PARSE_OK)) as [->|He].
  - by destruct (set_value_represents o1 L_null b Hr) as (o2 & -> & Hr2).
  - rewrite (parse_refused _ _ _ Ep He). assert (represents (set_type (Some lept_null) o1) L_null) as Hr' by (destruct Hr; by split). by destruct e.
Qed.

Lemma take_represents val b o : represents val b -> type o = Some lept_null -> owns (v o) = false -> made o = gone o ->
  exists o', take_member val o = Val o' /\ represents (set_type (type val) o') b.
Proof.
  intros H Ht Hm Ha. destruct b; open_rep H; unfold take_member; cbn; eexists; (split; [done|]); split; cbn; rewrite ?Hm; try done; lia.
Qed.

Lemma copy_represents val b : represents val b -> exists o, lept_value_copy garbage val = Val o /\ represents o b.
Proof.
  intros H. unfold lept_value_copy. destruct b; open_rep H; unfold take_member; cbn; eexists; (split; [done|]); by split.
Qed.

Lemma assign_represents val b o a : represents val b -> represents o a ->
  exists o' val', operator_assign val o = Val (o', val') /\ represents o' b /\ made val' = gone val'.
Proof.
  intros Hv (o1 & Ho & Ht & Hm & Ha)%free_represents. destruct (take_represents _ _ _ Hv Ht Hm Ha) as (o2 & Ho2 & Hr).
  destruct (destroyed _ _ Hv) as (val' & Hd & He). exists (set_type (type val) o2), val'. unfold operator_assign. rewrite Ho. cbn.
  rewrite Ho2. cbn. by rewrite Hd.
Qed.

Lemma map_assign_insert {V} k (x y : V) m : map_assign k x (map_insert k y m) = map_assign k x m.
Proof.
  induction m as [|[k1 v1] m IH]; cbn [map_insert map_assign]; [by rewrite !key_ltb_irrefl|].
  destruct (key_ltb k k1) eqn:E1; cbn [map_assign]; [by rewrite !key_ltb_irrefl|].
  destruct (key_ltb k1 k) eqn:E2; cbn [map_assign]; rewrite E1, E2; [by rewrite IH|done].
Qed.

Lemma index_bound {A} (l : list A) i : 0 <= i -> match l !! Z.to_nat i with Some _ => i < len l | None => len l <= i end.
Proof.
  intros Hi. destruct (l !! Z.to_nat i) eqn:E; [apply lookup_lt_Some in E|apply lookup_ge_None in E]; unfold len; lia.
Qed.

Lemma op_agrees p o a : represents o a -> agree represents (run_op p o) (spec_op p a).
Proof.
  intros H. destruct p; cbn [run_op spec_op].
  - by destruct (set_value_represents o a a0 H) as (o' & -> & Hr).
  - destruct (copy_represents _ _ (fresh_represents a0)) as (val & -> & Hv). cbn.
    by destruct (assign_represents _ _ _ _ Hv H) as (o' & val' & -> & Hr & _).
  - by eapply parse_agrees.
  - destruct a; open_rep H; cbn; done.
  - destruct a; open_rep H; cbn; try done. rewrite map_assign_insert. done.
  - destruct a; open_rep H; cbn; try done. unfold assign_index, operator_index, get_array_element. cbn.
    assert (0 <= u64 index) by (apply Z.mod_pos_bound; lia). pose proof (index_bound arr (u64 index) ltac:(done)) as Hb.
    destruct (Z.ltb_spec (u64 index) (len arr)) as [Hl|Hl]; [|done]. destruct (arr !! _); [done|lia].
Qed.

Lemma ask_agrees q o a : represents o a -> ask q o = response_of q a.
Proof.
  intros H. destruct q, a; open_rep H; cbn; unfold operator_index, get_array_element, contains_key, count, get_object_value, operator_at, is_type;
    cbn; try done; try (by destruct (map_find key _)); try by destruct t.
  - assert (0 <= u64 index) by (apply Z.mod_pos_bound; lia). pose proof (index_bound arr (u64 index) ltac:(done)) as Hb.
    destruct (arr !! _), (Z.ltb_spec (u64 index) (len arr)); try lia; done.
  - unfold read_obj. by destruct v0.
Qed.

(** ** The theorem *)

Lemma ops_agree ops : forall o a, represents o a -> agree represents (run_ops ops o) (spec_ops ops a).
Proof.
  induction ops as [|p ops IH]; intros o a H; [done|]. cbn [run_ops spec_ops]. eapply agree_bind; [by apply op_agrees|done].
Qed.

Lemma spec_defined ops : forall a, spec_ops ops a <> Undefined.
Proof.
  induction ops as [|p ops IH]; intros a; [done|]. cbn [spec_ops]. destruct (spec_op p a) eqn:E; [apply IH|done| |done..].
  destruct p, a; cbn in E; unfold parsed_value in E; repeat case_match; by simplify_eq.
Qed.

(** A program whose texts are bytes never waits for a parse. *)
Lemma spec_ends ops : Forall (fun p => match p with Parse json => bytes_ok json | _ => True end) ops ->
  forall a, spec_ops ops a <> Not_ended.
Proof.
  induction 1 as [|p ops Hp Hops IH]; intros a; [done|]. cbn [spec_ops]. destruct (spec_op p a) eqn:E; [apply IH|done..|].
  destruct p as [| |json| | |]; cbn in E; [done..| | | |].
  - pose proof (parse_ends StringToDouble json Hp) as He. unfold parsed_value in E. by destruct (LeptJson.parse _ json).
  - destruct a; cbn in E; repeat case_match; by simplify_eq.
  - destruct a; cbn in E; repeat case_match; by simplify_eq.
  - destruct a; cbn in E; repeat case_match; by simplify_eq.
Qed.

(** C24. The memory of a JSON value: whatever is set, assigned, parsed and added, in whatever order, an object made by the default
    constructor behaves as the value it stands for: operations and accessors give the same results and fail the same
    assertions, no operation uses a member that is not alive (the one accessor that may is [get_object_value], on what is not
    an object), every parse of bytes ends, and the destructor leaves every member it ever had destroyed exactly once. *)
Theorem value_implemented (ops : list op) :
  agree (fun o a => (forall q, ask q o = response_of q a) /\ exists o', lept_value_destroy o = Val o' /\ made o' = gone o')
    (run_ops ops (lept_value_default garbage)) (spec_ops ops L_null) /\
  run_ops ops (lept_value_default garbage) <> Undefined /\
  (Forall (fun p => match p with Parse json => bytes_ok json | _ => True end) ops ->
   run_ops ops (lept_value_default garbage) <> Not_ended).
Proof.
  pose proof (spec_defined ops L_null) as Hd. pose proof (spec_ends ops) as He. pose proof (ops_agree ops (lept_value_default garbage) L_null ltac:(done)) as H.
  destruct (run_ops _ _), (spec_ops _ _) eqn:Es; try done; [split; [|done]|split; [done|split; [done|]]].
  2: { intros Hb. by destruct (He Hb L_null). }
  cbn in *. split; [intros q; by apply ask_agrees|by eapply destroyed].
Qed.
End Programs.

Lemma value_implemented_witness :
  let ops := [Parse (bs "{}"); Index_key (bs "a"); Assign_key (bs "a") (L_string (bs "b")); Assign (L_array [L_null])] in
  run_ops (fun _ => 0) None ops (lept_value_default None) <> Undefined /\
  run_ops (fun _ => 0) None ops (lept_value_default None) <> Not_ended.
Proof.
  intros ops. destruct (value_implemented (fun _ => 0) None ops) as (_ & Hu & He). split; [exact Hu|].
  apply He. by repeat constructor.
Defined.

(** ** Constructors *)

Definition tag_owns (t : option lept_type) : bool :=
  match t with Some lept_string | Some lept_array | Some lept_object => true | _ => false end.

(** The constructors that set the tag. *)
Lemma constructed garbage : represents (lept_value_default garbage) L_null /\ represents (lept_value_nullptr garbage) L_null /\
  (forall s, represents (lept_value_string garbage s) (L_string s)) /\ (forall d, represents (lept_value_double garbage d) (L_number d)) /\
  (forall i, represents (lept_value_int garbage i) (L_integer i)) /\ (forall arr, represents (lept_value_array_move garbage arr) (L_array arr)) /\
  (forall obj, represents (lept_value_object_move garbage obj) (L_object obj)).
Proof. by repeat split. Qed.

(** The others free what the memory of the object seems to hold: if it reads as the tag of a string, an array or an object, a
    member is destroyed that was never constructed. *)
Lemma constructed_over garbage : let over x a := agree represents x (if tag_owns garbage then Undefined else Val a) in
  (forall b, over (lept_value_bool garbage b) (L_boolean b)) /\ (forall arr, over (lept_value_array garbage arr) (L_array arr)) /\
  (forall obj, over (lept_value_object garbage obj) (L_object obj)) /\ (forall l, over (lept_value_list garbage l) (lept_value_init l)).
Proof.
  intros over. unfold over, lept_value_list, lept_value_init.
  destruct garbage as [[]|]; (split_and!; [intros []|intros arr|intros obj|intros l; destruct (mapM as_pair l)]); by repeat split.
Qed.

Example bool_over_string b : lept_value_bool (Some lept_string) b = Undefined.
Proof. reflexivity. Qed.

(** [set_array] and [set_object] destroy the old member before they copy their argument. *)
Example own_array_destroyed garbage arr : set_array Own (lept_value_array_move garbage arr) = Undefined.
Proof. reflexivity. Qed.

(** [get_object_value] does not look at the tag. *)
Example object_value_of_string garbage s key : get_object_value key (lept_value_string garbage s) = Undefined.
Proof. reflexivity. Qed.
