(* ===== verification/Jwt.v ===== *)
(** * JSON Web Tokens (src/util/jwt.cpp)

    Signing the claims of a JSON object and verifying a token with a maximal age.
    jwt-cpp and its picojson are the class [JwtCpp]; [JwtCppLaws] is what their
    documentation promises of the calls made here.  Times are nanoseconds since the
    epoch, as [std::chrono::system_clock] counts them. *)

From S2P Require Import Prelude LeptJson LeptCodec JsonText.

(** ** The libraries *)

Class JwtCpp := {
    pvalue : Type;                       (* picojson::value and its constructors *)
    p_null : pvalue;
    p_bool : bool -> pvalue;
    p_double : Z -> pvalue;
    p_int64 : Z -> pvalue;
    p_string : bytes -> pvalue;
    p_array : list pvalue -> pvalue;
    p_object : list (bytes * pvalue) -> pvalue;
    as_date : pvalue -> option Z;        (* claim::as_date, which may throw *)
    decoded_jwt : Type;
    sign_hs256 : list (bytes * pvalue) -> bytes -> bytes;  (* builder::sign with the payload claims *)
    decode : bytes -> option decoded_jwt;                  (* throws on malformed text *)
    get_payload : decoded_jwt -> bytes;
    get_payload_claim : decoded_jwt -> bytes -> option pvalue;
    verifier_verify : bytes -> Z -> decoded_jwt -> bool;   (* with key and time; throws when false *)
  }.

Definition NANO : Z := 10 ^ 9.
(** [to_time_t] cuts to seconds. *)
Definition to_time_t (t : Z) : Z := t / NANO.
(** A [time_point] has 64 bits; computing past them is undefined. *)
Definition time_fits (t : Z) : bool := (- 2 ^ 63 <=? t) && (t <? 2 ^ 63).

(** ** The program *)

Section JwtUtil.
Context {J : JwtCpp} (StringToDouble : bytes -> Z).

Fixpoint transform (v : lept_value) : pvalue :=
  match v with
  | L_null => p_null
  | L_boolean b => p_bool b
  | L_number n => p_double n
  | L_integer i => p_int64 i
  | L_string s => p_string s
  | L_array arr => p_array (map transform arr)
  | L_object obj => p_object (fold_left (fun o kv => map_assign (fst kv) (snd kv) o)
      (map (fun kv => (fst kv, transform (snd kv))) obj) [])
  end.

(** The builder's payload claims: [set_issued_at], [set_expires_at], then the payload. *)
Definition set_payload_claims (payload : list (bytes * lept_value)) (claims : list (bytes * pvalue)) : list (bytes * pvalue) :=
  fold_left (fun o kv => map_assign (fst kv) (transform (snd kv)) o) payload claims.
Definition time_claims (now expires_seconds : Z) : list (bytes * pvalue) :=
  let claims := [(bs "iat", p_int64 (to_time_t now))] in
  if 0 <? expires_seconds
  then map_assign (bs "exp") (p_int64 (to_time_t (now + expires_seconds * NANO))) claims else claims.

(** [sign]: [get_object] asserts that the payload is an object. *)
Definition sign (payload : lept_value) (key : bytes) (expires_seconds now : Z) : option bytes :=
  match payload with
  | L_object payload_obj => Some (sign_hs256 (set_payload_claims payload_obj (time_claims now expires_seconds)) key)
  | _ => None
  end.

Inductive jwt_error := T_malformed | T_rejected | T_missing_iat | T_iat_not_a_date | T_expired.

(** How [verify] ends: a payload, an exception, a failed assertion of the JSON parser or a
    time past 64 bits; [V_never] if the JSON parser does not end. *)
Inductive verified :=
  | V_payload (v : lept_value)
  | V_throw (e : jwt_error)
  | V_abort
  | V_overflow
  | V_never.

(** [payload.parse(decoded_token.get_payload())], whose result is not looked at. *)
Definition parse_payload (d : decoded_jwt) : verified :=
  match parse StringToDouble (get_payload d) with
  | Returned _ v => V_payload v
  | Assertion_failed => V_abort
  | Out_of_fuel => V_never
  end.

(** The verifier reads the clock ([checked]), and the test of the age reads it again ([now]). *)
Definition verify (token key : bytes) (maxAge_hours checked now : Z) : verified :=
  match decode token with
  | None => V_throw T_malformed
  | Some d =>
      if negb (verifier_verify key checked d) then V_throw T_rejected
      else if maxAge_hours <? 0 then parse_payload d
      else
        match get_payload_claim d (bs "iat") with
        | None => V_throw T_missing_iat
        | Some iat_claim =>
            match as_date iat_claim with
            | None => V_throw T_iat_not_a_date
            | Some iat =>
                let max_age := maxAge_hours * 3600 * NANO in
                if negb (time_fits max_age && time_fits (iat + max_age)) then V_overflow
                else if iat + max_age <? now then V_throw T_expired
                else parse_payload d
            end
        end
  end.
End JwtUtil.

(** ** What the libraries promise *)

(** The JSON value that a picojson value stands for.  A [picojson::object] is a [std::map]: its
    keys are in order.  Only values whose strings are ASCII and whose integers have 32 bits are
    spoken of here, and none with doubles. *)
Inductive denotes {J : JwtCpp} : pvalue -> json -> Prop :=
  | D_null : denotes p_null JNull
  | D_bool b : denotes (p_bool b) (JBool b)
  | D_int64 z : - 2 ^ 31 <= z < 2 ^ 31 -> denotes (p_int64 z) (JInt z)
  | D_string s : ascii s = true -> denotes (p_string s) (JString s)
  | D_array ps js : Forall2 denotes ps js -> denotes (p_array ps) (JArray js)
  | D_object ps ms :
      Forall2 (fun p m => fst p = fst m /\ ascii (fst m) = true /\ denotes (snd p) (snd m)) ps ms ->
      keys_sorted (map fst ps) = true -> denotes (p_object ps) (JObject ms).

(** Decoding a signed token gives back its claims: its payload is a JSON text of them, and
    they are found one by one; the verifier with the same key accepts it between its [iat] and
    its [exp], and rejects it after its [exp]. *)
Class JwtCppLaws (J : JwtCpp) : Prop := {
    as_date_int64 : forall s, as_date (p_int64 s) = Some (s * NANO);
    decode_signed : forall claims ms key, denotes (p_object claims) (JObject ms) ->
      exists d, decode (sign_hs256 claims key) = Some d /\ json_text (JObject ms) (get_payload d) /\
        (forall k, get_payload_claim d k = map_find k claims) /\
        (forall now, (forall t, map_find (bs "iat") claims = Some (p_int64 t) -> t * NANO <= now) ->
          map_find (bs "nbf") claims = None ->
          match map_find (bs "exp") claims with
          | None => verifier_verify key now d = true
          | Some e => forall t, e = p_int64 t -> verifier_verify key now d = (now <=? t * NANO)
          end);
  }.

(** ** What is signed, as JSON *)

(** Payloads without doubles, whose strings and keys are ASCII. *)
Fixpoint plain (v : lept_value) : bool :=
  match v with
  | L_null | L_boolean _ | L_integer _ => true
  | L_number _ => false
  | L_string s => ascii s
  | L_array arr => forallb plain arr
  | L_object obj => forallb (fun kv => ascii (fst kv) && plain (snd kv)) obj
  end.
Fixpoint json_of (v : lept_value) : json :=
  match v with
  | L_null | L_number _ => JNull
  | L_boolean b => JBool b
  | L_integer i => JInt i
  | L_string s => JString s
  | L_array arr => JArray (map json_of arr)
  | L_object obj => JObject (map (fun kv => (fst kv, json_of (snd kv))) obj)
  end.

(** ** Association lists *)

Lemma map_assign_map {V W} (f : V -> W) k v m :
  map_assign k (f v) (map (fun kv => (fst kv, f (snd kv))) m) = map (fun kv => (fst kv, f (snd kv))) (map_assign k v m).
Proof. induction m as [|[k1 v1] m IH]; [done|]. cbn. repeat case_match; cbn; by rewrite ?IH. Qed.

Lemma map_assign_keys {V} k (v : V) m k0 :
  Forall (fun k' => key_ltb k0 k' = true) (map fst m) -> key_ltb k0 k = true ->
  Forall (fun k' => key_ltb k0 k' = true) (map fst (map_assign k v m)).
Proof.
  intros Hm Hk. induction m as [|[k1 v1] m IH]; cbn [map_assign]; [by repeat constructor|].
  cbn in Hm. apply Forall_cons in Hm as [H1 Hm]. repeat case_match; cbn; auto using Forall_cons.
Qed.

Lemma map_assign_sorted {V} k (v : V) m : keys_sorted (map fst m) = true -> keys_sorted (map fst (map_assign k v m)) = true.
Proof.
  induction m as [|[k1 v1] m IH]; [done|]. intros Hs. cbn [map_assign].
  destruct (key_ltb k k1) eqn:E1; [|destruct (key_ltb k1 k) eqn:E2].
  - cbn [map]. apply keys_sorted_cons. split; [|done]. cbn in Hs. apply keys_sorted_cons in Hs as [Hs _].
    constructor; [done|]. eapply Forall_impl; [exact Hs|]. intros k' Hk'. by eapply key_ltb_trans.
  - cbn [map fst] in *. apply keys_sorted_cons in Hs as [Hk Hs]. apply keys_sorted_cons. split; [|by apply IH].
    by apply map_assign_keys.
  - cbn [map fst] in *. by rewrite (key_ltb_total _ _ E1 E2).
Qed.

Lemma map_assign_forallb {V} (f : bytes * V -> bool) k v m :
  f (k, v) = true -> forallb f m = true -> forallb f (map_assign k v m) = true.
Proof.
  intros Hf. induction m as [|[k1 v1] m IH]; cbn; [by rewrite Hf|]. intros [H1 Hm]%andb_true_iff.
  repeat case_match; cbn; rewrite ?Hf, ?H1, ?Hm, ?IH by done; done.
Qed.

(** What is found after an assignment, in a map whose keys are in order. *)
Lemma map_find_assign {V} k k' (v : V) m :
  keys_sorted (map fst m) = true -> map_find k (map_assign k' v m) = if bool_decide (k = k') then Some v else map_find k m.
Proof.
  induction m as [|[k1 v1] m IH]; [done|]. intros Hs. cbn [map fst] in Hs. apply keys_sorted_cons in Hs as [Hk Hs].
  cbn [map_assign]. destruct (key_ltb k' k1) eqn:E1; [done|]. destruct (key_ltb k1 k') eqn:E2; cbn [map_find].
  - rewrite IH by done. repeat case_bool_decide; subst; try done. by rewrite key_ltb_irrefl in E2.
  - rewrite (key_ltb_total _ _ E1 E2). by repeat case_bool_decide.
Qed.

Lemma map_find_fmap {V W} (f : V -> W) k m : map_find k (map (fun kv => (fst kv, f (snd kv))) m) = f <$> map_find k m.
Proof. induction m as [|[k1 v1] m IH]; [done|]. cbn. by case_bool_decide. Qed.

Lemma map_find_smaller {V} k (l : list (bytes * V)) : Forall (fun k' => key_ltb k k' = true) (map fst l) -> map_find k l = None.
Proof.
  induction l as [|[k1 v1] l IH]; [done|]. cbn. intros [H1 Hl]%Forall_cons. case_bool_decide; [subst|by apply IH].
  by rewrite key_ltb_irrefl in H1.
Qed.

(** The members assigned last win. *)
Lemma map_find_assign_all {V} k (l m : list (bytes * V)) :
  keys_sorted (map fst l) = true -> keys_sorted (map fst m) = true ->
  map_find k (fold_left (fun o kv => map_assign (fst kv) (snd kv) o) l m) =
  match map_find k l with Some v => Some v | None => map_find k m end.
Proof.
  revert m. induction l as [|[k1 v1] l IH]; intros m Hl Hm; [done|]. cbn [map fst] in Hl.
  apply keys_sorted_cons in Hl as [H1 Hl]. cbn [map_find fold_left fst snd].
  rewrite IH by (done || by apply map_assign_sorted). rewrite map_find_assign by done.
  case_bool_decide; [subst|done]. by rewrite map_find_smaller.
Qed.

(** Assigning the members of a map in order rebuilds it. *)
Lemma assign_all {V} (m : list (bytes * V)) :
  keys_sorted (map fst m) = true -> fold_left (fun o kv => map_assign (fst kv) (snd kv) o) m [] = m.
Proof.
  cut (forall l, keys_sorted (map fst (l ++ m)) = true ->
    fold_left (fun o kv => map_assign (fst kv) (snd kv) o) m l = l ++ m); [by intros H; apply (H [])|].
  induction m as [|[k v] m IH]; intros l Hs; [by rewrite app_nil_r|]. cbn [fold_left fst snd].
  assert (map_assign k v l = l ++ [(k, v)]) as ->; [|by rewrite IH; rewrite <- app_assoc].
  rewrite map_app in Hs. cbn [map fst] in Hs. change (k :: map fst m) with ([k] ++ map fst m) in Hs.
  rewrite app_assoc in Hs. apply keys_sorted_prefix, keys_sorted_snoc in Hs. clear -Hs.
  induction l as [|[k1 v1] l IH]; [done|]. cbn in Hs. apply Forall_cons in Hs as [H1 Hs]. cbn [map_assign].
  by rewrite (key_ltb_asym _ _ H1), H1, IH.
Qed.

(** Inserting the members of a map in order rebuilds it. *)
Lemma insert_all (l m : list (bytes * lept_value)) : keys_sorted (map fst (m ++ l)) = true -> object_of l m = m ++ l.
Proof.
  revert m. induction l as [|[k v] l IH]; intros m Hs; [by rewrite app_nil_r|]. unfold object_of in *. cbn [fold_left fst snd].
  rewrite map_insert_last; [by rewrite IH; rewrite <- app_assoc|]. apply keys_sorted_snoc.
  apply (keys_sorted_prefix _ (map fst l)). rewrite <- app_assoc. by rewrite map_app in Hs.
Qed.

(** Reading the JSON of a value gives the value. *)
Lemma json_of_read v : well_formed v = true -> plain v = true -> lept_of (json_of v) = v /\ fits (json_of v) = true.
Proof.
  induction v as [|b|n|i|s|arr IH|obj IH] using lept_value_nested; intros Hw Hp; try done.
  - cbn in *. rewrite map_map. apply forallb_Forall in Hw, Hp. induction IH as [|v arr Hv IH' IHa]; [done|].
    apply Forall_cons in Hw as [H1 H2], Hp as [H3 H4]. cbn. destruct (Hv H1 H3) as [-> ->]. destruct (IHa H2 H4) as [Ha ->].
    split; [|done]. injection Ha as ->. done.
  - cbn [well_formed plain json_of lept_of fits] in *. apply andb_true_iff in Hw as [Hw Hs].
    assert (map (fun kv => (fst kv, lept_of (snd kv))) (map (fun kv => (fst kv, json_of (snd kv))) obj) = obj /\
      forallb (fun kv => fits (snd kv)) (map (fun kv => (fst kv, json_of (snd kv))) obj) = true) as [-> ->].
    { apply forallb_Forall in Hw, Hp. clear Hs. induction IH as [|[k v] obj Hv IH' IHa]; [done|].
      apply Forall_cons in Hw as [H1 H2], Hp as [H3 H4]. cbn in *. apply andb_true_iff in H1 as [_ H1], H3 as [_ H3].
      destruct (Hv H1 H3) as [-> ->]. destruct (IHa H2 H4) as [-> ->]. done. }
    split; [|done]. f_equal. by apply (insert_all obj []).
Qed.

Section Correct.
Context {J : JwtCpp} (StringToDouble : bytes -> Z) {Laws : JwtCppLaws J}.

(** The claims of the token [sign] makes, as a JSON object. *)
Definition token_claims (payload : list (bytes * lept_value)) (now expires_seconds : Z) : list (bytes * lept_value) :=
  let claims := [(bs "iat", L_integer (to_time_t now))] in
  let claims := if 0 <? expires_seconds
    then map_assign (bs "exp") (L_integer (to_time_t (now + expires_seconds * NANO))) claims else claims in
  fold_left (fun o kv => map_assign (fst kv) (snd kv) o) payload claims.

Abbreviation on_values f := (map (fun kv => (fst kv, f (snd kv)))).

Lemma transform_object obj : keys_sorted (map fst obj) = true -> transform (L_object obj) = p_object (on_values transform obj).
Proof.
  intros Hs. cbn [transform]. f_equal. apply (assign_all (on_values transform obj)).
  by rewrite map_map.
Qed.

Lemma set_claims_transform payload claims :
  set_payload_claims payload (on_values transform claims) =
  on_values transform (fold_left (fun o kv => map_assign (fst kv) (snd kv) o) payload claims).
Proof.
  revert claims. induction payload as [|[k v] payload IH]; intros claims; [done|]. cbn [set_payload_claims fold_left fst snd].
  rewrite map_assign_map. apply IH.
Qed.

Lemma sign_claims payload now expires :
  set_payload_claims payload (time_claims now expires) = on_values transform (token_claims payload now expires).
Proof.
  unfold token_claims. rewrite <- set_claims_transform. f_equal. unfold time_claims.
  by destruct (0 <? expires).
Qed.

(** [transform] makes the picojson value of the same JSON value. *)
Lemma transform_denotes v : well_formed v = true -> plain v = true -> denotes (transform v) (json_of v).
Proof.
  induction v as [|b|n|i|s|arr IH|obj IH] using lept_value_nested; intros Hw Hp; try done; try by constructor.
  - cbn in Hw. bool_to_prop. constructor. lia.
  - cbn [transform json_of well_formed plain] in *. constructor. apply forallb_Forall in Hw, Hp.
    induction IH as [|v arr Hv IH' IHa]; [constructor|]. apply Forall_cons in Hw as [H1 H2], Hp as [H3 H4].
    cbn. constructor; [by apply Hv|by apply IHa].
  - cbn [json_of well_formed plain] in *. apply andb_true_iff in Hw as [Hw Hs]. rewrite transform_object by done.
    constructor; [|by rewrite map_map]. apply forallb_Forall in Hw, Hp. clear Hs.
    induction IH as [|[k v] obj Hv IH' IHa]; [constructor|]. apply Forall_cons in Hw as [H1 H2], Hp as [H3 H4].
    cbn in *. apply andb_true_iff in H1 as [_ H1], H3 as [H3 H3']. constructor; [split_and!; [done..|by apply Hv]|by apply IHa].
Qed.

(** The claims are plain JSON when the payload is and the times have 31 bits. *)
Lemma token_claims_ok payload now expires :
  well_formed (L_object payload) = true -> plain (L_object payload) = true ->
  0 <= now -> to_time_t (now + Z.max 0 expires * NANO) < 2 ^ 31 ->
  let o := L_object (token_claims payload now expires) in well_formed o = true /\ plain o = true.
Proof.
  intros Hw Hp Hn Ht. cbn [well_formed plain] in *. apply andb_true_iff in Hw as [Hw Hs].
  assert (Hint : forall t, 0 <= t <= now + Z.max 0 expires * NANO -> well_formed (L_integer (to_time_t t)) = true).
  { intros t [H0 H1]. unfold to_time_t in *. cbn. assert (0 < NANO) by done.
    pose proof (Z.div_pos t NANO H0). pose proof (Z.div_le_mono t _ NANO ltac:(done) H1). apply andb_true_iff. lia. }
  assert (Hfold : forall l m, forallb (fun kv => forallb is_byteb (fst kv) && well_formed (snd kv)) l = true ->
    forallb (fun kv => ascii (fst kv) && plain (snd kv)) l = true ->
    well_formed (L_object m) = true /\ plain (L_object m) = true ->
    let o := L_object (fold_left (fun o kv => map_assign (fst kv) (snd kv) o) l m) in
    well_formed o = true /\ plain o = true).
  { induction l as [|[k v] l IH]; intros m Hl Hl' Hm; [done|]. cbn [fold_left fst snd].
    cbn [forallb fst snd] in Hl, Hl'. apply andb_true_iff in Hl as [Hkv Hl], Hl' as [Hkv' Hl'].
    apply IH; [done..|]. cbn [well_formed plain] in Hm |- *. destruct Hm as [[Hm Hms]%andb_true_iff Hm'].
    split; [apply andb_true_iff; split; [by apply map_assign_forallb|by apply map_assign_sorted]|by apply map_assign_forallb]. }
  apply Hfold; [done..|]. pose proof (Hint now ltac:(assert (0 < NANO) by done; lia)) as Hiat.
  destruct (Z.ltb_spec 0 expires).
  - pose proof (Hint (now + expires * NANO) ltac:(assert (0 < NANO) by done; nia)) as Hexp.
    cbn [map_assign]. change (key_ltb (bs "exp") (bs "iat")) with true. cbv iota.
    cbn [well_formed plain forallb fst snd] in *. by rewrite Hiat, Hexp.
  - cbn [well_formed plain forallb fst snd] in *. by rewrite Hiat.
Qed.

End Correct.

(** ** A library that keeps the promises *)

(** Values are [lept_value]s, a token is the key with its length, then the JSON text. *)
Definition toy_claim (k : bytes) (obj : list (bytes * lept_value)) : option Z :=
  match map_find k obj with Some (L_integer s) => Some (s * NANO) | _ => None end.
#[local] Instance toy_jwt : JwtCpp := {
    pvalue := lept_value;
    p_null := L_null;
    p_bool := L_boolean;
    p_double := L_number;
    p_int64 := L_integer;
    p_string := L_string;
    p_array := L_array;
    p_object := L_object;
    as_date := fun v => match v with L_integer s => Some (s * NANO) | _ => None end;
    decoded_jwt := bytes * bytes * list (bytes * lept_value);
    sign_hs256 := fun claims key => len key :: key ++ text_of (json_of (L_object claims));
    decode := fun t =>
      match t with
      | n :: r =>
          let text := drop (Z.to_nat n) r in
          match parse (fun _ => 0) text with
          | Returned LEPT_PARSE_OK (L_object obj) => Some (take (Z.to_nat n) r, text, obj)
          | _ => None
          end
      | [] => None
      end;
    get_payload := fun d => d.1.2;
    get_payload_claim := fun d k => map_find k d.2;
    verifier_verify := fun key now d =>
      bool_decide (d.1.1 = key) &&
      (match toy_claim (bs "exp") d.2 with Some e => now <=? e | None => true end) &&
      (match toy_claim (bs "iat") d.2 with Some i => i <=? now | None => true end);
  }.

Lemma ascii_bytes s : ascii s = true -> forallb is_byteb s = true.
Proof.
  unfold ascii. rewrite !forallb_Forall. intros Hs. eapply Forall_impl; [exact Hs|]. intros ch Hch. cbv beta in *.
  apply andb_true_iff in Hch as [H0 H1]. unfold is_byteb. apply andb_true_iff. lia.
Qed.

(** In this library a value denotes its own JSON. *)
Lemma toy_denotes (v : lept_value) j : denotes v j ->
  j = json_of v /\ well_formed v = true /\ plain v = true /\ ascii_json j = true.
Proof.
  revert j. induction v as [|b|n|i|s|arr IH|obj IH] using lept_value_nested; intros j Hd; inversion Hd; subst; try done.
  - split_and!; try done. cbn. apply andb_true_iff. lia.
  - split_and!; try done. cbn. by apply ascii_bytes.
  - match goal with H : Forall2 _ _ _ |- _ => rename H into Hall end. clear Hd. cbn [well_formed plain json_of ascii_json].
    revert js Hall. induction IH as [|v arr Hv IH' IHa]; intros js Hall; inversion Hall as [|? j ? js' Hj Hjs]; subst; [done|].
    destruct (Hv j Hj) as (-> & W1 & W2 & W3). destruct (IHa js' Hjs) as ([= ->] & W4 & W5 & W6). cbn.
    by rewrite W1, W2, W3, W4, W5.
  - match goal with H : Forall2 _ _ _ |- _ => rename H into Hall end. cbn [pvalue toy_jwt] in *.
    enough (ms = map (fun kv => (fst kv, json_of (snd kv))) obj /\
      forallb (fun kv => forallb is_byteb (fst kv) && well_formed (snd kv)) obj = true /\
      forallb (fun kv => ascii (fst kv) && plain (snd kv)) obj = true /\
      forallb (fun kv => ascii (fst kv) && ascii_json (snd kv)) ms = true) as (Hms & W1 & W2 & W3).
    { cbn [well_formed plain json_of ascii_json]. rewrite W1, W2, W3. by subst. }
    clear Hd. match goal with H : keys_sorted _ = true |- _ => clear H end.
    revert ms Hall. induction IH as [|[k v] obj Hv IH' IHa]; intros ms Hall; inversion Hall as [|? [k' j] ? ms' Hj Hjs]; subst; [done|].
    cbn in Hj, Hv. destruct Hj as (<- & Hk & Hj). destruct (Hv j Hj) as (-> & W1 & W2 & W3).
    destruct (IHa ms' Hjs) as (-> & W4 & W5 & W6). cbn. by rewrite W1, W2, W3, W4, W5, W6, Hk, (ascii_bytes _ Hk).
Qed.

#[local] Instance toy_laws : JwtCppLaws toy_jwt.
Proof.
  split; [done|]. intros obj ms key Hd. destruct (toy_denotes (L_object obj) _ Hd) as (Hms & Hwf & Hp & Ha).
  destruct (json_of_read (L_object obj) Hwf Hp) as [Hback Hfit]. rewrite Hms in *.
  set (text := text_of (json_of (L_object obj))). exists (key, text, obj).
  pose proof (text_of_ok _ Ha) as Htext. fold text in Htext.
  pose proof (text_parsed (fun _ => 0) _ text [] [] Htext Hfit ltac:(constructor) ltac:(constructor)) as Hpr.
  rewrite app_nil_l, app_nil_r, Hback in Hpr.
  split_and!.
  - cbn [sign_hs256 decode toy_jwt]. fold text. unfold len. rewrite Nat2Z.id, drop_app_length, take_app_length. by rewrite Hpr.
  - exact Htext.
  - done.
  - intros now Hiat Hnbf. cbn [pvalue toy_jwt p_int64] in *. cbn [verifier_verify toy_jwt fst snd]. rewrite bool_decide_true by done.
    assert (match toy_claim (bs "iat") obj with Some i => i <=? now | None => true end = true) as ->.
    { unfold toy_claim. destruct (map_find (bs "iat") obj) as [[]|]; [done..| |done|done|done|done]. apply Z.leb_le. by apply Hiat. }
    rewrite andb_true_r. unfold toy_claim. cbn [pvalue toy_jwt].
    destruct (map_find (bs "exp") obj); [by intros t ->|done].
Qed.

Definition demo_payload : list (bytes * lept_value) := [(bs "uid", L_integer 123); (bs "username", L_string (bs "away"))].


(** The payload's own [iat] replaces the time of signing, so a signer can postdate the age. *)
Example payload_overrides_iat :
  map_find (bs "iat") (token_claims [(bs "iat", L_integer 5)] (1700000000 * NANO) 0) = Some (L_integer 5).
Proof. vm_compute. reflexivity. Qed.

(** From 2038 on the [iat] read back is negative: the JSON library cuts integers to 32 bits. *)
Example iat_after_2038 :
  parse (fun _ => 0) (stringify (L_object [(bs "iat", L_integer (to_time_t (2147483648 * NANO)))])) =
  Returned LEPT_PARSE_OK (L_object [(bs "iat", L_integer (-2147483648))]).
Proof. vm_compute. reflexivity. Qed.
