(* ===== verification/WsApi.v ===== *)
(** * What a program does with WebSocket sessions (include/WebSocket.h, WebSocket.cpp)

    The setters of the callbacks, the overloads of [send] with the context each fills in,
    JSON messages, and what a [WsServer] does when it is made and destroyed. *)

From S2P Require Import Prelude WsParser WsCodec WsSession WsService WsServer FileReader LeptJson LeptCodec.
From S2P Require HttpServer.
From stdpp Require Import gmap.
#[local] Open Scope Z_scope.

(** ** Setters and getters *)

Section Setters.
Context {A : Type}.

Definition no_callbacks (app_holds : A -> nat -> bool) : Callbacks A := mkCallbacks None None None None app_holds.
Definition onConnect (cb : nat -> unit -> A -> A * list (nat * ws_call)) (c : Callbacks A) : Callbacks A :=
  mkCallbacks (Some cb) (m_onCloseCb c) (m_onMessageCb c) (m_onErrorCb c) (app_holds c).
Definition onClose (cb : nat -> unit -> A -> A * list (nat * ws_call)) (c : Callbacks A) : Callbacks A :=
  mkCallbacks (m_onConnectCb c) (Some cb) (m_onMessageCb c) (m_onErrorCb c) (app_holds c).
Definition onMessage (cb : nat -> bytes -> A -> A * list (nat * ws_call)) (c : Callbacks A) : Callbacks A :=
  mkCallbacks (m_onConnectCb c) (m_onCloseCb c) (Some cb) (m_onErrorCb c) (app_holds c).
Definition onError (cb : nat -> ws_error -> A -> A * list (nat * ws_call)) (c : Callbacks A) : Callbacks A :=
  mkCallbacks (m_onConnectCb c) (m_onCloseCb c) (m_onMessageCb c) (Some cb) (app_holds c).
End Setters.

Definition getReadyState (x : Session) : WsStatus := readyState x.
Definition getStrMessage (f : WsFrame) : bytes := payload f.

(** ** Contexts of a write *)

(** [WriteCtx]: the message is the string, or what the reader has read. *)
Record WriteCtx := mkWriteCtx { m_str : bytes; m_head : bytes; isFile : bool; ctx_reader : option FileReader }.
Definition WriteCtx_init : WriteCtx := mkWriteCtx [] [] false None.
(** The overload for a [const std::string&] leaves [isFile] as it is. *)
Definition setMsg_copy (str : bytes) (c : WriteCtx) : WriteCtx := mkWriteCtx str (m_head c) (isFile c) (ctx_reader c).
Definition setMsg_move (str : bytes) (c : WriteCtx) : WriteCtx := mkWriteCtx str (m_head c) false (ctx_reader c).
Definition setMsg_cstr (str : bytes) (c : WriteCtx) : WriteCtx := mkWriteCtx (c_str str) (m_head c) false (ctx_reader c).
Definition setMsg_file (reader : FileReader) (c : WriteCtx) : WriteCtx := mkWriteCtx (m_str c) (m_head c) true (Some reader).
Definition clearMsg (c : WriteCtx) : WriteCtx := mkWriteCtx [] (m_head c) (isFile c) (ctx_reader c).

(** How reading a message as JSON ends, if it does. *)
Inductive message_read :=
  | Message (v : lept_value)
  | Message_aborts
  | Message_waits.

Section Api.
Context {Ow A : Type} `{WsOwner Ow} (StringToDouble : bytes -> Z).
Implicit Types (w : World Ow A) (self : nat).

(** [inter_send] of a context: a reader that was never set cannot be read. *)
Definition inter_send_ctx self (c : WriteCtx) (opcode : Z) w : option (World Ow A) :=
  if isFile c then
    match ctx_reader c with
    | Some r => Some (inter_send self (contents r) (getReadByte r) opcode w)
    | None => None
    end
  else Some (inter_send self [m_str c] (len (m_str c)) opcode w).

Definition send_copy self (str : bytes) w : option (World Ow A) := inter_send_ctx self (setMsg_copy str WriteCtx_init) WS_TEXT w.
Definition send_move self (str : bytes) w : option (World Ow A) := inter_send_ctx self (setMsg_move str WriteCtx_init) WS_TEXT w.
(** The string made from a [const char*] is a temporary, moved into the context. *)
Definition send_cstr self (str : bytes) w : option (World Ow A) := send_move self (c_str str) w.
Definition send_json self (json : lept_value) w : option (World Ow A) :=
  inter_send_ctx self (setMsg_move (stringify json) WriteCtx_init) WS_TEXT w.
Definition send_pong self w : option (World Ow A) := inter_send_ctx self (setMsg_cstr [] WriteCtx_init) WS_PONG w.
(** The [onClose] callback of the reader of [sendFile]. *)
Definition send_file_read self (reader : FileReader) w : option (World Ow A) :=
  inter_send_ctx self (setMsg_file reader WriteCtx_init) WS_TEXT w.

(** [getJsonMessage]: [null] when the text is refused; or a failed assertion of the parser. *)
Definition getJsonMessage (f : WsFrame) : message_read :=
  match parse StringToDouble (getStrMessage f) with
  | Returned ret json => Message (if bool_decide (ret = LEPT_PARSE_OK) then json else L_null)
  | Assertion_failed => Message_aborts
  | Out_of_fuel => Message_waits
  end.
End Api.

(** ** The server of the sessions *)

(** The constructor registers for the upgrades of the HTTP server; the destructor empties
    the registry, and the HTTP server keeps the callback. *)
Definition WsServer_new {RE : HttpRouter.RegexEngine} {A B : Type} (a : A) (httpSvr : HttpServer.HttpServer RE B) :
    WsServer A * HttpServer.HttpServer RE B :=
  (WsServer_init a, HttpServer.onUpgrade httpSvr).
Definition WsServer_delete {A} (s : WsServer A) : WsServer A := set_world (set_owner [] (world s)) s.

(** ** The overloads agree *)

Section Correct.
Context {Ow A : Type} `{WsOwner Ow} (StringToDouble : bytes -> Z).
Implicit Types (w : World Ow A) (self : nat).

Lemma send_overloads self str w :
  send_copy self str w = Some (send self str w) /\ send_move self str w = Some (send self str w) /\
  (0 ∉ str -> send_cstr self str w = Some (send self str w)) /\ send_pong self w = Some (sendPong self w).
Proof.
  split_and!; try done. intros Hstr. unfold send_cstr. assert (c_str str = str) as ->; [|done].
  induction str as [|ch str IH]; [done|]. rewrite not_elem_of_cons in Hstr. destruct Hstr as [Hne Hin]. cbn.
  by rewrite (proj2 (Z.eqb_neq ch 0)), IH.
Qed.

(** C38. A JSON value without doubles, whose strings are ASCII and whose keys need no escaping,
  and whose text fits in the parser's limit of a mebibyte, arrives on the other side: [send]
  writes one frame whose payload [getJsonMessage] reads back.  In the other direction,
  whatever bytes a client sends, [getJsonMessage] ends: with a well-formed value or, when
  the text holds a backslash only, in a failed assertion. *)
Theorem json_message self v w {T} (cb : WsFrame -> T -> T) (n : Z) (f : WsFrame) (x : T)
    (Hn : 0 <= n) (Hf : WsFrame_ok f) (Hwf : well_formed v = true) (Hp : printable v = true)
    (Hl : len (stringify v) <= LIMIT_PAYLOAD_LEN) :
  (exists w' bufs F, send_json self v w = Some w' /\ log w' = log w ++ [(self, Uv_write (next_ctx w) bufs)] /\
    WsParser.parse cb (idle_st n false f x) (concat bufs) = Some (SUCCESS, idle_st 0 false F (cb F x)) /\
    getJsonMessage StringToDouble F = Message v) /\
  (forall F, bytes_ok (payload F) ->
    match getJsonMessage StringToDouble F with
    | Message v' => well_formed v' = true
    | Message_aborts => "\"%chr ∈ payload F
    | Message_waits => False
    end).
Proof.
  split.
  - destruct (stringify_head v Hwf Hp) as (ch & t & Hs & _).
    destruct (send_frame self (stringify v) w cb n f x Hn Hf) as (bufs & F & Hlog & Hparse & _ & Hpay);
      [by apply stringify_bytes|by unfold stringify; rewrite Hs|done|].
    exists (send self (stringify v) w), bufs, F. split_and!; [done..|].
    unfold getJsonMessage, getStrMessage. rewrite Hpay, print_parse by done. done.
  - intros F Hb. unfold getJsonMessage, getStrMessage. pose proof (parse_ends StringToDouble _ Hb) as Ht.
    destruct (parse _ _) as [e v'| |]; [|by destruct Ht|done]. case_bool_decide as He; [by subst|by destruct e; cbn in Ht; subst].
Qed.
End Correct.

(** ** Witnesses and deviations *)

Definition demo_world : World (list nat) unit := mkWorld {[ 1%nat := mkSession OPEN 1024 ]} [1%nat] tt 0 [].

Lemma json_message_witness :
  exists w' bufs F, send_json 1 demo_value demo_world = Some w' /\ log w' = [(1%nat, Uv_write 0 bufs)] /\
    WsParser.parse (fun _ (k : nat) => S k) (idle_st 0 false (WsFrame_init false) 0%nat) (concat bufs) =
      Some (SUCCESS, idle_st 0 false F 1%nat) /\ getJsonMessage (fun _ => 0) F = Message demo_value.
Proof.
  refine (proj1 (json_message (fun _ => 0) 1 demo_value demo_world (fun _ (k : nat) => S k) 0 (WsFrame_init false) 0%nat _ _ _ _ _)).
  - done.
  - unfold WsFrame_ok. cbn. lia.
  - reflexivity.
  - reflexivity.
  - vm_compute. discriminate.
Defined.

(** A client can end the process of a program that reads its messages as JSON. *)
Example malformed_message_aborts f :
  payload f = [QUOTE] ++ bs "a\x" ++ [QUOTE] -> getJsonMessage (fun _ => 0) f = Message_aborts.
Proof. unfold getJsonMessage, getStrMessage. by intros ->. Qed.
