(* ===== verification/Client.v ===== *)
(** * The test client (src/client.cpp)

    A blocking program: it connects, sends a request, and after every chunk it reads
    prints the chunk without carriage returns and sends the request again, until the
    server ends the connection.  The system calls answer from [Os]; what the program does
    is the log of its calls. *)

From S2P Require Import Prelude.

Definition SERVER_IP : bytes := bs "127.0.0.1".
Definition SERVER_PORT : Z := 8081.
Definition BUFFER_SIZE : nat := 1024.

(** The results of the system calls; reads and writes are numbered.  A read is given the
    count of bytes it may store, and gives an error ([None]), the end of the stream
    ([Some []]) or bytes. *)
Record Os := mkOs {
    socket_ret : Z;
    inet_pton_ret : Z;
    connect_ret : Z;
    write_ret : nat -> Z;
    read_ret : nat -> nat -> option bytes;
  }.

Inductive c_effect :=
  | C_printf (text : bytes)
  | C_perror (text : bytes)
  | C_connect (ip : bytes) (port : Z)
  | C_write (text : bytes)
  | C_close.

(** How the program ends: the status and the log; or an access outside of [buffer]. *)
Inductive ended :=
  | Exit (status : Z) (log : list c_effect)
  | Out_of_bounds
  | Still_running.

Definition EXIT_FAILURE : Z := 1.
Definition crlf : bytes := [13; 10].
Definition http_request : bytes :=
  bs "GET / HTTP/1.1" ++ crlf ++ bs "Host: 127.0.0.1:8081" ++ crlf ++ bs "Connection: keep-alive" ++ crlf ++ crlf.

(** [read] stores the bytes at the start of the buffer. *)
Definition fill (data buffer : bytes) : bytes := data ++ drop (length data) buffer.
(** The [for] loop over the first [n] bytes: one [printf] for each but [\r]. *)
Fixpoint print_loop (n : nat) (buffer : bytes) : option (list c_effect) :=
  match n with
  | O => Some []
  | S n' =>
      match print_loop n' buffer, buffer !! n' with
      | Some l, Some ch => Some (l ++ if ch =? 13 then [] else [C_printf [ch]])
      | _, _ => None
      end
  end.

(** One chunk: [buffer\[bytes_read\] = '\0'], then the loop. *)
Definition handle_chunk (data buffer : bytes) : option (list c_effect * bytes) :=
  if bool_decide (length data < BUFFER_SIZE)%nat then
    let buffer := <[length data := 0]> (fill data buffer) in
    match print_loop (length data) buffer with Some l => Some (l, buffer) | None => None end
  else None.

Section Client.
Context (os : Os).

Definition fail (text : bytes) (log : list c_effect) : ended := Exit EXIT_FAILURE (log ++ [C_perror text; C_close]).

(** The [while] loop from its [n]th round on, and the end of [main]. *)
Fixpoint read_loop (fuel : nat) (n : nat) (buffer : bytes) (log : list c_effect) : ended :=
  match fuel with
  | O => Still_running
  | S fuel' =>
      let finish log := Exit 0 (log ++ [C_printf (bs "
--- End of Response ---
"); C_close; C_printf (bs "Connection closed.
")]) in
      match read_ret os n (BUFFER_SIZE - 1) with
      | None => finish (log ++ [C_perror (bs "Read failed")])
      | Some [] => finish log
      | Some data =>
          match handle_chunk data buffer with
          | None => Out_of_bounds
          | Some (l, buffer) =>
              let log := log ++ l ++ [C_write http_request] in
              if write_ret os (S n) <? 0 then fail (bs "Failed to send request") log
              else read_loop fuel' (S n) buffer log
          end
      end
  end.

Definition main (fuel : nat) : ended :=
  let log := [C_printf (bs "http start
")] in
  if socket_ret os <? 0 then Exit EXIT_FAILURE (log ++ [C_perror (bs "Socket creation failed")])
  else if inet_pton_ret os <=? 0 then fail (bs "Invalid address/ Address not supported") log
  else
    let log := log ++ [C_connect SERVER_IP SERVER_PORT] in
    if connect_ret os <? 0 then fail (bs "Connection Failed") log
    else
      let log := log ++ [C_printf (bs "Successfully connected to server at 127.0.0.1:8081
"); C_printf http_request; C_write http_request] in
      if write_ret os 0 <? 0 then fail (bs "Failed to send request") log
      else
        read_loop fuel 0 (repeat 0 BUFFER_SIZE) (log ++ [C_printf (bs "HTTP request sent.

"); C_printf (bs "--- Server Response ---
")]).
End Client.

(** ** The buffer *)

Lemma print_loop_spec n buffer :
  (n <= length buffer)%nat ->
  print_loop n buffer = Some (map (fun ch => C_printf [ch]) (filter (fun ch => ch <> 13) (take n buffer))).
Proof.
  induction n as [|n IH]; intros Hn; [by rewrite take_0|]. cbn [print_loop]. rewrite IH by lia.
  destruct (lookup_lt_is_Some_2 buffer n) as [ch Hch]; [lia|]. rewrite Hch, (take_S_r _ _ _ Hch), filter_app, map_app.
  do 2 f_equal. rewrite filter_cons. destruct (Z.eqb_spec ch 13) as [->|Hne]; [done|]. by rewrite decide_True.
Qed.

Definition shown (data : bytes) : list c_effect := map (fun ch => C_printf [ch]) (filter (fun ch => ch <> 13) data).

Lemma handle_chunk_spec data buffer :
  (length data < BUFFER_SIZE)%nat -> length buffer = BUFFER_SIZE ->
  exists buffer', handle_chunk data buffer = Some (shown data, buffer') /\ length buffer' = BUFFER_SIZE.
Proof.
  intros Hd Hb. unfold handle_chunk. rewrite bool_decide_true by done.
  assert (length (<[length data:=0]> (fill data buffer)) = BUFFER_SIZE) as Hl.
  { unfold fill. rewrite length_insert, length_app, length_drop. lia. }
  rewrite print_loop_spec by (rewrite Hl; lia). eexists. split; [|exact Hl]. do 2 f_equal. unfold shown. do 2 f_equal.
  rewrite take_insert_ge by lia. unfold fill. by rewrite take_app_length.
Qed.

(** ** What the client does *)

(** [read(2)]: a read never stores more bytes than it was asked for. *)
Definition reads_bounded (os : Os) : Prop :=
  forall n count data, read_ret os n count = Some data -> (length data <= count)%nat.
(** The [n]th read, for as many bytes as the client asks. *)
Definition received (os : Os) (n : nat) : option bytes := read_ret os n 1023.
Definition stream_ends (os : Os) (n : nat) : Prop := received os n = None \/ received os n = Some [].

Definition exchange (data : bytes) : list c_effect := shown data ++ [C_write http_request].
Definition goodbye : list c_effect := [C_printf (bs "
--- End of Response ---
"); C_close; C_printf (bs "Connection closed.
")].

Section Spec.
Context (os : Os) (Hb : reads_bounded os).

(** One round: the loop goes on from the next read, or a failed write ends the program. *)
Lemma read_loop_round fuel n buffer log ch data :
  length buffer = BUFFER_SIZE -> received os n = Some (ch :: data) ->
  exists buffer', length buffer' = BUFFER_SIZE /\ read_loop os (S fuel) n buffer log =
    if write_ret os (S n) <? 0 then fail (bs "Failed to send request") (log ++ exchange (ch :: data))
    else read_loop os fuel (S n) buffer' (log ++ exchange (ch :: data)).
Proof.
  intros Hl Hr. destruct (handle_chunk_spec (ch :: data) buffer) as (buffer' & Hc & Hl'); [|done|].
  { pose proof (Hb n _ _ Hr). unfold BUFFER_SIZE in *. lia. }
  exists buffer'. split; [done|]. unfold received in Hr. cbn [read_loop]. change (BUFFER_SIZE - 1)%nat with 1023%nat. by rewrite Hr, Hc.
Qed.

Lemma read_loop_transcript ds : forall fuel n buffer log,
  length buffer = BUFFER_SIZE -> (length ds < fuel)%nat ->
  (forall k d, ds !! k = Some d -> d <> [] /\ received os (n + k) = Some d /\ 0 <= write_ret os (S (n + k))) ->
  received os (n + length ds) = Some [] ->
  read_loop os fuel n buffer log = Exit 0 (log ++ flat_map exchange ds ++ goodbye).
Proof.
  induction ds as [|d ds IH]; intros fuel n buffer log Hl Hf Hds Hend; (destruct fuel as [|fuel]; [cbn in Hf; lia|]).
  - cbn in Hend. rewrite Nat.add_0_r in Hend. unfold received in Hend. cbn [read_loop].
    change (BUFFER_SIZE - 1)%nat with 1023%nat. by rewrite Hend.
  - destruct (Hds O d eq_refl) as (Hne & Hr & Hw). rewrite Nat.add_0_r in Hr, Hw. destruct d as [|ch d]; [done|].
    destruct (read_loop_round fuel n buffer log ch d Hl Hr) as (buffer' & Hl' & ->).
    rewrite (proj2 (Z.ltb_ge _ 0)) by done. rewrite (IH fuel (S n)); [by cbn [flat_map]; rewrite <- !app_assoc|done|cbn in Hf; lia| |].
    + intros k d' Hk. replace (S n + k)%nat with (n + S k)%nat by lia. by apply Hds.
    + cbn [length] in Hend. by replace (S n + length ds)%nat with (n + S (length ds))%nat by lia.
Qed.

(** However the rounds go, the loop ends with the stream and closes the socket once. *)
Definition closes_of (l : list c_effect) : nat :=
  length (List.filter (fun e => match e with C_close => true | _ => false end) l).

Lemma closes_of_app l k : closes_of (l ++ k) = (closes_of l + closes_of k)%nat.
Proof. unfold closes_of. by rewrite List.filter_app, length_app. Qed.

Lemma closes_of_exchange data : closes_of (exchange data) = 0%nat.
Proof. unfold exchange, shown. rewrite closes_of_app. by induction (filter _ data). Qed.

Lemma read_loop_ends m : forall fuel n buffer log,
  length buffer = BUFFER_SIZE -> (m < fuel)%nat -> stream_ends os (n + m) ->
  exists status log', read_loop os fuel n buffer log = Exit status log' /\ closes_of log' = S (closes_of log).
Proof.
  induction m as [|m IH]; intros fuel n buffer log Hl Hf Hend; (destruct fuel as [|fuel]; [lia|]);
    (destruct (received os n) as [[|ch data]|] eqn:Er;
      [unfold received in Er; cbn [read_loop]; change (BUFFER_SIZE - 1)%nat with 1023%nat; rewrite Er; eexists _, _; split; [reflexivity|rewrite !closes_of_app; cbn; lia]
      |
      |unfold received in Er; cbn [read_loop]; change (BUFFER_SIZE - 1)%nat with 1023%nat; rewrite Er; eexists _, _; split; [reflexivity|rewrite !closes_of_app; cbn; lia]]).
  - rewrite Nat.add_0_r in Hend. destruct Hend; congruence.
  - destruct (read_loop_round fuel n buffer log ch data Hl Er) as (buffer' & Hl' & ->). destruct (write_ret os (S n) <? 0).
    + eexists _, _. split; [reflexivity|]. rewrite !closes_of_app, closes_of_exchange. cbn. lia.
    + destruct (IH fuel (S n) buffer' (log ++ exchange (ch :: data)) Hl') as (status & log' & -> & Hc); [lia| |].
      * by replace (S n + m)%nat with (n + S m)%nat by lia.
      * exists status, log'. split; [done|]. rewrite Hc, closes_of_app, closes_of_exchange. lia.
Qed.

(** What is logged when the connection is made. *)
Definition greeting : list c_effect :=
  [C_printf (bs "http start
"); C_connect SERVER_IP SERVER_PORT; C_printf (bs "Successfully connected to server at 127.0.0.1:8081
"); C_printf http_request; C_write http_request; C_printf (bs "HTTP request sent.

"); C_printf (bs "--- Server Response ---
")].
Definition connects : Prop := 0 <= socket_ret os /\ 0 < inet_pton_ret os /\ 0 <= connect_ret os.

(** C39. When the socket is made, the address is read and the connection is accepted, every
  write succeeds, and the reads, which ask for 1023 bytes and never store more than they ask
  for, give the chunks [ds] and the end of the stream, the client sends one request at first and one after each
  chunk, prints the bytes received without their carriage returns, however they were cut
  into chunks, closes the socket and succeeds; it never leaves its buffer. *)
Theorem client_transcript ds (Hc : connects) (Hw : 0 <= write_ret os 0)
    (Hds : forall k d, ds !! k = Some d -> d <> [] /\ received os k = Some d /\ 0 <= write_ret os (S k))
    (Hend : received os (length ds) = Some []) :
  main os (S (length ds)) = Exit 0 (greeting ++ flat_map exchange ds ++ goodbye) /\
  List.filter (fun e => match e with C_write _ => false | _ => true end) (flat_map exchange ds) = shown (concat ds).
Proof.
  destruct Hc as (Hs & Hp & Hcon). split.
  - unfold main. rewrite (proj2 (Z.ltb_ge (socket_ret os) 0)), (proj2 (Z.leb_gt (inet_pton_ret os) 0)),
      (proj2 (Z.ltb_ge (connect_ret os) 0)), (proj2 (Z.ltb_ge (write_ret os 0) 0)) by done.
    rewrite (read_loop_transcript ds); [done|by rewrite repeat_length|lia|done|done].
  - clear. unfold shown. induction ds as [|d ds IH]; [done|]. cbn [flat_map concat].
    rewrite List.filter_app, filter_app, map_app, <- IH. f_equal. unfold exchange, shown. rewrite List.filter_app. cbn.
    rewrite app_nil_r. clear. induction (filter (fun ch => ch <> 13) d) as [|ch l IH]; [done|]. cbn. by rewrite IH.
Qed.

(** C40. Whatever the system calls answer, as long as some read reports an error or the end
  of the stream the client ends, and it closes the socket exactly once when it got one. *)
Theorem client_ends m (Hm : stream_ends os m) :
  exists status log, main os (S m) = Exit status log /\
    closes_of log = if socket_ret os <? 0 then 0%nat else 1%nat.
Proof.
  unfold main. destruct (socket_ret os <? 0); [by eexists _, _|]. destruct (inet_pton_ret os <=? 0); [by eexists _, _|].
  destruct (connect_ret os <? 0); [by eexists _, _|]. destruct (write_ret os 0 <? 0); [by eexists _, _|].
  match goal with |- context [read_loop _ _ _ ?b ?l] =>
    destruct (read_loop_ends m (S m) 0 b l) as (status & log & -> & Hc); [by rewrite repeat_length|lia|done|] end.
  exists status, log. split; [done|]. by rewrite Hc.
Qed.
End Spec.

(** ** Witnesses *)

(** A server that answers twice, the second time in two chunks. *)
Definition demo_os : Os := mkOs 3 1 0 (fun _ => 64)
  (fun n count => take count <$> nth_error [bs "HTTP/1.1 200 OK"; [13; 10]; bs "hi"; []] n).

Lemma demo_bounded : reads_bounded demo_os.
Proof.
  intros n count data. unfold demo_os. cbn. destruct (nth_error _ n); [|done]. cbn. intros [= <-].
  rewrite length_take. lia.
Qed.

Lemma client_transcript_witness :
  main demo_os 4 = Exit 0 (greeting ++ flat_map exchange [bs "HTTP/1.1 200 OK"; [13; 10]; bs "hi"] ++ goodbye) /\
  List.filter (fun e => match e with C_write _ => false | _ => true end)
    (flat_map exchange [bs "HTTP/1.1 200 OK"; [13; 10]; bs "hi"]) = shown (concat [bs "HTTP/1.1 200 OK"; [13; 10]; bs "hi"]).
Proof.
  apply (client_transcript demo_os demo_bounded [bs "HTTP/1.1 200 OK"; [13; 10]; bs "hi"]).
  - repeat split; done.
  - done.
  - intros [|[|[|k]]] d; cbn; try (intros [= <-]; repeat split; done).
  - reflexivity.
Defined.

Lemma client_ends_witness :
  exists status log, main demo_os 4 = Exit status log /\ closes_of log = 1%nat.
Proof. apply (client_ends demo_os demo_bounded 3). by right. Defined.
