(* ===== verification/Main.v ===== *)
(** * The example server (src/main.cpp) and its client

    The routes and handlers of main.cpp on the model of the server, and the two programs
    of the repository together: the bytes client.cpp writes, read by the sessions of
    main.cpp's server. *)

From S2P Require Import Prelude LeptJson HttpTypes HttpExec HttpReq HttpRouter FileReader HttpResp HttpServer HttpService HttpListen.
From S2P Require Client.
From stdpp Require Import gmap.
#[local] Open Scope Z_scope.

(** ** The handlers *)

(** The static counter of the first handler, and what was written to [std::cout]. *)
Record App := mkApp { cnt : Z; out : bytes }.
Definition cout (l : list bytes) (a : App) : App := mkApp (cnt a) (out a ++ concat l ++ [10]).

Definition on_connect (client : nat) (a : App) : App := cout [bs "onConnect"] a.

Definition json_answer : lept_value :=
  lept_value_init [
    lept_value_init [L_string (bs "port"); L_integer 8080];
    lept_value_init [L_string (bs "ip"); L_string (bs "127.0.0.1")];
    lept_value_init [L_string (bs "author"); L_string (bs "away")]].

(** The handler of [/]; the counter is an [int] that is never reset. *)
Definition get_root (req : httpReq) (a : App) : App * list resp_call :=
  let a := cout [bs "onRequest"] a in
  let a := cout [bs "method "; http_method_str (method req)] a in
  let a := cout [bs "version "; version req] a in
  let a := cout [bs "onRequest url: "; url req] a in
  let a := cout [bs "onRequest body: "; body req] a in
  let calls :=
    if cnt a =? 2 then [Call_sendStr (bs "hello world")]
    else if cnt a =? 1 then [Call_sendJson (stringify json_answer)]
    else if cnt a =? 0 then [Call_respFile (bs "./index.html")]
    else [Call_sendStr (bs "hello world")] in
  (mkApp (i32 (cnt a + 1)) (out a), calls).

Section Main.
Context {RE : RegexEngine} (order : strmap -> list (bytes * bytes)).

(** The handler of [/id/:id]: the parameter, then the query. *)
Definition get_id (req : httpReq) (a : App) : App * list resp_call :=
  let a := cout [default [] (params req !! bs "id")] a in
  let a := match query req with
    | Some (q, _) => fold_left (fun a kv => cout [fst kv; bs " "; snd kv] a) (order q) a
    | None => a
    end in
  (a, [Call_sendStr (bs "connect")]).

(** [main] up to [start], which runs the loop. *)
Definition main_server (tcp_init : Z) (tcp_bind : sockaddr_in -> Z) (listen : Z -> Z) (SOMAXCONN : Z) : option (Server RE App) :=
  match create tcp_init tcp_bind listen SOMAXCONN (bs "127.0.0.1") None (mkApp 0 []) with
  | None => None
  | Some svr =>
      let svr := on_server (fun w => set_h_app (cout [bs "create http server"] (h_app w)) w) svr in
      let svr := onConnect on_connect svr in
      let svr := on_server (get (bs "/") get_root) svr in
      let svr := on_server (get (bs "/id/:id") get_id) svr in
      Some (start svr)
  end.
End Main.

(** ** The two programs together *)

(** A machine whose sockets work. *)
Definition main_started : Server mini_regex App :=
  match main_server map_to_list 0 (fun _ => 0) (fun _ => 0) 4096 with
  | Some s => s
  | None => mkServer [] 0 false None None (System_init httpRouter_init 0 false (mkApp 0 [])) []
  end.

Example main_listens : l_log main_started = [L_bind (mkAddr [127; 0; 0; 1] 8081); L_listen 4096; L_run].
Proof. vm_compute. reflexivity. Qed.

(** The client is accepted and its bytes arrive. *)
Definition accepted : Server mini_regex App := inter_on_connect 0 0 5 HTTP_GET 0 (Some (bs "127.0.0.1", 40000)) main_started.
Definition reads (s : System mini_regex App) (l : list bytes) : option (System mini_regex App) :=
  fold_left (fun o d => match o with
    | Some s => read (fun s => s) hex_encode map_to_list HTTP_MAX_HEADER_SIZE 5 (Some d) s
    | None => None
    end) l (Some s).

(** Four requests of the client: the file, the JSON text, then the greeting, and what the
    server prints meanwhile. *)
Example client_meets_server :
  match reads (sys accepted) (repeat Client.http_request 4) with
  | Some s =>
      match map snd (h_log (srv s)) with
      | [H_read_start; H_file_read 0 p; H_timer_stop; H_write 1 [_; t1]; H_timer_stop; H_write 2 [_; t2]; H_timer_stop; H_write 3 [_; t3]] =>
          p = bs "./index.html" /\ t1 = stringify json_answer /\ t2 = bs "hello world" /\ t3 = t2
      | _ => False
      end /\ cnt (h_app (srv s)) = 4
  | None => False
  end.
Proof. vm_compute. repeat split. Qed.

Example json_answer_text : json_answer =
  L_object [(bs "author", L_string (bs "away")); (bs "ip", L_string (bs "127.0.0.1")); (bs "port", L_integer 8080)].
Proof. reflexivity. Qed.

(** The route with a parameter prints no parameter: the last one is never set. *)
Example id_not_printed :
  match reads (sys accepted) [bs "GET /id/7?a=1 HTTP/1.1" ++ Client.crlf ++ Client.crlf] with
  | Some s => drop (length (out (h_app (srv (sys accepted))))) (out (h_app (srv s))) = [10] ++ bs "a 1" ++ [10]
  | None => False
  end.
Proof. vm_compute. reflexivity. Qed.

(** *** The answers of [/], one request after the other *)

Definition answer (k : nat) : list resp_call :=
  match k with
  | 0%nat => [Call_respFile (bs "./index.html")]
  | 1%nat => [Call_sendJson (stringify json_answer)]
  | _ => [Call_sendStr (bs "hello world")]
  end.
Fixpoint answers (reqs : list httpReq) (a : App) : list (list resp_call) :=
  match reqs with
  | [] => []
  | req :: reqs' => let '(a, cs) := get_root req a in cs :: answers reqs' a
  end.

Lemma root_answers reqs : forall k a, cnt a = Z.of_nat k -> Z.of_nat k + len reqs < 2 ^ 31 ->
  answers reqs a = map answer (seq k (length reqs)).
Proof.
  induction reqs as [|req reqs IH]; intros k a Hk Hl; [done|]. cbn [answers length seq map]. unfold get_root. cbv zeta.
  rewrite len_cons in Hl. pose proof (len_nonneg reqs). cbn [cout cnt]. f_equal.
  - rewrite Hk. destruct k as [|[|[|k]]]; [done..|]. by rewrite !(proj2 (Z.eqb_neq _ _)) by lia.
  - apply IH; [|lia]. cbn. unfold i32. rewrite Z.mod_small; lia.
Qed.
